(* ===== verification/_CoqProject ===== *)
-Q . S2P
Prelude.v
Effects.v
Process.v
Codec.v
Text.v
Errors.v
Primitives.v
Compare.v
Random.v
Validation.v
Padding.v
Kdf.v
Handler.v
Encryptor.v
Chain.v
Message.v
RatchetState.v
Session.v
SessionInvariant.v
SessionReceive.v
SessionSend.v
SessionRatchet.v
SessionInbox.v
SessionNetwork.v
SessionEdges.v
RateLimit.v
Group.v
X3dh.v
Bundle.v
Safety.v
KeyStore.v
Builder.v
Context.v
P2pHandshake.v
P2pNode.v
Transport.v
Server.v
ServerAuth.v
ServerPrekeys.v
ServerRelay.v
ServerRun.v
ServerFlood.v
ServerLives.v
Iot.v
Storage.v
Metadata.v
Router.v
FfiMemory.v
Ffi.v
FfiSafety.v
FfiProps.v
Wasm.v
KeyFiles.v
SecureMemory.v
Discovery.v
Metrics.v
