(* ===== verification/Prelude.v ===== *)
(** * Verification of the Sibna protocol core

    Sibna is an end-to-end encryption library: an X3DH handshake between
    published prekey bundles, a double-ratchet session for the messages of two
    parties, sender-key groups, and the checks around them (input validation,
    padding, replay detection, rate limiting, safety numbers); around it a
    peer-to-peer layer, a store on disk, a router, a C interface and a relay
    server.  This
    library models the Rust crates [core] (in its default build, with the
    post-quantum layer, and with the [p2p] feature) and [server] of the
    repository, and proves their components correct.

    ** The program and the files that model it

    The layers, from the bottom up.  A file is named after its component; its
    definitions keep the names of the code, prefixed with the type where Rust
    would qualify them ([Encryptor::new] is [Encryptor_new]).

    - [Prelude]: bytes, machine integers at their widths, little-endian codecs,
      slices, the shared tactics and hint databases.
    - [Effects]: results with panics, the environment (clocks and the operating
      system's random bytes) and the state monad [M] for [&mut self] methods,
      with Hoare-style preservation lemmas ([leads], [triple]).
    - [Process]: programs that send and receive on framed streams, whose codec
      limits the frames ([wrap_stream] of [p2p/transport.rs]), and two of them
      joined ([duo]); [Codec]: serialisers as a class with its laws, and the legacy
      format of [bincode]; [Text]: UTF-8, hexadecimal and decimal text.
    - [Errors]: the error enumerations ([core/src/error.rs] and the error types of
      [crypto], [validation] and [handshake]) and the [From] conversions.
    - [Primitives]: the external cryptographic crates as the class [Primitives]
      with their documented behaviour as [PrimitiveLaws]; [toy] is a concrete
      instance of both.
    - [Compare], [Random], [Padding], [Kdf], [Handler], [Encryptor]: the modules
      of [core/src/crypto].  [Encryptor] (replay detection, streams) calls
      [Handler] and [Random].
    - [Validation]: [core/src/validation.rs].
    - [Chain], [Message], [RatchetState], [Session]: [core/src/ratchet], that is
      [chain.rs], [mod.rs], [state.rs] and [session.rs].  A session owns a state,
      a state owns a sending and a receiving chain and the skipped keys, and a
      message key from a chain keys one [Encryptor].  [Config] is from [lib.rs].
    - [SessionInvariant], [SessionReceive], [SessionSend], [SessionRatchet],
      [SessionInbox], [SessionNetwork], [SessionEdges]: theorems about [Session];
      [SessionNetwork] has two sessions and the messages in flight between them
      as one machine.
    - [RateLimit]: [core/src/rate_limit.rs].
    - [Group]: [core/src/group/mod.rs].
    - [X3dh], [Bundle], [Metrics]: [core/src/handshake/x3dh.rs] and [mod.rs];
      [Metrics] has the statistics, with [f64] as binary floating-point numbers.
    - [Safety]: [core/src/safety.rs].
    - [KeyStore]: [core/src/keystore/mod.rs], identity keys, prekeys, pinned peers
      and the sealed store.
    - [Builder]: [core/src/handshake/builder.rs], a handshake run on a key store.
    - [Context]: [core/src/lib.rs], the [SecureContext] that owns the key store,
      the sessions, the groups and the rate limiter and whose methods call the
      other components.
    - [P2pHandshake], [P2pNode], [Transport]: [core/src/p2p], the handshake of two
      nodes over frames ([handshake.rs]), nodes and their peers ([node.rs],
      [peer.rs]) and dialling, directly or through SOCKS5 ([transport.rs]).
    - [Storage]: [core/src/storage.rs] with [save_to_disk] and [load_from_disk]:
      the files of a store, each file operation one step that may fail or be the
      last, an interrupted write leaving any part of its bytes.  [KeyFiles]: the
      salt file of a context and the file of a key store ([lib.rs],
      [keystore/mod.rs]) over the same operations.
    - [Metadata], [Iot]: [core/src/metadata.rs] and [core/src/iot.rs].
    - [Router]: [core/src/manager.rs], [core/src/transport/relay.rs] and
      [core/src/media/mod.rs], the router over peers and relay.  [Discovery]:
      [core/src/p2p/discovery.rs] and [nat.rs], what nodes announce and find, which
      feeds the router's discovery loop.
    - [SecureMemory]: [core/src/crypto/secure_memory.rs], pinned buffers over the
      pages of the kernel.
    - [FfiMemory], [Ffi]: [core/src/ffi/mod.rs], the C interface on a memory of
      allocations that the caller and the library share; a pointer that is not
      valid for an access leads to the outcome [Undefined].  [FfiSafety] and
      [FfiProps]: theorems about it.  [Wasm]: [core/src/wasm.rs], the functions of
      a page over the context in its thread-local cell.
    - [Server], [ServerAuth], [ServerPrekeys], [ServerRelay], [ServerRun],
      [ServerFlood], [ServerLives]: the crate [server]; its state (database, limiter, connected clients), the login
      ([auth.rs]), the prekey directory ([main.rs]), the relay and its queues
      ([ws.rs]), the routes and runs of the whole server, and its lives: [main] and
      [run_server] on the databases of a disk.  [Router] is proved against
      [ServerRun.route].

    ** Conventions

    A fallible function returns [Res E A]: [Ok], [Err] or [Panic], where [Panic]
    stands for an arithmetic overflow (the workspace sets [overflow-checks] in
    every profile), an index out of bounds or a failed [expect].  Functions that
    read a clock or draw randomness are in [IO]; the [i]-th reading is a function
    of the environment, and a theorem that needs the clock to be sane says so
    ([clock_in], [sane_clock], [windows]).  A method with [&mut self] is in [M]
    and returns its state next to the result, also after an early return, so
    what an error leaves behind is part of the model.  The locks of the code
    ([RwLock]) protect one object per method call, so a method is one atomic
    step; interleavings of calls are sequences of steps ([session_step],
    [enc_step], [group_step], [rl_op], [ks_step], [ctx_step], the events of
    [ServerRun.run] and of [SessionNetwork.run]); a handler of the server is one such step.  Loops without a structural measure take
    fuel: [skip_loop] and [sk_skip_to] get the distance they have to cover,
    [fill_chunks], [encrypt_chunks], [decrypt_chunks] and [parse_loop] the number of
    chunks of their input (each round consumes at least one byte), and the
    theorems about them show that the fuel is enough; only [gen_range]
    (and [shuffle], [random_alphanumeric] over it) and [generate_key], which retry
    until the random source delivers, return [None] when the given fuel runs out.
    [lock_loop] polls every 50 ms for 30 seconds: its 601 rounds are enough for
    any clock that advances with the sleeps ([polls]).

    ** What is proved

    - Sessions, end to end ([SessionSend.conversation_delivers]): two sessions on
      one shared secret, any number of messages within the limits, delivered in
      any order and with losses: [decrypt] returns exactly what was sent, and
      refuses everything delivered twice.  The receiving half is a refinement
      ([SessionReceive.receive_refines_window]) of the abstract delivery window
      [SessionReceive.Window].  The DH ratchet step
      ([SessionRatchet.ratchet_message_accepted]) re-establishes the
      relation between both sides and keeps the outstanding keys of the old
      chain.  Over an arbitrary network ([SessionNetwork.network_delivers]) both
      sides send and receive in any interleaving, messages cross, overtake each
      other and arrive any number of DH steps late, and still every [decrypt]
      returns what the [encrypt] was given; no session stores more keys than
      messages are in flight to it.
    - Session safety: an invariant over all interleavings of operations on
      arbitrary bytes, no effect of rejected input, what persistence keeps, and
      the limits of a restored session.
    - Handshake: both X3DH sides compute the secret of the protocol definition
      ([X3dh.x3dh_agreement]), bundles survive their byte format and
      validate for thirty days, validation implies all signatures, roles are
      complementary, safety numbers agree.
    - Key store: a pinned key stays pinned and only that key is let through, a
      one-time prekey is served at most once after it is marked, a new device
      publishes a bundle that others accept, and what a sealed store keeps.
    - The context: a handshake that returns is authenticated and pairs its
      session with the responder's key agreement
      ([Context.handshake_authenticated], [Context.handshake_pairs_sessions]);
      between paired sessions [encrypt_message] and [decrypt_message] deliver
      ([Context.context_message_delivered]), cover traffic included.
    - Message encryption: round trips of [CryptoHandler], [Encryptor], streams,
      padding and wire formats; replays are never accepted; the parsers do not
      panic.
    - Chains and key derivation: a chain yields the specified key sequence.
    - Rate limiter: at most twice the limit in any window, cooldowns hold, and
      the overflow after a long pause.
    - Groups: membership invariant, removal, delivery with losses.
    - Peers: two nodes that dial each other complete the handshake in a bounded
      number of steps ([P2pNode.p2p_connection_completes]) and then deliver
      messages, as long as the frames are within the limits of both streams
      ([P2pNode.p2p_message_delivered]); a configured proxy is never bypassed, and a SOCKS5 exchange
      succeeds exactly on the replies it should.
    - The server: a token needs a signed, fresh challenge, and a correct login
      succeeds; a fetch returns only validated bundles and consumes them; an
      accepted message stays queued through any events that do not reach its
      recipient, and is delivered when the recipient connects
      ([ServerRun.accepted_message_is_delivered]), also in a later life of the
      server, whatever lives lie between ([ServerLives.message_survives_restarts]);
      tokens live as long as the configured secret
      ([ServerLives.tokens_survive_restarts]); of a flood from one address a
      bounded number of requests per window reaches the routes of authentication
      and prekeys ([ServerFlood.ip_flood_is_bounded]); what a sender signs
      determines the fields.
    - The store: a context saved and loaded with its password is the same up to
      what [serde] skips ([Storage.context_survives_restart]); what a save that
      fails or is killed at any file operation leaves behind
      ([Storage.interrupted_save]).  The salt file and the key store file
      are replaced atomically, torn writes included
      ([KeyFiles.salt_file_is_whole], [KeyFiles.keystore_save_is_atomic]).
    - The router: discovery keeps its limits against any announcements, dials
      only others ([Discovery.discovery_dials_only_others]) and connects to a node
      that is announced ([Discovery.announced_node_is_connected]).
    - The C interface: a call within the contract of its pointers never runs into
      undefined behaviour and writes nothing but its outputs
      ([FfiSafety.ffi_call_is_safe]), memory keeps its types through programs of
      calls ([FfiSafety.memory_keeps_its_types]), and encrypting, decrypting and
      freeing through it returns the plaintext and leaks no allocation.
    - Pinned buffers: a buffer that says it is locked is pinned, as long as no
      two share a page, and what is given back is zero.
    - Serial frames: round trip, and every change of one byte is detected.

    Some theorems and examples record what the code does against its intent
    ([SessionEdges], [RateLimit.long_idle_panics], [Group.group_replay_desyncs],
    [Builder.responder_never_completes], [Context.strict_mode_locked],
    [P2pHandshake.impostor_is_accepted], [Storage.rollback_is_accepted],
    [Storage.loaded_session_is_dead], [ServerPrekeys.resort_bundles_can_be_drained],
    [ServerRun.message_id_can_be_burned], [Router.only_direct_sends_succeed],
    [FfiProps.c_interface_has_no_sessions], [Wasm.page_has_no_sessions], [KeyFiles.restart_keeps_first_salt],
    [SecureMemory.neighbour_is_unpinned], [Discovery.wildcard_is_not_dialled]).

    No security assumption on the primitives is made or used: the theorems are
    about what the code computes, not about what an adversary can.

    ** Not modelled

    Sockets, the mDNS daemon and the UPnP gateway, the web framework (TLS, CORS,
    body limits, timeouts) and the database engine under the server are outside
    the model or parameters of it, and so is timing; a life of the server ends
    between two events, not inside a handler.  The WebAssembly bindings
    ([core/src/wasm.rs]) do not compile for their target, because they call
    [SecureContext::new] with one argument: in [Wasm] that constructor is a
    parameter.  The SDKs ([sdks]) are programs in other languages.  The C
    interface is modelled for one thread.  Random delays and debug output are
    omitted.  The theorems on delivery ([SessionNetwork.network_delivers] and
    those of [SessionSend], [SessionReceive], [SessionRatchet], [Context] and
    [P2pNode]) are about plain headers (the default; with encrypted headers
    [SessionEdges.sealed_headers_need_order] refutes them), messages that arrive
    within the time window of the code, and chains that are not due for rotation,
    which [SessionEdges.second_rotation_desyncs] shows to be necessary. *)

From Stdlib Require Export Strings.Byte Strings.String.
From stdpp Require Export base gmap strings list fin_maps numbers sorting.

Declare Scope sibna_scope.
Delimit Scope sibna_scope with sibna.
#[local] Open Scope Z_scope.

(** ** Bytes

    A [u8] is the standard library's [byte]; the arithmetic reading of a byte
    is [b2z], and [z2b] is the truncating cast [as u8]. *)

Abbreviation u8 := Byte.byte.
Abbreviation bytes := (list Byte.byte).

Definition b2z (b : u8) : Z := Z.of_N (Byte.to_N b).
Definition z2b (z : Z) : u8 :=
  match Byte.of_N (Z.to_N (z mod 256)) with Some b => b | None => x00 end.

#[global] Instance byte_eq_dec : EqDecision u8.
Proof.
  intros a b. destruct (Byte.eqb a b) eqn:E.
  - left. by apply Byte.byte_dec_bl.
  - right. intros ->. by rewrite Byte.byte_dec_lb in E.
Defined.

#[global] Program Instance byte_countable : Countable u8 := {|
  encode b := encode (Byte.to_N b);
  decode p := n ← decode p; Byte.of_N n |}.
Next Obligation. intros b. simpl. rewrite decode_encode. simpl. apply Byte.of_to_N. Qed.

#[global] Instance byte_inhabited : Inhabited u8 := populate x00.

Lemma b2z_range b : 0 <= b2z b < 256.
Proof. unfold b2z. pose proof (Byte.to_N_bounded b). lia. Qed.

Lemma z2b_b2z b : z2b (b2z b) = b.
Proof.
  unfold z2b. rewrite Z.mod_small by apply b2z_range.
  unfold b2z. by rewrite N2Z.id, Byte.of_to_N.
Qed.

Lemma b2z_z2b z : b2z (z2b z) = z mod 256.
Proof.
  unfold z2b. assert (0 <= z mod 256 < 256) by (apply Z.mod_pos_bound; lia).
  destruct (Byte.of_N _) as [b|] eqn:E.
  - apply Byte.to_of_N in E. unfold b2z. rewrite E. lia.
  - apply Byte.of_N_None_iff in E. lia.
Qed.

Lemma b2z_z2b_small z : 0 <= z < 256 -> b2z (z2b z) = z.
Proof. intros. rewrite b2z_z2b. apply Z.mod_small. lia. Qed.

Lemma b2z_inj a b : b2z a = b2z b -> a = b.
Proof. intros H. rewrite <- (z2b_b2z a), <- (z2b_b2z b). by f_equal. Qed.

(** The bytes of an ASCII literal [b"..."]. *)
Definition bstr (s : String.string) : bytes := String.list_byte_of_string s.

(** ** Machine integers

    Unsigned integers are [Z]; the width is written out where it matters.  The
    workspace builds every profile with [overflow-checks = true], so [+], [-]
    and [*] panic when they leave the type: see [u_add] and friends below,
    which return [None] in that case. *)

Definition U8_MAX : Z := 255.
Definition U32_MAX : Z := 4294967295.
Definition U64_MAX : Z := 18446744073709551615.
(** [usize] on the 64-bit targets the crate ships for. *)
Definition USIZE_MAX : Z := U64_MAX.

Definition in_u (max z : Z) : Prop := 0 <= z <= max.
Abbreviation is_u32 := (in_u U32_MAX).
Abbreviation is_u64 := (in_u U64_MAX).

#[global] Instance in_u_dec max z : Decision (in_u max z).
Proof. unfold in_u. apply _. Defined.

Definition u_add (max a b : Z) : option Z :=
  if a + b <=? max then Some (a + b) else None.
Definition u_sub (a b : Z) : option Z :=
  if b <=? a then Some (a - b) else None.
Definition u_mul (max a b : Z) : option Z :=
  if a * b <=? max then Some (a * b) else None.
Definition sat_add (max a b : Z) : Z := Z.min max (a + b).
Definition sat_sub (a b : Z) : Z := Z.max 0 (a - b).

Lemma u_add_ok max a b : a + b <= max -> u_add max a b = Some (a + b).
Proof. intros. unfold u_add. destruct (Z.leb_spec (a + b) max); [done | lia]. Qed.

Lemma u_sub_ok a b : b <= a -> u_sub a b = Some (a - b).
Proof. intros. unfold u_sub. destruct (Z.leb_spec b a); [done | lia]. Qed.

Lemma u_mul_ok max a b : a * b <= max -> u_mul max a b = Some (a * b).
Proof. intros. unfold u_mul. destruct (Z.leb_spec (a * b) max); [done | lia]. Qed.

(** *** Little-endian encodings ([to_le_bytes] and [from_le_bytes]) *)

Fixpoint to_le (n : nat) (z : Z) : bytes :=
  match n with
  | O => []
  | S k => z2b z :: to_le k (z / 256)
  end.

Fixpoint from_le (l : bytes) : Z :=
  match l with
  | [] => 0
  | b :: t => b2z b + 256 * from_le t
  end.

Abbreviation u64_le := (to_le 8).
Abbreviation u32_le := (to_le 4).

Lemma length_to_le n z : length (to_le n z) = n.
Proof. revert z. induction n; intros; simpl; [done | by rewrite IHn]. Qed.

Lemma from_to_le n z : from_le (to_le n z) = z mod 256 ^ Z.of_nat n.
Proof.
  revert z. induction n as [|n IH]; intros z; simpl to_le; simpl from_le.
  - by rewrite Z.mod_1_r.
  - rewrite IH, b2z_z2b, Nat2Z.inj_succ, Z.pow_succ_r by lia.
    symmetry. apply Z.rem_mul_r; [lia | apply Z.pow_pos_nonneg; lia].
Qed.

Lemma from_le_bound l : 0 <= from_le l < 256 ^ Z.of_nat (length l).
Proof.
  induction l as [|b l IH]; simpl from_le; simpl length; [simpl; lia|].
  rewrite Nat2Z.inj_succ, Z.pow_succ_r by lia.
  pose proof (b2z_range b). nia.
Qed.

Lemma to_from_le l : to_le (length l) (from_le l) = l.
Proof.
  induction l as [|b l IH]; simpl; [done|].
  pose proof (b2z_range b).
  assert (E1 : (b2z b + 256 * from_le l) / 256 = from_le l)
    by (rewrite Z.mul_comm, Z.div_add by lia; rewrite Z.div_small by lia; lia).
  assert (E2 : z2b (b2z b + 256 * from_le l) = b).
  { apply b2z_inj. rewrite b2z_z2b, (Z.mul_comm 256), Z_mod_plus_full.
    by apply Z.mod_small. }
  by rewrite E1, E2, IH.
Qed.

Lemma from_le_u64 z : is_u64 z -> from_le (u64_le z) = z.
Proof. intros []. rewrite from_to_le. apply Z.mod_small. unfold U64_MAX in *. lia. Qed.

Lemma from_le_u32 z : is_u32 z -> from_le (u32_le z) = z.
Proof. intros []. rewrite from_to_le. apply Z.mod_small. unfold U32_MAX in *. lia. Qed.

Lemma from_le_is_u64 l : length l = 8%nat -> is_u64 (from_le l).
Proof. intros H. pose proof (from_le_bound l) as B. rewrite H in B. unfold in_u, U64_MAX. lia. Qed.

Lemma from_le_is_u32 l : length l = 4%nat -> is_u32 (from_le l).
Proof. intros H. pose proof (from_le_bound l) as B. rewrite H in B. unfold in_u, U32_MAX. lia. Qed.

(** *** Big-endian encodings *)

Definition to_be (n : nat) (z : Z) : bytes := rev (to_le n z).
Definition from_be (l : bytes) : Z := from_le (rev l).
Abbreviation u64_be := (to_be 8).

Lemma length_to_be n z : length (to_be n z) = n.
Proof. unfold to_be. by rewrite length_rev, length_to_le. Qed.

Lemma from_to_be n z : from_be (to_be n z) = z mod 256 ^ Z.of_nat n.
Proof. unfold from_be, to_be. rewrite rev_involutive. apply from_to_le. Qed.

(** Combining a low byte with a shifted high part by [|] is addition. *)
Lemma lor_shiftl_8 lo hi : 0 <= lo < 256 -> Z.lor lo (Z.shiftl hi 8) = lo + 256 * hi.
Proof.
  intros H. assert (Hd : Z.land lo (Z.shiftl hi 8) = 0).
  { apply Z.bits_inj'. intros n Hn. rewrite Z.land_spec, Z.bits_0, Z.shiftl_spec by lia.
    destruct (Z.lt_ge_cases n 8).
    - rewrite (Z.testbit_neg_r hi) by lia. apply andb_false_r.
    - replace lo with (lo mod 2 ^ 8) by (apply Z.mod_small; lia).
      by rewrite Z.mod_pow2_bits_high by lia. }
  rewrite <- Z.lxor_lor, <- Z.add_nocarry_lxor by done.
  rewrite Z.shiftl_mul_pow2 by lia. lia.
Qed.

(** ** Slices

    [slice i j l] is [&l[i..j]]; it is [None] where the Rust index panics. *)

Definition slice (i j : nat) (l : bytes) : option bytes :=
  if bool_decide (i <= j)%nat && bool_decide (j <= length l)%nat
  then Some (take (j - i) (drop i l)) else None.

(** The number of bytes of a slice, as the [usize] that [len()] returns. *)
Definition len {A} (l : list A) : Z := Z.of_nat (length l).

Lemma len_nonneg {A} (l : list A) : 0 <= len l.
Proof. unfold len. lia. Qed.

Lemma len_app {A} (l k : list A) : len (l ++ k) = len l + len k.
Proof. unfold len. rewrite length_app. lia. Qed.

Lemma len_nil_iff {A} (l : list A) : len l = 0 <-> l = [].
Proof. unfold len. destruct l; simpl; split; intros; try done; lia. Qed.

Lemma slice_ok i j l :
  (i <= j)%nat -> (j <= length l)%nat -> slice i j l = Some (take (j - i) (drop i l)).
Proof. intros. unfold slice. by rewrite !bool_decide_eq_true_2 by done. Qed.

Lemma slice_length i j l s : slice i j l = Some s -> length s = (j - i)%nat.
Proof.
  unfold slice. case_bool_decide; [|done]. case_bool_decide; [|done].
  intros [= <-]. rewrite length_take, length_drop. lia.
Qed.

(** Reading a field that follows a prefix of known length. *)
Lemma take_drop_app (n : nat) (p x r : bytes) :
  length p = n -> take (length x) (drop n (p ++ x ++ r)) = x.
Proof. intros <-. rewrite drop_app_length. by rewrite take_app_length. Qed.

Lemma slice_mid i j (p x r : bytes) :
  length p = i -> length x = (j - i)%nat -> (i <= j)%nat ->
  slice i j (p ++ x ++ r) = Some x.
Proof.
  intros Hp Hx Hij. rewrite slice_ok; [|done|rewrite !length_app; lia].
  f_equal. rewrite <- Hx. by apply take_drop_app.
Qed.

Lemma slice_prefix j (x r : bytes) : length x = j -> slice 0 j (x ++ r) = Some x.
Proof. intros Hx. apply (slice_mid 0 j []); simpl; lia. Qed.

(** [iter().all(|&b| b == 0)]. *)
Definition all_zero (l : bytes) : bool := forallb (fun b => Byte.eqb b x00) l.

(** The zero array [[0u8; n]]. *)
Definition zeros (n : nat) : bytes := replicate n x00.

Lemma length_zeros n : length (zeros n) = n.
Proof. apply length_replicate. Qed.

Lemma byte_eqb_eq a b : Byte.eqb a b = true <-> a = b.
Proof. split; [apply Byte.byte_dec_bl | apply Byte.byte_dec_lb]. Qed.

Lemma all_zero_spec l : all_zero l = true <-> l = zeros (length l).
Proof.
  unfold all_zero, zeros. induction l as [|b l IH]; simpl; [done|].
  rewrite andb_true_iff, byte_eqb_eq, IH. split.
  - intros [-> H]. by f_equal.
  - intros [= H1 H2]. by rewrite <- H2.
Qed.

(** ** Automation *)

#[global] Arguments to_le : simpl never.
#[global] Arguments from_le : simpl never.
#[global] Arguments zeros : simpl never.
#[global] Arguments slice : simpl never.

Create HintDb sibna.
Create Rewrite HintDb sibna_len.
#[export] Hint Resolve b2z_range len_nonneg length_to_le length_zeros : sibna.
#[export] Hint Rewrite @length_app length_to_le length_zeros @length_replicate
  @length_take @length_drop : sibna_len.

(** Length goals over concatenated byte strings. *)
Ltac len_solve := unfold len in *; autorewrite with sibna_len in *; simpl in *; lia.

(** Case analysis on the boolean tests of a guard, keeping the comparison. *)
Ltac split_guard :=
  match goal with
  | |- context [if ?a <? ?b then _ else _] => destruct (Z.ltb_spec a b)
  | |- context [if ?a <=? ?b then _ else _] => destruct (Z.leb_spec a b)
  | |- context [if ?a =? ?b then _ else _] => destruct (Z.eqb_spec a b)
  | |- context [if negb ?a then _ else _] => destruct a eqn:?; simpl negb
  | |- context [if ?a then _ else _] => destruct a eqn:?
  end.

Ltac split_guard_in H :=
  match type of H with
  | context [if ?a <? ?b then _ else _] => destruct (Z.ltb_spec a b)
  | context [if ?a <=? ?b then _ else _] => destruct (Z.leb_spec a b)
  | context [if ?a =? ?b then _ else _] => destruct (Z.eqb_spec a b)
  | context [if negb ?a then _ else _] => destruct a eqn:?; simpl negb in H
  | context [if ?a then _ else _] => destruct a eqn:?
  end.
