(* ===== verification/Effects.v ===== *)
(** * Effects of the Rust code

    Results with panics, the clock and the operating system's random source,
    and the two small monads the component files are written in:

    - [Res E A]: a pure fallible computation, [Ok], [Err] or [Panic];
    - [IO E A]: one that also reads the clocks and draws random bytes;
    - [M S E A]: a method with [&mut self] of type [S]; the state is returned
      next to the result, so what an early return leaves behind is visible. *)

From S2P Require Import Prelude.
#[local] Open Scope Z_scope.

(** ** Results *)

Inductive Res (E A : Type) : Type :=
| Ok (a : A)
| Err (e : E)
| Panic.
Arguments Ok {E A} a.
Arguments Err {E A} e.
Arguments Panic {E A}.

Definition res_bind {E A B} (r : Res E A) (k : A -> Res E B) : Res E B :=
  match r with Ok a => k a | Err e => Err e | Panic => Panic end.

Definition map_err {E F A} (f : E -> F) (r : Res E A) : Res F A :=
  match r with Ok a => Ok a | Err e => Err (f e) | Panic => Panic end.

(** [Option::ok_or]. *)
Definition ok_or {E A} (o : option A) (e : E) : Res E A :=
  match o with Some a => Ok a | None => Err e end.

(** An expression that panics: checked arithmetic, slice indexing, [expect]. *)
Definition or_panic {E A} (o : option A) : Res E A :=
  match o with Some a => Ok a | None => Panic end.

(** An early return [if b { return Err(e) }]. *)
Definition ensure {E} (b : bool) (e : E) : Res E unit := if b then Ok tt else Err e.

Definition is_ok {E A} (r : Res E A) : bool := match r with Ok _ => true | _ => false end.
Definition is_err {E A} (r : Res E A) : bool := match r with Err _ => true | _ => false end.
Definition is_panic {E A} (r : Res E A) : bool := match r with Panic => true | _ => false end.

Notation "'let?' x := m 'in' k" := (res_bind m (fun x => k))
  (at level 10, x pattern, m at level 99, k at level 200) : sibna_scope.

(** ** The environment

    [e_clock i] is the [i]-th reading of [SystemTime::now().duration_since
    (UNIX_EPOCH)], in nanoseconds, [None] when the clock is before the epoch;
    [e_instant i] the [i]-th reading of [Instant::now()]; [e_os i] the [i]-th
    byte the operating system's generator delivers; [e_pid] the process id.
    [Ctr] counts what has been consumed.  No order between readings is assumed:
    theorems that need one state it. *)

Record Env := mkEnv {
  e_clock : nat -> option Z;
  e_instant : nat -> Z;
  e_os : nat -> u8;
  e_pid : Z
}.

Record Ctr := mkCtr { c_clock : nat; c_instant : nat; c_os : nat }.

Definition ctr0 : Ctr := mkCtr 0 0 0.

Definition IO (E A : Type) : Type := Env -> Ctr -> Res E A * Ctr.

Definition io_ret {E A} (a : A) : IO E A := fun _ c => (Ok a, c).
Definition io_res {E A} (r : Res E A) : IO E A := fun _ c => (r, c).
Definition io_bind {E A B} (m : IO E A) (k : A -> IO E B) : IO E B := fun env c =>
  match m env c with
  | (Ok a, c') => k a env c'
  | (Err e, c') => (Err e, c')
  | (Panic, c') => (Panic, c')
  end.
Definition io_map_err {E F A} (f : E -> F) (m : IO E A) : IO F A := fun env c =>
  let '(r, c') := m env c in (map_err f r, c').

(** Run [m] and hand its outcome to the caller, as [if let Ok(..)],
    [unwrap_or] and [match] do. *)
Definition io_try {E F A} (m : IO E A) : IO F (Res E A) := fun env c =>
  let '(r, c') := m env c in
  match r with Panic => (Panic, c') | _ => (Ok r, c') end.

Notation "'let*' x := m 'in' k" := (io_bind m (fun x => k))
  (at level 10, x pattern, m at level 99, k at level 200) : sibna_scope.

(** ** Methods with [&mut self] *)

Definition M (S E A : Type) : Type := Env -> S -> Ctr -> Res E A * S * Ctr.

Definition ret {S E A} (a : A) : M S E A := fun _ s c => (Ok a, s, c).
Definition bind {S E A B} (m : M S E A) (k : A -> M S E B) : M S E B := fun env s c =>
  match m env s c with
  | (Ok a, s', c') => k a env s' c'
  | (Err e, s', c') => (Err e, s', c')
  | (Panic, s', c') => (Panic, s', c')
  end.
Definition lift {S E A} (m : IO E A) : M S E A := fun env s c =>
  let '(r, c') := m env c in (r, s, c').
Definition res {S E A} (r : Res E A) : M S E A := fun _ s c => (r, s, c).
Definition get {S E} : M S E S := fun _ s c => (Ok s, s, c).
Definition put {S E} (s : S) : M S E unit := fun _ _ c => (Ok tt, s, c).
Definition modify {S E} (f : S -> S) : M S E unit := fun _ s c => (Ok tt, f s, c).

Notation "'let!' x := m 'in' k" := (bind m (fun x => k))
  (at level 10, x pattern, m at level 99, k at level 200) : sibna_scope.

(** Run a method on a local copy of its object: [let mut x = s; x.m()]. *)
Definition run_on {S E A} (m : M S E A) (s : S) : IO E (A * S) := fun env c =>
  match m env s c with
  | (Ok a, s', c') => (Ok (a, s'), c')
  | (Err e, _, c') => (Err e, c')
  | (Panic, _, c') => (Panic, c')
  end.

(** A method call on a field: [self.field.m()]. *)
Definition zoom {S T E A} (proj : S -> T) (upd : T -> S -> S) (m : M T E A) : M S E A :=
  fun env s c => let '(r, t, c') := m env (proj s) c in (r, upd t s, c').

Definition m_map_err {S E F A} (f : E -> F) (m : M S E A) : M S F A := fun env s c =>
  let '(r, s', c') := m env s c in (map_err f r, s', c').

(** [match self.m() { .. }]: the outcome as a value. *)
Definition m_try {S E F A} (m : M S E A) : M S F (Res E A) := fun env s c =>
  let '(r, s', c') := m env s c in
  match r with Panic => (Panic, s', c') | _ => (Ok r, s', c') end.

(** ** Clocks *)

Definition NANOS : Z := 1000000000.

(** [SystemTime::now().duration_since(UNIX_EPOCH)]: one reading, in nanoseconds. *)
Definition read_clock {E} : IO E (option Z) := fun env c =>
  (Ok (e_clock env (c_clock c)), mkCtr (S (c_clock c)) (c_instant c) (c_os c)).

(** One reading in whole seconds ([as_secs]). *)
Definition read_secs {E} : IO E (option Z) := fun env c =>
  (Ok (option_map (fun ns => ns / NANOS) (e_clock env (c_clock c))),
   mkCtr (S (c_clock c)) (c_instant c) (c_os c)).

(** The readings that fall back to [Duration::from_secs(u64::MAX / 2)]. *)
Definition read_secs_or_far {E} : IO E Z := fun env c =>
  (Ok (from_option (fun ns => ns / NANOS) (U64_MAX / 2) (e_clock env (c_clock c))),
   mkCtr (S (c_clock c)) (c_instant c) (c_os c)).

Definition read_instant {E} : IO E Z := fun env c =>
  (Ok (e_instant env (c_instant c)), mkCtr (c_clock c) (S (c_instant c)) (c_os c)).

(** [OsRng.fill_bytes] on a buffer of [n] bytes. *)
Definition os_bytes {E} (n : nat) : IO E bytes := fun env c =>
  (Ok (map (e_os env) (seq (c_os c) n)), mkCtr (c_clock c) (c_instant c) (c_os c + n)%nat).

(** All clock readings are defined and lie in a window of seconds. *)
Definition clock_in (env : Env) (lo hi : Z) : Prop :=
  forall i, exists ns, e_clock env i = Some ns /\ lo <= ns / NANOS <= hi.

Lemma clock_in_secs env lo hi i :
  clock_in env lo hi ->
  exists t, option_map (fun ns => ns / NANOS) (e_clock env i) = Some t /\ lo <= t <= hi.
Proof. intros H. destruct (H i) as (ns & -> & ?). eauto. Qed.

(** A step of the monads, for symbolic execution of the definitions. *)
Lemma io_bind_ok {E A B} (m : IO E A) (k : A -> IO E B) env c a c' :
  m env c = (Ok a, c') -> io_bind m k env c = k a env c'.
Proof. intros H. unfold io_bind. by rewrite H. Qed.

Lemma io_bind_err {E A B} (m : IO E A) (k : A -> IO E B) env c e c' :
  m env c = (Err e, c') -> io_bind m k env c = (Err e, c').
Proof. intros H. unfold io_bind. by rewrite H. Qed.

Lemma bind_ok {S E A B} (m : M S E A) (k : A -> M S E B) env s c a s' c' :
  m env s c = (Ok a, s', c') -> bind m k env s c = k a env s' c'.
Proof. intros H. unfold bind. by rewrite H. Qed.

Lemma bind_err {S E A B} (m : M S E A) (k : A -> M S E B) env s c e s' c' :
  m env s c = (Err e, s', c') -> bind m k env s c = (Err e, s', c').
Proof. intros H. unfold bind. by rewrite H. Qed.

Lemma lift_ok {S E A} (m : IO E A) env (s : S) c a c' :
  m env c = (Ok a, c') -> lift m env s c = (Ok a, s, c').
Proof. intros H. unfold lift. by rewrite H. Qed.

Lemma lift_err {S E A} (m : IO E A) env (s : S) c e c' :
  m env c = (Err e, c') -> lift m env s c = (Err e, s, c').
Proof. intros H. unfold lift. by rewrite H. Qed.

(** A successful run went through every step. *)
Lemma bind_ok_inv {S E A B} (m : M S E A) (k : A -> M S E B) env s c b s2 c2 :
  bind m k env s c = (Ok b, s2, c2) ->
  exists a s1 c1, m env s c = (Ok a, s1, c1) /\ k a env s1 c1 = (Ok b, s2, c2).
Proof. unfold bind. destruct (m env s c) as [[[a|e|] s1] c1]; try done. eauto 6. Qed.

Ltac inv_bind H :=
  let a := fresh "a" in let s := fresh "s" in let c := fresh "c" in let E := fresh "E" in
  apply bind_ok_inv in H as (a & s & c & E & H).

(** Inversion of a successful run, without normalising the values in it. *)
Lemma ret_ok_inv {S E A} (a b : A) env (s s' : S) c c' :
  ret (E := E) a env s c = (Ok b, s', c') -> b = a /\ s' = s /\ c' = c.
Proof. unfold ret. by intros [=]. Qed.

Lemma io_ret_ok_inv {E A} (a b : A) env c c' :
  io_ret (E := E) a env c = (Ok b, c') -> b = a /\ c' = c.
Proof. unfold io_ret. by intros [=]. Qed.

Lemma is_ok_inv {E A} (r : Res E A) : is_ok r = true -> exists a, r = Ok a.
Proof. destruct r; try done. eauto. Qed.

(** ** Preservation, compositionally *)

(** Whatever [m] returns, it leaves a state of [Q] when started in [I]. *)
Definition leads {S E A} (I : S -> Prop) (m : M S E A) (Q : S -> Prop) : Prop :=
  forall env s c, I s -> Q (snd (fst (m env s c))).

Abbreviation preserves I m := (leads I m I).

Section Leads.
Context {S E : Type} (I : S -> Prop).

Lemma leads_bind {A B} (m : M S E A) (k : A -> M S E B) :
  preserves I m -> (forall a, preserves I (k a)) -> preserves I (bind m k).
Proof.
  intros Hm Hk env s c Hi. specialize (Hm env s c Hi). unfold bind.
  destruct (m env s c) as [[[a|e|] s'] c']; try done. by apply Hk.
Qed.

(** After [get] the state read is the state. *)
Lemma leads_get_bind {B} (k : S -> M S E B) :
  (forall s, I s -> leads (fun s' => s' = s) (k s) I) -> preserves I (bind get k).
Proof. intros Hk env s c Hi. unfold bind, get. by apply (Hk s). Qed.

Lemma leads_lift {A} (m : IO E A) : preserves I (lift m).
Proof. intros env s c Hi. unfold lift. by destruct (m env c). Qed.

Lemma leads_res {A} (r : Res E A) : preserves I (res r).
Proof. by intros env s c Hi. Qed.

Lemma leads_ret {A} (a : A) : preserves I (ret (E := E) a).
Proof. by intros env s c Hi. Qed.

Lemma leads_get : preserves I (get (E := E)).
Proof. by intros env s c Hi. Qed.

Lemma leads_modify f : (forall s, I s -> I (f s)) -> preserves I (modify (E := E) f).
Proof. intros Hf env s c Hi. by apply Hf. Qed.

Lemma leads_map_err {F A} (f : F -> E) (m : M S F A) : preserves I m -> preserves I (m_map_err f m).
Proof.
  intros Hm env s c Hi. specialize (Hm env s c Hi). unfold m_map_err.
  by destruct (m env s c) as [[r s'] c'].
Qed.

(** A call on a field, when the invariant survives what the call does to it. *)
Lemma leads_zoom {T A} (J : T -> Prop) proj upd (m : M T E A) :
  preserves J m -> (forall s, I s -> J (proj s)) -> (forall t s, J t -> I s -> I (upd t s)) ->
  preserves I (zoom proj upd m).
Proof.
  intros Hm Hp Hu env s c Hi. specialize (Hm env (proj s) c (Hp s Hi)). unfold zoom.
  destruct (m env (proj s) c) as [[r t] c']. by apply Hu.
Qed.

Lemma leads_put s0 : I s0 -> preserves I (put (E := E) s0).
Proof. by intros H env s c Hi. Qed.

End Leads.

#[export] Hint Resolve leads_lift leads_res leads_ret leads_get leads_put : sibna.
#[export] Hint Resolve leads_modify : sibna.

(** One symbolic step over the structure of an operation. *)
Ltac lead_step :=
  match goal with
  | |- leads _ (bind _ _) _ => apply leads_bind; [|intros ?]
  | |- leads _ (match ?x with _ => _ end) _ => destruct x
  | |- leads _ (if ?b then _ else _) _ => destruct b
  | |- leads _ (let (_, _) := ?x in _) _ => destruct x
  | |- leads _ (modify _) _ => apply leads_modify; intros ? ?; solve [eauto with sibna]
  | |- leads _ _ _ => solve [eauto with sibna]
  end.
Ltac lead_steps := repeat lead_step.

(** ** Triples in a given environment *)

(** From a state of [I] the computation ends in one, and what it returns is in [Q]. *)
Definition triple {S E A} (env : Env) (I : S -> Prop) (m : M S E A) (Q : A -> Prop) : Prop :=
  forall s c, I s -> I (snd (fst (m env s c))) /\ forall a, fst (fst (m env s c)) = Ok a -> Q a.

Section Triples.
Context {S E : Type} (env : Env) (I : S -> Prop).

Lemma triple_bind {A B} (m : M S E A) (k : A -> M S E B) Q R :
  triple env I m Q -> (forall a, Q a -> triple env I (k a) R) -> triple env I (bind m k) R.
Proof.
  intros Hm Hk s c Hi. destruct (Hm s c Hi) as [H1 H2]. unfold bind.
  destruct (m env s c) as [[[a|e|] s'] c']; cbn in *; [|by split..]. apply (Hk a); [by apply H2 | done].
Qed.

Lemma triple_ret {A} (a : A) (Q : A -> Prop) : Q a -> triple env I (ret (E := E) a) Q.
Proof. intros Hq s c Hi. split; [done|]. by intros b [= <-]. Qed.

Lemma triple_res {A} (r : Res E A) : triple env I (res r) (fun _ => True).
Proof. by intros s c Hi. Qed.

Lemma triple_get {B} (k : S -> M S E B) Q :
  (forall s, I s -> triple env I (k s) Q) -> triple env I (bind get k) Q.
Proof. intros Hk s c Hi. unfold bind, get. by apply (Hk s). Qed.

Lemma triple_modify f : (forall s, I s -> I (f s)) -> triple env I (modify (E := E) f) (fun _ => True).
Proof. intros Hf s c Hi. split; [by apply Hf | done]. Qed.

Lemma triple_put s0 : I s0 -> triple env I (put (E := E) s0) (fun _ => True).
Proof. by intros H s c Hi. Qed.

Lemma triple_leads {A} (m : M S E A) : preserves I m -> triple env I m (fun _ => True).
Proof. intros H s c Hi. split; [by apply H | done]. Qed.

Lemma triple_weaken {A} (m : M S E A) Q R : triple env I m Q -> (forall a, Q a -> R a) -> triple env I m R.
Proof. intros H HR s c Hi. destruct (H s c Hi) as [H1 H2]. split; [done|]. intros a Ha. apply HR, H2, Ha. Qed.

Lemma triple_try {F A} (m : M S F A) Q : triple env I m Q -> triple env I (m_try (F := E) m) (fun _ => True).
Proof.
  intros H s c Hi. destruct (H s c Hi) as [H1 _]. unfold m_try.
  destruct (m env s c) as [[[a|e|] s'] c']; by split.
Qed.

End Triples.

Lemma leads_try {S E F A} (I : S -> Prop) (m : M S E A) : preserves I m -> preserves I (m_try (F := F) m).
Proof.
  intros H env s c Hi. specialize (H env s c Hi). unfold m_try.
  by destruct (m env s c) as [[[a|e|] s'] c'].
Qed.
