(* ===== verification/Process.v ===== *)
(** * Asynchronous processes

    An [async fn] that talks to a peer is a process: between two awaits it
    computes in [IO], at an await it asks the outside world and continues with
    the answer.  [Proc] is the tree of these questions, [Act] the monad of the
    code that builds it.  A pair of processes joined by two FIFO channels runs
    by the step relation [duo_step]; the relation has the diamond property, so
    the outcome of a run does not depend on the schedule. *)

From S2P Require Import Prelude Effects.
#[local] Open Scope sibna_scope.

(** ** Processes *)

Inductive Proc (Ev : Type) (Ans : Ev -> Type) (E A : Type) : Type :=
| Done (r : Res E A) (c : Ctr)
| Ask (e : Ev) (k : Ans e -> Proc Ev Ans E A).
Arguments Done {Ev Ans E A} r c.
Arguments Ask {Ev Ans E A} e k.

Definition Act (Ev : Type) (Ans : Ev -> Type) (E A : Type) : Type := Env -> Ctr -> Proc Ev Ans E A.

Section Act.
Context {Ev : Type} {Ans : Ev -> Type} {E : Type}.

Fixpoint proc_bind {A B} (p : Proc Ev Ans E A) (k : A -> Ctr -> Proc Ev Ans E B) : Proc Ev Ans E B :=
  match p with
  | Done (Ok a) c => k a c
  | Done (Err e) c => Done (Err e) c
  | Done Panic c => Done Panic c
  | Ask e f => Ask e (fun x => proc_bind (f x) k)
  end.

Definition act_ret {A} (a : A) : Act Ev Ans E A := fun _ c => Done (Ok a) c.
Definition act_bind {A B} (m : Act Ev Ans E A) (k : A -> Act Ev Ans E B) : Act Ev Ans E B := fun env c =>
  proc_bind (m env c) (fun a c' => k a env c').
(** Code between two awaits. *)
Definition act_io {A} (m : IO E A) : Act Ev Ans E A := fun env c => let '(r, c') := m env c in Done r c'.
Definition act_res {A} (r : Res E A) : Act Ev Ans E A := fun _ c => Done r c.
(** An await. *)
Definition ask (e : Ev) : Act Ev Ans E (Ans e) := fun _ c => Ask e (fun x => Done (Ok x) c).

End Act.

Notation "'let~' x := m 'in' k" := (act_bind m (fun x => k))
  (at level 10, x pattern, m at level 99, k at level 200) : sibna_scope.

Lemma act_io_ok {Ev Ans E A B} (m : IO E A) (k : A -> Act Ev Ans E B) env c a c' :
  m env c = (Ok a, c') -> act_bind (act_io m) k env c = k a env c'.
Proof. intros H. unfold act_bind, act_io. by rewrite H. Qed.

Lemma act_res_ok {Ev Ans E A B} (a : A) (k : A -> Act Ev Ans E B) env c :
  act_bind (act_res (Ok a)) k env c = k a env c.
Proof. done. Qed.

(** ** Framed streams

    A [FramedStream] under [tokio::time::timeout]: at each await the deadline may
    have passed; otherwise a frame is written or the write fails, and a read
    delivers a frame, the end of the stream or an error. *)

Inductive FrameEv := SendFrame (frame : bytes) | NextFrame.

Inductive Incoming := Frame (b : bytes) | StreamEnd | StreamError.

Inductive Timed (A : Type) := InTime (a : A) | Elapsed.
Arguments InTime {A} a.
Arguments Elapsed {A}.

Definition FrameAns (e : FrameEv) : Type :=
  match e with SendFrame _ => Timed bool | NextFrame => Timed Incoming end.

(** The framed stream: what the model keeps of it is the frame limit of its
    codec.  [LengthDelimitedCodec] refuses a longer frame with an error, when it
    is to encode one and when it decodes the length of one. *)
Record FramedStream := mkFramedStream { fs_max_frame_length : Z }.

Definition MAX_FRAME_BYTES : Z := 10 * 1024 * 1024.

Definition wrap_stream (max_message_size : Z) : FramedStream := mkFramedStream max_message_size.

Definition frame_fits (stream : FramedStream) (frame : bytes) : bool := (len frame <=? fs_max_frame_length stream)%Z.

Definition decode_frame (stream : FramedStream) (next : Incoming) : Incoming :=
  match next with
  | Frame b => if frame_fits stream b then next else StreamError
  | _ => next
  end.

(** ** Two processes joined by channels *)

Section Duo.
Context {E A B : Type}.

Record Duo := mkDuo {
  left : Proc FrameEv FrameAns E A;
  right : Proc FrameEv FrameAns E B;
  to_right : list bytes;
  to_left : list bytes
}.

(** One side moves: a frame is accepted for sending, or the oldest frame of its
    inbox is delivered.  Channels lose nothing and nothing times out. *)
Definition proc_move {X} (p : Proc FrameEv FrameAns E X) (inbox : list bytes)
    : option (Proc FrameEv FrameAns E X * list bytes * list bytes) :=
  match p with
  | Done _ _ => None
  | Ask (SendFrame f) k => Some (k (InTime true), inbox, [f])
  | Ask NextFrame k =>
      match inbox with
      | [] => None
      | f :: inbox => Some (k (InTime (Frame f)), inbox, [])
      end
  end.

Inductive duo_step : Duo -> Duo -> Prop :=
| step_left p p' q inl inl' inr out :
    proc_move p inl = Some (p', inl', out) -> duo_step (mkDuo p q inr inl) (mkDuo p' q (inr ++ out) inl')
| step_right p q q' inl inr inr' out :
    proc_move q inr = Some (q', inr', out) -> duo_step (mkDuo p q inr inl) (mkDuo p q' inr' (inl ++ out)).

Definition duo (p : Proc FrameEv FrameAns E A) (q : Proc FrameEv FrameAns E B) : Duo := mkDuo p q [] [].

(** More frames in its inbox do not change a side's move. *)
Lemma proc_move_more {X} (p p1 : Proc FrameEv FrameAns E X) i i1 o l :
  proc_move p i = Some (p1, i1, o) -> proc_move p (i ++ l) = Some (p1, i1 ++ l, o).
Proof. destruct p as [|[] k]; simpl; try done; [|destruct i; simpl]; by intros [= <- <- <-]. Qed.

Lemma duo_diamond x y z : duo_step x y -> duo_step x z ->
  y = z \/ exists w, duo_step y w /\ duo_step z w.
Proof.
  intros H1 H2. destruct H1 as [p p' q inl inl' inr out H1|p q q' inl inr inr' out H1];
    inversion H2 as [? ? ? ? ? ? out2 H3|? ? ? ? ? ? out2 H3]; subst.
  - left. congruence.
  - right. eexists. split; [apply step_right; by apply proc_move_more|].
    apply step_left. by apply proc_move_more.
  - right. eexists. split; [apply step_left; by apply proc_move_more|].
    apply step_right. by apply proc_move_more.
  - left. congruence.
Qed.

(** With the diamond property, one run to a stuck state bounds all runs: each
    is a part of a run of the same length to the same state. *)
Lemma diamond_uniform {T} (R : relation T) :
  (forall x y z, R x y -> R x z -> y = z \/ exists w, R y w /\ R z w) ->
  forall n x y, nsteps R n x y -> nf R y ->
  forall z, R x z -> exists m, n = S m /\ nsteps R m z y.
Proof.
  intros HD. induction n as [|n IH]; intros x y Hn Hf z Hz.
  - inversion Hn; subst. destruct Hf. by exists z.
  - inversion Hn as [|? ? x' ? Hx Hrest]; subst. exists n. split; [done|].
    destruct (HD x x' z Hx Hz) as [->|(w & Hw & Hzw)]; [done|].
    destruct (IH x' y Hrest Hf w Hw) as (m & -> & Hm). by apply nsteps_l with w.
Qed.

Lemma duo_uniform n x y m z :
  nsteps duo_step n x y -> nf duo_step y -> nsteps duo_step m x z ->
  exists k, n = (m + k)%nat /\ nsteps duo_step k z y.
Proof.
  intros Hn Hf Hm. revert n Hn. induction Hm as [x|m x x' z Hx Hm IH]; intros n Hn; [by exists n|].
  destruct (diamond_uniform duo_step duo_diamond n x y Hn Hf x' Hx) as (n' & -> & Hn').
  destruct (IH n' Hn') as (k & -> & Hk). by exists k.
Qed.

(** Both sides have returned: nothing moves. *)
Lemma duo_done r c r' c' inr inl : nf duo_step (mkDuo (Done r c) (Done r' c') inr inl).
Proof. intros [d Hd]. inversion Hd as [? ? ? ? ? ? ? H|? ? ? ? ? ? ? H]; inversion H. Qed.

End Duo.
Arguments Duo : clear implicits.

(** A run of [n] moves to a state of [Q]. *)
Definition reaches {E A B} (n : nat) (d : Duo E A B) (Q : Duo E A B -> Prop) : Prop :=
  exists y, nsteps duo_step n d y /\ Q y.

Section Moves.
Context {E A B : Type} (Q : Duo E A B -> Prop).
Implicit Types (p : Proc FrameEv FrameAns E A) (q : Proc FrameEv FrameAns E B).

Lemma reaches_now d : Q d -> reaches 0 d Q.
Proof. intros H. exists d. split; [constructor | done]. Qed.

Lemma reaches_step n d d' : duo_step d d' -> reaches n d' Q -> reaches (S n) d Q.
Proof. intros Hs (y & Hn & Hy). exists y. split; [by eapply nsteps_l | done]. Qed.

Lemma run_left (f : bytes) k q inr inl n :
  reaches n (mkDuo (k (InTime true)) q (inr ++ [f]) inl) Q ->
  reaches (S n) (mkDuo (Ask (SendFrame f) k) q inr inl) Q.
Proof. apply reaches_step. by apply step_left. Qed.

Lemma run_right (f : bytes) k p inr inl n :
  reaches n (mkDuo p (k (InTime true)) inr (inl ++ [f])) Q ->
  reaches (S n) (mkDuo p (Ask (SendFrame f) k) inr inl) Q.
Proof. apply reaches_step. by apply step_right. Qed.

Lemma recv_left (f : bytes) k q inr inl n :
  reaches n (mkDuo (k (InTime (Frame f))) q inr inl) Q ->
  reaches (S n) (mkDuo (Ask NextFrame k) q inr (f :: inl)) Q.
Proof. intros H. eapply reaches_step; [by apply step_left|]. by rewrite app_nil_r. Qed.

Lemma recv_right (f : bytes) k p inr inl n :
  reaches n (mkDuo p (k (InTime (Frame f))) inr inl) Q ->
  reaches (S n) (mkDuo p (Ask NextFrame k) (f :: inr) inl) Q.
Proof. intros H. eapply reaches_step; [by apply step_right|]. by rewrite app_nil_r. Qed.

End Moves.

(** A process followed by more code moves as the process does. *)
Lemma proc_move_bind {E X Y} (p p' : Proc FrameEv FrameAns E X) (k : X -> Ctr -> Proc FrameEv FrameAns E Y) i i' o :
  proc_move p i = Some (p', i', o) -> proc_move (proc_bind p k) i = Some (proc_bind p' k, i', o).
Proof. destruct p as [|[f|] g]; simpl; try done; [|destruct i as [|b i]; try done]; by intros [= <- <- <-]. Qed.

Lemma duo_bind {E A B A' B'} (k : A -> Ctr -> Proc FrameEv FrameAns E A') (k' : B -> Ctr -> Proc FrameEv FrameAns E B')
    n (x y : Duo E A B) :
  nsteps duo_step n x y ->
  nsteps duo_step n (mkDuo (proc_bind (left x) k) (proc_bind (right x) k') (to_right x) (to_left x))
    (mkDuo (proc_bind (left y) k) (proc_bind (right y) k') (to_right y) (to_left y)).
Proof.
  induction 1 as [x|n x y z Hs _ IH]; [constructor|]. eapply nsteps_l; [|exact IH].
  destruct Hs as [? ? ? ? ? ? ? H|? ? ? ? ? ? ? H]; cbn [left right to_right to_left].
  - apply step_left. by apply proc_move_bind.
  - apply step_right. by apply proc_move_bind.
Qed.
