(* ===== verification/Codec.v ===== *)
(** * Serialisation

    [serde] data formats ([bincode], [serde_json]) are crates outside the
    repository: the model takes the encoder and the decoder of a type as a
    parameter ([Codec]) with the behaviour the code relies on ([CodecLaws]): a
    value of the type is encodable and decodes to itself, and what decodes is a
    value of the type (arrays have their length, integers their range).

    [Legacy] builds codecs in the documented layout of [bincode]'s legacy
    configuration (fixed-width little-endian integers, 64-bit lengths, one byte
    for the tag of an option, 32 bits for the variant of an enumeration); the
    witnesses use its instances. *)

From S2P Require Import Prelude.
#[local] Open Scope Z_scope.

Class Codec (A : Type) := {
  encode : A -> option bytes;
  decode : bytes -> option A
}.

Class CodecLaws {A : Type} (C : Codec A) (wf : A -> Prop) := {
  codec_roundtrip a : wf a -> exists b, encode a = Some b /\ decode b = Some a;
  decode_wf b a : decode b = Some a -> wf a
}.

Module Legacy.

(** A decoder consumes a prefix; trailing bytes are ignored by
    [decode_from_slice]. *)
Definition Get (A : Type) : Type := bytes -> option (A * bytes).

Definition ret {A} (a : A) : Get A := fun b => Some (a, b).
Definition bind {A B} (g : Get A) (k : A -> Get B) : Get B := fun b =>
  match g b with Some (a, b') => k a b' | None => None end.

Definition array (n : nat) : Get bytes := fun b =>
  if (n <=? length b)%nat then Some (take n b, drop n b) else None.

Definition vec : Get bytes := bind (array 8) (fun l => array (Z.to_nat (from_le l))).

Definition opt {A} (g : Get A) : Get (option A) :=
  bind (array 1) (fun t => if bool_decide (t = [x00]) then ret None
                           else if bool_decide (t = [x01]) then bind g (fun a => ret (Some a))
                           else fun _ => None).

Definition put_vec (b : bytes) : bytes := u64_le (len b) ++ b.
Definition put_opt {A} (f : A -> bytes) (o : option A) : bytes :=
  match o with None => [x00] | Some a => [x01] ++ f a end.

(** [g] reads back what [p] wrote, whatever follows. *)
Definition reads {A} (g : Get A) (p : bytes) (a : A) : Prop := forall rest, g (p ++ rest) = Some (a, rest).

Lemma reads_ret {A} (a : A) : reads (ret a) [] a.
Proof. done. Qed.

Lemma reads_bind {A B} (g : Get A) (k : A -> Get B) p q a b :
  reads g p a -> reads (k a) q b -> reads (bind g k) (p ++ q) b.
Proof. intros Hg Hk rest. unfold bind. rewrite <- app_assoc, Hg. apply Hk. Qed.

Lemma reads_array n p : length p = n -> reads (array n) p p.
Proof.
  intros <- rest. unfold array. rewrite (proj2 (Nat.leb_le _ _)) by (rewrite length_app; lia).
  by rewrite take_app_length, drop_app_length.
Qed.

Lemma reads_vec b : len b <= U64_MAX -> reads vec (put_vec b) b.
Proof.
  intros Hb. unfold vec, put_vec. apply reads_bind with (a := u64_le (len b)).
  - apply reads_array, length_to_le.
  - rewrite from_le_u64 by (split; [apply len_nonneg | done]). apply reads_array. unfold len. lia.
Qed.

Lemma reads_opt {A} (g : Get A) f o :
  (forall a, o = Some a -> reads g (f a) a) -> reads (opt g) (put_opt f o) o.
Proof.
  intros Ho. unfold opt. destruct o as [a|]; cbn [put_opt].
  - apply reads_bind with (a := [x01]); [by apply reads_array|].
    cbn. replace (f a) with (f a ++ []) by apply app_nil_r.
    apply reads_bind with (a := a); [by apply Ho | apply reads_ret].
  - change [x00] with ([x00] ++ []). apply reads_bind with (a := [x00]); [by apply reads_array | done].
Qed.

(** What the decoders return has the lengths of the types. *)
Lemma array_length n b p rest : array n b = Some (p, rest) -> length p = n.
Proof.
  unfold array. destruct (Nat.leb_spec n (length b)); [|done]. intros [= <- <-]. rewrite length_take. lia.
Qed.

Lemma vec_bound b p rest : vec b = Some (p, rest) -> len p <= U64_MAX.
Proof.
  unfold vec, bind. destruct (array 8 b) as [[l b']|] eqn:E; [|done]. intros H%array_length.
  apply array_length in E. pose proof (from_le_is_u64 l E) as [? ?]. unfold len. lia.
Qed.

Lemma opt_inv {A} (g : Get A) b o rest : opt g b = Some (o, rest) ->
  forall a, o = Some a -> exists b' rest', g b' = Some (a, rest').
Proof.
  unfold opt, bind. destruct (array 1 b) as [[t b']|]; [|done]. case_bool_decide; [by intros [= <- <-]|].
  case_bool_decide; [|done]. destruct (g b') as [[a b2]|] eqn:E; [|done]. intros [= <- <-] a' [= <-]. eauto.
Qed.

End Legacy.

(** ** Any countable type

    A text form for the witnesses: the number of a value in binary digits. *)

Module Spelled.

Fixpoint spell (p : positive) : bytes :=
  match p with xH => [] | xO p => x30 :: spell p | xI p => x31 :: spell p end.
Fixpoint unspell (b : bytes) : positive :=
  match b with [] => xH | x :: b => if Byte.eqb x x30 then xO (unspell b) else xI (unspell b) end.

Lemma unspell_spell p : unspell (spell p) = p.
Proof. induction p; simpl; by rewrite ?IHp. Qed.

Definition spelled {A} `{Countable A} (wf : A -> bool) : Codec A := {|
  encode a := Some (spell (countable.encode a));
  decode b := match countable.decode (unspell b) with Some a => if wf a then Some a else None | None => None end
|}.

Lemma spelled_laws {A} `{Countable A} (wf : A -> bool) : CodecLaws (spelled wf) wf.
Proof.
  split.
  - intros a Ha. exists (spell (countable.encode a)). split; [done|]. cbn. rewrite unspell_spell, decode_encode.
    by destruct (wf a).
  - intros b a. cbn. destruct (countable.decode (unspell b)) as [a'|]; [|done]. destruct (wf a') eqn:E; [|done].
    intros [= ->]. by apply Is_true_true_2.
Qed.

End Spelled.
