(* ===== verification/Text.v ===== *)
(** * Text

    A Rust [str] is a byte string in UTF-8.  The model keeps the bytes: what a
    string slice checks (character boundaries), searching for an ASCII byte,
    [rsplitn], hexadecimal and decimal numbers. *)

From S2P Require Import Prelude Effects.
#[local] Open Scope Z_scope.
#[local] Open Scope sibna_scope.

(** ** Slices *)

(** A continuation byte of UTF-8, [0b10xxxxxx]. *)
Definition is_continuation (b : u8) : bool := (128 <=? b2z b) && (b2z b <? 192).

(** What a [String] may hold: well-formed UTF-8. *)
Definition byte_in (lo hi : Z) (b : u8) : bool := (lo <=? b2z b) && (b2z b <=? hi).

Fixpoint valid_utf8 (s : bytes) : bool :=
  match s with
  | [] => true
  | a :: t =>
      if b2z a <? 128 then valid_utf8 t
      else match t with
           | b :: t =>
               if byte_in 194 223 a then is_continuation b && valid_utf8 t
               else match t with
                    | c :: t =>
                        if byte_in 224 239 a then
                          byte_in (if b2z a =? 224 then 160 else 128) (if b2z a =? 237 then 159 else 191) b
                          && is_continuation c && valid_utf8 t
                        else match t with
                             | d :: t =>
                                 byte_in 240 244 a
                                 && byte_in (if b2z a =? 240 then 144 else 128) (if b2z a =? 244 then 143 else 191) b
                                 && is_continuation c && is_continuation d && valid_utf8 t
                             | [] => false
                             end
                    | [] => false
                    end
           | [] => false
           end
  end.

(** [str::is_char_boundary]. *)
Definition is_char_boundary (s : bytes) (i : nat) : bool :=
  if (i =? 0)%nat then true
  else match s !! i with
       | Some b => negb (is_continuation b)
       | None => (i =? length s)%nat
       end.

(** [&s[i..j]]: panics out of range and inside a character. *)
Definition str_slice {E} (i j : nat) (s : bytes) : Res E bytes :=
  if (i <=? j)%nat && (j <=? length s)%nat && is_char_boundary s i && is_char_boundary s j
  then Ok (take (j - i) (drop i s)) else Panic.

(** A string of ASCII characters has no continuation bytes. *)
Definition is_ascii (s : bytes) : Prop := Forall (fun b => b2z b < 128) s.

Lemma ascii_boundary s i : is_ascii s -> (i <= length s)%nat -> is_char_boundary s i = true.
Proof.
  intros Hs Hi. unfold is_char_boundary. destruct (Nat.eqb_spec i 0); [done|].
  destruct (s !! i) as [b|] eqn:E.
  - pose proof (Forall_lookup_1 _ _ _ _ Hs E) as Hb. cbv beta in Hb. unfold is_continuation.
    destruct (Z.leb_spec 128 (b2z b)); [lia | done].
  - apply lookup_ge_None in E. apply Nat.eqb_eq. lia.
Qed.

Lemma str_slice_ascii {E} i j s : is_ascii s -> (i <= j)%nat -> (j <= length s)%nat ->
  str_slice (E := E) i j s = Ok (take (j - i) (drop i s)).
Proof.
  intros Hs Hi Hj. unfold str_slice. rewrite !ascii_boundary by (done || lia).
  by rewrite !(proj2 (Nat.leb_le _ _)) by lia.
Qed.

(** ** Searching *)

(** [s.find(c)] for an ASCII character. *)
Fixpoint find_byte (c : u8) (s : bytes) : option nat :=
  match s with
  | [] => None
  | b :: t => if Byte.eqb b c then Some 0%nat else option_map S (find_byte c t)
  end.

(** [s.rfind(c)]. *)
Fixpoint rfind_byte (c : u8) (s : bytes) : option nat :=
  match s with
  | [] => None
  | b :: t => match rfind_byte c t with
              | Some i => Some (S i)
              | None => if Byte.eqb b c then Some 0%nat else None
              end
  end.

Lemma find_byte_none c s : find_byte c s = None <-> ~ In c s.
Proof.
  induction s as [|b t IH]; simpl; [tauto|]. destruct (Byte.eqb b c) eqn:E.
  - apply byte_eqb_eq in E. split; [done | intros H; destruct H; by left].
  - assert (b <> c) by (intros ->; rewrite (proj2 (byte_eqb_eq c c) eq_refl) in E; done).
    destruct (find_byte c t) as [i|]; simpl; [|tauto].
    split; [done|]. intros Hn. assert (Some i = None) by (apply IH; tauto). done.
Qed.

Lemma find_byte_app c p s : ~ In c p -> find_byte c (p ++ c :: s) = Some (length p).
Proof.
  induction p as [|b p IH]; simpl; intros H.
  - by rewrite (proj2 (byte_eqb_eq c c) eq_refl).
  - destruct (Byte.eqb b c) eqn:E; [apply byte_eqb_eq in E; tauto|]. rewrite IH by tauto. done.
Qed.

Lemma rfind_byte_none c s : rfind_byte c s = None <-> ~ In c s.
Proof.
  induction s as [|b t IH]; simpl; [tauto|]. destruct (rfind_byte c t) as [i|].
  - split; [done|]. intros H. destruct IH as [_ IH]. assert (Some i = None) by (apply IH; tauto). done.
  - destruct (Byte.eqb b c) eqn:E.
    + apply byte_eqb_eq in E. split; [done | intros H; destruct H; by left].
    + assert (b <> c) by (intros ->; rewrite (proj2 (byte_eqb_eq c c) eq_refl) in E; done).
      split; try done; tauto.
Qed.

Lemma rfind_byte_app c p s : ~ In c s -> rfind_byte c (p ++ c :: s) = Some (length p).
Proof.
  intros H. induction p as [|b p IH]; simpl.
  - by rewrite (proj2 (rfind_byte_none c s) H), (proj2 (byte_eqb_eq c c) eq_refl).
  - by rewrite IH.
Qed.

(** [s.strip_prefix(c)]. *)
Definition strip_prefix (c : u8) (s : bytes) : option bytes :=
  match s with b :: t => if Byte.eqb b c then Some t else None | [] => None end.

(** ** Decimal numbers *)

Definition digit (b : u8) : option Z :=
  if (48 <=? b2z b) && (b2z b <=? 57) then Some (b2z b - 48) else None.

(** The digits of an unsigned number of at most [max], checked as they are read. *)
Fixpoint parse_digits (max acc : Z) (s : bytes) : option Z :=
  match s with
  | [] => Some acc
  | b :: t => match digit b with
              | Some d => if acc * 10 + d <=? max then parse_digits max (acc * 10 + d) t else None
              | None => None
              end
  end.

(** [s.parse::<uN>()]: one leading [+] is allowed. *)
Definition parse_uint (max : Z) (s : bytes) : option Z :=
  match s with
  | [] => None
  | b :: t => if Byte.eqb b x2b then match t with [] => None | _ => parse_digits max 0 t end
              else parse_digits max 0 s
  end.

(** The decimal digits of a number below [10 ^ n]. *)
Fixpoint show_digits (n : nat) (z : Z) : bytes :=
  match n with
  | O => []
  | S n => if z <? 10 then [z2b (48 + z)] else show_digits n (z / 10) ++ [z2b (48 + z mod 10)]
  end.

(** [format!("{}", z)] for a [u16]. *)
Definition show_u16 (z : Z) : bytes := show_digits 5 z.
Definition show_u32 (z : Z) : bytes := show_digits 10 z.

Lemma digit_of z : 0 <= z < 10 -> digit (z2b (48 + z)) = Some z.
Proof.
  intros H. unfold digit. rewrite b2z_z2b_small by lia.
  destruct (Z.leb_spec 48 (48 + z)); [|lia]. destruct (Z.leb_spec (48 + z) 57); [|lia]. cbn. f_equal. lia.
Qed.

Lemma parse_digits_app max acc p s :
  parse_digits max acc (p ++ s) =
  match parse_digits max acc p with Some a => parse_digits max a s | None => None end.
Proof.
  revert acc. induction p as [|b p IH]; intros acc; simpl; [done|].
  destruct (digit b); [|done]. by destruct (_ <=? _).
Qed.

Lemma parse_show_digits max n z : (1 <= n)%nat -> 0 <= z < 10 ^ Z.of_nat n -> z <= max ->
  parse_digits max 0 (show_digits n z) = Some z.
Proof.
  revert z. induction n as [|n IH]; intros z Hn Hz Hm; [lia|]. cbn [show_digits].
  destruct (Z.ltb_spec z 10).
  - cbn [parse_digits]. rewrite digit_of by lia. change (0 * 10 + z) with z.
    destruct (Z.leb_spec z max); [done | lia].
  - rewrite Nat2Z.inj_succ, Z.pow_succ_r in Hz by lia.
    assert (1 <= n)%nat by (destruct n; [change (10 * 10 ^ Z.of_nat 0) with 10 in Hz; lia | lia]).
    rewrite parse_digits_app, IH; [|done| |]; [|pose proof (Z.div_mod z 10); pose proof (Z.mod_pos_bound z 10); nia..].
    cbn [parse_digits]. pose proof (Z.mod_pos_bound z 10). rewrite digit_of by lia.
    pose proof (Z.div_mod z 10). destruct (Z.leb_spec (z / 10 * 10 + z mod 10) max); [f_equal; lia | lia].
Qed.

(** A rendered port has only digits. *)
Lemma show_digits_ascii n z b : 0 <= z -> In b (show_digits n z) -> 48 <= b2z b <= 57.
Proof.
  revert z. induction n as [|n IH]; intros z Hz H; [done|]. cbn [show_digits] in H.
  destruct (Z.ltb_spec z 10).
  - destruct H as [<-|[]]. rewrite b2z_z2b_small by lia. lia.
  - apply in_app_iff in H as [H|[<-|[]]]; [apply (IH (z / 10)); [apply Z.div_pos; lia | done]|].
    pose proof (Z.mod_pos_bound z 10). rewrite b2z_z2b_small by lia. lia.
Qed.

Lemma parse_show_u16 z : 0 <= z <= 65535 -> parse_uint 65535 (show_u16 z) = Some z.
Proof.
  intros Hz. unfold parse_uint, show_u16. destruct (show_digits 5 z) as [|b t] eqn:E.
  - exfalso. revert E. cbn [show_digits]. destruct (z <? 10); [done|]. intros H%app_eq_nil. by destruct H.
  - destruct (Byte.eqb b x2b) eqn:Eb.
    + apply byte_eqb_eq in Eb. subst. assert (H : In x2b (show_digits 5 z)) by (rewrite E; by left).
      apply show_digits_ascii in H; [|lia]. vm_compute in H. by destruct H.
    + rewrite <- E. apply parse_show_digits; lia.
Qed.

(** ** Signed numbers and splitting *)

Definition I64_MAX : Z := 9223372036854775807.
Definition I64_MIN : Z := -9223372036854775808.

(** [i64::from_be_bytes] and [to_be_bytes]. *)
Definition i64_from_be (l : bytes) : Z := let z := from_be l in if z <=? I64_MAX then z else z - 2 ^ 64.
Definition i64_be (z : Z) : bytes := u64_be (z mod 2 ^ 64).

Lemma i64_from_to_be z : I64_MIN <= z <= I64_MAX -> i64_from_be (i64_be z) = z.
Proof.
  intros Hz. unfold i64_from_be, i64_be. rewrite from_to_be. change (256 ^ Z.of_nat 8) with (2 ^ 64). rewrite Z.mod_mod by done.
  unfold I64_MAX, I64_MIN in *. destruct (Z.leb_spec 0 z).
  - rewrite Z.mod_small by lia. destruct (Z.leb_spec z 9223372036854775807); lia.
  - replace (z mod 2 ^ 64) with (z + 2 ^ 64) by (symmetry; rewrite <- (Z_mod_plus_full z 1), Z.mul_1_l; apply Z.mod_small; lia).
    destruct (Z.leb_spec (z + 2 ^ 64) 9223372036854775807); lia.
Qed.

(** [s.parse::<i64>()]: one leading sign is allowed. *)
Definition parse_i64 (s : bytes) : option Z :=
  match s with
  | [] => None
  | b :: t =>
      if Byte.eqb b x2b then match t with [] => None | _ => parse_digits I64_MAX 0 t end
      else if Byte.eqb b x2d then match t with [] => None | _ => option_map Z.opp (parse_digits (- I64_MIN) 0 t) end
      else parse_digits I64_MAX 0 s
  end.

(** [format!("{}", z)] for an [i64]: at most 19 digits. *)
Definition show_i64 (z : Z) : bytes := if z <? 0 then x2d :: show_digits 19 (- z) else show_digits 19 z.

Lemma show_digits_nonempty n z : (1 <= n)%nat -> show_digits n z <> [].
Proof.
  intros Hn. destruct n; [lia|]. cbn [show_digits]. destruct (z <? 10); [done|]. intros H%app_eq_nil. by destruct H.
Qed.

Lemma parse_show_i64 z : 0 <= z <= I64_MAX -> parse_i64 (show_i64 z) = Some z.
Proof.
  intros Hz. unfold show_i64. destruct (Z.ltb_spec z 0); [lia|].
  assert (Hd : forall b, In b (show_digits 19 z) -> 48 <= b2z b <= 57) by (intros b; apply show_digits_ascii; lia).
  assert (Hp : parse_digits I64_MAX 0 (show_digits 19 z) = Some z)
    by (apply parse_show_digits; unfold I64_MAX in *; lia).
  unfold parse_i64. destruct (show_digits 19 z) as [|b t] eqn:E; [by apply show_digits_nonempty in E; [|lia]|].
  pose proof (Hd b ltac:(by left)) as Hb.
  destruct (Byte.eqb b x2b) eqn:E1; [apply byte_eqb_eq in E1; subst; vm_compute in Hb; by destruct Hb|].
  destruct (Byte.eqb b x2d) eqn:E2; [apply byte_eqb_eq in E2; subst; vm_compute in Hb; by destruct Hb|]. done.
Qed.

(** [s.splitn(3, c)] when it yields three parts. *)
Definition split3 (c : u8) (s : bytes) : option (bytes * bytes * bytes) :=
  match find_byte c s with
  | None => None
  | Some i =>
      let rest := drop (S i) s in
      match find_byte c rest with
      | None => None
      | Some j => Some (take i s, take j rest, drop (S j) rest)
      end
  end.

Lemma drop_past c (p s : bytes) : drop (S (length p)) (p ++ c :: s) = s.
Proof.
  change (c :: s) with ([c] ++ s). rewrite app_assoc.
  replace (S (length p)) with (length (p ++ [c])) by (rewrite length_app; simpl; lia). by rewrite drop_app_length.
Qed.

Lemma split3_app c p q r : ~ In c p -> ~ In c q -> split3 c (p ++ c :: q ++ c :: r) = Some (p, q, r).
Proof.
  intros Hp Hq. unfold split3. rewrite find_byte_app by done. rewrite drop_past, find_byte_app by done.
  by rewrite !take_app_length, drop_past.
Qed.
