(* ===== verification/Errors.v ===== *)
(** * Error types

    The error enumerations of [core/src/error.rs], [core/src/crypto/mod.rs],
    [core/src/validation.rs] and [core/src/handshake/mod.rs], with the [From]
    conversions the [?] operator applies and the [Display] strings callers see. *)

From stdpp Require Import pretty.
From S2P Require Import Prelude.
#[local] Open Scope Z_scope.
#[local] Open Scope string_scope.

(** ** [CryptoError] *)
Module CryptoError.

Inductive t : Type :=
| InvalidKeyLength
| InvalidNonceLength (expected actual : Z)
| EncryptionFailed
| DecryptionFailed
| AuthenticationFailed
| RandomFailed
| KeyDerivationFailed
| InvalidCiphertext
| WeakKey
| InsufficientEntropy.

(** The [#[error("...")]] strings. *)
Definition crypto_display (e : t) : string :=
  match e with
  | InvalidKeyLength => "Invalid key length"
  | InvalidNonceLength _ _ => "Invalid nonce length"
  | EncryptionFailed => "Encryption failed"
  | DecryptionFailed => "Decryption failed"
  | AuthenticationFailed => "Authentication failed"
  | RandomFailed => "Random generation failed"
  | KeyDerivationFailed => "Key derivation failed"
  | InvalidCiphertext => "Invalid ciphertext"
  | WeakKey => "Weak key detected"
  | InsufficientEntropy => "Insufficient entropy"
  end.

End CryptoError.

(** ** [ProtocolError] *)
Module ProtocolError.

Inductive t : Type :=
| InvalidKeyLength
| InvalidKeyLengthDetailed (expected actual : Z)
| EncryptionFailed
| EncryptionFailedDetailed (details : string)
| DecryptionFailed
| DecryptionFailedDetailed (details : string)
| AuthenticationFailed
| InvalidNonce
| InvalidNonceLength (expected actual : Z)
| SessionNotFound
| InvalidState
| InvalidStateDetailed (details : string)
| KeyDerivationFailed
| InvalidMessage
| InvalidMessageDetailed (details : string)
| InvalidSignature
| HandshakeFailed
| HandshakeFailedDetailed (details : string)
| OutOfMemory
| InternalError
| InternalErrorDetailed (details : string)
| InvalidCiphertext
| InvalidKey
| RandomFailed
| KeyNotFound
| InvalidArgument
| InvalidArgumentDetailed (details : string)
| StorageError
| StorageErrorDetailed (details : string)
| SerializationError
| SerializationErrorDetailed (details : string)
| DeserializationError
| DeserializationErrorDetailed (details : string)
| MaxSkippedMessagesExceeded
| ReplayAttackDetected
| RateLimitExceeded
| Timeout
| InvalidPassword
| WeakPassword
| KeyCompromiseDetected
| VersionMismatch
| DeviceRevoked
| GroupError
| GroupErrorDetailed (details : string)
| VerificationFailed
| TamperingDetected
| ClockSkewDetected
| MessageTooOld
| MessageFromFuture
| Expired
| KeyMismatch
| VerificationRequired
| NonceReservationRequired
| MessageNumberOverflow.

(** The [#[error("...")]] strings. *)
Definition display (e : t) : string :=
  match e with
  | InvalidKeyLength | InvalidKeyLengthDetailed _ _ => "Invalid key length"
  | EncryptionFailed | EncryptionFailedDetailed _ => "Encryption operation failed"
  | DecryptionFailed | DecryptionFailedDetailed _ => "Decryption operation failed"
  | AuthenticationFailed => "Authentication verification failed"
  | InvalidNonce | InvalidNonceLength _ _ => "Invalid nonce"
  | SessionNotFound => "Session not found"
  | InvalidState | InvalidStateDetailed _ => "Invalid protocol state"
  | KeyDerivationFailed => "Key derivation failed"
  | InvalidMessage | InvalidMessageDetailed _ => "Invalid message format"
  | InvalidSignature => "Signature verification failed"
  | HandshakeFailed | HandshakeFailedDetailed _ => "Handshake operation failed"
  | OutOfMemory => "Memory allocation failed"
  | InternalError | InternalErrorDetailed _ => "Internal error"
  | InvalidCiphertext => "Invalid ciphertext"
  | InvalidKey => "Invalid key"
  | RandomFailed => "Random number generation failed"
  | KeyNotFound => "Key not found"
  | InvalidArgument | InvalidArgumentDetailed _ => "Invalid argument"
  | StorageError | StorageErrorDetailed _ => "Storage operation failed"
  | SerializationError | SerializationErrorDetailed _ => "Data serialization failed"
  | DeserializationError | DeserializationErrorDetailed _ => "Data deserialization failed"
  | MaxSkippedMessagesExceeded => "Message sequence limit exceeded"
  | ReplayAttackDetected => "Message replay detected"
  | RateLimitExceeded => "Rate limit exceeded"
  | Timeout => "Operation timed out"
  | InvalidPassword => "Invalid password"
  | WeakPassword => "Password does not meet security requirements"
  | KeyCompromiseDetected => "Key compromise detected"
  | VersionMismatch => "Protocol version mismatch"
  | DeviceRevoked => "Device has been revoked"
  | GroupError | GroupErrorDetailed _ => "Group operation failed"
  | VerificationFailed => "Verification failed"
  | TamperingDetected => "Data tampering detected"
  | ClockSkewDetected => "Clock synchronization issue detected"
  | MessageTooOld => "Message is too old"
  | MessageFromFuture => "Message timestamp is in the future"
  | Expired => "Key or bundle has expired"
  | KeyMismatch => "Peer identity key changed — possible man-in-the-middle attack"
  | VerificationRequired => "Identity verification via out-of-band Safety Numbers is required"
  | NonceReservationRequired => "Nonce reservation pool exhausted - persistent update required"
  | MessageNumberOverflow =>
      "Message number overflow: sender key exhausted after 2^32 messages, rotate key"
  end.

(** [impl Zeroize for ProtocolError]. *)
Definition zeroize (e : t) : t :=
  match e with
  | InvalidKeyLengthDetailed _ _ => InvalidKeyLength
  | EncryptionFailedDetailed _ => EncryptionFailed
  | DecryptionFailedDetailed _ => DecryptionFailed
  | InvalidStateDetailed _ => InvalidState
  | InvalidMessageDetailed _ => InvalidMessage
  | HandshakeFailedDetailed _ => HandshakeFailed
  | InternalErrorDetailed _ => InternalError
  | InvalidArgumentDetailed _ => InvalidArgument
  | StorageErrorDetailed _ => StorageError
  | SerializationErrorDetailed _ => SerializationError
  | DeserializationErrorDetailed _ => DeserializationError
  | GroupErrorDetailed _ => GroupError
  | _ => e
  end.

(** [impl From<CryptoError> for ProtocolError]. *)
Definition from_crypto (e : CryptoError.t) : t :=
  match e with
  | CryptoError.InvalidKeyLength => InvalidKeyLength
  | CryptoError.EncryptionFailed => EncryptionFailed
  | CryptoError.DecryptionFailed => DecryptionFailed
  | CryptoError.AuthenticationFailed => AuthenticationFailed
  | CryptoError.InvalidNonceLength x a => InvalidNonceLength x a
  | CryptoError.RandomFailed => RandomFailed
  | CryptoError.KeyDerivationFailed => KeyDerivationFailed
  | CryptoError.InvalidCiphertext => InvalidCiphertext
  | CryptoError.WeakKey => InvalidKey
  | CryptoError.InsufficientEntropy => RandomFailed
  end.

End ProtocolError.

(** ** [ValidationError] *)
Module ValidationError.

Inductive t : Type :=
| TooShort (min actual : Z)
| TooLong (max actual : Z)
| InvalidLength (expected actual : Z)
| InvalidBytes (reason : string)
| Empty
| NullByte
| CryptoValidation (reason : string)
| InvalidCharacters
| InvalidFormat
| OutOfRange
| Expired
| FutureTimestamp
| Duplicate.

(** [impl From<ValidationError> for ProtocolError]. *)
Definition to_protocol (e : t) : ProtocolError.t :=
  match e with
  | Empty => ProtocolError.InvalidArgument
  | TooShort _ _ => ProtocolError.InvalidArgument
  | TooLong _ _ => ProtocolError.InvalidArgument
  | InvalidLength _ _ => ProtocolError.InvalidKeyLength
  | InvalidBytes _ => ProtocolError.InvalidMessage
  | NullByte => ProtocolError.InvalidArgument
  | CryptoValidation _ => ProtocolError.AuthenticationFailed
  | InvalidCharacters => ProtocolError.InvalidArgument
  | InvalidFormat => ProtocolError.InvalidMessage
  | OutOfRange => ProtocolError.InvalidArgument
  | Expired => ProtocolError.MessageTooOld
  | FutureTimestamp => ProtocolError.MessageFromFuture
  | Duplicate => ProtocolError.ReplayAttackDetected
  end.

(** [impl Display for ValidationError]. *)
Definition validation_display (e : t) : string :=
  match e with
  | TooShort min actual => "Input too short: expected at least " +:+ pretty min +:+ " bytes, got " +:+ pretty actual
  | TooLong max actual => "Input too long: expected at most " +:+ pretty max +:+ " bytes, got " +:+ pretty actual
  | InvalidLength expected actual => "Invalid length: expected " +:+ pretty expected +:+ " bytes, got " +:+ pretty actual
  | InvalidBytes reason => "Invalid bytes: " +:+ reason
  | Empty => "Input is empty"
  | NullByte => "Input contains null byte"
  | CryptoValidation reason => "Cryptographic validation failed: " +:+ reason
  | InvalidCharacters => "Input contains invalid characters"
  | InvalidFormat => "Input format is invalid"
  | OutOfRange => "Input is outside valid range"
  | Expired => "Input has expired"
  | FutureTimestamp => "Input timestamp is in the future"
  | Duplicate => "Input is a duplicate"
  end.

Example validation_display_short :
  validation_display (TooShort 12 3) = "Input too short: expected at least 12 bytes, got 3"%string.
Proof. reflexivity. Qed.

End ValidationError.

(** ** [HandshakeError] *)
Module HandshakeError.

Inductive t : Type :=
| InvalidState | InvalidKey | Timeout | SignatureVerification | MissingKey.

(** [impl From<HandshakeError> for ProtocolError]. *)
Definition to_protocol (e : t) : ProtocolError.t :=
  match e with
  | InvalidState => ProtocolError.InvalidState
  | InvalidKey => ProtocolError.InvalidKey
  | Timeout => ProtocolError.Timeout
  | SignatureVerification => ProtocolError.InvalidSignature
  | MissingKey => ProtocolError.KeyNotFound
  end.

Definition handshake_display (e : t) : string :=
  match e with
  | InvalidState => "Invalid handshake state"
  | InvalidKey => "Invalid key material"
  | Timeout => "Handshake timed out"
  | SignatureVerification => "Signature verification failed"
  | MissingKey => "Missing required key"
  end.

End HandshakeError.

(** ** Errors of the standard library and of [serde_json] *)

Inductive ForeignError := IoError | JsonError | TryFromSliceError | TryFromIntError | Utf8Error | FromUtf8Error.

Definition from_foreign (e : ForeignError) : ProtocolError.t :=
  match e with
  | IoError => ProtocolError.InternalError
  | JsonError => ProtocolError.SerializationError
  | TryFromSliceError => ProtocolError.InvalidMessage
  | TryFromIntError => ProtocolError.InvalidArgument
  | Utf8Error => ProtocolError.InvalidMessage
  | FromUtf8Error => ProtocolError.InvalidMessage
  end.

(** ** [SecureError] and [ErrorContext] *)

Record SecureError := mkSecureError { public_message : string; secure_error_code : Z; should_log : bool }.

Definition ENCRYPTION_FAILED : SecureError := mkSecureError "Encryption failed" 1001 true.
Definition DECRYPTION_FAILED : SecureError := mkSecureError "Decryption failed" 1002 true.
Definition AUTHENTICATION_FAILED : SecureError := mkSecureError "Authentication failed" 1003 true.
Definition INVALID_INPUT : SecureError := mkSecureError "Invalid input" 1004 false.
Definition INTERNAL_ERROR : SecureError := mkSecureError "Internal error" 1005 true.

Record ErrorContext := mkErrorContext { ec_file : string; ec_line : Z; ec_function : string; ec_context : option string }.

Definition ErrorContext_new (file : string) (line : Z) (function : string) : ErrorContext := mkErrorContext file line function None.
Definition with_context (context : string) (e : ErrorContext) : ErrorContext :=
  mkErrorContext (ec_file e) (ec_line e) (ec_function e) (Some context).
