(* ===== verification/Primitives.v ===== *)
(** * Cryptographic primitives

    The primitives come from crates outside the repository ([hmac], [hkdf],
    [sha2], [blake3], [chacha20poly1305], [x25519-dalek], [ed25519-dalek],
    [fips203], [argon2]) and are the parameters of the model: [Primitives] is
    their interface, [PrimitiveLaws] the documented behaviour the code relies
    on (output lengths, the correctness equations of AEAD, Diffie-Hellman,
    signatures and the KEM).  No security assumption is a law.  [toy] is a
    concrete, insecure instance that shows the laws can hold together; the
    witnesses of the theorems run on it. *)

From S2P Require Import Prelude.
#[local] Open Scope Z_scope.

Class Primitives := {
  (** [Hmac::<Sha256>]: key, data. *)
  hmac_sha256 : bytes -> bytes -> bytes;
  (** [Hkdf::<Sha256>::new(salt, ikm).expand(info, n)]; [None] is its error. *)
  hkdf_sha256 : option bytes -> bytes -> bytes -> nat -> option bytes;
  hkdf_sha512 : option bytes -> bytes -> bytes -> nat -> option bytes;
  sha256 : bytes -> bytes;
  sha512 : bytes -> bytes;
  blake3 : bytes -> bytes;
  (** ChaCha20-Poly1305: key, nonce, associated data, message. *)
  aead_encrypt : bytes -> bytes -> bytes -> bytes -> option bytes;
  aead_decrypt : bytes -> bytes -> bytes -> bytes -> option bytes;
  (** X25519: public key of a secret, Diffie-Hellman of a secret and a public key. *)
  x25519_public : bytes -> bytes;
  x25519_dh : bytes -> bytes -> bytes;
  (** Ed25519: is this a verifying key; public key of a seed; sign; verify. *)
  ed25519_key_ok : bytes -> bool;
  ed25519_public : bytes -> bytes;
  ed25519_sign : bytes -> bytes -> bytes;
  ed25519_verify : bytes -> bytes -> bytes -> bool;
  (** ML-KEM-768: key generation from 64 random bytes (public, secret), parse
      checks, encapsulation (public key, coins), decapsulation. *)
  mlkem_keygen : bytes -> option (bytes * bytes);
  mlkem_ek_ok : bytes -> bool;
  mlkem_dk_ok : bytes -> bool;
  mlkem_ct_ok : bytes -> bool;
  mlkem_ek_of : bytes -> bytes;
  mlkem_encaps : bytes -> bytes -> option (bytes * bytes);
  mlkem_decaps : bytes -> bytes -> option bytes;
  (** Argon2id: password, salt, memory, iterations, parallelism. *)
  argon2id : bytes -> bytes -> Z -> Z -> Z -> option bytes
}.

(** Output limit of HKDF with SHA-256: 255 blocks of 32 bytes. *)
Definition HKDF_MAX : nat := 255 * 32.

Class PrimitiveLaws (P : Primitives) := {
  hmac_len k d : length (hmac_sha256 k d) = 32%nat;
  hkdf_ok s i n l : (l <= HKDF_MAX)%nat ->
    exists o, hkdf_sha256 s i n l = Some o /\ length o = l;
  hkdf_too_long s i n l : (HKDF_MAX < l)%nat -> hkdf_sha256 s i n l = None;
  sha256_len d : length (sha256 d) = 32%nat;
  sha512_len d : length (sha512 d) = 64%nat;
  blake3_len d : length (blake3 d) = 32%nat;
  (** Encryption succeeds on every message the code can form and adds the tag. *)
  aead_ok k n ad m : exists ct, aead_encrypt k n ad m = Some ct /\
    length ct = (length m + 16)%nat;
  aead_correct k n ad m ct :
    aead_encrypt k n ad m = Some ct -> aead_decrypt k n ad ct = Some m;
  x25519_public_len s : length s = 32%nat -> length (x25519_public s) = 32%nat;
  x25519_dh_len s p : length s = 32%nat -> length p = 32%nat -> length (x25519_dh s p) = 32%nat;
  x25519_comm a b : length a = 32%nat -> length b = 32%nat ->
    x25519_dh a (x25519_public b) = x25519_dh b (x25519_public a);
  ed25519_sign_len s m : length (ed25519_sign s m) = 64%nat;
  ed25519_public_ok s : length s = 32%nat ->
    ed25519_key_ok (ed25519_public s) = true /\ length (ed25519_public s) = 32%nat;
  ed25519_correct s m : length s = 32%nat ->
    ed25519_verify (ed25519_public s) m (ed25519_sign s m) = true;
  mlkem_correct dk coins ss ct : mlkem_dk_ok dk = true ->
    mlkem_encaps (mlkem_ek_of dk) coins = Some (ss, ct) -> mlkem_decaps dk ct = Some ss;
  (** Encapsulation fails only when its random source does. *)
  mlkem_encaps_ok ek coins : mlkem_ek_ok ek = true -> exists ss ct, mlkem_encaps ek coins = Some (ss, ct);
  mlkem_lens ek coins ss ct : mlkem_encaps ek coins = Some (ss, ct) ->
    length ss = 32%nat /\ length ct = 1088%nat /\ mlkem_ct_ok ct = true;
  mlkem_keygen_ok coins : exists dk, mlkem_keygen coins = Some (mlkem_ek_of dk, dk) /\
    mlkem_dk_ok dk = true /\ length dk = 2400%nat;
  mlkem_ek_of_ok dk : mlkem_dk_ok dk = true ->
    mlkem_ek_ok (mlkem_ek_of dk) = true /\ length (mlkem_ek_of dk) = 1184%nat
}.

Lemma hkdf_len {P : Primitives} {L : PrimitiveLaws P} s i n l o :
  hkdf_sha256 s i n l = Some o -> length o = l.
Proof.
  intros E. destruct (le_lt_dec l HKDF_MAX) as [Hl|Hl].
  - destruct (hkdf_ok s i n l Hl) as (o' & E' & ?). congruence.
  - rewrite hkdf_too_long in E by lia. done.
Qed.

(** ** A toy instance *)
Module Toy.

(** A position-dependent checksum of a byte string. *)
Fixpoint mix (acc : Z) (l : bytes) : Z :=
  match l with
  | [] => acc
  | b :: t => mix ((acc * 31 + b2z b + 7) mod 65521) t
  end.

(** [n] bytes generated from a seed. *)
Fixpoint gen (n : nat) (seed : Z) : bytes :=
  match n with
  | O => []
  | S k => z2b (seed / 8) :: gen k ((seed * 75 + 74) mod 65537)
  end.

Definition tag (k n ad m : bytes) : bytes := gen 16 (mix (mix (mix (mix 3 k) n) ad) m).

Definition zip_xor (a b : bytes) : bytes :=
  zip_with (fun x y => z2b (Z.lxor (b2z x) (b2z y))) a b.

Definition norm32 (l : bytes) : bytes := take 32 (l ++ zeros 32).

Definition opt_bytes (o : option bytes) : bytes := from_option id [] o.

Definition mlkem_ss (ek coins : bytes) : bytes := gen 32 (mix (mix 11 ek) coins).

End Toy.

#[local] Instance toy : Primitives := {|
  hmac_sha256 k d := Toy.gen 32 (Toy.mix (Toy.mix 5 k) d);
  hkdf_sha256 s i n l :=
    if bool_decide (l <= HKDF_MAX)%nat
    then Some (Toy.gen l (Toy.mix (Toy.mix (Toy.mix 9 (Toy.opt_bytes s)) i) n)) else None;
  hkdf_sha512 s i n l :=
    if bool_decide (l <= 255 * 64)%nat
    then Some (Toy.gen l (Toy.mix (Toy.mix (Toy.mix 13 (Toy.opt_bytes s)) i) n)) else None;
  sha256 d := Toy.gen 32 (Toy.mix 17 d);
  sha512 d := Toy.gen 64 (Toy.mix 19 d);
  blake3 d := Toy.gen 32 (Toy.mix 23 d);
  aead_encrypt k n ad m := Some (m ++ Toy.tag k n ad m);
  aead_decrypt k n ad ct :=
    let m := take (length ct - 16) ct in
    if bool_decide (ct = m ++ Toy.tag k n ad m) then Some m else None;
  x25519_public s := s;
  x25519_dh a b := Toy.zip_xor a b;
  ed25519_key_ok k := bool_decide (length k = 32%nat);
  ed25519_public s := s;
  ed25519_sign s m := Toy.gen 64 (Toy.mix (Toy.mix 29 s) m);
  ed25519_verify k m sg := bool_decide (sg = Toy.gen 64 (Toy.mix (Toy.mix 29 k) m));
  mlkem_keygen coins := let dk := take 2400 (coins ++ zeros 2400) in Some (take 1184 dk, dk);
  mlkem_ek_ok k := bool_decide (length k = 1184%nat);
  mlkem_dk_ok k := bool_decide (length k = 2400%nat);
  mlkem_ct_ok k := bool_decide (length k = 1088%nat);
  mlkem_ek_of dk := take 1184 dk;
  mlkem_encaps ek coins := Some (Toy.mlkem_ss ek (Toy.norm32 coins), Toy.norm32 coins ++ zeros 1056);
  mlkem_decaps dk ct := Some (Toy.mlkem_ss (take 1184 dk) (take 32 ct));
  argon2id p s m t l :=
    if (m <? 8) || (t <? 1) || (l <? 1) then None else Some (Toy.gen 32 (Toy.mix (Toy.mix 31 p) s))
|}.

Lemma length_toy_gen n s : length (Toy.gen n s) = n.
Proof. revert s. induction n; intros; simpl; by rewrite ?IHn. Qed.

Lemma length_toy_norm32 l : length (Toy.norm32 l) = 32%nat.
Proof. unfold Toy.norm32. rewrite length_take, length_app, length_zeros. lia. Qed.

Lemma toy_aead_correct k n ad m :
  aead_decrypt k n ad (m ++ Toy.tag k n ad m) = Some m.
Proof.
  simpl.
  assert (E : take (length (m ++ Toy.tag k n ad m) - 16) (m ++ Toy.tag k n ad m) = m).
  { unfold Toy.tag. rewrite length_app, length_toy_gen, Nat.add_sub. apply take_app_length. }
  rewrite E. by rewrite bool_decide_eq_true_2.
Qed.

Lemma toy_mlkem_correct dk coins :
  mlkem_decaps dk (Toy.norm32 coins ++ zeros 1056)
  = Some (Toy.mlkem_ss (mlkem_ek_of dk) (Toy.norm32 coins)).
Proof.
  simpl. do 2 f_equal. rewrite <- (length_toy_norm32 coins) at 1. apply take_app_length.
Qed.

Lemma length_zip_xor a b : length (Toy.zip_xor a b) = Nat.min (length a) (length b).
Proof. unfold Toy.zip_xor. apply length_zip_with. Qed.

Lemma zip_xor_comm a b : Toy.zip_xor a b = Toy.zip_xor b a.
Proof.
  unfold Toy.zip_xor. revert b. induction a as [|x a IH]; intros [|y b]; simpl; try done.
  by rewrite Z.lxor_comm, IH.
Qed.

#[local] Instance toy_laws : PrimitiveLaws toy.
Proof.
  split; intros.
  - apply length_toy_gen.
  - unfold hkdf_sha256, toy. rewrite bool_decide_eq_true_2 by done.
    eexists; split; [done | apply length_toy_gen].
  - unfold hkdf_sha256, toy. by rewrite bool_decide_eq_false_2 by lia.
  - apply length_toy_gen.
  - apply length_toy_gen.
  - apply length_toy_gen.
  - eexists; split; [done|]. unfold Toy.tag. by rewrite length_app, length_toy_gen.
  - unfold aead_encrypt, toy in *. simplify_eq. apply toy_aead_correct.
  - done.
  - unfold x25519_dh, toy. rewrite length_zip_xor. lia.
  - apply zip_xor_comm.
  - apply length_toy_gen.
  - unfold ed25519_key_ok, ed25519_public, toy. by rewrite bool_decide_eq_true_2.
  - unfold ed25519_verify, ed25519_public, ed25519_sign, toy. by rewrite bool_decide_eq_true_2.
  - unfold mlkem_encaps, toy in *. simplify_eq. apply toy_mlkem_correct.
  - unfold mlkem_encaps, toy. eauto.
  - unfold mlkem_encaps, toy in *. simplify_eq. split; [apply length_toy_gen|].
    assert (HL : length (Toy.norm32 coins ++ zeros 1056) = 1088%nat)
      by (by rewrite length_app, length_toy_norm32, length_zeros).
    split; [done|]. by apply bool_decide_eq_true_2.
  - exists (take 2400 (coins ++ zeros 2400)).
    assert (HL : length (take 2400 (coins ++ zeros 2400)) = 2400%nat)
      by (rewrite length_take, length_app, length_zeros; lia).
    split; [done|]. split; [by apply bool_decide_eq_true_2 | done].
  - unfold mlkem_dk_ok, toy in *. apply bool_decide_eq_true_1 in H.
    assert (HL : length (take 1184 dk) = 1184%nat) by (rewrite length_take; lia).
    split; [by apply bool_decide_eq_true_2 | done].
Qed.
