(* ===== verification/Compare.v ===== *)
(** * Constant-time comparison ([core/src/crypto/secure_compare.rs])

    The functional behaviour of the comparison helpers.  [ct_eq] and the
    [Choice] operations of the [subtle] crate are read as their documented
    values: a [Choice] is a boolean, [ct_eq] is 1 exactly on equal inputs and 0
    on slices of different lengths. *)

From S2P Require Import Prelude Primitives.
#[local] Open Scope Z_scope.

(** ** Operations *)

Definition ct_eq_byte (a b : u8) : bool := Byte.eqb a b.
Definition ct_eq (a b : bytes) : bool := bool_decide (a = b).

Definition constant_time_eq (a b : bytes) : bool :=
  if negb (len a =? len b) then false else ct_eq a b.

(** [val.conditional_assign(&a, choice)]. *)
Definition conditional_assign {A} (val a : A) (choice : bool) : A := if choice then a else val.

Definition constant_time_select (condition : bool) (a b : u8) : u8 :=
  conditional_assign b a condition.

(** Returns the new contents of [dst] and the flag. *)
Definition constant_time_copy (condition : bool) (dst src : bytes) : bytes * bool :=
  if negb (len dst =? len src) then (dst, false)
  else (zip_with (fun d s => conditional_assign d s condition) dst src, true).

Definition constant_time_is_zero (slice : bytes) : bool :=
  foldl (fun all_zero byte => all_zero && ct_eq_byte byte x00) true slice.

Definition constant_time_contains (slice : bytes) (target : u8) : bool :=
  foldl (fun found byte => found || ct_eq_byte byte target) false slice.

Definition constant_time_memcmp (a b : bytes) : Z :=
  if negb (len a =? len b) then -1 else if ct_eq a b then 0 else 1.

Definition secure_zero (memory : bytes) : bytes := zeros (length memory).

Definition verify_hmac {P : Primitives} (key data mac : bytes) : bool :=
  ct_eq (hmac_sha256 key data) mac.

Definition secure_password_compare (a b : bytes) : bool :=
  if negb (len a =? len b) then false else ct_eq a b.

(** The loop of [batch_constant_time_compare]: [i] is the enumeration index,
    which is stored truncated to [u32]. *)
Fixpoint batch_loop (value : bytes) (cands : list bytes) (i : Z)
    (match_index : Z) (found : bool) : Z * bool :=
  match cands with
  | [] => (match_index, found)
  | candidate :: rest =>
      let is_match := if negb (len value =? len candidate) then false else ct_eq value candidate in
      let update := negb found && is_match in
      batch_loop value rest (i + 1)
        (conditional_assign match_index (i mod (U32_MAX + 1)) update) (found || is_match)
  end.

Definition batch_constant_time_compare (value : bytes) (candidates : list bytes) : option Z :=
  let '(match_index, found) := batch_loop value candidates 0 U32_MAX false in
  if found then Some match_index else None.

(** ** Lemmas *)

Lemma ct_eq_true a b : ct_eq a b = true <-> a = b.
Proof. apply bool_decide_eq_true. Qed.

Lemma constant_time_eq_true a b : constant_time_eq a b = true <-> a = b.
Proof.
  unfold constant_time_eq. split_guard; [by rewrite ct_eq_true|].
  split; [done|]. intros ->. rewrite Z.eqb_refl in *. done.
Qed.

Lemma constant_time_eq_refl a : constant_time_eq a a = true.
Proof. by apply constant_time_eq_true. Qed.

Lemma constant_time_eq_false a b : constant_time_eq a b = false <-> a <> b.
Proof. rewrite <- not_true_iff_false, constant_time_eq_true. done. Qed.

Lemma constant_time_eq_decide a b : constant_time_eq a b = bool_decide (a = b).
Proof.
  case_bool_decide; [by apply constant_time_eq_true | by apply constant_time_eq_false].
Qed.

Lemma is_zero_foldl l acc :
  foldl (fun z b => z && ct_eq_byte b x00) acc l = acc && all_zero l.
Proof.
  revert acc. induction l as [|b l IH]; intros acc; simpl; [by rewrite andb_true_r|].
  rewrite IH. unfold all_zero, ct_eq_byte. by rewrite andb_assoc.
Qed.

(** The accumulating loop agrees with the short-circuiting [iter().all]. *)
Lemma constant_time_is_zero_all l : constant_time_is_zero l = all_zero l.
Proof. unfold constant_time_is_zero. by rewrite is_zero_foldl. Qed.

Lemma contains_foldl l t acc :
  foldl (fun f b => f || ct_eq_byte b t) acc l = acc || bool_decide (t ∈ l).
Proof.
  revert acc. induction l as [|b l IH]; intros acc; cbn [foldl].
  - rewrite (bool_decide_eq_false_2 (t ∈ [])); [by rewrite orb_false_r | apply not_elem_of_nil].
  - rewrite IH. unfold ct_eq_byte. destruct (Byte.eqb b t) eqn:E.
    + apply byte_eqb_eq in E as ->. rewrite orb_true_r.
      rewrite (bool_decide_eq_true_2 (t ∈ t :: l)); [by rewrite orb_true_r | constructor].
    + rewrite orb_false_r. f_equal. apply bool_decide_ext. rewrite elem_of_cons.
      split; [by right|]. intros [->|]; [|done]. by rewrite (proj2 (byte_eqb_eq b b)) in E.
Qed.

Lemma constant_time_contains_spec l t : constant_time_contains l t = bool_decide (t ∈ l).
Proof. unfold constant_time_contains. by rewrite contains_foldl. Qed.

Lemma batch_loop_found value cands i mi :
  batch_loop value cands i mi true = (mi, true).
Proof.
  revert i. induction cands as [|c cs IH]; intros i; simpl; [done|]. apply IH.
Qed.

(** The reference: position of the first candidate equal to [value]. *)
Definition first_match (value : bytes) (cands : list bytes) : option nat :=
  fst <$> list_find (fun c => c = value) cands.

Lemma first_match_cons value c cs :
  first_match value (c :: cs)
  = if bool_decide (c = value) then Some O else S <$> first_match value cs.
Proof.
  unfold first_match. simpl. case_decide; case_bool_decide; try done.
  by destruct (list_find _ cs) as [[]|].
Qed.

Lemma batch_loop_search value cands i mi :
  0 <= i -> i + len cands <= U32_MAX ->
  batch_loop value cands i mi false =
    match first_match value cands with
    | Some k => (i + Z.of_nat k, true)
    | None => (mi, false)
    end.
Proof.
  revert i mi. induction cands as [|c cs IH]; intros i mi Hi Hb; simpl; [done|].
  rewrite first_match_cons. unfold len in *. simpl length in Hb. rewrite Nat2Z.inj_succ in Hb.
  replace (if negb (Z.of_nat (length value) =? Z.of_nat (length c)) then false else ct_eq value c)
    with (constant_time_eq value c) by done.
  rewrite constant_time_eq_decide. case_bool_decide as E.
  - subst c. rewrite bool_decide_eq_true_2 by done. simpl. rewrite batch_loop_found.
    rewrite Z.mod_small by lia. f_equal. lia.
  - rewrite bool_decide_eq_false_2 by congruence. simpl. rewrite IH by lia.
    destruct (first_match value cs); simpl; [|done]. f_equal. lia.
Qed.

(** ** Properties *)

(** [batch_constant_time_compare] returns the position of the first
    candidate equal to the value and [None] when no candidate is equal, for any
    list whose positions fit in the [u32] index. *)
Theorem batch_constant_time_compare_first value candidates :
  len candidates <= U32_MAX ->
  batch_constant_time_compare value candidates = Z.of_nat <$> first_match value candidates.
Proof.
  intros H. unfold batch_constant_time_compare. rewrite batch_loop_search by (done || lia).
  by destruct (first_match value candidates).
Qed.

Lemma batch_constant_time_compare_first_witness :
  batch_constant_time_compare [x02] [[x01]; [x02; x03]; [x02]; [x02]] = Some 2.
Proof. rewrite batch_constant_time_compare_first; [reflexivity | vm_compute; discriminate]. Defined.
