(* ===== verification/Random.v ===== *)
(** * The random generator ([core/src/crypto/random.rs])

    [SecureRandom] keeps a 64-byte entropy pool, seeds it from the operating
    system, the process id and the clock, and derives every output through
    HKDF from fresh operating-system bytes.  [OsRng] is taken to deliver the
    bytes it is asked for; memory pinning has no functional effect. *)

From S2P Require Import Prelude Effects Errors Primitives.
From stdpp Require Import pretty.
#[local] Open Scope Z_scope.
#[local] Open Scope sibna_scope.

Definition ENTROPY_POOL_SIZE : nat := 64.

Record SecureRandom := mkSecureRandom {
  entropy_pool : bytes;
  bytes_generated : Z;
  max_bytes_before_reseed : Z
}.

Definition xor_byte (a b : u8) : u8 := z2b (Z.lxor (b2z a) (b2z b)).

(** [u8::rotate_left]. *)
Definition rotate_left (k : Z) (b : u8) : u8 :=
  z2b (Z.lor (Z.shiftl (b2z b) k) (Z.shiftr (b2z b) (8 - k))).

Definition wrapping_add8 (a b : u8) : u8 := z2b (b2z a + b2z b).

(** [for (i, &b) in ... .enumerate() { pool[i % 64] ^= b }]. *)
Fixpoint mix_noise (i : nat) (noise : bytes) (pool : bytes) : bytes :=
  match noise with
  | [] => pool
  | b :: rest =>
      mix_noise (S i) rest (alter (fun p => xor_byte p b) (i mod ENTROPY_POOL_SIZE)%nat pool)
  end.

(** The loop of [update_entropy_pool] over the 32 bytes of the hash. *)
Fixpoint mix_hash (i : nat) (hash generated pool : bytes) : bytes :=
  match hash with
  | [] => pool
  | byte :: rest =>
      let g := default x00 (generated !! (i mod length generated)%nat) in
      mix_hash (S i) rest generated
        (alter (fun p => wrapping_add8 (rotate_left 5 (wrapping_add8 p byte)) g)
               (i mod ENTROPY_POOL_SIZE)%nat pool)
  end.

Definition random_zeroize (s : SecureRandom) : SecureRandom :=
  mkSecureRandom (zeros (length (entropy_pool s))) 0 (max_bytes_before_reseed s).

Section Random.
Context {P : Primitives}.

Definition SecureRandom_new : IO CryptoError.t SecureRandom :=
  let* pool := os_bytes ENTROPY_POOL_SIZE in
  let* t := read_clock in
  fun env =>
  (let now := default ((U64_MAX / 2) * NANOS) t in
   let pool := mix_noise 0 (u32_le (e_pid env) ++ to_le 16 now) pool in
   if all_zero pool then io_res (Err CryptoError.RandomFailed)
   else io_ret (mkSecureRandom pool 0 1000000)) env.

Definition reseed {E} : M SecureRandom E unit :=
  let! pool := lift (os_bytes ENTROPY_POOL_SIZE) in
  modify (fun s => mkSecureRandom pool 0 (max_bytes_before_reseed s)).

(** [i % generated.len()] divides by zero on an empty buffer. *)
Definition update_entropy_pool {E} (generated : bytes) : M SecureRandom E unit :=
  let! s := get in
  if (length generated =? 0)%nat then res Panic
  else
    let hash := sha256 (entropy_pool s ++ generated) in
    put (mkSecureRandom (mix_hash 0 hash generated (entropy_pool s))
           (bytes_generated s) (max_bytes_before_reseed s)).

Definition CHUNK : nat := 8 * 1000.

(** The chunked fallback for requests above the HKDF output limit. *)
Fixpoint fill_chunks (fuel : nat) (pool os : bytes) (offset total : nat) : bytes :=
  match fuel with
  | O => []
  | S fuel =>
      if (offset <? total)%nat then
        let stop := Nat.min (offset + CHUNK) total in
        let info := bstr ("SibnaSecureRandom_v3_chunk_" +:+ pretty (N.of_nat offset)) in
        default (zeros (stop - offset)) (hkdf_sha256 (Some pool) os info (stop - offset))
        ++ fill_chunks fuel pool os stop total
      else []
  end.

(** [fill_bytes] on a zeroed buffer of [n] bytes; the result is the buffer. *)
Definition fill_bytes {E} (n : nat) : M SecureRandom E bytes :=
  let! s := get in
  let! _ := (if max_bytes_before_reseed s <? sat_add U64_MAX (bytes_generated s) (Z.of_nat n)
             then reseed else ret tt) in
  let! os := lift (os_bytes n) in
  let! s := get in
  let buf := match hkdf_sha256 (Some (entropy_pool s)) os (bstr "SibnaSecureRandom_v3") n with
             | Some out => out
             | None => fill_chunks (S n) (entropy_pool s) os 0 n
             end in
  let! _ := update_entropy_pool buf in
  let! _ := modify (fun s => mkSecureRandom (entropy_pool s)
                               (sat_add U64_MAX (bytes_generated s) (len buf))
                               (max_bytes_before_reseed s)) in
  ret buf.

Definition next_u64 {E} : M SecureRandom E Z :=
  let! buf := fill_bytes 8 in ret (from_le buf).

Definition next_u32 {E} : M SecureRandom E Z :=
  let! buf := fill_bytes 4 in ret (from_le buf).

Definition gen_bytes {E} (n : nat) : M SecureRandom E bytes := fill_bytes n.

(** [u64::next_power_of_two]; the result must fit the type. *)
Definition next_power_of_two (z : Z) : option Z :=
  let p := if z <=? 1 then 1 else 2 ^ Z.log2_up z in
  if p <=? U64_MAX then Some p else None.

(** The rejection loop of [gen_range]; [None] when [fuel] draws were rejected. *)
Fixpoint gen_range_loop {E} (fuel : nat) (mask max : Z) : M SecureRandom E (option Z) :=
  match fuel with
  | O => ret None
  | S fuel =>
      let! v := next_u64 in
      let val := Z.land v mask in
      if val <? max then ret (Some val) else gen_range_loop fuel mask max
  end.

Definition gen_range {E} (fuel : nat) (max : Z) : M SecureRandom E (option Z) :=
  if max =? 0 then ret (Some 0)
  else
    let! p := res (or_panic (next_power_of_two max)) in
    gen_range_loop fuel (p - 1) max.

Definition needs_reseed (s : SecureRandom) : bool :=
  max_bytes_before_reseed s <=? bytes_generated s.

(** A generator used once: [let mut rng = SecureRandom::new()?; rng.fill_bytes(&mut buf)]. *)
Definition fresh_bytes (n : nat) : IO CryptoError.t bytes :=
  let* rng := SecureRandom_new in
  let* (buf, _) := run_on (fill_bytes n) rng in
  io_ret buf.

(** *** The thread's generator

    [THREAD_RNG], a [RefCell<Option<SecureRandom>>], is the state; it is made on
    first use, and stays [None] when that fails. *)

Definition with_thread_rng {A} (f : M SecureRandom CryptoError.t A) : M (option SecureRandom) CryptoError.t A :=
  let! cell := get in
  let! rng := match cell with
              | Some rng => ret rng
              | None => let! rng := lift SecureRandom_new in let! _ := put (Some rng) in ret rng
              end in
  zoom (fun _ => rng) (fun rng _ => Some rng) f.

(** The buffer keeps its zeros when the generator cannot be made. *)
Definition random_vec {E} (n : nat) : M (option SecureRandom) E bytes :=
  let! r := m_try (with_thread_rng (fill_bytes n)) in
  ret (match r with Ok buf => buf | _ => zeros n end).

Definition random_u64 {E} : M (option SecureRandom) E Z :=
  let! r := m_try (with_thread_rng next_u64) in
  ret (match r with Ok v => v | _ => 0 end).

(** [slice.swap(i, j)]. *)
Definition swap {A} (i j : nat) (l : list A) : option (list A) :=
  match l !! i, l !! j with
  | Some a, Some b => Some (<[i := b]> (<[j := a]> l))
  | _, _ => None
  end.

(** [for i in (1..len).rev()]; [None] when a draw ran out of [fuel]. *)
Fixpoint shuffle_loop {A E} (fuel i : nat) (l : list A) : M SecureRandom E (option (list A)) :=
  match i with
  | O => ret (Some l)
  | S i' =>
      let! j := gen_range fuel (Z.of_nat i + 1) in
      match j with
      | None => ret None
      | Some j => let! l := res (or_panic (swap i (Z.to_nat j) l)) in shuffle_loop fuel i' l
      end
  end.

Definition shuffle {A E} (fuel : nat) (l : list A) : M (option SecureRandom) E (option (list A)) :=
  if (length l <=? 1)%nat then ret (Some l)
  else
    let! r := m_try (with_thread_rng (shuffle_loop fuel (length l - 1) l)) in
    ret (match r with Ok o => o | _ => Some l end).

Definition CHARSET : bytes := bstr "ABCDEFGHIJKLMNOPQRSTUVWXYZabcdefghijklmnopqrstuvwxyz0123456789".

Fixpoint alphanumeric_loop {E} (fuel n : nat) : M SecureRandom E (option bytes) :=
  match n with
  | O => ret (Some [])
  | S n =>
      let! j := gen_range fuel (len CHARSET) in
      match j with
      | None => ret None
      | Some j =>
          let! b := res (or_panic (CHARSET !! Z.to_nat j)) in
          let! rest := alphanumeric_loop fuel n in
          ret (option_map (cons b) rest)
      end
  end.

Definition random_alphanumeric {E} (fuel n : nat) : M (option SecureRandom) E (option bytes) :=
  let! r := m_try (with_thread_rng (alphanumeric_loop fuel n)) in
  ret (match r with Ok o => o | _ => Some (repeat x30 n) end).

(** At least eight distinct bytes in a sample of 32. *)
Definition check_entropy : M (option SecureRandom) CryptoError.t unit :=
  let! buf := random_vec 32 in
  if all_zero buf then res (Err CryptoError.InsufficientEntropy)
  else if (size (list_to_set buf : gset u8) <? 8)%nat then res (Err CryptoError.InsufficientEntropy)
  else ret tt.

(** ** Lengths *)

Lemma length_mix_noise i noise pool : length (mix_noise i noise pool) = length pool.
Proof.
  revert i pool. induction noise as [|b n IH]; intros i pool; simpl; [done|].
  by rewrite IH, length_alter.
Qed.

Lemma length_mix_hash i h g pool : length (mix_hash i h g pool) = length pool.
Proof.
  revert i pool. induction h as [|b n IH]; intros i pool; simpl; [done|].
  by rewrite IH, length_alter.
Qed.

Context {L : PrimitiveLaws P}.

Lemma length_fill_chunks fuel pool os offset total :
  (total - offset < fuel)%nat ->
  length (fill_chunks fuel pool os offset total) = (total - offset)%nat.
Proof.
  revert offset. induction fuel as [|fuel IH]; intros offset Hf; [lia|].
  cbn [fill_chunks]. destruct (Nat.ltb_spec offset total); [|simpl; lia].
  set (stop := Nat.min (offset + CHUNK) total).
  assert (Hs : (offset < stop <= total)%nat) by (unfold stop, CHUNK; lia).
  destruct (hkdf_ok (Some pool) os
    (bstr ("SibnaSecureRandom_v3_chunk_" +:+ pretty (N.of_nat offset))) (stop - offset))
    as (o & -> & Ho); [unfold HKDF_MAX, stop, CHUNK; lia|].
  cbn [from_option]. rewrite length_app, IH by lia. unfold id. lia.
Qed.

#[local] Arguments fill_chunks : simpl never.

(** [fill_bytes] on a non-empty buffer always returns that many bytes. *)
Lemma fill_bytes_ok {E} n env s c :
  (0 < n)%nat -> exists buf s' c', fill_bytes (E := E) n env s c = (Ok buf, s', c') /\
    length buf = n.
Proof.
  intros Hn. unfold fill_bytes, bind, get, lift, reseed, ret, os_bytes, modify.
  set (s1 := if max_bytes_before_reseed s <? _ then _ else _).
  assert (E1 : exists s2 c2, s1 env s c = (Ok tt, s2, c2)) by (unfold s1; split_guard; eauto).
  destruct E1 as (s2 & c2 & E1). rewrite E1. simpl.
  set (buf := match hkdf_sha256 _ _ _ _ with Some _ => _ | None => _ end).
  assert (Hb : length buf = n).
  { unfold buf. destruct (hkdf_sha256 _ _ _ _) eqn:Eh.
    - eapply hkdf_len; eassumption.
    - rewrite length_fill_chunks; lia. }
  unfold update_entropy_pool, bind, get, put. rewrite Hb.
  destruct (Nat.eqb_spec n 0); [lia|]. eauto 10.
Qed.

(** An empty request panics in [update_entropy_pool]. *)
Lemma fill_bytes_empty {E} env s c :
  exists s' c', fill_bytes (E := E) 0 env s c = (Panic, s', c').
Proof.
  unfold fill_bytes, bind, get, lift, reseed, ret, os_bytes, modify.
  set (s1 := if max_bytes_before_reseed s <? _ then _ else _).
  assert (E1 : exists s2 c2, s1 env s c = (Ok tt, s2, c2)) by (unfold s1; split_guard; eauto).
  destruct E1 as (s2 & c2 & E1). rewrite E1. simpl.
  destruct (hkdf_ok (Some (entropy_pool s2)) [] (bstr "SibnaSecureRandom_v3") 0)
    as (o & -> & Ho); [unfold HKDF_MAX; lia|].
  apply nil_length_inv in Ho as ->. unfold update_entropy_pool, bind, get. simpl. eauto.
Qed.

Lemma next_u32_ok {E} env s c :
  exists v s' c', next_u32 (E := E) env s c = (Ok v, s', c') /\ is_u32 v.
Proof.
  destruct (fill_bytes_ok (E := E) 4 env s c) as (b & s' & c' & Eb & Hb); [lia|].
  exists (from_le b), s', c'. unfold next_u32, bind, ret. rewrite Eb.
  split; [done | by apply from_le_is_u32].
Qed.

(** ** A healthy random source *)

(** Every window of 64 bytes has a non-zero byte outside the twenty positions
    that process id and clock are mixed into. *)
Definition rng_healthy (env : Env) : Prop :=
  forall p : nat, exists j : nat, (20 <= j < 64)%nat /\ e_os env (p + j)%nat <> x00.

Lemma mix_noise_lookup noise i pool j :
  (i + length noise <= 64)%nat -> (i + length noise <= j)%nat ->
  mix_noise i noise pool !! j = pool !! j.
Proof.
  revert i pool. induction noise as [|b n IH]; intros i pool H1 H2;
    cbn [mix_noise length] in *; [done|].
  rewrite IH by lia. unfold ENTROPY_POOL_SIZE. rewrite Nat.mod_small by lia.
  apply list_lookup_alter_ne. lia.
Qed.

Lemma SecureRandom_new_ok env c :
  rng_healthy env -> exists s c', SecureRandom_new env c = (Ok s, c').
Proof.
  intros Hh. unfold SecureRandom_new, io_bind, os_bytes, read_clock, io_res, io_ret.
  set (pool := mix_noise _ _ _).
  assert (Hz : all_zero pool = false); [|rewrite Hz; eauto].
  apply not_true_iff_false. rewrite all_zero_spec. intros Hall.
  destruct (Hh (c_os c)) as (j & Hj & Hne). apply Hne.
  assert (El : pool !! j = Some (e_os env (c_os c + j)%nat)).
  { unfold pool. rewrite mix_noise_lookup; rewrite ?length_app, ?length_to_le; try lia.
    rewrite list_lookup_fmap, lookup_seq_lt by (unfold ENTROPY_POOL_SIZE; lia). done. }
  rewrite Hall in El. unfold zeros in El. apply lookup_replicate in El as [? _]. done.
Qed.

Lemma fresh_bytes_ok env c n :
  rng_healthy env -> (0 < n)%nat ->
  exists buf c', fresh_bytes n env c = (Ok buf, c') /\ length buf = n.
Proof.
  intros Hh Hn. unfold fresh_bytes.
  destruct (SecureRandom_new_ok env c Hh) as (s & c1 & E1).
  rewrite (io_bind_ok _ _ _ _ _ _ E1).
  destruct (fill_bytes_ok (E := CryptoError.t) n env s c1 Hn) as (b & s2 & c2 & E2 & Hl).
  unfold io_bind, run_on. rewrite E2. unfold io_ret. eauto.
Qed.

(** What a successful draw looks like, without a healthy source. *)
Lemma fresh_bytes_len env c n buf c' :
  (0 < n)%nat -> fresh_bytes n env c = (Ok buf, c') -> length buf = n.
Proof.
  intros Hn. unfold fresh_bytes, io_bind.
  destruct (SecureRandom_new env c) as [[s|e|] c1]; try done.
  destruct (fill_bytes_ok (E := CryptoError.t) n env s c1 Hn) as (b & s2 & c2 & E2 & Hl).
  unfold run_on, io_ret. rewrite E2. intros [= <- <-]. done.
Qed.

Lemma SecureRandom_new_no_panic env c c' : SecureRandom_new env c <> (Panic, c').
Proof. unfold SecureRandom_new, io_bind, os_bytes, read_clock, io_res, io_ret. by split_guard. Qed.

Lemma fresh_bytes_no_panic env c n c' : (0 < n)%nat -> fresh_bytes n env c <> (Panic, c').
Proof.
  intros Hn. unfold fresh_bytes, io_bind.
  destruct (SecureRandom_new env c) as [[s|e|] c1] eqn:E1; try done.
  - destruct (fill_bytes_ok (E := CryptoError.t) n env s c1 Hn) as (b & s2 & c2 & E2 & Hl).
    unfold run_on, io_ret. rewrite E2. done.
  - by apply SecureRandom_new_no_panic in E1.
Qed.

(** Drawing bytes only ever consumes clock readings. *)
Lemma fill_bytes_clock {E} n env s c :
  c_clock (snd (fill_bytes (E := E) n env s c)) = c_clock c.
Proof.
  unfold fill_bytes, bind, get, lift, reseed, ret, os_bytes, modify, update_entropy_pool, put, res.
  split_guard; simpl; by destruct (length _ =? 0)%nat.
Qed.

Lemma fresh_bytes_clock n env c : (c_clock c <= c_clock (snd (fresh_bytes n env c)))%nat.
Proof.
  unfold fresh_bytes, io_bind, SecureRandom_new, io_bind, os_bytes, read_clock, io_res, io_ret.
  split_guard; simpl; [lia|]. unfold run_on.
  pose proof (fill_bytes_clock (E := CryptoError.t) n env) as H.
  match goal with |- context [fill_bytes n env ?s ?c1] => specialize (H s c1);
    destruct (fill_bytes (E := CryptoError.t) n env s c1) as [[[]]]; simpl in * end; lia.
Qed.

(** ** Properties *)

(** [SecureRandom::fill_bytes] returns exactly the requested number of
    bytes for every non-empty buffer, above the HKDF output limit too, and
    panics (division by zero in [update_entropy_pool]) on an empty one. *)
Theorem fill_bytes_total (E : Type) (n : nat) (env : Env) (s : SecureRandom) (c : Ctr) :
  match fill_bytes (E := E) n env s c with
  | (Ok buf, _, _) => (0 < n)%nat /\ length buf = n
  | (Err _, _, _) => False
  | (Panic, _, _) => n = 0%nat
  end.
Proof.
  destruct n as [|n].
  - destruct (fill_bytes_empty (E := E) env s c) as (s' & c' & ->). done.
  - destruct (fill_bytes_ok (E := E) (S n) env s c) as (b & s' & c' & -> & ?); [lia|].
    split; [lia | done].
Qed.

Lemma gen_range_loop_sound {E} fuel mask max env s c v s' c' :
  0 <= mask -> gen_range_loop (E := E) fuel mask max env s c = (Ok (Some v), s', c') ->
  0 <= v < max.
Proof.
  intros Hm. revert s c. induction fuel as [|fuel IH]; intros s c; [done|].
  cbn [gen_range_loop]. unfold bind, next_u64, bind.
  destruct (fill_bytes 8 env s c) as [[[buf|e|] s1] c1]; try done.
  unfold ret at 1. split_guard; [|apply IH].
  intros [= <- _ _]. split; [|done]. apply Z.land_nonneg. by right.
Qed.

(** A draw below [max]: it never panics, and what it returns is in range. *)
Lemma gen_range_range {E} fuel max env s c :
  0 < max <= 2 ^ 63 ->
  match fst (fst (gen_range (E := E) fuel max env s c)) with
  | Ok (Some v) => 0 <= v < max
  | Ok None => True
  | _ => False
  end.
Proof.
  intros Hm. unfold gen_range. destruct (Z.eqb_spec max 0); [lia|].
  assert (Hp : exists p, next_power_of_two max = Some p /\ 0 < p).
  { unfold next_power_of_two. destruct (Z.leb_spec max 1); [by exists 1|].
    pose proof (Z.log2_up_le_mono max (2 ^ 63) ltac:(lia)) as Hl. rewrite Z.log2_up_pow2 in Hl by lia.
    pose proof (Z.pow_le_mono_r 2 (Z.log2_up max) 63 ltac:(lia) Hl).
    destruct (Z.leb_spec (2 ^ Z.log2_up max) U64_MAX); [|unfold U64_MAX in *; lia].
    eexists. split; [done|]. apply Z.pow_pos_nonneg; [lia|]. apply Z.log2_up_nonneg. }
  destruct Hp as (p & -> & Hp). cbn [or_panic]. unfold bind at 1, res at 1.
  assert (Ht : forall fuel s c, exists o s' c', gen_range_loop (E := E) fuel (p - 1) max env s c = (Ok o, s', c')).
  { clear -L. induction fuel as [|fuel IH]; intros s c; cbn [gen_range_loop]; [unfold ret; eauto|].
    unfold bind at 1, next_u64, bind. destruct (fill_bytes_ok (E := E) 8 env s c) as (b & s' & c' & -> & _); [lia|].
    unfold ret at 1. destruct (_ <? _); [unfold ret; eauto | apply IH]. }
  destruct (Ht fuel s c) as (o & s' & c' & E1). rewrite E1. cbn [fst]. destruct o as [v|]; [|done].
  by eapply gen_range_loop_sound in E1; [|lia].
Qed.

Lemma swap_ok {A} i j (l : list A) : (i < length l)%nat -> (j < length l)%nat ->
  exists l', swap i j l = Some l' /\ l' ≡ₚ l.
Proof.
  intros Hi Hj. unfold swap. destruct (lookup_lt_is_Some_2 l i Hi) as [a Ea].
  destruct (lookup_lt_is_Some_2 l j Hj) as [b Eb]. rewrite Ea, Eb. eexists. split; [done|].
  by apply Permutation_insert_swap.
Qed.

Lemma shuffle_loop_permutes {A E} fuel env : forall i (l : list A) s c,
  (i < length l)%nat -> len l <= 2 ^ 63 ->
  match fst (fst (shuffle_loop (E := E) fuel i l env s c)) with
  | Ok (Some l') => l' ≡ₚ l
  | Ok None => True
  | _ => False
  end.
Proof.
  induction i as [|i IH]; intros l s c Hi Hl; cbn [shuffle_loop]; [by unfold ret; simpl|]. unfold len in Hl.
  pose proof (gen_range_range (E := E) fuel (Z.of_nat (S i) + 1) env s c ltac:(lia)) as Hg.
  unfold bind at 1. destruct (gen_range _ _ _ _ _) as [[[[j|]|e|] s1] c1]; try done. cbn [fst] in Hg.
  destruct (swap_ok (S i) (Z.to_nat j) l) as (l1 & E1 & Hp); [lia | lia |].
  unfold bind at 1, res at 1. rewrite E1. cbn [or_panic].
  pose proof (Permutation_length Hp) as Hlen.
  specialize (IH l1 s1 c1 ltac:(lia) ltac:(unfold len; lia)).
  destruct (shuffle_loop fuel i l1 env s1 c1) as [[[[l'|]|e|] s2] c2]; try done. cbn [fst] in *.
  by rewrite IH.
Qed.

(** Shuffling.  On a slice of at most 2^63 elements, [shuffle] never panics
    and, whenever its rejection sampling returns, leaves a permutation of the
    slice (the slice itself when no generator can be made). *)
Theorem shuffle_permutes (A : Type) (fuel : nat) (l : list A) env cell c :
  len l <= 2 ^ 63 ->
  match fst (fst (shuffle (E := CryptoError.t) fuel l env cell c)) with
  | Ok (Some l') => l' ≡ₚ l
  | Ok None => True
  | _ => False
  end.
Proof.
  intros Hl. unfold shuffle. destruct (Nat.leb_spec (length l) 1); [by unfold ret; simpl|].
  unfold bind at 1, m_try, with_thread_rng, bind at 1, get at 1.
  assert (Hrun : forall rng c, match fst (fst (zoom (fun _ => rng) (fun rng _ => Some rng)
      (shuffle_loop (E := CryptoError.t) fuel (length l - 1) l) env (Some rng) c)) with
    | Ok (Some l') => l' ≡ₚ l | Ok None => True | _ => False end).
  { intros rng c0. pose proof (shuffle_loop_permutes (E := CryptoError.t) fuel env (length l - 1) l rng c0
      ltac:(lia) Hl) as Hs. unfold zoom. by destruct (shuffle_loop _ _ _ _ _ _) as [[r t] c']. }
  destruct cell as [rng|].
  - unfold bind at 1, ret at 1. specialize (Hrun rng c).
    by destruct (zoom _ _ _ env (Some rng) c) as [[[[l'|]|e|] s'] c'].
  - unfold bind at 1. unfold bind at 1, lift at 1.
    destruct (SecureRandom_new env c) as [[rng|e|] c1] eqn:En; [|by unfold ret; simpl|by apply SecureRandom_new_no_panic in En].
    unfold bind at 1, put at 1, ret at 1. specialize (Hrun rng c1).
    by destruct (zoom _ _ _ env (Some rng) c1) as [[[[l'|]|e|] s'] c'].
Qed.

End Random.

Lemma fill_bytes_total_witness :
  match fill_bytes (P := toy) (E := unit) 3
          (mkEnv (fun _ => None) (fun _ => 0) (fun _ => x01) 7) (mkSecureRandom (zeros 64) 0 1000000) ctr0 with
  | (Ok buf, _, _) => length buf = 3%nat
  | _ => False
  end.
Proof.
  pose proof (fill_bytes_total (P := toy) (L := toy_laws) unit 3
    (mkEnv (fun _ => None) (fun _ => 0) (fun _ => x01) 7) (mkSecureRandom (zeros 64) 0 1000000) ctr0) as H.
  destruct (fill_bytes 3 _ _ _) as [[[buf|[]|] s] c]; [exact (proj2 H) | destruct H | discriminate].
Defined.

(** Three elements, shuffled with the operating system's bytes all 1. *)
Lemma shuffle_permutes_witness :
  exists l', fst (fst (shuffle (P := toy) (E := CryptoError.t) 4 [1; 2; 3]
      (mkEnv (fun _ => None) (fun _ => 0) (fun _ => x01) 7) None ctr0)) = Ok (Some l') /\ l' ≡ₚ [1; 2; 3].
Proof.
  pose proof (shuffle_permutes (P := toy) (L := toy_laws) Z 4 [1; 2; 3]
    (mkEnv (fun _ => None) (fun _ => 0) (fun _ => x01) 7) None ctr0) as H.
  destruct (fst (fst (shuffle (P := toy) (E := CryptoError.t) 4 [1; 2; 3] _ None ctr0))) as [[l'|]|e|] eqn:E;
    [|vm_compute in E; discriminate..].
  exists l'. split; [reflexivity|]. apply H. vm_compute. discriminate.
Defined.
