(* ===== verification/Validation.v ===== *)
(** * Input validation ([core/src/validation.rs])

    Every validator is translated with its early returns in order.  A [&str] is
    the list of its [char]s as code points; [str_len] is its UTF-8 length. *)

From S2P Require Import Prelude Effects Errors Compare.
#[local] Open Scope Z_scope.
#[local] Open Scope sibna_scope.

Module limits.
Definition MAX_MESSAGE_SIZE : Z := 10 * 1024 * 1024.
Definition MIN_MESSAGE_SIZE : Z := 1.
Definition MAX_SESSION_ID_LEN : Z := 256.
Definition MIN_SESSION_ID_LEN : Z := 1.
Definition MAX_GROUP_ID_LEN : Z := 64.
Definition MIN_GROUP_ID_LEN : Z := 1.
Definition MAX_AD_LEN : Z := 256.
Definition MAX_KEY_SIZE : Z := 32.
Definition MAX_SIGNATURE_SIZE : Z := 64.
Definition MAX_PASSWORD_LEN : Z := 256.
Definition MIN_PASSWORD_LEN : Z := 8.
Definition MAX_METADATA_SIZE : Z := 4096.
Definition MAX_DEVICE_ID_LEN : Z := 32.
Definition MAX_MESSAGE_NUMBER : Z := 1000000000000.
Definition MAX_CIPHERTEXT_SIZE : Z := MAX_MESSAGE_SIZE + 1024.
Definition MIN_CIPHERTEXT_SIZE : Z := 12 + 16 + 1.
Definition MAX_USERNAME_LEN : Z := 64.
Definition MAX_TIMESTAMP_AGE_SECS : Z := 300.
Definition MAX_TIMESTAMP_FUTURE_SECS : Z := 30.
End limits.

Abbreviation VResult := (Res ValidationError.t).

Definition is_empty {A} (l : list A) : bool := match l with [] => true | _ => false end.

(** [if b { return Err(e) }]. *)
Definition fail_if {E} (b : bool) (e : E) : Res E unit := if b then Err e else Ok tt.

(** ** Byte classes of the standard library *)

Definition is_ascii_uppercase (b : u8) : bool := (65 <=? b2z b) && (b2z b <=? 90).
Definition is_ascii_lowercase (b : u8) : bool := (97 <=? b2z b) && (b2z b <=? 122).
Definition is_ascii_digit (b : u8) : bool := (48 <=? b2z b) && (b2z b <=? 57).
Definition is_ascii_graphic (b : u8) : bool := (33 <=? b2z b) && (b2z b <=? 126).

Definition char_utf8_len (c : Z) : Z :=
  if c <? 128 then 1 else if c <? 2048 then 2 else if c <? 65536 then 3 else 4.
Definition str_len (s : list Z) : Z := foldr (fun c n => char_utf8_len c + n) 0 s.
Definition char_alphabetic (c : Z) : bool :=
  ((65 <=? c) && (c <=? 90)) || ((97 <=? c) && (c <=? 122)).
Definition char_alphanumeric (c : Z) : bool :=
  char_alphabetic c || ((48 <=? c) && (c <=? 57)).
(** [char::is_control]: the Unicode category Cc. *)
Definition char_control (c : Z) : bool :=
  (c <? 32) || ((127 <=? c) && (c <=? 159)).

(** ** Validators *)

Definition validate_message (data : bytes) : VResult unit :=
  let? _ := fail_if (is_empty data) ValidationError.Empty in
  let? _ := fail_if (limits.MAX_MESSAGE_SIZE <? len data)
              (ValidationError.TooLong limits.MAX_MESSAGE_SIZE (len data)) in
  fail_if (len data <? limits.MIN_MESSAGE_SIZE)
    (ValidationError.TooShort limits.MIN_MESSAGE_SIZE (len data)).

Definition validate_message_for_encrypt (data : bytes) : VResult unit :=
  fail_if (limits.MAX_MESSAGE_SIZE <? len data)
    (ValidationError.TooLong limits.MAX_MESSAGE_SIZE (len data)).

Definition validate_ciphertext (data : bytes) : VResult unit :=
  let? _ := fail_if (is_empty data) ValidationError.Empty in
  let? _ := fail_if (len data <? limits.MIN_CIPHERTEXT_SIZE)
              (ValidationError.TooShort limits.MIN_CIPHERTEXT_SIZE (len data)) in
  fail_if (limits.MAX_CIPHERTEXT_SIZE <? len data)
    (ValidationError.TooLong limits.MAX_CIPHERTEXT_SIZE (len data)).

Definition contains_null_byte (data : bytes) : bool := existsb (fun b => Byte.eqb b x00) data.

Definition validate_session_id (id : bytes) : VResult unit :=
  let? _ := fail_if (is_empty id) ValidationError.Empty in
  let? _ := fail_if (limits.MAX_SESSION_ID_LEN <? len id)
              (ValidationError.TooLong limits.MAX_SESSION_ID_LEN (len id)) in
  let? _ := fail_if (len id <? limits.MIN_SESSION_ID_LEN)
              (ValidationError.TooShort limits.MIN_SESSION_ID_LEN (len id)) in
  let? _ := fail_if (contains_null_byte id) ValidationError.NullByte in
  fail_if (existsb (fun b => b2z b <? 32) id) ValidationError.InvalidCharacters.

(** [&key[..half]] and [&key[half..]] with [half = key.len() / 2]. *)
Definition key_halves (key : bytes) : bytes * bytes :=
  (take (length key / 2) key, drop (length key / 2) key).

Definition validate_key (key : bytes) : VResult unit :=
  let? _ := fail_if (negb (len key =? limits.MAX_KEY_SIZE))
              (ValidationError.InvalidLength limits.MAX_KEY_SIZE (len key)) in
  let? _ := fail_if (constant_time_is_zero key)
              (ValidationError.InvalidBytes "Key is all zeros (weak key)") in
  let (lo, hi) := key_halves key in
  fail_if (constant_time_eq lo hi)
    (ValidationError.InvalidBytes "Key has repeating pattern (weak key)").

Definition validate_signature (sig : bytes) : VResult unit :=
  let? _ := fail_if (negb (len sig =? limits.MAX_SIGNATURE_SIZE))
              (ValidationError.InvalidLength limits.MAX_SIGNATURE_SIZE (len sig)) in
  fail_if (constant_time_is_zero sig) (ValidationError.InvalidBytes "Signature is all zeros").

Definition validate_associated_data (ad : bytes) : VResult unit :=
  fail_if (limits.MAX_AD_LEN <? len ad) (ValidationError.TooLong limits.MAX_AD_LEN (len ad)).

Definition validate_password (password : bytes) : VResult unit :=
  let? _ := fail_if (is_empty password) ValidationError.Empty in
  let? _ := fail_if (len password <? limits.MIN_PASSWORD_LEN)
              (ValidationError.TooShort limits.MIN_PASSWORD_LEN (len password)) in
  let? _ := fail_if (limits.MAX_PASSWORD_LEN <? len password)
              (ValidationError.TooLong limits.MAX_PASSWORD_LEN (len password)) in
  let? _ := fail_if (contains_null_byte password) ValidationError.NullByte in
  let has_upper := existsb is_ascii_uppercase password in
  let has_lower := existsb is_ascii_lowercase password in
  let has_digit := existsb is_ascii_digit password in
  fail_if (negb has_upper || negb has_lower || negb has_digit)
    (ValidationError.InvalidBytes "Password must contain uppercase, lowercase, and digit").

Definition validate_group_id (id : bytes) : VResult unit :=
  let? _ := fail_if (is_empty id) ValidationError.Empty in
  let? _ := fail_if (limits.MAX_GROUP_ID_LEN <? len id)
              (ValidationError.TooLong limits.MAX_GROUP_ID_LEN (len id)) in
  fail_if (len id <? limits.MIN_GROUP_ID_LEN)
    (ValidationError.TooShort limits.MIN_GROUP_ID_LEN (len id)).

Definition validate_message_number (n : Z) : VResult unit :=
  fail_if (limits.MAX_MESSAGE_NUMBER <? n) ValidationError.OutOfRange.

Definition validate_metadata (metadata : bytes) : VResult unit :=
  fail_if (limits.MAX_METADATA_SIZE <? len metadata)
    (ValidationError.TooLong limits.MAX_METADATA_SIZE (len metadata)).

Definition validate_prekey_bundle (identity_key signed_prekey signature : bytes)
    (onetime_prekey : option bytes) : VResult unit :=
  let? _ := validate_key identity_key in
  let? _ := validate_key signed_prekey in
  let? _ := validate_signature signature in
  let? _ := match onetime_prekey with Some opk => validate_key opk | None => Ok tt end in
  fail_if (constant_time_eq identity_key signed_prekey)
    (ValidationError.InvalidBytes "Identity key and signed prekey must be different").

Definition validate_handshake_output (shared_secret ephemeral_key : bytes) : VResult unit :=
  let? _ := fail_if (negb (len shared_secret =? limits.MAX_KEY_SIZE))
              (ValidationError.InvalidLength limits.MAX_KEY_SIZE (len shared_secret)) in
  let? _ := fail_if (negb (len ephemeral_key =? limits.MAX_KEY_SIZE))
              (ValidationError.InvalidLength limits.MAX_KEY_SIZE (len ephemeral_key)) in
  let? _ := fail_if (constant_time_is_zero shared_secret)
              (ValidationError.CryptoValidation
                 "Shared secret is all zeros - possible DH failure") in
  fail_if (constant_time_is_zero ephemeral_key)
    (ValidationError.InvalidBytes "Ephemeral key is all zeros").

Definition validate_timestamp (timestamp : Z) : IO ValidationError.t unit :=
  let* t := read_secs in
  let* now := io_res (ok_or t ValidationError.InvalidFormat) in
  let* limit := io_res (or_panic (u_add U64_MAX now limits.MAX_TIMESTAMP_FUTURE_SECS)) in
  let* _ := io_res (fail_if (limit <? timestamp) ValidationError.FutureTimestamp) in
  let* expiry := io_res (or_panic (u_add U64_MAX timestamp limits.MAX_TIMESTAMP_AGE_SECS)) in
  io_res (fail_if (expiry <? now) ValidationError.Expired).

Definition validate_username (username : list Z) : VResult unit :=
  let? _ := fail_if (is_empty username) ValidationError.Empty in
  let? _ := fail_if (limits.MAX_USERNAME_LEN <? str_len username)
              (ValidationError.TooLong limits.MAX_USERNAME_LEN (str_len username)) in
  let? _ := fail_if (negb (forallb (fun c => char_alphanumeric c || (c =? 95) || (c =? 45)) username))
              ValidationError.InvalidCharacters in
  fail_if (negb (match username with c :: _ => char_alphabetic c | [] => false end))
    ValidationError.InvalidFormat.

Definition validate_device_id (device_id : bytes) : VResult unit :=
  let? _ := fail_if (is_empty device_id) ValidationError.Empty in
  fail_if (limits.MAX_DEVICE_ID_LEN <? len device_id)
    (ValidationError.TooLong limits.MAX_DEVICE_ID_LEN (len device_id)).

Definition sanitize_string (s : list Z) : list Z :=
  List.filter (fun c => negb (char_control c) || (c =? 10) || (c =? 9)) s.

Definition sanitize_bytes (data : bytes) : bytes :=
  List.filter (fun b => negb (Byte.eqb b x00)) data.

Definition is_printable_ascii (data : bytes) : bool :=
  forallb (fun b => is_ascii_graphic b || Byte.eqb b x20) data.

(** ** Lemmas *)

Lemma fail_if_ok {E} b (e : E) : fail_if b e = Ok tt <-> b = false.
Proof. by destruct b. Qed.

Lemma fail_if_bind_ok {E A} b (e : E) (k : unit -> Res E A) r :
  res_bind (fail_if b e) k = Ok r <-> b = false /\ k tt = Ok r.
Proof. destruct b; simpl; split; try done; by intros []. Qed.

Lemma is_empty_false {A} (l : list A) : is_empty l = false <-> 1 <= len l.
Proof. unfold len. destruct l; simpl; split; intros; try done; lia. Qed.

Lemma existsb_false {A} (f : A -> bool) l :
  existsb f l = false <-> forall x, In x l -> f x = false.
Proof.
  split.
  - intros H x Hx. destruct (f x) eqn:E; [|done].
    rewrite <- H. symmetry. apply existsb_exists. eauto.
  - intros H. apply not_true_iff_false. rewrite existsb_exists. intros (x & Hx & E).
    by rewrite H in E.
Qed.

(** The accepted inputs of the size-only validators. *)
Lemma validate_message_ok d :
  validate_message d = Ok tt <-> 1 <= len d <= limits.MAX_MESSAGE_SIZE.
Proof.
  unfold validate_message. rewrite !fail_if_bind_ok, fail_if_ok, is_empty_false, !Z.ltb_ge.
  unfold limits.MIN_MESSAGE_SIZE. lia.
Qed.

Lemma validate_associated_data_ok ad :
  validate_associated_data ad = Ok tt <-> len ad <= limits.MAX_AD_LEN.
Proof. unfold validate_associated_data. by rewrite fail_if_ok, Z.ltb_ge. Qed.

Lemma validate_message_for_encrypt_ok d :
  validate_message_for_encrypt d = Ok tt <-> len d <= limits.MAX_MESSAGE_SIZE.
Proof. unfold validate_message_for_encrypt. by rewrite fail_if_ok, Z.ltb_ge. Qed.

(** ** Properties *)

(** [validate_session_id] accepts exactly the byte strings of 1 to 256
    bytes in which no byte is a control character (below 0x20, the null byte
    included); [validate_password] accepts exactly the passwords of 8 to 256
    non-null bytes with an upper-case letter, a lower-case letter and a digit. *)
Theorem validate_session_id_password_spec (id password : bytes) :
  (validate_session_id id = Ok tt <->
     1 <= len id <= 256 /\ forall b, In b id -> 32 <= b2z b) /\
  (validate_password password = Ok tt <->
     8 <= len password <= 256 /\ (forall b, In b password -> b <> x00) /\
     (exists b, In b password /\ is_ascii_uppercase b = true) /\
     (exists b, In b password /\ is_ascii_lowercase b = true) /\
     (exists b, In b password /\ is_ascii_digit b = true)).
Proof.
  split.
  - unfold validate_session_id, contains_null_byte.
    rewrite !fail_if_bind_ok, fail_if_ok, is_empty_false, !existsb_false, !Z.ltb_ge.
    unfold limits.MAX_SESSION_ID_LEN, limits.MIN_SESSION_ID_LEN. split.
    + intros (? & ? & ? & _ & H). split; [lia|]. intros b Hb. by apply Z.ltb_ge, H.
    + intros [? H]. repeat split; try lia.
      * intros b Hb. apply not_true_iff_false. intros ->%byte_eqb_eq.
        specialize (H _ Hb). vm_compute in H. done.
      * intros b Hb. apply Z.ltb_ge. by apply H.
  - unfold validate_password, contains_null_byte.
    rewrite !fail_if_bind_ok, fail_if_ok, is_empty_false, existsb_false, !Z.ltb_ge.
    rewrite !orb_false_iff, !negb_false_iff, !existsb_exists.
    unfold limits.MAX_PASSWORD_LEN, limits.MIN_PASSWORD_LEN. split.
    + intros (? & ? & ? & H & [? ?] & ?). repeat split; try lia; try done.
      intros b Hb ->. specialize (H _ Hb). done.
    + intros (? & H & ? & ? & ?). repeat split; try lia; try done.
      intros b Hb. apply not_true_iff_false. intros ->%byte_eqb_eq. by apply (H _ Hb).
Qed.

(** [validate_timestamp] never overflows for any 64-bit timestamp while the
    clock reads a time at most [2^64 - 331], and accepts exactly the timestamps
    from 300 seconds in the past to 30 seconds in the future. *)
Theorem validate_timestamp_window (env : Env) (c : Ctr) (ts now ns : Z) :
  e_clock env (c_clock c) = Some ns -> now = ns / NANOS ->
  0 <= now <= U64_MAX - 330 -> is_u64 ts ->
  fst (validate_timestamp ts env c) =
    if now + 30 <? ts then Err ValidationError.FutureTimestamp
    else if ts + 300 <? now then Err ValidationError.Expired else Ok tt.
Proof.
  intros Hc -> Hn Ht. unfold validate_timestamp, io_bind, read_secs, io_res.
  rewrite Hc. simpl option_map. cbn [ok_or].
  rewrite u_add_ok by (unfold limits.MAX_TIMESTAMP_FUTURE_SECS; lia). cbn [or_panic].
  unfold limits.MAX_TIMESTAMP_FUTURE_SECS, fail_if.
  destruct (Z.ltb_spec (ns / NANOS + 30) ts); simpl; [done|].
  rewrite u_add_ok by (unfold limits.MAX_TIMESTAMP_AGE_SECS; lia). simpl.
  by unfold limits.MAX_TIMESTAMP_AGE_SECS.
Qed.

Lemma validate_timestamp_window_witness :
  fst (validate_timestamp 1700000000
        (mkEnv (fun _ => Some (1700000300 * NANOS)) (fun _ => 0) (fun _ => x00) 1) ctr0) = Ok tt.
Proof.
  erewrite (validate_timestamp_window _ _ _ 1700000300 (1700000300 * NANOS));
    [reflexivity | reflexivity | reflexivity | unfold U64_MAX; lia | unfold in_u, U64_MAX; lia].
Defined.
