(* ===== verification/Padding.v ===== *)
(** * Message padding ([core/src/crypto/padding.rs])

    [pad_message] frames a plaintext as
    [prefix_len | prefix noise | plaintext | random padding | pad_len (2, LE)]
    up to a multiple of the block size; [unpad_message] reads the frame back. *)

From S2P Require Import Prelude Effects Errors Primitives Random.
#[local] Open Scope Z_scope.
#[local] Open Scope sibna_scope.

(** ** Data and operations *)

Module PaddingMode.

Inductive t : Type :=
| None_ | Small | Standard | Large | Maximum | Quantum | Custom (n : Z).

Definition block_size (m : t) : Z :=
  match m with
  | None_ => 1
  | Small => 256
  | Standard => 1024
  | Large => 4096
  | Maximum => 16384
  | Quantum => 65536
  | Custom n => n
  end.

Definition is_enabled (m : t) : bool := match m with None_ => false | _ => true end.

End PaddingMode.

Definition PADDING_MIN_OVERHEAD : Z := 1 + 1 + 2.
Definition MAX_PADDING_BYTES : Z := 65535.
Definition MAX_EXTRA_BLOCKS : Z := 7.

Definition is_power_of_two (n : Z) : bool := (0 <? n) && (Z.land n (n - 1) =? 0).

(** The guard on [Custom] block sizes. *)
Definition bad_custom (m : PaddingMode.t) : bool :=
  match m with
  | PaddingMode.Custom n => (n =? 0) || negb (is_power_of_two n) || (n <? 64)
  | _ => false
  end.

(** Steps 2 and 3: bytes to the next block boundary, and the cap on extra blocks. *)
Definition min_pad_len (min_total block : Z) : Z :=
  let remainder := min_total mod block in if remainder =? 0 then 0 else block - remainder.

Definition extra_cap (min_pad block : Z) : Z :=
  Z.min (sat_sub MAX_PADDING_BYTES min_pad / block) MAX_EXTRA_BLOCKS.

(** The random extra blocks have to fit the two bytes of the padding length: none
    do in [Quantum] mode, whose padded size is therefore a function of the
    length of the plaintext and of the prefix. *)
Lemma quantum_has_no_extra_blocks min_pad : 0 <= min_pad -> extra_cap min_pad (PaddingMode.block_size PaddingMode.Quantum) = 0.
Proof.
  intros H. unfold extra_cap, MAX_PADDING_BYTES, MAX_EXTRA_BLOCKS, sat_sub. cbn [PaddingMode.block_size].
  rewrite Z.div_small by lia. done.
Qed.

(** The output buffer. *)
Definition pad_frame (prefix_noise plaintext rand_buf : bytes) : bytes :=
  let pad_len := len rand_buf in
  [z2b (len prefix_noise)] ++ prefix_noise ++ plaintext ++ rand_buf
  ++ [z2b (Z.land pad_len 255); z2b (Z.shiftr pad_len 8)].

Definition pad_message {P : Primitives} (plaintext : bytes) (mode : PaddingMode.t)
    : IO ProtocolError.t bytes :=
  if negb (PaddingMode.is_enabled mode) then io_ret plaintext
  else
  let* rng := io_map_err (fun _ => ProtocolError.InternalError) SecureRandom_new in
  let* (r, rng) := run_on next_u32 rng in
  let prefix_len := r mod 8 + 1 in
  let* (prefix_noise, rng) := run_on (fill_bytes (Z.to_nat prefix_len)) rng in
  let block := PaddingMode.block_size mode in
  if bad_custom mode then io_res (Err ProtocolError.InvalidArgument)
  else
  let min_total := 1 + prefix_len + len plaintext + 2 in
  let min_pad := min_pad_len min_total block in
  let* (r, rng) := run_on next_u32 rng in
  let extra_blocks := r mod (extra_cap min_pad block + 1) in
  let pad_len := min_pad + extra_blocks * block in
  if MAX_PADDING_BYTES <? pad_len then io_res (Err ProtocolError.InvalidArgument)
  else
  let* rand_buf :=
    (if 0 <? pad_len
     then let* (b, _) := run_on (fill_bytes (Z.to_nat pad_len)) rng in io_ret b
     else io_ret []) in
  io_ret (pad_frame prefix_noise plaintext rand_buf).

Definition unpad_message (padded : bytes) : Res ProtocolError.t bytes :=
  if len padded <? PADDING_MIN_OVERHEAD then Err ProtocolError.InvalidMessage
  else
  let? b0 := or_panic (padded !! 0%nat) in
  let prefix_len := b2z b0 in
  if negb ((1 <=? prefix_len) && (prefix_len <=? 8)) || (len padded <? 1 + prefix_len + 2)
  then Err ProtocolError.InvalidMessage
  else
  let? lo := or_panic (padded !! (length padded - 2)%nat) in
  let? hi := or_panic (padded !! (length padded - 1)%nat) in
  let pad_len := Z.lor (b2z lo) (Z.shiftl (b2z hi) 8) in
  let total_overhead := 1 + prefix_len + pad_len + 2 in
  if len padded <? total_overhead then Err ProtocolError.InvalidMessage
  else
  let plaintext_len := len padded - total_overhead in
  let start := 1 + prefix_len in
  or_panic (slice (Z.to_nat start) (Z.to_nat (start + plaintext_len)) padded).

(** ** Lemmas *)

Lemma pad_len_roundtrip p :
  0 <= p <= MAX_PADDING_BYTES ->
  Z.lor (b2z (z2b (Z.land p 255))) (Z.shiftl (b2z (z2b (Z.shiftr p 8))) 8) = p.
Proof.
  unfold MAX_PADDING_BYTES. intros Hp.
  rewrite Z.shiftr_div_pow2 by lia. change (2 ^ 8) with 256.
  change 255 with (Z.ones 8). rewrite Z.land_ones by lia. change (2 ^ 8) with 256.
  assert (0 <= p mod 256 < 256) by (apply Z.mod_pos_bound; lia).
  assert (0 <= p / 256 < 256) by (split; [apply Z.div_pos | apply Z.div_lt_upper_bound]; lia).
  rewrite !b2z_z2b_small, lor_shiftl_8 by lia. pose proof (Z.div_mod p 256). lia.
Qed.

Lemma len_pad_frame noise pt rand :
  len (pad_frame noise pt rand) = 3 + len noise + len pt + len rand.
Proof. unfold pad_frame. rewrite !len_app. unfold len. simpl length. lia. Qed.

(** The two bytes at the end of a buffer. *)
Lemma lookup_last_two {A} (l : list A) (x y : A) n :
  n = length (l ++ [x; y]) ->
  (l ++ [x; y]) !! (n - 2)%nat = Some x /\ (l ++ [x; y]) !! (n - 1)%nat = Some y.
Proof.
  intros ->. rewrite length_app. simpl length. split.
  - rewrite lookup_app_r by lia. by replace (_ - _ - _)%nat with 0%nat by lia.
  - rewrite lookup_app_r by lia. by replace (_ - _ - _)%nat with 1%nat by lia.
Qed.

(** [unpad_message] recovers the plaintext from any well-formed frame. *)
Lemma unpad_frame noise pt rand :
  1 <= len noise <= 8 -> len rand <= MAX_PADDING_BYTES ->
  unpad_message (pad_frame noise pt rand) = Ok pt.
Proof.
  intros Hn Hr. unfold unpad_message.
  pose proof (len_pad_frame noise pt rand) as HL. pose proof (len_nonneg pt).
  pose proof (len_nonneg rand).
  destruct (Z.ltb_spec (len (pad_frame noise pt rand)) PADDING_MIN_OVERHEAD) as [Hlt|_];
    [unfold PADDING_MIN_OVERHEAD in Hlt; lia|].
  assert (E0 : pad_frame noise pt rand !! 0%nat = Some (z2b (len noise))) by done.
  rewrite E0. cbn [or_panic res_bind]. rewrite b2z_z2b_small by lia.
  destruct (Z.leb_spec 1 (len noise)); [|lia]. destruct (Z.leb_spec (len noise) 8); [|lia].
  destruct (Z.ltb_spec (len (pad_frame noise pt rand)) (1 + len noise + 2)); [lia|]. cbn [negb andb orb].
  destruct (lookup_last_two ([z2b (len noise)] ++ noise ++ pt ++ rand)
    (z2b (Z.land (len rand) 255)) (z2b (Z.shiftr (len rand) 8)) (length (pad_frame noise pt rand)))
    as [El Eh]; [unfold pad_frame; by rewrite <- !app_assoc|].
  rewrite <- !app_assoc in El, Eh. fold (pad_frame noise pt rand) in El, Eh.
  rewrite El, Eh. cbn [or_panic res_bind]. rewrite pad_len_roundtrip by lia.
  destruct (Z.ltb_spec (len (pad_frame noise pt rand)) (1 + len noise + len rand + 2)); [lia|].
  rewrite HL.
  replace (1 + len noise + (3 + len noise + len pt + len rand - (1 + len noise + len rand + 2)))
    with (1 + len noise + len pt) by lia.
  unfold pad_frame. rewrite app_assoc, slice_mid; [done| | |]; unfold len in *;
    rewrite ?length_app; simpl length; lia.
Qed.

(** Padding to the boundary, plus whole blocks, is a multiple of the block. *)
Lemma min_pad_len_range t b : 0 < b -> 0 <= min_pad_len t b < b.
Proof.
  intros Hb. unfold min_pad_len. pose proof (Z.mod_pos_bound t b Hb). split_guard; lia.
Qed.

Lemma min_pad_len_aligns t b : 0 < b -> (t + min_pad_len t b) mod b = 0.
Proof.
  intros Hb. unfold min_pad_len. pose proof (Z.div_mod t b). split_guard.
  - by rewrite Z.add_0_r.
  - replace (t + (b - t mod b)) with ((t / b + 1) * b) by lia. apply Z.mod_mul. lia.
Qed.

Lemma extra_cap_nonneg p b : 0 < b -> 0 <= extra_cap p b <= MAX_EXTRA_BLOCKS.
Proof.
  intros Hb. unfold extra_cap, MAX_EXTRA_BLOCKS, sat_sub.
  assert (0 <= Z.max 0 (MAX_PADDING_BYTES - p) / b) by (apply Z.div_pos; lia). lia.
Qed.

Lemma enabled_block_pos m : PaddingMode.is_enabled m = true -> bad_custom m = false ->
  64 <= PaddingMode.block_size m.
Proof.
  destruct m; simpl; intros He Hb; try done; lia.
Qed.

(** The padding chosen always fits the length field when one block does. *)
Lemma pad_len_fits t b x :
  0 < b -> 0 <= x <= extra_cap (min_pad_len t b) b -> min_pad_len t b <= MAX_PADDING_BYTES ->
  min_pad_len t b + x * b <= MAX_PADDING_BYTES.
Proof.
  intros Hb Hx Hm. unfold extra_cap, sat_sub in Hx. rewrite Z.max_r in Hx by lia.
  pose proof (Z.mul_div_le (MAX_PADDING_BYTES - min_pad_len t b) b Hb). nia.
Qed.

Section Run.
Context {P : Primitives} {L : PrimitiveLaws P}.

(** What a padded message is made of. *)
Definition padded_as (pt : bytes) (block : Z) (out : bytes) : Prop :=
  exists noise rand x,
    out = pad_frame noise pt rand /\ 1 <= len noise <= 8 /\
    0 <= x <= extra_cap (min_pad_len (1 + len noise + len pt + 2) block) block /\
    len rand = min_pad_len (1 + len noise + len pt + 2) block + x * block /\
    len rand <= MAX_PADDING_BYTES.

(** Every outcome of [pad_message] in an enabled mode. *)
(** The random filler, drawn only when there is some. *)
Lemma pad_filler n rng env c :
  0 <= n ->
  exists rand c',
    (if 0 <? n then let* (b, _) := run_on (fill_bytes (Z.to_nat n)) rng in io_ret b
     else io_ret (E := ProtocolError.t) []) env c = (Ok rand, c') /\ len rand = n.
Proof.
  intros Hn. destruct (Z.ltb_spec 0 n).
  - destruct (fill_bytes_ok (E := ProtocolError.t) (Z.to_nat n) env rng c) as (b & ? & c' & Eb & Hb); [lia|].
    exists b, c'. unfold io_bind, run_on, io_ret. rewrite Eb. split; [done|]. unfold len. lia.
  - exists [], c. unfold io_ret, len. simpl. split; [done | lia].
Qed.

Lemma pad_message_run pt mode env c :
  PaddingMode.is_enabled mode = true ->
  match fst (pad_message pt mode env c) with
  | Ok out => bad_custom mode = false /\ padded_as pt (PaddingMode.block_size mode) out
  | Err e => (e = ProtocolError.InternalError /\ ~ rng_healthy env) \/
             (e = ProtocolError.InvalidArgument /\
              (bad_custom mode = true \/ 65536 < PaddingMode.block_size mode))
  | Panic => False
  end.
Proof.
  intros He. unfold pad_message. rewrite He. cbn [negb].
  unfold io_bind at 1, io_map_err.
  destruct (SecureRandom_new env c) as [[rng|e|] c1] eqn:E1; simpl map_err; cbv iota beta.
  2: { left. split; [done|]. intros Hh.
       destruct (SecureRandom_new_ok env c Hh) as (? & ? & ?). congruence. }
  2: { revert E1. unfold SecureRandom_new, io_bind, os_bytes, read_clock, io_res, io_ret.
       by split_guard. }
  unfold io_bind at 1, run_on at 1.
  destruct (next_u32_ok (E := ProtocolError.t) env rng c1) as (r & rng2 & c2 & -> & Hr).
  assert (Hpl : 1 <= r mod 8 + 1 <= 8) by (pose proof (Z.mod_pos_bound r 8); lia).
  set (pl := r mod 8 + 1) in *. unfold io_bind at 1, run_on at 1.
  destruct (fill_bytes_ok (E := ProtocolError.t) (Z.to_nat pl) env rng2 c2)
    as (noise & rng3 & c3 & -> & Hno); [lia|].
  assert (Hn : len noise = pl) by (unfold len; lia).
  destruct (bad_custom mode) eqn:Hbad; [right; simpl; auto|].
  pose proof (enabled_block_pos mode He Hbad) as Hb64.
  set (block := PaddingMode.block_size mode) in *. unfold io_bind at 1, run_on at 1.
  destruct (next_u32_ok (E := ProtocolError.t) env rng3 c3) as (r2 & rng4 & c4 & -> & Hr2).
  set (mp := min_pad_len (1 + pl + len pt + 2) block).
  pose proof (min_pad_len_range (1 + pl + len pt + 2) block ltac:(lia)) as Hmp. fold mp in Hmp.
  pose proof (extra_cap_nonneg mp block ltac:(lia)) as Hcap.
  set (x := r2 mod (extra_cap mp block + 1)).
  assert (Hx : 0 <= x <= extra_cap mp block)
    by (unfold x; pose proof (Z.mod_pos_bound r2 (extra_cap mp block + 1)); lia).
  destruct (Z.ltb_spec MAX_PADDING_BYTES (mp + x * block)) as [Hbig|Hfit].
  { right. split; [done|]. right. destruct (Z.lt_ge_cases 65536 block); [done|].
    pose proof (pad_len_fits (1 + pl + len pt + 2) block x ltac:(lia) Hx
      ltac:(unfold mp in *; unfold MAX_PADDING_BYTES; lia)). fold mp in H0. lia. }
  destruct (pad_filler (mp + x * block) rng4 env c4) as (rand & c5 & Ef & Hrand); [nia|].
  unfold io_bind at 1. rewrite Ef. simpl fst.
  split; [done|]. exists noise, rand, x. rewrite Hn. fold mp. rewrite Hrand. done.
Qed.

Lemma padded_as_aligned pt block out :
  64 <= block -> padded_as pt block out -> len out mod block = 0.
Proof.
  intros Hb (noise & rand & x & -> & Hn & Hx & Hr & _).
  rewrite len_pad_frame, Hr.
  replace (3 + len noise + len pt + (min_pad_len (1 + len noise + len pt + 2) block + x * block))
    with ((1 + len noise + len pt + 2) + min_pad_len (1 + len noise + len pt + 2) block + x * block)
    by lia.
  rewrite Z.mod_add by lia. apply min_pad_len_aligns. lia.
Qed.

(** ** Properties *)

(** Padding that succeeds, and reads back. *)
Lemma pad_message_ok pt mode env c :
  rng_healthy env -> PaddingMode.is_enabled mode = true -> bad_custom mode = false ->
  PaddingMode.block_size mode <= 65536 ->
  exists out c', pad_message pt mode env c = (Ok out, c') /\ unpad_message out = Ok pt /\
    1 <= len out <= len pt + 11 + MAX_PADDING_BYTES.
Proof.
  intros Hh He Hb Hs. pose proof (pad_message_run pt mode env c He) as H.
  destruct (pad_message pt mode env c) as [[out|e|] c']; simpl in H; [| |done].
  2:{ destruct H as [[_ ?]|[_ [?|?]]]; [done | congruence | lia]. }
  destruct H as [_ (noise & rand & x & -> & Hn & _ & _ & Hr)]. eexists _, _. split; [done|].
  split; [by apply unpad_frame|]. rewrite len_pad_frame. pose proof (len_nonneg rand). pose proof (len_nonneg pt). lia.
Qed.

(** C35: padding round trip.  In every enabled mode, whatever the random source
    delivers, a buffer returned by [pad_message] is read back by
    [unpad_message] as exactly the plaintext; its length is a multiple of the
    mode's block size and exceeds the plaintext by at least 4 and by at most
    11 + 65535 bytes. *)
Theorem pad_unpad_roundtrip pt mode env c out c' :
  PaddingMode.is_enabled mode = true ->
  pad_message pt mode env c = (Ok out, c') ->
  unpad_message out = Ok pt /\ len out mod PaddingMode.block_size mode = 0 /\
  len pt + 4 <= len out <= len pt + 11 + MAX_PADDING_BYTES.
Proof.
  intros He Hrun. pose proof (pad_message_run pt mode env c He) as H. rewrite Hrun in H.
  destruct H as [Hbad Hp]. pose proof (enabled_block_pos mode He Hbad).
  split; [|split].
  - destruct Hp as (noise & rand & x & -> & Hn & _ & _ & Hr). by apply unpad_frame.
  - by apply padded_as_aligned in Hp.
  - destruct Hp as (noise & rand & x & -> & Hn & _ & _ & Hr). rewrite len_pad_frame.
    pose proof (len_nonneg rand). lia.
Qed.

(** C40: [pad_message] succeeds on every plaintext, the empty one of cover
    traffic included, in every built-in mode and every power-of-two custom
    block of 64 to 65536 bytes, when the random source is healthy. *)
Theorem pad_message_total pt mode env c :
  rng_healthy env -> bad_custom mode = false -> PaddingMode.block_size mode <= 65536 ->
  exists out c', pad_message pt mode env c = (Ok out, c').
Proof.
  intros Hh Hb Hs. destruct (PaddingMode.is_enabled mode) eqn:He.
  - pose proof (pad_message_run pt mode env c He) as H.
    destruct (pad_message pt mode env c) as [[out|e|] c']; simpl in H; [eauto| |done].
    destruct H as [[_ ?]|[_ [?|?]]]; [done | congruence | lia].
  - unfold pad_message. rewrite He. simpl. unfold io_ret. eauto.
Qed.

End Run.

(** *** Witnesses *)

Definition demo_env : Env :=
  mkEnv (fun i => Some (1700000000 * NANOS)) (fun _ => 0) (fun i => z2b (Z.of_nat i * 7 + 1)) 42.

Lemma demo_rng_healthy : rng_healthy demo_env.
Proof.
  intros p. destruct (decide (e_os demo_env (p + 20)%nat = x00)) as [E|]; [|by exists 20%nat; split; [lia|]].
  exists 21%nat. split; [lia|]. intros E2. unfold demo_env, e_os in E, E2.
  apply (f_equal b2z) in E, E2. rewrite b2z_z2b in E, E2. change (b2z x00) with 0 in *.
  pose proof (Z.div_mod (Z.of_nat (p + 20) * 7 + 1) 256).
  pose proof (Z.div_mod (Z.of_nat (p + 21) * 7 + 1) 256). lia.
Qed.

Lemma pad_unpad_roundtrip_witness :
  exists out c', pad_message (P := toy) (bstr "Hello, Sibna!") PaddingMode.Small demo_env ctr0
                 = (Ok out, c') /\ unpad_message out = Ok (bstr "Hello, Sibna!").
Proof.
  destruct (pad_message (P := toy) (bstr "Hello, Sibna!") PaddingMode.Small demo_env ctr0)
    as [[out|e|] c'] eqn:E; try (vm_compute in E; discriminate E).
  exists out, c'. split; [reflexivity|].
  exact (proj1 (pad_unpad_roundtrip (L := toy_laws) _ PaddingMode.Small _ _ _ _ eq_refl E)).
Defined.

Lemma pad_message_total_witness :
  exists out c', pad_message (P := toy) [] (PaddingMode.Custom 128) demo_env ctr0 = (Ok out, c').
Proof.
  apply (pad_message_total (L := toy_laws) [] (PaddingMode.Custom 128));
    [apply demo_rng_healthy | reflexivity | simpl; lia].
Defined.
