(* ===== verification/Kdf.v ===== *)
(** * Key derivation ([core/src/crypto/kdf.rs])

    HKDF, the Double Ratchet chains, the X3DH secrets and the password-based
    entry points, over the primitives of [Primitives]. *)

From S2P Require Import Prelude Effects Errors Primitives.
#[local] Open Scope Z_scope.
#[local] Open Scope sibna_scope.

Definition KEY_LENGTH : nat := 32.
Definition MAX_HKDF_ITERATIONS : Z := 10000.
Definition DEFAULT_HKDF_ITERATIONS : Z := 1.
Definition DEFAULT_ARGON2_MEMORY : Z := 65536.
Definition DEFAULT_ARGON2_ITERATIONS : Z := 3.
Definition DEFAULT_ARGON2_PARALLELISM : Z := 4.

Abbreviation CResult := (Res CryptoError.t).

(** [hkdf.expand(info, out).map_err(|_| KeyDerivationFailed)?]. *)
Definition expand_or_fail (o : option bytes) : CResult bytes :=
  ok_or o CryptoError.KeyDerivationFailed.

Module KdfAlgorithm.
Inductive t : Type := HkdfSha256 | HkdfSha512 | Argon2id | SimpleSha256 | SimpleSha512.
End KdfAlgorithm.

Record KdfParams := mkKdfParams {
  algorithm : KdfAlgorithm.t; iterations : Z; memory_cost : Z; parallelism : Z }.

Definition KdfParams_default : KdfParams :=
  mkKdfParams KdfAlgorithm.HkdfSha256 DEFAULT_HKDF_ITERATIONS DEFAULT_ARGON2_MEMORY
    DEFAULT_ARGON2_PARALLELISM.

Section Kdf.
Context {P : Primitives}.

(** ** [HkdfKdf] *)

Definition hkdf_derive (ikm : bytes) (salt : option bytes) (info : bytes) (output_len : Z)
    : CResult bytes :=
  if (output_len =? 0) || (255 * 32 <? output_len) then Err CryptoError.InvalidKeyLength
  else if 256 <? len info then Err CryptoError.InvalidCiphertext
  else expand_or_fail (hkdf_sha256 salt ikm info (Z.to_nat output_len)).

(** [infos.iter().map(...).collect()]: the first error ends the collection. *)
Fixpoint hkdf_derive_multiple (ikm salt : bytes) (infos : list bytes) : CResult (list bytes) :=
  match infos with
  | [] => Ok []
  | info :: rest =>
      let? k := hkdf_derive ikm (Some salt) info 32 in
      let? ks := hkdf_derive_multiple ikm salt rest in
      Ok (k :: ks)
  end.

(** [for _ in 1..iterations]. *)
Fixpoint hkdf_iterate (n : nat) (current salt info : bytes) : CResult bytes :=
  match n with
  | O => Ok current
  | S n =>
      let? next := hkdf_derive current (Some salt) info 32 in
      hkdf_iterate n next salt info
  end.

Definition hkdf_derive_iterated (ikm salt info : bytes) (iterations : Z) : CResult bytes :=
  if (iterations =? 0) || (MAX_HKDF_ITERATIONS <? iterations)
  then Err CryptoError.KeyDerivationFailed
  else
    let? current := hkdf_derive ikm (Some salt) info 32 in
    hkdf_iterate (Z.to_nat (iterations - 1)) current salt info.

(** ** [RatchetKdf] *)

Definition kdf_rk (root_key dh_out : bytes) : CResult (bytes * bytes) :=
  let? okm := expand_or_fail (hkdf_sha256 (Some root_key) dh_out (bstr "SibnaRatchet_v3") 64) in
  Ok (take KEY_LENGTH okm, drop KEY_LENGTH okm).

Definition kdf_ck (chain_key : bytes) : CResult (bytes * bytes) :=
  Ok (hmac_sha256 chain_key [x01], hmac_sha256 chain_key [x02]).

(** ** [X3dhKdf] *)

(** The concatenation of the Diffie-Hellman results. *)
Definition dh_concat (dh1 dh2 dh3 : bytes) (dh4 : option bytes) : bytes :=
  dh1 ++ dh2 ++ dh3 ++ from_option id [] dh4.

Definition derive_shared_secret (dh1 dh2 dh3 : bytes) (dh4 : option bytes)
    (transcript_hash : bytes) : CResult bytes :=
  expand_or_fail (hkdf_sha256 (Some transcript_hash) (dh_concat dh1 dh2 dh3 dh4)
                    (bstr "SibnaX3DH_v3") KEY_LENGTH).

Definition derive_pq_shared_secret (dh1 dh2 dh3 : bytes) (dh4 : option bytes)
    (pq_shared_secret transcript_hash : bytes) : CResult bytes :=
  expand_or_fail (hkdf_sha256 (Some transcript_hash)
                    (dh_concat dh1 dh2 dh3 dh4 ++ pq_shared_secret)
                    (bstr "SibnaPQX3DH_v3") KEY_LENGTH).

(** ** [Argon2Kdf], [SimpleKdf], [KeyDeriver] *)

Definition argon2_derive (password salt : bytes) (memory iterations parallelism : Z)
    : CResult bytes :=
  expand_or_fail (argon2id password salt memory iterations parallelism).

Definition argon2_derive_default (password salt : bytes) : CResult bytes :=
  argon2_derive password salt DEFAULT_ARGON2_MEMORY DEFAULT_ARGON2_ITERATIONS
    DEFAULT_ARGON2_PARALLELISM.

Definition simple_sha256 (input salt : bytes) : CResult bytes :=
  expand_or_fail (hkdf_sha256 (Some salt) input (bstr "SibnaSimpleKdf_SHA256") KEY_LENGTH).

Definition simple_sha512 (input salt : bytes) : CResult bytes :=
  expand_or_fail (hkdf_sha512 (Some salt) input (bstr "SibnaSimpleKdf_SHA512") KEY_LENGTH).

Definition KeyDeriver_derive (password salt info : bytes) (params : KdfParams) : CResult bytes :=
  match algorithm params with
  | KdfAlgorithm.HkdfSha256 => hkdf_derive_iterated password salt info (iterations params)
  | KdfAlgorithm.HkdfSha512 =>
      expand_or_fail (hkdf_sha512 (Some salt) password info KEY_LENGTH)
  | KdfAlgorithm.SimpleSha256 => simple_sha256 password salt
  | KdfAlgorithm.SimpleSha512 => simple_sha512 password salt
  | KdfAlgorithm.Argon2id =>
      argon2_derive password salt (memory_cost params) (iterations params) (parallelism params)
  end.

(** ** Lemmas *)
Context {L : PrimitiveLaws P}.

Lemma hkdf_derive_ok ikm salt info n :
  0 < n <= 255 * 32 -> len info <= 256 ->
  exists k, hkdf_derive ikm salt info n = Ok k /\ len k = n.
Proof.
  intros Hn Hi. unfold hkdf_derive.
  destruct (Z.eqb_spec n 0); [lia|]. destruct (Z.ltb_spec (255 * 32) n); [lia|]. simpl orb.
  destruct (Z.ltb_spec 256 (len info)); [lia|].
  destruct (hkdf_ok salt ikm info (Z.to_nat n)) as (o & -> & Ho); [unfold HKDF_MAX; lia|].
  exists o. split; [done|]. unfold len. lia.
Qed.

Lemma hkdf_iterate_ok n current salt info :
  len info <= 256 -> len current = 32 ->
  exists k, hkdf_iterate n current salt info = Ok k /\ len k = 32.
Proof.
  intros Hi. revert current. induction n as [|n IH]; intros current Hc; cbn [hkdf_iterate]; [eauto|].
  destruct (hkdf_derive_ok current (Some salt) info 32) as (k & -> & Hk); [lia|done|].
  cbn [res_bind]. by apply IH.
Qed.

Lemma kdf_rk_ok rk dh :
  exists rk' ck, kdf_rk rk dh = Ok (rk', ck) /\ length rk' = 32%nat /\ length ck = 32%nat.
Proof.
  unfold kdf_rk. destruct (hkdf_ok (Some rk) dh (bstr "SibnaRatchet_v3") 64) as (o & -> & Ho);
    [unfold HKDF_MAX; lia|].
  simpl. eexists _, _. split; [done|]. unfold KEY_LENGTH.
  rewrite length_take, length_drop, Ho. done.
Qed.

(** [derive_multiple] yields one 32-byte key per context string. *)
Lemma hkdf_derive_multiple_ok ikm salt infos :
  Forall (fun i => len i <= 256) infos ->
  exists ks, hkdf_derive_multiple ikm salt infos = Ok ks /\
    length ks = length infos /\ Forall (fun k => length k = 32%nat) ks.
Proof.
  induction 1 as [|i rest Hi _ (ks & IH & Hl & Hf)]; cbn [hkdf_derive_multiple]; [eauto|].
  destruct (hkdf_derive_ok ikm (Some salt) i 32) as (k & -> & Hk); [lia|done|].
  cbn [res_bind]. rewrite IH. cbn [res_bind]. eexists. split; [done|]. split; [simpl; lia|].
  constructor; [unfold len in Hk; lia | done].
Qed.

(** ** Properties *)

(** Iterated HKDF derivation terminates in a 32-byte key for every count
    from 1 to 10000 with a context of at most 256 bytes, and is refused with
    [KeyDerivationFailed] for every other count. *)
Theorem derive_iterated_total ikm salt info n :
  len info <= 256 -> 0 <= n ->
  if (1 <=? n) && (n <=? MAX_HKDF_ITERATIONS)
  then exists k, hkdf_derive_iterated ikm salt info n = Ok k /\ len k = 32
  else hkdf_derive_iterated ikm salt info n = Err CryptoError.KeyDerivationFailed.
Proof.
  intros Hi Hn. unfold hkdf_derive_iterated.
  destruct (Z.eqb_spec n 0) as [->|]; [done|].
  destruct (Z.leb_spec 1 n); [|lia].
  destruct (Z.ltb_spec MAX_HKDF_ITERATIONS n); destruct (Z.leb_spec n MAX_HKDF_ITERATIONS);
    try lia; simpl; [done|].
  destruct (hkdf_derive_ok ikm (Some salt) info 32) as (k & -> & Hk); [lia|done|].
  cbn [res_bind]. by apply hkdf_iterate_ok.
Qed.

End Kdf.

Lemma derive_iterated_total_witness :
  exists k, hkdf_derive_iterated (P := toy) (bstr "ikm") (bstr "salt") (bstr "info") 3 = Ok k
            /\ len k = 32.
Proof.
  exact (derive_iterated_total (L := toy_laws) (bstr "ikm") (bstr "salt") (bstr "info") 3
           ltac:(vm_compute; discriminate) ltac:(lia)).
Defined.
