(* ===== verification/Handler.v ===== *)
(** * Authenticated encryption with a stored key ([core/src/crypto/mod.rs])

    [CryptoHandler], the key generator and the key checks.  The handler's
    cipher is determined by its key, so the handler is modelled by the key. *)

From S2P Require Import Prelude Effects Errors Primitives Compare Random Kdf.
#[local] Open Scope Z_scope.
#[local] Open Scope sibna_scope.

Definition NONCE_LENGTH : nat := 12.
Definition TAG_LENGTH : nat := 16.
Definition SALT_LENGTH : nat := 32.
Definition MAX_PLAINTEXT_LENGTH : Z := 100 * 1024 * 1024.
Definition MAX_CIPHERTEXT_LENGTH : Z :=
  MAX_PLAINTEXT_LENGTH + Z.of_nat NONCE_LENGTH + Z.of_nat TAG_LENGTH.
Definition MAX_INFO_LENGTH : Z := 256.

(** [current_timestamp]. *)
Definition current_timestamp : IO ProtocolError.t Z :=
  let* t := read_secs in io_res (ok_or t ProtocolError.InvalidState).

(** [current_timestamp().unwrap_or(d)]: the error is replaced, not propagated. *)
Definition current_timestamp_or {E} (d : Z) : IO E Z :=
  let* t := read_secs in io_ret (default d t).

Record CryptoHandler := mkCryptoHandler { handler_key : bytes }.

(** [[key[0]; KEY_LENGTH]]. *)
Definition all_same (key : bytes) : bool :=
  ct_eq key (replicate 32 (default x00 (key !! 0%nat))).

Definition CryptoHandler_new (key : bytes) : CResult CryptoHandler :=
  if negb (len key =? 32) then Err CryptoError.InvalidKeyLength
  else
    let is_zero := ct_eq key (zeros 32) in
    let is_weak := is_zero || all_same key in
    if is_weak then Err CryptoError.WeakKey else Ok (mkCryptoHandler key).

Section Handler.
Context {P : Primitives}.

Definition encrypt_with_nonce (h : CryptoHandler) (plaintext associated_data nonce : bytes)
    : CResult bytes :=
  if negb (len nonce =? 12) then Err (CryptoError.InvalidNonceLength 12 (len nonce))
  else
    let? ciphertext :=
      ok_or (aead_encrypt (handler_key h) nonce associated_data plaintext)
        CryptoError.EncryptionFailed in
    Ok (nonce ++ ciphertext).

Definition handler_encrypt (h : CryptoHandler) (plaintext associated_data : bytes)
    : IO CryptoError.t bytes :=
  if MAX_PLAINTEXT_LENGTH <? len plaintext then io_res (Err CryptoError.EncryptionFailed)
  else if MAX_INFO_LENGTH <? len associated_data then io_res (Err CryptoError.InvalidCiphertext)
  else
    let* nonce := fresh_bytes NONCE_LENGTH in
    io_res (encrypt_with_nonce h plaintext associated_data nonce).

Definition handler_decrypt (h : CryptoHandler) (ciphertext associated_data : bytes)
    : CResult bytes :=
  if len ciphertext <? 28 then Err CryptoError.InvalidCiphertext
  else if MAX_CIPHERTEXT_LENGTH <? len ciphertext then Err CryptoError.InvalidCiphertext
  else
    let nonce := take NONCE_LENGTH ciphertext in
    let encrypted_data := drop NONCE_LENGTH ciphertext in
    ok_or (aead_decrypt (handler_key h) nonce associated_data encrypted_data)
      CryptoError.AuthenticationFailed.

(** Also returns the caller's buffer, wiped on an authentication failure. *)
Definition decrypt_in_place (h : CryptoHandler) (ciphertext associated_data : bytes)
    : CResult bytes * bytes :=
  if len ciphertext <? 28 then (Err CryptoError.InvalidCiphertext, ciphertext)
  else
    match aead_decrypt (handler_key h) (take NONCE_LENGTH ciphertext) associated_data
            (drop NONCE_LENGTH ciphertext) with
    | Some m => (Ok m, ciphertext)
    | None => (Err CryptoError.AuthenticationFailed, zeros (length ciphertext))
    end.

(** ** [KeyGenerator] *)

(** [generate_key] draws again on a weak key; [None] when [fuel] draws were weak. *)
Fixpoint generate_key (fuel : nat) : IO CryptoError.t (option bytes) :=
  match fuel with
  | O => io_ret None
  | S fuel =>
      let* key := fresh_bytes KEY_LENGTH in
      if all_zero key || all_same key then generate_key fuel else io_ret (Some key)
  end.

Definition generate_nonce : IO CryptoError.t bytes := fresh_bytes NONCE_LENGTH.
Definition generate_salt : IO CryptoError.t bytes := fresh_bytes SALT_LENGTH.

End Handler.

(** ** Key checks *)

Definition validate_key_security (key : bytes) : CResult unit :=
  if negb (len key =? 32) then Err CryptoError.InvalidKeyLength
  else if ct_eq key (zeros 32) then Err CryptoError.WeakKey
  else if all_same key then Err CryptoError.WeakKey
  else if ct_eq (take (length key / 2) key) (drop (length key / 2) key)
  then Err CryptoError.WeakKey
  else Ok tt.

Definition LOW_ORDER_POINTS : list bytes := [
  zeros 32;
  [x01] ++ zeros 31;
  [xe0; xeb; x7a; x7c; x3b; x41; xb8; x01; xf1; xda; x56; x75; x47; x11;
   x85; x12; x1a; x9f; x17; x60; xe7; x61; x19; x90; x3f; x52; x49; x22;
   xfe; x80; x5a; x5f];
  [x5f; x9c; x95; xbc; xa3; x50; x8c; x24; xb1; xd0; xb1; xa5; x99; x83;
   x17; x0c; x64; x81; x41; xb2; x39; x52; x80; x24; xed; x54; x8f; x61;
   x6c; x7e; x48; x8a];
  [xed; xce; x84; x43; xbc; xaf; x73; x1d; x0e; x25; xd4; x7f; x3d; x1b;
   xba; x8a; xb6; xb0; x5b; x69; x80; x45; x29; xed; x7f; x72; x1d; x97;
   xa3; x31; xa3; xec];
  zeros 31 ++ [x80];
  [x01] ++ zeros 30 ++ [x81];
  [xe0; xeb; x7a; x7c; x3b; x41; xb8; x01; xf1; xda; x56; x75; x47; x11;
   x85; x12; x1a; x9f; x17; x60; xe7; x61; x19; x90; x3f; x52; x49; x22;
   xfe; x80; x5a; xdf] ].

Definition validate_public_key (pub_key : bytes) : CResult unit :=
  if existsb (fun point => ct_eq pub_key point) LOW_ORDER_POINTS
  then Err CryptoError.WeakKey else Ok tt.

(** ** Lemmas *)

Lemma CryptoHandler_new_ok key h : CryptoHandler_new key = Ok h -> h = mkCryptoHandler key.
Proof. unfold CryptoHandler_new. repeat split_guard; by intros [=]. Qed.

Lemma current_timestamp_or_run {E} d env c :
  exists t c', current_timestamp_or (E := E) d env c = (Ok t, c').
Proof. unfold current_timestamp_or, io_bind, read_secs, io_ret. eauto. Qed.

Lemma clock_in_timestamp env lo hi c :
  clock_in env lo hi ->
  exists t c', current_timestamp env c = (Ok t, c') /\ lo <= t <= hi.
Proof.
  intros H. destruct (clock_in_secs env lo hi (c_clock c) H) as (t & Et & Ht).
  unfold current_timestamp, io_bind, read_secs, io_res. rewrite Et. simpl. eauto.
Qed.

Lemma clock_in_timestamp_or {E} env lo hi c d :
  clock_in env lo hi ->
  exists t c', current_timestamp_or (E := E) d env c = (Ok t, c') /\ lo <= t <= hi.
Proof.
  intros H. destruct (clock_in_secs env lo hi (c_clock c) H) as (t & Et & Ht).
  unfold current_timestamp_or, io_bind, read_secs, io_ret. rewrite Et. simpl. eauto.
Qed.

(** ** Properties *)
Section Properties.
Context {P : Primitives} {L : PrimitiveLaws P}.

Lemma handler_encrypt_ok h pt ad env c :
  rng_healthy env -> len pt <= MAX_PLAINTEXT_LENGTH -> len ad <= MAX_INFO_LENGTH ->
  exists nonce ct c', handler_encrypt h pt ad env c = (Ok (nonce ++ ct), c') /\
    length nonce = 12%nat /\ aead_encrypt (handler_key h) nonce ad pt = Some ct /\
    length ct = (length pt + 16)%nat.
Proof.
  intros Hh Hp Ha. unfold handler_encrypt.
  destruct (Z.ltb_spec MAX_PLAINTEXT_LENGTH (len pt)); [lia|].
  destruct (Z.ltb_spec MAX_INFO_LENGTH (len ad)); [lia|].
  destruct (fresh_bytes_ok env c NONCE_LENGTH Hh) as (nonce & c' & E & Hn);
    [unfold NONCE_LENGTH; lia|].
  rewrite (io_bind_ok _ _ _ _ _ _ E). unfold NONCE_LENGTH in Hn.
  destruct (aead_ok (handler_key h) nonce ad pt) as (ct & Ect & Hct).
  exists nonce, ct, c'. unfold io_res, encrypt_with_nonce.
  replace (len nonce =? 12) with true by (symmetry; apply Z.eqb_eq; unfold len; lia).
  simpl negb. cbv iota. rewrite Ect. done.
Qed.

Lemma handler_decrypt_ok h nonce ct pt ad :
  length nonce = 12%nat -> aead_encrypt (handler_key h) nonce ad pt = Some ct ->
  length ct = (length pt + 16)%nat -> len pt <= MAX_PLAINTEXT_LENGTH ->
  handler_decrypt h (nonce ++ ct) ad = Ok pt.
Proof.
  intros Hn Ect Hct Hp. unfold handler_decrypt.
  assert (HL : len (nonce ++ ct) = len pt + 28) by (rewrite len_app; unfold len; lia).
  rewrite HL. pose proof (len_nonneg pt).
  destruct (Z.ltb_spec (len pt + 28) 28); [lia|].
  destruct (Z.ltb_spec MAX_CIPHERTEXT_LENGTH (len pt + 28)) as [Hbig|];
    [unfold MAX_CIPHERTEXT_LENGTH, NONCE_LENGTH, TAG_LENGTH in Hbig; lia|].
  unfold NONCE_LENGTH. rewrite <- Hn at 1 2. rewrite take_app_length, drop_app_length.
  by rewrite (aead_correct _ _ _ _ _ Ect).
Qed.

(** [CryptoHandler] round trip.  For every handler, with a healthy random
    source, a plaintext of at most 100 MiB (empty included) and at most 256
    bytes of associated data, [encrypt] returns nonce, ciphertext and
    tag, 28 bytes longer than the plaintext, and [decrypt] with the same
    associated data returns the plaintext. *)
Theorem handler_roundtrip h pt ad env c :
  rng_healthy env ->
  len pt <= MAX_PLAINTEXT_LENGTH -> len ad <= MAX_INFO_LENGTH ->
  exists ct c', handler_encrypt h pt ad env c = (Ok ct, c') /\
    len ct = len pt + 28 /\ handler_decrypt h ct ad = Ok pt.
Proof.
  intros Hh Hp Ha.
  destruct (handler_encrypt_ok h pt ad env c Hh Hp Ha) as (nonce & ct & c' & E & Hn & Ect & Hl).
  exists (nonce ++ ct), c'. split; [done|]. split; [rewrite len_app; unfold len; lia|].
  by apply handler_decrypt_ok.
Qed.

End Properties.

(** [validate_public_key] rejects a key exactly when it is one of the
    eight listed low-order points, each of which is a 32-byte string, and all
    eight are different. *)
Theorem validate_public_key_low_order pk :
  (validate_public_key pk = Err CryptoError.WeakKey <-> In pk LOW_ORDER_POINTS) /\
  (validate_public_key pk = Ok tt <-> ~ In pk LOW_ORDER_POINTS) /\
  Forall (fun p => length p = 32%nat) LOW_ORDER_POINTS /\
  base.NoDup LOW_ORDER_POINTS /\ length LOW_ORDER_POINTS = 8%nat.
Proof.
  assert (Hx : existsb (fun point => ct_eq pk point) LOW_ORDER_POINTS = true <->
               In pk LOW_ORDER_POINTS).
  { rewrite existsb_exists. split.
    - intros (p & Hp & ->%ct_eq_true). done.
    - intros Hp. exists pk. split; [done | by apply ct_eq_true]. }
  unfold validate_public_key. destruct (existsb _ _).
  - repeat split; try done; try tauto; [repeat constructor | by apply (bool_decide_unpack _)].
  - assert (~ In pk LOW_ORDER_POINTS) by (intros H; by apply Hx in H).
    repeat split; try done; [repeat constructor | by apply (bool_decide_unpack _)].
Qed.

(** A key used by the witnesses. *)
Definition demo_key : bytes := map (fun i => z2b (Z.of_nat i + 1)) (seq 0 32).

Lemma handler_roundtrip_witness :
  exists ct c', handler_encrypt (P := toy) (mkCryptoHandler demo_key) (bstr "hi") (bstr "ad")
      (mkEnv (fun _ => Some NANOS) (fun _ => 0) (fun _ => x01) 7) ctr0 = (Ok ct, c') /\
    len ct = 30 /\ handler_decrypt (P := toy) (mkCryptoHandler demo_key) ct (bstr "ad") = Ok (bstr "hi").
Proof.
  apply (handler_roundtrip (L := toy_laws) (mkCryptoHandler demo_key));
    [ | vm_compute; discriminate | vm_compute; discriminate].
  intros p. exists 20%nat. split; [lia | discriminate].
Defined.
