(* ===== verification/Encryptor.v ===== *)
(** * The message encryptor ([core/src/crypto/encryptor.rs])

    [Encryptor] numbers and timestamps messages, authenticates both, and
    remembers the numbers it has accepted; [StreamingEncryptor] applies it
    chunk by chunk.  Wire format of a message:
    [message_number (8) | timestamp (8) | padding (8) | nonce (12) | ciphertext | tag (16)]. *)

From S2P Require Import Prelude Effects Errors Primitives Compare Random Validation Kdf Handler.
#[local] Open Scope Z_scope.
#[local] Open Scope sibna_scope.

(** ** Data *)

Definition MESSAGE_HEADER_SIZE : nat := 8 + 8 + 8.
Definition MAX_MESSAGE_AGE_SECS : Z := 86400.
Definition CLOCK_SKEW_TOLERANCE_SECS : Z := 30.

Record Encryptor := mkEncryptor {
  enc_key : bytes;
  message_number : Z;
  max_message_number : Z;
  seen_numbers : gmap Z Z;
  max_seen_numbers : Z
}.

(** The weak-key test of [Encryptor::new] (and of [validate_key]). *)
Definition weak_key (key : bytes) : bool :=
  constant_time_is_zero key ||
  (let (lo, hi) := key_halves key in constant_time_eq lo hi).

Definition Encryptor_new (key : bytes) (initial_message_number : Z) : CResult Encryptor :=
  if negb (len key =? 32) then Err CryptoError.InvalidKeyLength
  else if constant_time_is_zero key then Err CryptoError.InvalidKeyLength
  else
    let (lo, hi) := key_halves key in
    if constant_time_eq lo hi then Err CryptoError.InvalidKeyLength
    else Ok (mkEncryptor key initial_message_number initial_message_number ∅ 100000).

Definition build_header_with_padding (message_number timestamp padding : Z) : bytes :=
  u64_le message_number ++ u64_le timestamp ++ u64_le padding.

Definition build_header (message_number timestamp : Z) : bytes :=
  build_header_with_padding message_number timestamp 0.

(** [seen_numbers.retain(|_, ts| ts >= cutoff)]. *)
Definition retain_recent (cutoff : Z) (m : gmap Z Z) : gmap Z Z :=
  filter (fun kv => cutoff <= kv.2) m.

Definition update_seen_numbers {E} (number timestamp : Z) : M Encryptor E unit :=
  let! e := get in
  let max' := if max_message_number e <? number then number else max_message_number e in
  let! now := lift read_secs_or_far in
  let cutoff := sat_sub now MAX_MESSAGE_AGE_SECS in
  put (mkEncryptor (enc_key e) (message_number e) max'
         (retain_recent cutoff (<[number := timestamp]> (seen_numbers e)))
         (max_seen_numbers e)).

Definition set_max_seen_numbers (max : Z) (e : Encryptor) : Encryptor :=
  mkEncryptor (enc_key e) (message_number e) (max_message_number e) (seen_numbers e) max.

Definition is_potential_replay (e : Encryptor) (number : Z) : bool :=
  (number <=? max_message_number e) && bool_decide (is_Some (seen_numbers e !! number)).

Section Operations.
Context {P : Primitives}.

Definition encrypt_message (plaintext associated_data : bytes) : M Encryptor CryptoError.t bytes :=
  let! _ := res (map_err (fun _ => CryptoError.InvalidCiphertext) (validate_message plaintext)) in
  let! _ := res (map_err (fun _ => CryptoError.InvalidCiphertext)
                   (validate_associated_data associated_data)) in
  let! nonce := lift (fresh_bytes NONCE_LENGTH) in
  let! t := lift read_secs in
  let! timestamp := res (ok_or t CryptoError.EncryptionFailed) in
  let! e := get in
  let header := build_header (message_number e) timestamp in
  let full_ad := associated_data ++ header in
  let! ciphertext := res (ok_or (aead_encrypt (enc_key e) nonce full_ad plaintext)
                            CryptoError.EncryptionFailed) in
  let! _ := modify (fun e => mkEncryptor (enc_key e) (sat_add U64_MAX (message_number e) 1)
                               (max_message_number e) (seen_numbers e) (max_seen_numbers e)) in
  ret (header ++ nonce ++ ciphertext).

(** [u64::from_le_bytes(ciphertext[i..i + 8].try_into()?)]. *)
Definition read_u64 (i : nat) (ciphertext : bytes) : CResult Z :=
  let? s := or_panic (slice i (i + 8) ciphertext) in Ok (from_le s).

Definition decrypt_message (ciphertext associated_data : bytes) : M Encryptor CryptoError.t bytes :=
  if len ciphertext <? 24 + 12 + 16 then res (Err CryptoError.InvalidCiphertext)
  else
  let! number := res (read_u64 0 ciphertext) in
  let! timestamp := res (read_u64 8 ciphertext) in
  let! padding := res (read_u64 16 ciphertext) in
  let! t := lift read_secs in
  let! now := res (ok_or t CryptoError.EncryptionFailed) in
  let! limit := res (or_panic (u_add U64_MAX now CLOCK_SKEW_TOLERANCE_SECS)) in
  if limit <? timestamp then res (Err CryptoError.InvalidCiphertext)
  else
  let! expiry := res (or_panic (u_add U64_MAX timestamp MAX_MESSAGE_AGE_SECS)) in
  if expiry <? now then res (Err CryptoError.InvalidCiphertext)
  else
  let! e := get in
  if bool_decide (is_Some (seen_numbers e !! number)) then res (Err CryptoError.AuthenticationFailed)
  else
  let nonce := take NONCE_LENGTH (drop MESSAGE_HEADER_SIZE ciphertext) in
  let encrypted := drop (MESSAGE_HEADER_SIZE + NONCE_LENGTH) ciphertext in
  let header := build_header_with_padding number timestamp padding in
  let full_ad := associated_data ++ header in
  let! plaintext := res (ok_or (aead_decrypt (enc_key e) nonce full_ad encrypted)
                           CryptoError.AuthenticationFailed) in
  let! _ := update_seen_numbers number timestamp in
  ret plaintext.

(** ** [StreamingEncryptor] *)

Record StreamingEncryptor := mkStreamingEncryptor {
  chunk_size : Z;
  encryptor : Encryptor;
  chunk_counter : Z
}.

Definition StreamingEncryptor_new (key : bytes) : CResult StreamingEncryptor :=
  let? e := Encryptor_new key 0 in
  Ok (mkStreamingEncryptor (1024 * 1024) e 0).

Definition set_encryptor (e : Encryptor) (s : StreamingEncryptor) : StreamingEncryptor :=
  mkStreamingEncryptor (chunk_size s) e (chunk_counter s).

Definition bump_counter (s : StreamingEncryptor) : StreamingEncryptor :=
  mkStreamingEncryptor (chunk_size s) (encryptor s) (sat_add U64_MAX (chunk_counter s) 1).

(** [for i in 0..num_chunks]: [n] iterations are left, [start] is [i * chunk_size]. *)
Fixpoint encrypt_chunks (n : nat) (start : Z) (data : bytes)
    : M StreamingEncryptor CryptoError.t bytes :=
  match n with
  | O => ret []
  | S n =>
      let! s := get in
      let stop := Z.min (start + chunk_size s) (len data) in
      let chunk := take (Z.to_nat (stop - start)) (drop (Z.to_nat start) data) in
      let! encrypted := zoom encryptor set_encryptor
                          (encrypt_message chunk (u64_le (chunk_counter s))) in
      let! _ := modify bump_counter in
      let! rest := encrypt_chunks n (start + chunk_size s) data in
      ret (u32_le (len encrypted) ++ encrypted ++ rest)
  end.

Definition encrypt_stream (data : bytes) : M StreamingEncryptor CryptoError.t bytes :=
  let! s := get in
  let num_chunks := (len data + chunk_size s - 1) / chunk_size s in
  let! body := encrypt_chunks (Z.to_nat num_chunks) 0 data in
  ret (u64_le num_chunks ++ body).

(** [for _ in 0..num_chunks] over the bytes from [offset] on; every iteration
    consumes at least four bytes, so the fuel given below is never exhausted. *)
Fixpoint decrypt_chunks (fuel : nat) (num_chunks : Z) (data : bytes)
    : M StreamingEncryptor CryptoError.t bytes :=
  match fuel with
  | O => res Panic
  | S fuel =>
      if num_chunks <=? 0 then ret []
      else if len data <? 4 then res (Err CryptoError.InvalidCiphertext)
      else
      let chunk_len := from_le (take 4 data) in
      let data := drop 4 data in
      if len data <? chunk_len then res (Err CryptoError.InvalidCiphertext)
      else
      let! s := get in
      let! chunk := zoom encryptor set_encryptor
                      (decrypt_message (take (Z.to_nat chunk_len) data)
                         (u64_le (chunk_counter s))) in
      let! _ := modify bump_counter in
      let! rest := decrypt_chunks fuel (num_chunks - 1) (drop (Z.to_nat chunk_len) data) in
      ret (chunk ++ rest)
  end.

Definition decrypt_stream (data : bytes) : M StreamingEncryptor CryptoError.t bytes :=
  if len data <? 8 then res (Err CryptoError.InvalidCiphertext)
  else
    let num_chunks := from_le (take 8 data) in
    decrypt_chunks (S (length data)) num_chunks (drop 8 data).

End Operations.

(** ** Lemmas *)

Lemma Encryptor_new_ok key n e :
  Encryptor_new key n = Ok e <->
  len key = 32 /\ weak_key key = false /\ e = mkEncryptor key n n ∅ 100000.
Proof.
  unfold Encryptor_new, weak_key. destruct (key_halves key) as [lo hi].
  destruct (Z.eqb_spec (len key) 32); simpl; [|by split; [|intros []]].
  destruct (constant_time_is_zero key); simpl; [by split; [|intros (? & ? & ?)]|].
  destruct (constant_time_eq lo hi); [by split; [|intros (? & ? & ?)]|].
  split; [by intros [= <-] | by intros (? & ? & ->)].
Qed.

Lemma length_build_header n ts p : length (build_header_with_padding n ts p) = 24%nat.
Proof. unfold build_header_with_padding. by rewrite !length_app, !length_to_le. Qed.

(** Reading back the three header words and the two body fields. *)
Lemma read_header_words n ts p body :
  is_u64 n -> is_u64 ts -> is_u64 p ->
  let out := build_header_with_padding n ts p ++ body in
  read_u64 0 out = Ok n /\ read_u64 8 out = Ok ts /\ read_u64 16 out = Ok p.
Proof.
  intros Hn Ht Hp out. unfold read_u64, out, build_header_with_padding.
  rewrite <- !app_assoc. split; [|split].
  - rewrite slice_prefix by (by rewrite length_to_le).
    simpl. by rewrite from_le_u64.
  - rewrite (slice_mid 8 (8 + 8)) by (rewrite ?length_to_le; simpl; lia).
    simpl. by rewrite from_le_u64.
  - rewrite app_assoc, (slice_mid 16 (16 + 8))
      by (rewrite ?length_app, ?length_to_le; simpl; lia).
    simpl. by rewrite from_le_u64.
Qed.

Lemma read_body (h nonce ct : bytes) :
  length h = 24%nat -> length nonce = 12%nat ->
  take NONCE_LENGTH (drop MESSAGE_HEADER_SIZE (h ++ nonce ++ ct)) = nonce /\
  drop (MESSAGE_HEADER_SIZE + NONCE_LENGTH) (h ++ nonce ++ ct) = ct.
Proof.
  intros Hh Hn. change MESSAGE_HEADER_SIZE with 24%nat. change NONCE_LENGTH with 12%nat. split.
  - pose proof (take_drop_app 24 h nonce ct Hh) as E. by rewrite Hn in E.
  - rewrite app_assoc. rewrite drop_app_length'; [done|]. rewrite length_app. lia.
Qed.

Lemma read_u64_range i b z : read_u64 i b = Ok z -> is_u64 z.
Proof.
  unfold read_u64. destruct (slice i (i + 8) b) as [s|] eqn:E; simpl; [|done].
  intros [= <-]. apply slice_length in E. apply from_le_is_u64. lia.
Qed.

Section Lemmas.
Context {P : Primitives} {L : PrimitiveLaws P}.

(** A ciphertext of [key] for [pt] under [ad], number [n], time [ts]. *)
Definition sealed_as (key pt ad : bytes) (n ts : Z) (out : bytes) : Prop :=
  exists nonce ct, length nonce = 12%nat /\
    aead_encrypt key nonce (ad ++ build_header n ts) pt = Some ct /\
    out = build_header n ts ++ nonce ++ ct.

Lemma sealed_as_len key pt ad n ts out :
  sealed_as key pt ad n ts out -> len out = len pt + 52.
Proof.
  intros (nonce & ct & Hn & Hc & ->). destruct (aead_ok key nonce (ad ++ build_header n ts) pt)
    as (ct' & E & Hl). assert (ct' = ct) as -> by congruence.
  unfold build_header, len. rewrite !length_app, length_build_header. lia.
Qed.

(** The encryptor after one encryption. *)
Definition after_encrypt (e : Encryptor) : Encryptor :=
  mkEncryptor (enc_key e) (sat_add U64_MAX (message_number e) 1)
    (max_message_number e) (seen_numbers e) (max_seen_numbers e).

(** A successful [encrypt_message]. *)
Lemma encrypt_message_inv pt ad env e c out e' c' :
  encrypt_message pt ad env e c = (Ok out, e', c') ->
  1 <= len pt <= limits.MAX_MESSAGE_SIZE /\ len ad <= limits.MAX_AD_LEN /\
  e' = after_encrypt e /\
  exists i ns, e_clock env i = Some ns /\ sealed_as (enc_key e) pt ad (message_number e) (ns / NANOS) out.
Proof.
  unfold encrypt_message, bind, res, lift.
  destruct (validate_message pt) as [[]| |] eqn:V1; simpl map_err; try done.
  destruct (validate_associated_data ad) as [[]| |] eqn:V2; simpl map_err; try done.
  destruct (fresh_bytes NONCE_LENGTH env c) as [[nonce|?|] c1] eqn:Ef; try done.
  apply fresh_bytes_len in Ef; [|unfold NONCE_LENGTH; lia]. unfold read_secs.
  destruct (e_clock env (c_clock c1)) as [ns|] eqn:Ec; simpl; [|done].
  destruct (aead_encrypt _ nonce _ pt) as [ct|] eqn:Ea; simpl; [|done].
  intros [= <- <- <-].
  apply validate_message_ok in V1. apply validate_associated_data_ok in V2.
  split; [done|]. split; [done|]. split; [done|]. exists (c_clock c1), ns. split; [done|].
  by exists nonce, ct.
Qed.

(** [encrypt_message] succeeds whenever its inputs are in range. *)
Lemma encrypt_message_ok pt ad env e c lo hi :
  rng_healthy env -> clock_in env lo hi ->
  1 <= len pt <= limits.MAX_MESSAGE_SIZE -> len ad <= limits.MAX_AD_LEN ->
  exists out e' c', encrypt_message pt ad env e c = (Ok out, e', c').
Proof.
  intros Hr Hc H1 H2. unfold encrypt_message, bind, res, lift.
  rewrite (proj2 (validate_message_ok pt) H1), (proj2 (validate_associated_data_ok ad) H2). simpl.
  destruct (fresh_bytes_ok env c NONCE_LENGTH Hr) as (nonce & c1 & Ef & Hn);
    [unfold NONCE_LENGTH; lia|]. rewrite Ef. unfold read_secs.
  destruct (Hc (c_clock c1)) as (ns & -> & _). simpl.
  destruct (aead_ok (enc_key e) nonce (ad ++ build_header (message_number e) (ns / NANOS)) pt)
    as (ct & -> & _). simpl. unfold modify, ret. eauto.
Qed.

(** A clock window that keeps the receiver's arithmetic inside [u64]. *)
Definition sane_clock (env : Env) (lo hi : Z) : Prop :=
  clock_in env lo hi /\ 0 <= lo /\ hi <= U64_MAX - 86430.

(** The encryptor after accepting number [n] at clock reading [now]. *)
Definition after_decrypt (e : Encryptor) (n ts now : Z) : Encryptor :=
  mkEncryptor (enc_key e) (message_number e)
    (if max_message_number e <? n then n else max_message_number e)
    (retain_recent (sat_sub now MAX_MESSAGE_AGE_SECS) (<[n := ts]> (seen_numbers e)))
    (max_seen_numbers e).

(** [decrypt_message] accepts a sealed message of a number it has not seen
    whose timestamp is within the receiver's window. *)
Lemma decrypt_message_ok key pt ad n ts out env e c lo hi :
  sane_clock env lo hi -> sealed_as key pt ad n ts out -> enc_key e = key ->
  is_u64 n -> is_u64 ts -> ts <= lo + 30 -> hi <= ts + 86400 ->
  seen_numbers e !! n = None ->
  exists now c', decrypt_message out ad env e c = (Ok pt, after_decrypt e n ts now, c') /\
    lo <= now <= hi.
Proof.
  intros (Hc & Hlo & Hhi) Hs <- Hn Ht Hskew Hage Hseen.
  pose proof (sealed_as_len _ _ _ _ _ _ Hs) as HL. pose proof (len_nonneg pt).
  destruct Hs as (nonce & ct & Hnl & Ect & ->). unfold build_header in *.
  destruct (read_header_words n ts 0 (nonce ++ ct) Hn Ht) as (R1 & R2 & R3);
    [unfold in_u, U64_MAX; lia|].
  destruct (read_body (build_header_with_padding n ts 0) nonce ct) as [B1 B2];
    [apply length_build_header | done |].
  unfold decrypt_message. destruct (Z.ltb_spec (len (build_header_with_padding n ts 0 ++ nonce ++ ct)) (24 + 12 + 16)); [lia|].
  rewrite R1, R2, R3, B1, B2. unfold bind, res, lift. unfold read_secs.
  destruct (clock_in_secs env lo hi (c_clock c) Hc) as (t1 & -> & Ht1). cbn [ok_or].
  rewrite u_add_ok by (unfold CLOCK_SKEW_TOLERANCE_SECS; lia). cbn [or_panic].
  destruct (Z.ltb_spec (t1 + CLOCK_SKEW_TOLERANCE_SECS) ts) as [Hx|];
    [unfold CLOCK_SKEW_TOLERANCE_SECS in Hx; lia|].
  rewrite u_add_ok by (unfold MAX_MESSAGE_AGE_SECS; lia). cbn [or_panic].
  destruct (Z.ltb_spec (ts + MAX_MESSAGE_AGE_SECS) t1) as [Hx|];
    [unfold MAX_MESSAGE_AGE_SECS in Hx; lia|].
  unfold get. rewrite Hseen. rewrite bool_decide_eq_false_2 by (intros [? [=]]).
  rewrite (aead_correct _ _ _ _ _ Ect). cbn [ok_or].
  unfold update_seen_numbers, bind, get, lift, read_secs_or_far, put, ret. simpl c_clock.
  destruct (Hc (S (c_clock c))) as (ns & -> & Hns). simpl from_option.
  eexists _, _. split; [reflexivity | done].
Qed.

(** Every outcome of [decrypt_message]: the encryptor changes only on success. *)
Definition secs_at (env : Env) (i : nat) : option Z :=
  option_map (fun ns => ns / NANOS) (e_clock env i).

Lemma decrypt_message_cases out ad env e c :
  match decrypt_message out ad env e c with
  | (Ok pt, e', c') => exists n ts t1,
      read_u64 0 out = Ok n /\ read_u64 8 out = Ok ts /\ secs_at env (c_clock c) = Some t1 /\
      ts <= t1 + 30 /\ t1 <= ts + 86400 /\ seen_numbers e !! n = None /\
      c_clock c' = S (S (c_clock c)) /\
      e' = after_decrypt e n ts (default (U64_MAX / 2) (secs_at env (S (c_clock c))))
  | (_, e', c') => e' = e /\ (c_clock c <= c_clock c')%nat
  end.
Proof.
  unfold decrypt_message. split_guard; [simpl; done|]. unfold bind, res, lift.
  destruct (read_u64 0 out) as [n| |] eqn:R1; try done.
  destruct (read_u64 8 out) as [ts| |] eqn:R2; try done.
  destruct (read_u64 16 out) as [p| |] eqn:R3; try done.
  unfold read_secs, secs_at. destruct (e_clock env (c_clock c)) as [ns|]; simpl; [|split; [done|lia]].
  unfold u_add at 1. destruct (Z.leb_spec (ns / NANOS + CLOCK_SKEW_TOLERANCE_SECS) U64_MAX); simpl; [|split; [done|lia]].
  destruct (Z.ltb_spec (ns / NANOS + CLOCK_SKEW_TOLERANCE_SECS) ts) as [|Hskew]; simpl; [split; [done|lia]|].
  unfold u_add at 1. destruct (Z.leb_spec (ts + MAX_MESSAGE_AGE_SECS) U64_MAX); simpl; [|split; [done|lia]].
  destruct (Z.ltb_spec (ts + MAX_MESSAGE_AGE_SECS) (ns / NANOS)) as [|Hage]; simpl; [split; [done|lia]|].
  case_bool_decide as Hs; simpl; [split; [done|lia]|].
  destruct (aead_decrypt _ _ _ _) as [m|]; simpl; [|split; [done|lia]].
  unfold CLOCK_SKEW_TOLERANCE_SECS, MAX_MESSAGE_AGE_SECS in Hskew, Hage.
  exists n, ts, (ns / NANOS). rewrite eq_None_not_Some. repeat split; try done.
  unfold after_decrypt. do 3 f_equal.
  by destruct (e_clock env (S (c_clock c))).
Qed.

Lemma encrypt_message_clock pt ad env e c :
  let '(_, e', c') := encrypt_message pt ad env e c in
  (c_clock c <= c_clock c')%nat /\ seen_numbers e' = seen_numbers e.
Proof.
  unfold encrypt_message, bind, res, lift.
  destruct (validate_message pt) as [[]| |]; simpl map_err; try done.
  destruct (validate_associated_data ad) as [[]| |]; simpl map_err; try done.
  pose proof (fresh_bytes_clock NONCE_LENGTH env c) as Hc.
  destruct (fresh_bytes NONCE_LENGTH env c) as [[nonce|?|] c1]; simpl in *; try done.
  destruct (e_clock env (c_clock c1)); simpl; [|split; [lia|done]].
  destruct (aead_encrypt _ _ _ _); simpl; split; (lia || done).
Qed.

End Lemmas.

(** ** Accepted messages stay spent

    A run of an encryptor: any interleaving of encryptions, decryptions of any
    bytes, changes of the cap, and time passing. *)
Section Replay.
Context {P : Primitives} {L : PrimitiveLaws P} (env : Env).

Inductive enc_step : Encryptor * Ctr -> Encryptor * Ctr -> Prop :=
| step_encrypt pt ad e c r e' c' :
    encrypt_message pt ad env e c = (r, e', c') -> enc_step (e, c) (e', c')
| step_decrypt ct ad e c r e' c' :
    decrypt_message ct ad env e c = (r, e', c') -> enc_step (e, c) (e', c')
| step_cap max e c : enc_step (e, c) (set_max_seen_numbers max e, c)
| step_time e c c' : (c_clock c <= c_clock c')%nat -> enc_step (e, c) (e, c').

(** The clock is always readable and never runs backwards. *)
Definition clock_monotone : Prop :=
  forall i j : nat, (i <= j)%nat ->
  exists ti tj, secs_at env i = Some ti /\ secs_at env j = Some tj /\ ti <= tj.

(** Number [n], accepted with timestamp [ts], is remembered or too old for good. *)
Definition spent (n ts : Z) (st : Encryptor * Ctr) : Prop :=
  seen_numbers st.1 !! n = Some ts \/
  forall i t, (c_clock st.2 <= i)%nat -> secs_at env i = Some t -> ts + 86400 < t.

Lemma retain_lookup cutoff (m : gmap Z Z) n ts :
  m !! n = Some ts -> cutoff <= ts -> retain_recent cutoff m !! n = Some ts.
Proof. intros Hm Hc. apply map_lookup_filter_Some_2; done. Qed.

(** Evicting an entry means that its age limit has passed for good. *)
Lemma evict_spent (m : gmap Z Z) i now n ts c :
  clock_monotone -> 0 <= ts -> m !! n = Some ts -> secs_at env i = Some now -> (i < c_clock c)%nat ->
  retain_recent (sat_sub now MAX_MESSAGE_AGE_SECS) m !! n = Some ts \/
  (forall j t, (c_clock c <= j)%nat -> secs_at env j = Some t -> ts + 86400 < t).
Proof.
  intros Hmono Hts Hm Hi Hc. destruct (Z.le_gt_cases (sat_sub now MAX_MESSAGE_AGE_SECS) ts).
  - left. by apply retain_lookup.
  - right. intros j t Hj Ht. destruct (Hmono i j) as (ti & tj & E1 & E2 & Hle); [lia|].
    unfold sat_sub, MAX_MESSAGE_AGE_SECS in *. simplify_eq. lia.
Qed.

Lemma spent_step n ts st st' : clock_monotone -> 0 <= ts -> enc_step st st' -> spent n ts st -> spent n ts st'.
Proof.
  intros Hmono Hts [pt ad e c r e' c' Hr|ct ad e c r e' c' Hr|max e c|e c c' Hc] Hsp;
    unfold spent in *; simpl in *.
  - pose proof (encrypt_message_clock pt ad env e c) as H. rewrite Hr in H. destruct H as [Hc Hs].
    rewrite Hs. destruct Hsp as [?|H]; [by left|right]. intros i t Hi. apply H. lia.
  - pose proof (decrypt_message_cases ct ad env e c) as H. rewrite Hr in H.
    destruct r as [m|er|].
    + destruct H as (n' & ts' & t1 & _ & _ & _ & _ & _ & Hnone & Hc & ->).
      destruct Hsp as [Hin|H]; [|right; intros i t Hi; apply H; lia].
      destruct (Hmono (S (c_clock c)) (S (c_clock c))) as (t2 & ? & E2 & _); [lia|].
      rewrite E2. simpl. apply (evict_spent _ (S (c_clock c)) _ _ _ c' Hmono Hts); [|done|lia].
      rewrite lookup_insert_ne; [done|]. intros ->. by rewrite Hnone in Hin.
    + destruct H as [-> Hc]. destruct Hsp as [?|H]; [by left|right]. intros i t Hi. apply H. lia.
    + destruct H as [-> Hc]. destruct Hsp as [?|H]; [by left|right]. intros i t Hi. apply H. lia.
  - done.
  - destruct Hsp as [?|H]; [by left|right]. intros i t Hi. apply H. lia.
Qed.

Lemma spent_rtc n ts st st' : clock_monotone -> 0 <= ts -> rtc enc_step st st' -> spent n ts st -> spent n ts st'.
Proof. intros Hm Hts. induction 1; [done|]. intros. eauto using spent_step. Qed.

(** Acceptance spends the number it was accepted under. *)
Lemma accept_spends ct ad e c pt e' c' :
  clock_monotone -> decrypt_message ct ad env e c = (Ok pt, e', c') ->
  exists n ts, read_u64 0 ct = Ok n /\ read_u64 8 ct = Ok ts /\ 0 <= ts /\ spent n ts (e', c').
Proof.
  intros Hm Hr. pose proof (decrypt_message_cases ct ad env e c) as H. rewrite Hr in H.
  destruct H as (n & ts & t1 & R1 & R2 & _ & _ & _ & _ & Hc & ->).
  assert (Hts : 0 <= ts) by (by apply read_u64_range in R2 as []).
  exists n, ts. repeat split; try done. unfold spent; simpl.
  destruct (Hm (S (c_clock c)) (S (c_clock c))) as (t2 & ? & E2 & _); [lia|]. rewrite E2. simpl.
  apply (evict_spent _ (S (c_clock c)) _ _ _ c' Hm Hts); [apply lookup_insert_eq | done | lia].
Qed.

(** A spent number is refused. *)
Lemma spent_refused ct ad e c n ts pt e' c' :
  read_u64 0 ct = Ok n -> read_u64 8 ct = Ok ts -> spent n ts (e, c) ->
  decrypt_message ct ad env e c <> (Ok pt, e', c').
Proof.
  intros R1 R2 Hsp Hr. pose proof (decrypt_message_cases ct ad env e c) as H. rewrite Hr in H.
  destruct H as (n' & ts' & t1 & R1' & R2' & Ht & _ & Hage & Hnone & _). rewrite R1 in R1'. rewrite R2 in R2'. simplify_eq.
  destruct Hsp as [Hin|Hold]; simpl in *; [congruence|].
  specialize (Hold (c_clock c) t1 (le_n _) Ht). lia.
Qed.

(** C8: replay protection of [Encryptor].  Under a readable, non-decreasing
    clock, once [decrypt_message] has accepted a ciphertext, no later call of
    the same encryptor accepts it again, under any associated data and after
    any sequence of encryptions, decryptions and waiting: the time-bounded
    eviction only forgets numbers whose messages are already too old. *)
Theorem accepted_never_replayed ct ad ad' e c pt e' c' e2 c2 pt2 e3 c3 :
  clock_monotone ->
  decrypt_message ct ad env e c = (Ok pt, e', c') ->
  rtc enc_step (e', c') (e2, c2) ->
  decrypt_message ct ad' env e2 c2 <> (Ok pt2, e3, c3).
Proof.
  intros Hm Hr Hrun. destruct (accept_spends _ _ _ _ _ _ _ Hm Hr) as (n & ts & R1 & R2 & Hts & Hsp).
  eapply spent_refused; [done|done|]. eapply spent_rtc; eauto.
Qed.

End Replay.

(** ** Round trips

    Sender and receiver run in different environments.  [windows] relates
    their clocks: the sender's readings are at most 30 seconds ahead of the
    receiver's and at most 24 hours behind. *)
Section RoundTrip.
Context {P : Primitives} {L : PrimitiveLaws P}.
Context (env1 env2 : Env) (lo1 hi1 lo2 hi2 : Z).

Definition windows : Prop :=
  clock_in env1 lo1 hi1 /\ 0 <= lo1 /\ hi1 <= U64_MAX /\ sane_clock env2 lo2 hi2 /\
  hi1 <= lo2 + 30 /\ hi2 <= lo1 + 86400.

Hypothesis Hwin : windows.

(** What one encryption produces, the receiver's [decrypt_message] opens. *)
Lemma message_transfer pt ad e1 c1 out e1' c1' e2 c2 :
  encrypt_message pt ad env1 e1 c1 = (Ok out, e1', c1') ->
  enc_key e2 = enc_key e1 -> is_u64 (message_number e1) ->
  seen_numbers e2 !! message_number e1 = None ->
  e1' = after_encrypt e1 /\ len out = len pt + 52 /\
  exists ts now c2', decrypt_message out ad env2 e2 c2
    = (Ok pt, after_decrypt e2 (message_number e1) ts now, c2').
Proof.
  destruct Hwin as (Hc1 & Hlo1 & Hhi1 & Hc2 & Hskew & Hage).
  intros He Hk Hn Hs. apply encrypt_message_inv in He as (_ & _ & -> & i & ns & Hi & Hseal).
  destruct (Hc1 i) as (ns' & Hi' & Hr). assert (ns' = ns) as -> by congruence.
  split; [done|]. split; [by eapply sealed_as_len|].
  destruct (decrypt_message_ok (enc_key e1) pt ad (message_number e1) (ns / NANOS) out env2 e2 c2
    lo2 hi2) as (now & c2' & Hd & _); try done; try lia.
  - split; lia.
  - eauto.
Qed.

(** The two ends of a stream before a chunk. *)
Definition stream_synced (s1 s2 : StreamingEncryptor) : Prop :=
  enc_key (encryptor s2) = enc_key (encryptor s1) /\
  chunk_counter s2 = chunk_counter s1 /\ 0 <= chunk_counter s1 /\
  0 <= message_number (encryptor s1) /\
  forall k, is_Some (seen_numbers (encryptor s2) !! k) -> k < message_number (encryptor s1).

Lemma stream_synced_next s1 s2 ts now :
  stream_synced s1 s2 -> message_number (encryptor s1) < U64_MAX -> chunk_counter s1 < U64_MAX ->
  stream_synced (bump_counter (set_encryptor (after_encrypt (encryptor s1)) s1))
    (bump_counter (set_encryptor
       (after_decrypt (encryptor s2) (message_number (encryptor s1)) ts now) s2)).
Proof.
  intros (Hk & Hc & Hc0 & Hm0 & Hs) Hm Hcc. unfold stream_synced, sat_add; simpl.
  unfold sat_add. repeat split; try done; try lia.
  intros k [t Ht]. unfold retain_recent in Ht.
  apply map_lookup_filter_Some in Ht as [Ht _].
  destruct (decide (k = message_number (encryptor s1))) as [->|Hne]; [lia|].
  rewrite lookup_insert_ne in Ht by done. assert (k < message_number (encryptor s1)) by eauto. lia.
Qed.

(** One iteration of [decrypt_stream] on a chunk that opens. *)
Lemma decrypt_chunks_step fuel n out rest env s c pt e' c' :
  0 < n -> len out <= U32_MAX ->
  decrypt_message out (u64_le (chunk_counter s)) env (encryptor s) c = (Ok pt, e', c') ->
  decrypt_chunks (S fuel) n (u32_le (len out) ++ out ++ rest) env s c =
    bind (decrypt_chunks fuel (n - 1) rest) (fun r => ret (pt ++ r)) env
      (bump_counter (set_encryptor e' s)) c'.
Proof.
  intros Hn Ho Hd. cbn [decrypt_chunks]. destruct (Z.leb_spec n 0); [lia|].
  pose proof (len_nonneg rest). pose proof (len_nonneg out).
  destruct (Z.ltb_spec (len (u32_le (len out) ++ out ++ rest)) 4) as [Hs|_].
  { rewrite !len_app in Hs. unfold len at 1 in Hs. rewrite length_to_le in Hs. lia. }
  rewrite take_app_length', drop_app_length' by (by rewrite length_to_le).
  rewrite from_le_u32 by (unfold in_u; lia).
  destruct (Z.ltb_spec (len (out ++ rest)) (len out)); [rewrite len_app in *; lia|].
  rewrite take_app_length', drop_app_length' by (unfold len; lia).
  unfold bind at 1, get at 1. cbv iota beta. unfold bind at 1, zoom at 1. rewrite Hd.
  unfold bind at 1, modify at 1. done.
Qed.

(** The chunk at [start] and what follows it. *)
Lemma chunk_split (data : bytes) start size :
  0 <= start -> 0 < size ->
  take (Z.to_nat (Z.min (start + size) (len data) - start)) (drop (Z.to_nat start) data)
    ++ drop (Z.to_nat (start + size)) data = drop (Z.to_nat start) data.
Proof.
  intros Hs Hz. set (stop := Z.min (start + size) (len data)).
  rewrite <- (take_drop (Z.to_nat (stop - start)) (drop (Z.to_nat start) data)) at 2.
  f_equal. rewrite drop_drop. unfold stop, len in *.
  destruct (Z.le_gt_cases (start + size) (Z.of_nat (length data))); [f_equal; lia|].
  rewrite !drop_ge; [done| |]; lia.
Qed.

Lemma stream_chunks data n : forall start s1 c1 s2 c2 fuel body s1' c1',
  encrypt_chunks n start data env1 s1 c1 = (Ok body, s1', c1') ->
  0 < chunk_size s1 <= limits.MAX_MESSAGE_SIZE -> 0 <= start ->
  len data <= start + Z.of_nat n * chunk_size s1 ->
  (forall m, n = S m -> start + Z.of_nat m * chunk_size s1 < len data) ->
  stream_synced s1 s2 ->
  message_number (encryptor s1) + Z.of_nat n <= U64_MAX ->
  chunk_counter s1 + Z.of_nat n <= U64_MAX ->
  (n < fuel)%nat ->
  (n <= length body)%nat /\ exists s2' c2',
    decrypt_chunks fuel (Z.of_nat n) body env2 s2 c2
    = (Ok (drop (Z.to_nat start) data), s2', c2').
Proof.
  induction n as [|n IH]; intros start s1 c1 s2 c2 fuel body s1' c1' He Hcs Hst Hend Hmid Hsync Hmn Hcn Hf.
  - destruct fuel as [|fuel]; [lia|]. simpl in He. unfold ret in He. injection He as <- <- <-.
    split; [simpl; lia|]. exists s2, c2. simpl. rewrite drop_ge; [done|]. unfold len in *. lia.
  - destruct fuel as [|fuel]; [lia|].
    specialize (Hmid n eq_refl).
    cbn [encrypt_chunks] in He. unfold bind at 1, get at 1 in He. cbv iota beta in He.
    set (stop := Z.min (start + chunk_size s1) (len data)) in *.
    set (chunk := take (Z.to_nat (stop - start)) (drop (Z.to_nat start) data)) in *.
    assert (Hbody : 0 <= Z.of_nat n * chunk_size s1) by nia.
    assert (Hck : len chunk = stop - start)
      by (unfold chunk, len in *; rewrite length_take, length_drop; lia).
    unfold bind at 1, zoom at 1 in He.
    destruct (encrypt_message chunk (u64_le (chunk_counter s1)) env1 (encryptor s1) c1)
      as [[[out|er|] e1'] c1a] eqn:Em; try done.
    destruct Hsync as (Hk & Hc & Hc0 & Hm0 & Hs).
    destruct (message_transfer chunk (u64_le (chunk_counter s1)) (encryptor s1) c1 out e1' c1a
      (encryptor s2) c2) as (-> & Hlen & ts & now & c2a & Hd); try done.
    { split; lia. }
    { apply eq_None_not_Some. intros Hin. apply Hs in Hin. lia. }
    unfold bind at 1, modify at 1 in He. cbv iota beta in He.
    unfold bind at 1 in He.
    destruct (encrypt_chunks n _ data env1 _ c1a) as [[[rest|er|] s1b] c1b] eqn:Er; try done.
    apply ret_ok_inv in He as (-> & -> & ->).
    edestruct (IH _ _ _
      (bump_counter (set_encryptor
         (after_decrypt (encryptor s2) (message_number (encryptor s1)) ts now) s2)) c2a fuel _ _ _ Er)
      as (Hl & s2' & c2' & Hdec); try (simpl; nia).
    { apply stream_synced_next; [repeat split; done | lia | lia]. }
    { simpl. unfold sat_add. lia. }
    { simpl. unfold sat_add. lia. }
    assert (Hout : 53 <= len out <= U32_MAX).
    { rewrite Hlen, Hck. unfold limits.MAX_MESSAGE_SIZE, U32_MAX in *. unfold stop. lia. }
    split. { rewrite !length_app, length_to_le. lia. }
    rewrite <- Hc in Hd. erewrite decrypt_chunks_step; [|lia | lia | exact Hd].
    replace (Z.of_nat (S n) - 1) with (Z.of_nat n) by lia. unfold bind. rewrite Hdec.
    exists s2', c2'. unfold ret. do 3 f_equal. apply chunk_split; lia.
Qed.

(** Encrypting a whole stream succeeds. *)
Lemma encrypt_chunks_ok data n : forall start s1 c1,
  rng_healthy env1 -> 0 < chunk_size s1 <= limits.MAX_MESSAGE_SIZE -> 0 <= start ->
  (forall m, n = S m -> start + Z.of_nat m * chunk_size s1 < len data) ->
  exists body s1' c1', encrypt_chunks n start data env1 s1 c1 = (Ok body, s1', c1').
Proof.
  destruct Hwin as (Hc1 & _). induction n as [|n IH]; intros start s1 c1 Hr Hcs Hst Hmid;
    [simpl; unfold ret; eauto|].
  specialize (Hmid n eq_refl). assert (0 <= Z.of_nat n * chunk_size s1) by nia.
  cbn [encrypt_chunks]. unfold bind at 1, get at 1. cbv iota beta.
  set (stop := Z.min (start + chunk_size s1) (len data)) in *.
  set (chunk := take (Z.to_nat (stop - start)) (drop (Z.to_nat start) data)) in *.
  assert (Hck : len chunk = stop - start)
    by (unfold chunk, len in *; rewrite length_take, length_drop; lia).
  destruct (encrypt_message_ok chunk (u64_le (chunk_counter s1)) env1 (encryptor s1) c1 lo1 hi1)
    as (out & e' & c' & Em); [done | done | lia | |].
  { unfold len. rewrite length_to_le. unfold limits.MAX_AD_LEN. lia. }
  unfold bind at 1, zoom at 1. rewrite Em. unfold bind at 1, modify at 1. cbv iota beta.
  destruct (IH (start + chunk_size s1) (bump_counter (set_encryptor e' s1)) c')
    as (rest & s2 & c2 & Er); [done | done | lia | simpl; nia |].
  unfold bind at 1. rewrite Er. unfold ret. eauto.
Qed.

Lemma num_chunks_spec (d cs : Z) :
  0 <= d -> 0 < cs ->
  let n := (d + cs - 1) / cs in
  0 <= n <= d /\ d <= n * cs /\ (0 < n -> (n - 1) * cs < d).
Proof.
  intros Hd Hc n. pose proof (Z.mul_div_le (d + cs - 1) cs Hc).
  pose proof (Z.mul_succ_div_gt (d + cs - 1) cs Hc).
  assert (0 <= n) by (apply Z.div_pos; lia). fold n in H, H0. split; [|split]; nia.
Qed.

End RoundTrip.

Section EncryptorProperties.
Context {P : Primitives} {L : PrimitiveLaws P}.

(** Message encryption round trip between two machines.  For a key the
    constructor accepts, a plaintext of 1 byte to 10 MiB and at most 256 bytes
    of associated data, encryption succeeds with 52 bytes of overhead, and a
    fresh encryptor for the same key on a machine whose clock is at most 30
    seconds behind and at most 24 hours ahead decrypts it to the plaintext. *)
Theorem encryptor_roundtrip env1 env2 lo1 hi1 lo2 hi2 key n e1 e2 pt ad c1 c2 :
  windows env1 env2 lo1 hi1 lo2 hi2 -> rng_healthy env1 ->
  Encryptor_new key n = Ok e1 -> Encryptor_new key 0 = Ok e2 -> is_u64 n ->
  1 <= len pt <= limits.MAX_MESSAGE_SIZE -> len ad <= limits.MAX_AD_LEN ->
  exists out e1' c1', encrypt_message pt ad env1 e1 c1 = (Ok out, e1', c1') /\
    len out = len pt + 52 /\
    exists e2' c2', decrypt_message out ad env2 e2 c2 = (Ok pt, e2', c2').
Proof.
  intros Hw Hr (_ & _ & ->)%Encryptor_new_ok (_ & _ & ->)%Encryptor_new_ok Hn Hp Ha.
  pose proof Hw as (Hc1 & _).
  destruct (encrypt_message_ok pt ad env1 (mkEncryptor key n n ∅ 100000) c1 lo1 hi1)
    as (out & e1' & c1' & He); try done.
  destruct (message_transfer env1 env2 lo1 hi1 lo2 hi2 Hw pt ad _ c1 out e1' c1'
    (mkEncryptor key 0 0 ∅ 100000) c2 He) as (_ & Hl & ts & now & c2' & Hd); try done.
  eauto 10.
Qed.

(** [decrypt_message] never panics: for every byte string, associated
    data and encryptor state, while the clock stays between 0 and
    [2^64 - 86431] seconds; timestamps chosen by the sender cannot overflow
    the window arithmetic because the skew check comes first. *)
Theorem decrypt_message_no_panic env lo hi out ad e c e' c' :
  sane_clock env lo hi -> decrypt_message out ad env e c <> (Panic, e', c').
Proof.
  intros (Hc & Hlo & Hhi). unfold decrypt_message.
  destruct (Z.ltb_spec (len out) (24 + 12 + 16)); [done|]. unfold bind, res, lift, read_u64.
  unfold len in *. rewrite !slice_ok by lia. cbn [or_panic res_bind].
  set (n := from_le (take _ (drop 0 out))). set (ts := from_le (take _ (drop 8 out))).
  unfold read_secs. destruct (clock_in_secs env lo hi (c_clock c) Hc) as (t1 & -> & Ht1).
  cbn [ok_or]. rewrite u_add_ok by (unfold CLOCK_SKEW_TOLERANCE_SECS; lia). cbn [or_panic].
  destruct (Z.ltb_spec (t1 + CLOCK_SKEW_TOLERANCE_SECS) ts) as [|Hs]; [done|].
  unfold CLOCK_SKEW_TOLERANCE_SECS in Hs.
  rewrite u_add_ok by (unfold MAX_MESSAGE_AGE_SECS; lia). cbn [or_panic].
  split_guard; [done|]. unfold get. case_bool_decide; [done|].
  by destruct (aead_decrypt _ _ _ _).
Qed.

(** Stream round trip.  Data of any length up to [isize::MAX], the empty
    stream included, encrypted by a fresh [StreamingEncryptor] in 1 MiB chunks
    is restored byte for byte by a fresh one for the same key. *)
Theorem stream_roundtrip env1 env2 lo1 hi1 lo2 hi2 key s1 s2 data c1 c2 :
  windows env1 env2 lo1 hi1 lo2 hi2 -> rng_healthy env1 ->
  StreamingEncryptor_new key = Ok s1 -> StreamingEncryptor_new key = Ok s2 ->
  len data <= U64_MAX / 2 ->
  exists out s1' c1', encrypt_stream data env1 s1 c1 = (Ok out, s1', c1') /\
    exists s2' c2', decrypt_stream out env2 s2 c2 = (Ok data, s2', c2').
Proof.
  intros Hw Hr H1 H2 Hlen. assert (s1 = s2) as <- by congruence. clear H2.
  unfold StreamingEncryptor_new in H1. destruct (Encryptor_new key 0) as [e|?|] eqn:Ek; try done.
  apply Encryptor_new_ok in Ek as (_ & _ & ->). simpl in H1. injection H1 as <-.
  set (s := mkStreamingEncryptor _ _ _).
  pose proof (num_chunks_spec (len data) (1024 * 1024) (len_nonneg data) ltac:(lia)) as Hn.
  cbv zeta in Hn. set (n := (len data + 1024 * 1024 - 1) / (1024 * 1024)) in *.
  assert (HU : U64_MAX / 2 < U64_MAX) by (vm_compute; reflexivity).
  unfold encrypt_stream, bind, get. change (chunk_size s) with (1024 * 1024). fold n.
  destruct (encrypt_chunks_ok env1 env2 lo1 hi1 lo2 hi2 Hw data (Z.to_nat n) 0 s c1)
    as (body & s1' & c1' & Eb);
    [done | simpl; unfold limits.MAX_MESSAGE_SIZE; lia | lia | simpl; lia |].
  rewrite Eb. unfold ret. eexists _, _, _. split; [done|].
  unfold decrypt_stream. rewrite len_app. pose proof (len_nonneg body).
  assert (Hl8 : len (u64_le n) = 8) by (unfold len; by rewrite length_to_le).
  destruct (Z.ltb_spec (len (u64_le n) + len body) 8); [lia|].
  rewrite take_app_length' by (by rewrite length_to_le).
  rewrite drop_app_length' by (by rewrite length_to_le).
  rewrite from_le_u64 by (split; lia). rewrite length_app, length_to_le.
  assert (Hsync : stream_synced s s).
  { repeat split; simpl; try lia. intros k [? Hk]. by rewrite lookup_empty in Hk. }
  assert (Hrun : forall fuel, (Z.to_nat n < fuel)%nat ->
    (Z.to_nat n <= length body)%nat /\ exists s2' c2',
    decrypt_chunks fuel (Z.of_nat (Z.to_nat n)) body env2 s c2 = (Ok (drop (Z.to_nat 0) data), s2', c2')).
  { intros fuel Hf. eapply (stream_chunks env1 env2 lo1 hi1 lo2 hi2 Hw data (Z.to_nat n) 0 s c1);
      [exact Eb | simpl; unfold limits.MAX_MESSAGE_SIZE; lia | lia | simpl; lia | simpl; lia
      | done | simpl; lia | simpl; lia | done]. }
  destruct (Hrun (S (Z.to_nat n))) as [Hb _]; [lia|].
  destruct (Hrun (S (8 + length body))) as (_ & s2' & c2' & Hd); [lia|].
  rewrite Z2Nat.id in Hd by lia. rewrite Hd. eauto.
Qed.

End EncryptorProperties.

(** *** Witnesses *)

Definition demo_env1 : Env :=
  mkEnv (fun _ => Some (1700000000 * NANOS)) (fun _ => 0) (fun _ => x01) 7.

Lemma demo_env1_healthy : rng_healthy demo_env1.
Proof. intros p. exists 20%nat. split; [lia | discriminate]. Qed.

Lemma demo_windows :
  windows demo_env1 demo_env1 1700000000 1700000000 1700000000 1700000000.
Proof.
  assert (Hc : clock_in demo_env1 1700000000 1700000000).
  { intros i. exists (1700000000 * NANOS). split; [done|].
    rewrite Z.div_mul by (vm_compute; discriminate). lia. }
  unfold windows, sane_clock. repeat split; try done; vm_compute; discriminate.
Qed.

Lemma encryptor_roundtrip_witness :
  exists out e1' c1',
    encrypt_message (P := toy) (bstr "Hello") (bstr "ad") demo_env1 (mkEncryptor demo_key 0 0 ∅ 100000) ctr0
      = (Ok out, e1', c1') /\ len out = 57 /\
    exists e2' c2', decrypt_message (P := toy) out (bstr "ad") demo_env1
      (mkEncryptor demo_key 0 0 ∅ 100000) ctr0 = (Ok (bstr "Hello"), e2', c2').
Proof.
  apply (encryptor_roundtrip (L := toy_laws) demo_env1 demo_env1 _ _ _ _ demo_key 0 _ _
    (bstr "Hello") (bstr "ad") ctr0 ctr0 demo_windows demo_env1_healthy);
    [reflexivity | reflexivity | split; [lia | vm_compute; discriminate]
    | split; vm_compute; discriminate | vm_compute; discriminate].
Defined.

Lemma decrypt_message_no_panic_witness :
  decrypt_message (P := toy) (repeat xff 60) [] demo_env1 (mkEncryptor demo_key 0 0 ∅ 100000) ctr0
  <> (Panic, mkEncryptor demo_key 0 0 ∅ 100000, ctr0).
Proof.
  apply (decrypt_message_no_panic demo_env1 1700000000 1700000000).
  apply demo_windows.
Defined.

Lemma stream_roundtrip_witness :
  exists out s1' c1', encrypt_stream (P := toy) (bstr "streamed data") demo_env1
      (mkStreamingEncryptor (1024 * 1024) (mkEncryptor demo_key 0 0 ∅ 100000) 0) ctr0
      = (Ok out, s1', c1') /\
    exists s2' c2', decrypt_stream (P := toy) out demo_env1
      (mkStreamingEncryptor (1024 * 1024) (mkEncryptor demo_key 0 0 ∅ 100000) 0) ctr0
      = (Ok (bstr "streamed data"), s2', c2').
Proof.
  apply (stream_roundtrip (L := toy_laws) demo_env1 demo_env1 _ _ _ _ demo_key _ _
    (bstr "streamed data") ctr0 ctr0 demo_windows demo_env1_healthy);
    [reflexivity | reflexivity | vm_compute; discriminate].
Defined.

(** A sealed message, the run that accepts it, and its replay. *)
Definition demo_sealed : bytes :=
  match encrypt_message (P := toy) (bstr "Hello") (bstr "ad") demo_env1
          (mkEncryptor demo_key 0 0 ∅ 100000) ctr0 with
  | (Ok out, _, _) => out | _ => [] end.

Lemma accepted_never_replayed_witness :
  let r1 := decrypt_message (P := toy) demo_sealed (bstr "ad") demo_env1
              (mkEncryptor demo_key 0 0 ∅ 100000) ctr0 in
  fst (fst r1) = Ok (bstr "Hello") /\
  decrypt_message (P := toy) demo_sealed (bstr "ad") demo_env1 (snd (fst r1)) (snd r1)
  <> (Ok (bstr "Hello"), snd (fst r1), snd r1).
Proof.
  intros r1. split; [vm_compute; reflexivity|].
  apply (accepted_never_replayed (P := toy) demo_env1 demo_sealed (bstr "ad") (bstr "ad")
    (mkEncryptor demo_key 0 0 ∅ 100000) ctr0 (bstr "Hello") (snd (fst r1)) (snd r1)).
  - intros i j _. exists 1700000000, 1700000000. vm_compute. repeat split; discriminate.
  - vm_compute. reflexivity.
  - apply rtc_refl.
Defined.
