(* ===== verification/Chain.v ===== *)
(** * Symmetric-key chains ([core/src/ratchet/chain.rs])

    A [ChainKey] produces message keys one after the other and forgets how it
    got there.  The specification is the sequence [chain_at], [message_key_at]
    of keys determined by the initial key. *)

From S2P Require Import Prelude Effects Errors Primitives Handler Kdf.
#[local] Open Scope Z_scope.
#[local] Open Scope sibna_scope.

(** ** Data and operations *)

Definition MESSAGE_KEY_SEED : u8 := x01.
Definition CHAIN_KEY_SEED : u8 := x02.
Definition HEADER_KEY_SEED : u8 := x03.
Definition MAX_SKIPPED_MESSAGES : Z := 2000.
Definition DEFAULT_MAX_MESSAGES : Z := 4000.

Record ChainKey := mkChainKey {
  ck_key : bytes;
  ck_index : Z;
  ck_created_at : Z;
  ck_max_messages : Z;
  ck_reserved_until : Z
}.

Definition ChainKey_new {E} (key : bytes) : IO E ChainKey :=
  let* created_at := current_timestamp_or 0 in
  io_ret (mkChainKey key 0 created_at DEFAULT_MAX_MESSAGES DEFAULT_MAX_MESSAGES).

Definition ChainKey_with_max_messages {E} (key : bytes) (max_messages : Z) : IO E ChainKey :=
  let* ck := ChainKey_new key in
  io_ret (mkChainKey (ck_key ck) (ck_index ck) (ck_created_at ck) max_messages max_messages).

Section Chain.
Context {P : Primitives}.

(** HMAC accepts keys of any length, so the derivation cannot fail. *)
Definition derive_key (ck : ChainKey) (seed : u8) : bytes := hmac_sha256 (ck_key ck) [seed].

Definition derive_header_key (ck : ChainKey) : option bytes := Some (derive_key ck HEADER_KEY_SEED).

(** The message key, if any, and the chain afterwards. *)
Definition next_message_key (ck : ChainKey) : option bytes * ChainKey :=
  if ck_max_messages ck <=? ck_index ck then (None, ck)
  else
    let message_key := derive_key ck MESSAGE_KEY_SEED in
    let next_chain := derive_key ck CHAIN_KEY_SEED in
    (Some message_key,
     mkChainKey next_chain (sat_add U64_MAX (ck_index ck) 1) (ck_created_at ck)
       (ck_max_messages ck) (ck_reserved_until ck)).

Definition remaining_messages (ck : ChainKey) : Z := sat_sub (ck_max_messages ck) (ck_index ck).

Definition age_secs {E} (ck : ChainKey) : IO E Z :=
  let* now := current_timestamp_or (ck_created_at ck) in
  io_ret (sat_sub now (ck_created_at ck)).

(** The clock is read only when the index test is false. *)
Definition needs_rotation {E} (ck : ChainKey) : IO E bool :=
  if ck_max_messages ck <=? ck_index ck then io_ret true
  else let* age := age_secs ck in io_ret (86400 <? age).

Definition ck_zeroize (ck : ChainKey) : ChainKey :=
  mkChainKey (zeros (length (ck_key ck))) 0 (ck_created_at ck) (ck_max_messages ck) 0.

(** ** Specification *)

Fixpoint chain_at (k : bytes) (i : nat) : bytes :=
  match i with
  | O => k
  | S i => hmac_sha256 (chain_at k i) [CHAIN_KEY_SEED]
  end.

Definition message_key_at (k : bytes) (i : nat) : bytes :=
  hmac_sha256 (chain_at k i) [MESSAGE_KEY_SEED].

(** The chain that started from [k] and has produced [i] keys. *)
Definition chain_rep (k : bytes) (i : nat) (ck : ChainKey) : Prop :=
  ck_key ck = chain_at k i /\ ck_index ck = Z.of_nat i /\
  ck_max_messages ck <= U64_MAX.

(** [n] calls of [next_message_key]: the keys produced, and the chain. *)
Fixpoint take_keys (n : nat) (ck : ChainKey) : list (option bytes) * ChainKey :=
  match n with
  | O => ([], ck)
  | S n =>
      let (k, ck) := next_message_key ck in
      let (ks, ck) := take_keys n ck in (k :: ks, ck)
  end.

Lemma next_message_key_some k i ck :
  chain_rep k i ck -> Z.of_nat i < ck_max_messages ck ->
  exists ck', next_message_key ck = (Some (message_key_at k i), ck') /\
    chain_rep k (S i) ck' /\ ck_max_messages ck' = ck_max_messages ck /\
    ck_reserved_until ck' = ck_reserved_until ck /\ ck_created_at ck' = ck_created_at ck.
Proof.
  intros (Hk & Hi & Hm) Hlt. unfold next_message_key. rewrite Hi.
  destruct (Z.leb_spec (ck_max_messages ck) (Z.of_nat i)); [lia|].
  unfold derive_key. rewrite Hk. eexists. split; [reflexivity|].
  unfold chain_rep; simpl. unfold sat_add. repeat split; try done. lia.
Qed.

Lemma next_message_key_none ck :
  ck_max_messages ck <= ck_index ck -> next_message_key ck = (None, ck).
Proof. intros H. unfold next_message_key. by rewrite (proj2 (Z.leb_le _ _) H). Qed.

Lemma take_keys_spec k n : forall i ck,
  chain_rep k i ck ->
  fst (take_keys n ck) =
    map (fun j => if Z.of_nat j <? ck_max_messages ck then Some (message_key_at k j) else None)
      (seq i n).
Proof.
  induction n as [|n IH]; intros i ck Hr; [done|]. cbn [take_keys seq map].
  destruct (Z.ltb_spec (Z.of_nat i) (ck_max_messages ck)) as [Hlt|Hge].
  - destruct (next_message_key_some k i ck Hr Hlt) as (ck' & -> & Hr' & Hm & _).
    specialize (IH _ _ Hr'). destruct (take_keys n ck') as [ks ck'']. simpl in *.
    by rewrite IH, Hm.
  - rewrite next_message_key_none by (destruct Hr as (_ & -> & _); lia).
    assert (Hex : forall m, fst (take_keys m ck) = replicate m None).
    { induction m as [|m IHm]; [done|]. cbn [take_keys replicate].
      rewrite next_message_key_none by (destruct Hr as (_ & -> & _); lia).
      destruct (take_keys m ck). simpl in *. by rewrite IHm. }
    specialize (Hex n). destruct (take_keys n ck) as [ks ck'']. simpl in *. rewrite Hex.
    f_equal. clear -Hge. revert i Hge. induction n as [|n IH]; intros i Hge; [done|]. simpl.
    destruct (Z.ltb_spec (Z.of_nat (S i)) (ck_max_messages ck)); [lia|]. f_equal. apply IH. lia.
Qed.

(** The step of a chain is the ratchet KDF [kdf_ck]. *)
Lemma next_message_key_kdf_ck ck mk ck' :
  next_message_key ck = (Some mk, ck') -> kdf_ck (ck_key ck) = Ok (mk, ck_key ck').
Proof. unfold next_message_key. split_guard; [done|]. by intros [= <- <-]. Qed.

(** ** Properties *)

(** A chain implements its specification.  A chain created by
    [ChainKey::new] yields, over any number [n] of calls, exactly the keys
    [HMAC(chain_j, 0x01)] of the HMAC chain for the first 4000 calls, in order,
    and [None] from then on: the cap is at least the 2000-message skip window. *)
Theorem chain_yields_spec key env c ck c' n :
  ChainKey_new (E := ProtocolError.t) key env c = (Ok ck, c') ->
  fst (take_keys n ck) =
    map (fun j => if Z.of_nat j <? DEFAULT_MAX_MESSAGES then Some (message_key_at key j) else None)
      (seq 0 n) /\
  MAX_SKIPPED_MESSAGES <= DEFAULT_MAX_MESSAGES.
Proof.
  unfold ChainKey_new, io_bind, current_timestamp_or, io_bind, read_secs, io_ret.
  intros [= <- <-]. split; [|vm_compute; discriminate].
  apply (take_keys_spec key n 0 (mkChainKey key 0 _ DEFAULT_MAX_MESSAGES DEFAULT_MAX_MESSAGES)).
  repeat split. vm_compute. discriminate.
Qed.

End Chain.

Lemma chain_yields_spec_witness :
  exists ck c', ChainKey_new (E := ProtocolError.t) (repeat x42 32)
      (mkEnv (fun _ => None) (fun _ => 0) (fun _ => x00) 1) ctr0 = (Ok ck, c') /\
    fst (take_keys (P := toy) 2 ck)
      = [Some (message_key_at (P := toy) (repeat x42 32) 0);
         Some (message_key_at (P := toy) (repeat x42 32) 1)].
Proof.
  eexists _, _. split; [reflexivity|].
  exact (proj1 (chain_yields_spec (P := toy) (repeat x42 32)
    (mkEnv (fun _ => None) (fun _ => 0) (fun _ => x00) 1) ctr0 _ _ 2 eq_refl)).
Defined.
