(* ===== verification/Message.v ===== *)
(** * Ratchet messages ([core/src/ratchet/mod.rs])

    Headers and messages on the wire, in the plain form
    [dh_public (32) | message_number (8) | previous_chain_length (8) | timestamp (8) | ciphertext]
    and with the header sealed under a header key. *)

From S2P Require Import Prelude Effects Errors Primitives Random Validation Kdf Handler Chain.
#[local] Open Scope Z_scope.
#[local] Open Scope sibna_scope.

Definition MAX_MESSAGE_KEY_AGE_SECS : Z := 86400.
Definition HEADER_SIZE : nat := 56.
Definition ENCRYPTED_HEADER_NONCE_SIZE : nat := 12.
Definition ENCRYPTED_HEADER_SIZE : nat := ENCRYPTED_HEADER_NONCE_SIZE + HEADER_SIZE + 16.

Abbreviation PResult := (Res ProtocolError.t).

(** ** [RatchetHeader] *)

Record RatchetHeader := mkRatchetHeader {
  dh_public : bytes;
  h_message_number : Z;
  previous_chain_length : Z;
  h_timestamp : Z
}.

Definition header_to_bytes (h : RatchetHeader) : bytes :=
  dh_public h ++ u64_le (h_message_number h) ++ u64_le (previous_chain_length h)
  ++ u64_le (h_timestamp h).

Definition header_from_bytes (data : bytes) : PResult RatchetHeader :=
  if len data <? Z.of_nat HEADER_SIZE then Err ProtocolError.InvalidMessage
  else
    let? dh := or_panic (slice 0 32 data) in
    let? n := or_panic (slice 32 40 data) in
    let? p := or_panic (slice 40 48 data) in
    let? t := or_panic (slice 48 56 data) in
    Ok (mkRatchetHeader dh (from_le n) (from_le p) (from_le t)).

Definition header_validate (h : RatchetHeader) : IO ProtocolError.t unit :=
  if all_zero (dh_public h) then io_res (Err ProtocolError.InvalidMessage)
  else if 1000000000000 <? h_message_number h then io_res (Err ProtocolError.InvalidMessage)
  else
    let* now := current_timestamp in
    let* limit := io_res (or_panic (u_add U64_MAX now 300)) in
    if limit <? h_timestamp h then io_res (Err ProtocolError.InvalidMessage)
    else if sat_add U64_MAX (h_timestamp h) 86400 <? now
    then io_res (Err ProtocolError.MessageTooOld)
    else io_ret tt.

(** ** [SkippedMessageKey] *)

Record SkippedMessageKey := mkSkippedMessageKey {
  smk_key : bytes; smk_created_at : Z; smk_message_number : Z }.

Definition SkippedMessageKey_new {E} (key : bytes) (number : Z) : IO E SkippedMessageKey :=
  let* now := current_timestamp_or 0 in io_ret (mkSkippedMessageKey key now number).

Definition SkippedMessageKey_is_expired {E} (k : SkippedMessageKey) : IO E bool :=
  let* now := current_timestamp_or (smk_created_at k) in
  let* limit := io_res (or_panic (u_add U64_MAX (smk_created_at k) MAX_MESSAGE_KEY_AGE_SECS)) in
  io_ret (limit <? now).

Definition SkippedMessageKey_zeroize (k : SkippedMessageKey) : SkippedMessageKey :=
  mkSkippedMessageKey (zeros (length (smk_key k))) (smk_created_at k) (smk_message_number k).

(** ** [RatchetMessage] *)

Record RatchetMessage := mkRatchetMessage { header : RatchetHeader; ciphertext : bytes }.

Definition message_to_bytes (m : RatchetMessage) : bytes :=
  header_to_bytes (header m) ++ ciphertext m.

Definition message_from_bytes (data : bytes) : PResult RatchetMessage :=
  if len data <? Z.of_nat HEADER_SIZE + 29 then Err ProtocolError.InvalidMessage
  else
    let? h := header_from_bytes (take HEADER_SIZE data) in
    Ok (mkRatchetMessage h (drop HEADER_SIZE data)).

Definition is_encrypted_header (data : bytes) : bool :=
  Z.of_nat ENCRYPTED_HEADER_SIZE + 29 <=? len data.

Definition message_size (m : RatchetMessage) : Z := Z.of_nat HEADER_SIZE + len (ciphertext m).

Section Sealed.
Context {P : Primitives}.

Definition header_encrypt (h : RatchetHeader) (header_key : bytes) : IO ProtocolError.t bytes :=
  let* nonce := io_map_err (fun _ => ProtocolError.InternalError)
                  (fresh_bytes ENCRYPTED_HEADER_NONCE_SIZE) in
  let* encrypted := io_res (ok_or (aead_encrypt header_key nonce [] (header_to_bytes h))
                              ProtocolError.EncryptionFailed) in
  io_ret (nonce ++ encrypted).

Definition header_decrypt (data header_key : bytes) : PResult RatchetHeader :=
  if len data <? Z.of_nat ENCRYPTED_HEADER_NONCE_SIZE + 16 then Err ProtocolError.InvalidMessage
  else
    let nonce := take ENCRYPTED_HEADER_NONCE_SIZE data in
    let sealed := drop ENCRYPTED_HEADER_NONCE_SIZE data in
    let? plaintext := ok_or (aead_decrypt header_key nonce [] sealed)
                        ProtocolError.DecryptionFailed in
    header_from_bytes plaintext.

Definition message_to_bytes_encrypted (m : RatchetMessage) (header_key : bytes)
    : IO ProtocolError.t bytes :=
  let* encrypted_header := header_encrypt (header m) header_key in
  io_ret (encrypted_header ++ ciphertext m).

Definition message_from_bytes_encrypted (data header_key : bytes) : PResult RatchetMessage :=
  if len data <? Z.of_nat ENCRYPTED_HEADER_SIZE + 29 then Err ProtocolError.InvalidMessage
  else
    let? h := header_decrypt (take ENCRYPTED_HEADER_SIZE data) header_key in
    Ok (mkRatchetMessage h (drop ENCRYPTED_HEADER_SIZE data)).

End Sealed.

(** ** Lemmas *)

(** The field widths of the struct. *)
Definition wf_header (h : RatchetHeader) : Prop :=
  length (dh_public h) = 32%nat /\ is_u64 (h_message_number h) /\
  is_u64 (previous_chain_length h) /\ is_u64 (h_timestamp h).

#[global] Instance wf_header_dec h : Decision (wf_header h).
Proof. unfold wf_header. apply _. Defined.

Lemma length_header_to_bytes h : wf_header h -> length (header_to_bytes h) = 56%nat.
Proof.
  intros (H & _). unfold header_to_bytes. rewrite !length_app, !length_to_le, H. done.
Qed.

Lemma header_roundtrip h : wf_header h -> header_from_bytes (header_to_bytes h) = Ok h.
Proof.
  intros Hw. pose proof (length_header_to_bytes h Hw) as HL. destruct Hw as (Hd & Hn & Hp & Ht).
  unfold header_from_bytes. destruct (Z.ltb_spec (len (header_to_bytes h)) (Z.of_nat HEADER_SIZE)).
  { unfold len, HEADER_SIZE in *. lia. }
  destruct h as [dh n p t]. unfold header_to_bytes in *.
  cbn [dh_public h_message_number previous_chain_length h_timestamp] in *.
  rewrite slice_prefix by done.
  rewrite (slice_mid 32 40) by (rewrite ?length_to_le; simpl; lia).
  rewrite (app_assoc dh), (slice_mid 40 48)
    by (rewrite ?length_app, ?length_to_le; simpl; lia).
  rewrite (app_assoc (dh ++ _)), <- (app_nil_r (u64_le t)), (slice_mid 48 56)
    by (rewrite ?length_app, ?length_to_le; simpl; lia).
  cbn [or_panic res_bind]. by rewrite !from_le_u64.
Qed.

Lemma header_from_bytes_wf data h : header_from_bytes data = Ok h -> wf_header h.
Proof.
  unfold header_from_bytes. split_guard; [done|].
  destruct (slice 0 32 data) eqn:E1; [|done]. destruct (slice 32 40 data) eqn:E2; [|done].
  destruct (slice 40 48 data) eqn:E3; [|done]. destruct (slice 48 56 data) eqn:E4; [|done].
  simpl. intros [= <-]. apply slice_length in E1, E2, E3, E4.
  repeat split; simpl; try lia; apply from_le_is_u64; lia.
Qed.

Lemma header_from_bytes_no_panic data : header_from_bytes data <> Panic.
Proof.
  unfold header_from_bytes. destruct (Z.ltb_spec (len data) (Z.of_nat HEADER_SIZE)) as [|H]; [done|].
  unfold len, HEADER_SIZE in H. by rewrite !slice_ok by lia.
Qed.

Lemma message_roundtrip m :
  wf_header (header m) -> 29 <= len (ciphertext m) ->
  message_from_bytes (message_to_bytes m) = Ok m.
Proof.
  intros Hw Hc. destruct m as [h ct]. simpl in *.
  pose proof (length_header_to_bytes h Hw) as HL.
  unfold message_from_bytes, message_to_bytes. simpl header. simpl ciphertext.
  destruct (Z.ltb_spec (len (header_to_bytes h ++ ct)) (Z.of_nat HEADER_SIZE + 29)) as [H|_].
  { rewrite len_app in H. unfold len, HEADER_SIZE in *. lia. }
  rewrite take_app_length', drop_app_length' by (by rewrite HL).
  by rewrite header_roundtrip.
Qed.

(** A header whose timestamp is inside the window validates. *)
Lemma header_validate_ok h env c lo hi :
  clock_in env lo hi -> 0 <= lo -> hi <= U64_MAX - 86430 ->
  all_zero (dh_public h) = false -> h_message_number h <= 1000000000000 ->
  0 <= h_timestamp h -> h_timestamp h <= lo + 300 -> hi <= h_timestamp h + 86400 ->
  exists c', header_validate h env c = (Ok tt, c').
Proof.
  intros Hc Hlo Hhi Hz Hn H0 H1 H2. unfold header_validate. rewrite Hz.
  destruct (Z.ltb_spec 1000000000000 (h_message_number h)); [lia|].
  destruct (clock_in_timestamp env lo hi c Hc) as (t & c' & E & Ht).
  rewrite (io_bind_ok _ _ _ _ _ _ E). unfold io_bind, io_res.
  rewrite u_add_ok by lia. simpl.
  destruct (Z.ltb_spec (t + 300) (h_timestamp h)); [lia|].
  destruct (Z.ltb_spec (sat_add U64_MAX (h_timestamp h) 86400) t) as [Hx|];
    [unfold sat_add in Hx; lia|]. unfold io_ret. eauto.
Qed.

Lemma header_validate_number h env c c' :
  header_validate h env c = (Ok tt, c') -> h_message_number h <= 1000000000000.
Proof.
  unfold header_validate. by repeat split_guard.
Qed.

Section Properties.
Context {P : Primitives} {L : PrimitiveLaws P}.

(** What a sealed header opens to. *)
Lemma header_encrypt_inv h k env c out c' :
  wf_header h -> header_encrypt h k env c = (Ok out, c') ->
  length out = 84%nat /\ header_decrypt out k = Ok h.
Proof.
  intros Hw. unfold header_encrypt, io_bind at 1, io_map_err.
  destruct (fresh_bytes ENCRYPTED_HEADER_NONCE_SIZE env c) as [[nonce|?|] c1] eqn:Ef; try done.
  apply fresh_bytes_len in Ef; [|unfold ENCRYPTED_HEADER_NONCE_SIZE; lia].
  unfold ENCRYPTED_HEADER_NONCE_SIZE in Ef. simpl map_err. cbv iota beta. unfold io_bind, io_res.
  destruct (aead_encrypt k nonce [] (header_to_bytes h)) as [ct|] eqn:Ea; simpl; [|done].
  intros [-> _]%io_ret_ok_inv.
  destruct (aead_ok k nonce [] (header_to_bytes h)) as (ct' & E' & Hl).
  assert (ct' = ct) as -> by congruence. rewrite (length_header_to_bytes h Hw) in Hl.
  split; [rewrite length_app; lia|]. unfold header_decrypt.
  destruct (Z.ltb_spec (len (nonce ++ ct)) (Z.of_nat ENCRYPTED_HEADER_NONCE_SIZE + 16)) as [H|_].
  { rewrite len_app in H. unfold len, ENCRYPTED_HEADER_NONCE_SIZE in H. lia. }
  unfold ENCRYPTED_HEADER_NONCE_SIZE.
  rewrite take_app_length', drop_app_length' by done.
  rewrite (aead_correct _ _ _ _ _ Ea). simpl. by apply header_roundtrip.
Qed.

(** Ratchet messages survive the wire in both formats.  A message with a
    well-formed header and at least 29 bytes of ciphertext is parsed back
    unchanged from its plain form, and from its sealed form under the same
    header key; conversely every header the parser returns is well-formed and
    the parser never indexes out of bounds. *)
Theorem message_wire_roundtrip m k env c :
  wf_header (header m) -> 29 <= len (ciphertext m) -> rng_healthy env ->
  message_from_bytes (message_to_bytes m) = Ok m /\
  (exists out c', message_to_bytes_encrypted m k env c = (Ok out, c') /\
     message_from_bytes_encrypted out k = Ok m) /\
  (forall data h, header_from_bytes data = Ok h -> wf_header h) /\
  (forall data, header_from_bytes data <> Panic).
Proof.
  intros Hw Hc Hr. split; [by apply message_roundtrip|].
  split; [|split; [apply header_from_bytes_wf | apply header_from_bytes_no_panic]].
  destruct m as [h ct]. simpl in *.
  assert (Henc : exists out c', header_encrypt h k env c = (Ok out, c')).
  { unfold header_encrypt, io_bind at 1, io_map_err.
    destruct (fresh_bytes_ok env c ENCRYPTED_HEADER_NONCE_SIZE Hr) as (n & c1 & -> & _);
      [unfold ENCRYPTED_HEADER_NONCE_SIZE; lia|].
    simpl map_err. cbv iota beta. unfold io_bind, io_res.
    destruct (aead_ok k n [] (header_to_bytes h)) as (x & -> & _). simpl. unfold io_ret. eauto. }
  destruct Henc as (out & c' & He). destruct (header_encrypt_inv _ _ _ _ _ _ Hw He) as [Hl Hd].
  exists (out ++ ct), c'. unfold message_to_bytes_encrypted, io_bind. simpl. rewrite He.
  split; [done|]. unfold message_from_bytes_encrypted.
  destruct (Z.ltb_spec (len (out ++ ct)) (Z.of_nat ENCRYPTED_HEADER_SIZE + 29)) as [H|_].
  { rewrite len_app in H. change (Z.of_nat ENCRYPTED_HEADER_SIZE) with 84 in H. unfold len in *. lia. }
  rewrite take_app_length', drop_app_length' by (by rewrite Hl). by rewrite Hd.
Qed.

End Properties.

Lemma message_wire_roundtrip_witness :
  let m := mkRatchetMessage (mkRatchetHeader demo_key 5 3 1700000000) (repeat x41 40) in
  message_from_bytes (message_to_bytes m) = Ok m.
Proof.
  intros m.
  apply (message_wire_roundtrip (L := toy_laws) m demo_key
    (mkEnv (fun _ => Some NANOS) (fun _ => 0) (fun _ => x01) 7) ctr0);
    [apply (bool_decide_unpack _); vm_compute; exact I | vm_compute; discriminate |].
  intros p. exists 20%nat. split; [lia | discriminate].
Defined.
