(* ===== verification/RatchetState.v ===== *)
(** * Configuration and Double Ratchet state ([core/src/lib.rs], [core/src/ratchet/state.rs])

    The state of a session, its bookkeeping operations, and what a save/load
    cycle keeps of it: the [serde] attributes of the struct are the functions
    [serde_image] and [of_serde]. *)

From S2P Require Import Prelude Effects Errors Primitives Random Padding Kdf Handler Chain Message.
#[local] Open Scope Z_scope.
#[local] Open Scope sibna_scope.

(** ** [Config] *)

Record Config := mkConfig {
  enable_forward_secrecy : bool;
  enable_post_compromise_security : bool;
  max_skipped_messages : Z;
  key_rotation_interval : Z;
  handshake_timeout : Z;
  message_buffer_size : Z;
  enable_group_messaging : bool;
  max_group_size : Z;
  db_path : option string;
  enable_rate_limiting : bool;
  max_message_size : Z;
  session_timeout_secs : Z;
  auto_prune_keys : bool;
  max_key_age_secs : Z;
  message_padding : PaddingMode.t;
  relay_url : string;
  proxy_url : option string;
  require_safety_numbers : bool;
  enable_header_encryption : bool
}.

Definition Config_default : Config :=
  mkConfig true true 2000 86400 30 1024 true 256 None true (10 * 1024 * 1024) 3600 true
    (30 * 86400) PaddingMode.Standard "https://relay.sibna.dev" None true false.

Definition Config_core_mode : Config :=
  mkConfig true true 2000 86400 30 1024 true 256 None true (10 * 1024 * 1024) 3600 true
    (30 * 86400) PaddingMode.Standard "https://relay.sibna.dev" None true true.

Definition Config_fortress_mode : Config :=
  mkConfig true true 2000 86400 30 1024 true 256 None true (10 * 1024 * 1024) 3600 true
    (30 * 86400) PaddingMode.Quantum "https://relay.sibna.dev" None true false.

(** ** [DoubleRatchetState] *)

Abbreviation SkippedKeys := (gmap (bytes * Z) bytes).

Record DoubleRatchetState := mkState {
  root_key : bytes;
  sending_chain : option ChainKey;
  receiving_chain : option ChainKey;
  dh_local : option bytes;
  dh_local_bytes : bytes;
  dh_remote : option bytes;
  dh_remote_bytes : option bytes;
  skipped_message_keys : SkippedKeys;
  max_skip : Z;
  previous_counter : Z;
  created_at : Z;
  last_activity : Z;
  messages_sent : Z;
  messages_received : Z;
  version : Z
}.

Definition CURRENT_VERSION : Z := 1.

Definition DoubleRatchetState_new {E} : IO E DoubleRatchetState :=
  let* now := current_timestamp_or 0 in
  io_ret (mkState (zeros 32) None None None [] None None ∅ 2000 0 now now 0 0 CURRENT_VERSION).

(** *** Field assignments *)

Definition set_root_key k s := mkState k (sending_chain s) (receiving_chain s) (dh_local s)
  (dh_local_bytes s) (dh_remote s) (dh_remote_bytes s) (skipped_message_keys s) (max_skip s)
  (previous_counter s) (created_at s) (last_activity s) (messages_sent s) (messages_received s) (version s).
Definition set_sending_chain k s := mkState (root_key s) k (receiving_chain s) (dh_local s)
  (dh_local_bytes s) (dh_remote s) (dh_remote_bytes s) (skipped_message_keys s) (max_skip s)
  (previous_counter s) (created_at s) (last_activity s) (messages_sent s) (messages_received s) (version s).
Definition set_receiving_chain k s := mkState (root_key s) (sending_chain s) k (dh_local s)
  (dh_local_bytes s) (dh_remote s) (dh_remote_bytes s) (skipped_message_keys s) (max_skip s)
  (previous_counter s) (created_at s) (last_activity s) (messages_sent s) (messages_received s) (version s).
Definition set_skipped k s := mkState (root_key s) (sending_chain s) (receiving_chain s) (dh_local s)
  (dh_local_bytes s) (dh_remote s) (dh_remote_bytes s) k (max_skip s)
  (previous_counter s) (created_at s) (last_activity s) (messages_sent s) (messages_received s) (version s).
Definition set_previous_counter k s := mkState (root_key s) (sending_chain s) (receiving_chain s)
  (dh_local s) (dh_local_bytes s) (dh_remote s) (dh_remote_bytes s) (skipped_message_keys s)
  (max_skip s) k (created_at s) (last_activity s) (messages_sent s) (messages_received s) (version s).
Definition set_last_activity k s := mkState (root_key s) (sending_chain s) (receiving_chain s)
  (dh_local s) (dh_local_bytes s) (dh_remote s) (dh_remote_bytes s) (skipped_message_keys s)
  (max_skip s) (previous_counter s) (created_at s) k (messages_sent s) (messages_received s) (version s).
Definition set_messages_sent k s := mkState (root_key s) (sending_chain s) (receiving_chain s)
  (dh_local s) (dh_local_bytes s) (dh_remote s) (dh_remote_bytes s) (skipped_message_keys s)
  (max_skip s) (previous_counter s) (created_at s) (last_activity s) k (messages_received s) (version s).
Definition set_messages_received k s := mkState (root_key s) (sending_chain s) (receiving_chain s)
  (dh_local s) (dh_local_bytes s) (dh_remote s) (dh_remote_bytes s) (skipped_message_keys s)
  (max_skip s) (previous_counter s) (created_at s) (last_activity s) (messages_sent s) k (version s).
Definition set_dh_remote k kb s := mkState (root_key s) (sending_chain s) (receiving_chain s)
  (dh_local s) (dh_local_bytes s) k kb (skipped_message_keys s)
  (max_skip s) (previous_counter s) (created_at s) (last_activity s) (messages_sent s)
  (messages_received s) (version s).
Definition set_dh_local k kb s := mkState (root_key s) (sending_chain s) (receiving_chain s)
  k kb (dh_remote s) (dh_remote_bytes s) (skipped_message_keys s)
  (max_skip s) (previous_counter s) (created_at s) (last_activity s) (messages_sent s)
  (messages_received s) (version s).

(** *** Methods *)

Definition touch {E} : M DoubleRatchetState E unit :=
  let! s := get in
  let! now := lift (current_timestamp_or (last_activity s)) in
  modify (set_last_activity now).

Definition state_age_secs {E} (s : DoubleRatchetState) : IO E Z :=
  let* now := current_timestamp_or 0 in io_ret (sat_sub now (created_at s)).

Definition idle_secs {E} (s : DoubleRatchetState) : IO E Z :=
  let* now := current_timestamp_or 0 in io_ret (sat_sub now (last_activity s)).

Definition state_is_expired {E} (s : DoubleRatchetState) : IO E bool :=
  let* idle := idle_secs s in io_ret (30 * 86400 <? idle).

Definition skipped_keys_count (s : DoubleRatchetState) : Z :=
  Z.of_nat (size (skipped_message_keys s)).

Definition skipped_keys_full (s : DoubleRatchetState) : bool := max_skip s <=? skipped_keys_count s.

(** The flag, and the state afterwards. *)
Definition add_skipped_key (pub_key : bytes) (msg_num : Z) (key : bytes) (s : DoubleRatchetState)
    : bool * DoubleRatchetState :=
  if skipped_keys_full s then (false, s)
  else (true, set_skipped (<[(pub_key, msg_num) := key]> (skipped_message_keys s)) s).

Definition get_skipped_key (pub_key : bytes) (msg_num : Z) (s : DoubleRatchetState) : option bytes :=
  skipped_message_keys s !! (pub_key, msg_num).

Definition remove_skipped_key (pub_key : bytes) (msg_num : Z) (s : DoubleRatchetState)
    : option bytes * DoubleRatchetState :=
  (skipped_message_keys s !! (pub_key, msg_num),
   set_skipped (delete (pub_key, msg_num) (skipped_message_keys s)) s).

Definition clear_skipped_keys (s : DoubleRatchetState) : DoubleRatchetState := set_skipped ∅ s.

Definition set_remote_dh (public : bytes) (s : DoubleRatchetState) : DoubleRatchetState :=
  set_dh_remote (Some public) (Some public) s.

Section WithPrimitives.
Context {P : Primitives}.

Definition set_local_dh (secret : bytes) (s : DoubleRatchetState) : DoubleRatchetState :=
  set_dh_local (Some secret) (x25519_public secret) s.

End WithPrimitives.

Definition restore_dh_keys (s : DoubleRatchetState) : Res string DoubleRatchetState :=
  match dh_remote_bytes s with
  | Some b =>
      if len b =? 32 then Ok (set_dh_remote (Some b) (dh_remote_bytes s) s)
      else Err "Invalid remote DH bytes length"%string
  | None => Ok s
  end.

Definition can_send (s : DoubleRatchetState) : bool :=
  bool_decide (is_Some (sending_chain s)) && bool_decide (is_Some (dh_local s)).

Definition can_receive (s : DoubleRatchetState) : bool :=
  bool_decide (is_Some (receiving_chain s)) && bool_decide (is_Some (dh_remote s)).

Record StateSummary := mkStateSummary {
  has_sending_chain : bool; has_receiving_chain : bool;
  sending_index : Z; receiving_index : Z; summary_skipped : Z;
  has_local_dh : bool; has_remote_dh : bool; summary_age : Z; summary_idle : Z }.

Definition chain_index (o : option ChainKey) : Z := from_option ck_index 0 o.

Definition state_summary {E} (s : DoubleRatchetState) : IO E StateSummary :=
  let* age := state_age_secs s in
  let* idle := idle_secs s in
  io_ret (mkStateSummary (bool_decide (is_Some (sending_chain s)))
    (bool_decide (is_Some (receiving_chain s)))
    (chain_index (sending_chain s)) (chain_index (receiving_chain s)) (skipped_keys_count s)
    (bool_decide (is_Some (dh_local s))) (bool_decide (is_Some (dh_remote s))) age idle).

Definition state_zeroize (s : DoubleRatchetState) : DoubleRatchetState :=
  mkState (zeros (length (root_key s))) None None None [] None
    (match dh_remote_bytes s with Some _ => Some [] | None => None end)
    ∅ (max_skip s) 0 (created_at s) (last_activity s) 0 0 (version s).

(** ** Persistence

    What [serde] writes for a state.  [dh_local] is written as [None]
    ([dh_local_serde]), [dh_remote] and [max_skip] are [#[serde(skip)]] and come
    back as [Default::default()]; the skipped keys become a list of entries. *)

Record SkippedKeyEntry := mkSkippedKeyEntry { e_pub_key : bytes; e_msg_num : Z; e_msg_key : bytes }.

Record SerializedState := mkSerializedState {
  ss_root_key : bytes;
  ss_sending_chain : option ChainKey;
  ss_receiving_chain : option ChainKey;
  ss_dh_local : option bytes;
  ss_dh_local_bytes : bytes;
  ss_dh_remote_bytes : option bytes;
  ss_skipped : list SkippedKeyEntry;
  ss_previous_counter : Z;
  ss_created_at : Z;
  ss_last_activity : Z;
  ss_messages_sent : Z;
  ss_messages_received : Z;
  ss_version : Z
}.

Definition skipped_entries (m : SkippedKeys) : list SkippedKeyEntry :=
  map (fun kv => mkSkippedKeyEntry kv.1.1 kv.1.2 kv.2) (map_to_list m).

Definition skipped_of_entries (l : list SkippedKeyEntry) : SkippedKeys :=
  foldl (fun m e => <[(e_pub_key e, e_msg_num e) := e_msg_key e]> m) ∅ l.

Definition serde_image (s : DoubleRatchetState) : SerializedState :=
  mkSerializedState (root_key s) (sending_chain s) (receiving_chain s) None (dh_local_bytes s)
    (dh_remote_bytes s) (skipped_entries (skipped_message_keys s)) (previous_counter s)
    (created_at s) (last_activity s) (messages_sent s) (messages_received s) (version s).

Definition of_serde (i : SerializedState) : DoubleRatchetState :=
  mkState (ss_root_key i) (ss_sending_chain i) (ss_receiving_chain i) None (ss_dh_local_bytes i)
    None (ss_dh_remote_bytes i) (skipped_of_entries (ss_skipped i)) 0 (ss_previous_counter i)
    (ss_created_at i) (ss_last_activity i) (ss_messages_sent i) (ss_messages_received i)
    (ss_version i).

(** [bincode] is outside the repository: an encoder and a decoder that invert
    each other on what the encoder accepts. *)
Class Bincode := {
  bincode_encode : SerializedState -> option bytes;
  bincode_decode : bytes -> option SerializedState
}.

Class BincodeLaws (B : Bincode) := {
  bincode_roundtrip i b : bincode_encode i = Some b -> bincode_decode b = Some i
}.

(** ** Lemmas *)

(** The skipped-key store never exceeds its limit by an insertion. *)
Definition skipped_bounded (s : DoubleRatchetState) : Prop :=
  skipped_keys_count s <= max_skip s.

Lemma add_skipped_key_bounded p n k s b s' :
  skipped_bounded s -> add_skipped_key p n k s = (b, s') -> skipped_bounded s'.
Proof.
  unfold skipped_bounded, add_skipped_key, skipped_keys_full, skipped_keys_count.
  destruct (Z.leb_spec (max_skip s) (Z.of_nat (size (skipped_message_keys s)))) as [|Hlt];
    intros Hb [= <- <-]; [done|]. simpl.
  destruct (skipped_message_keys s !! (p, n)) eqn:E.
  - rewrite map_size_insert_Some by eauto. lia.
  - rewrite map_size_insert_None by done. lia.
Qed.

Lemma foldl_skipped_entries (l : list ((bytes * Z) * bytes)) (m : SkippedKeys) :
  base.NoDup (l.*1) -> (forall k, k ∈ l.*1 -> m !! k = None) ->
  foldl (fun m e => <[(e_pub_key e, e_msg_num e) := e_msg_key e]> m) m
    (map (fun kv => mkSkippedKeyEntry kv.1.1 kv.1.2 kv.2) l) = list_to_map l ∪ m.
Proof.
  revert m. induction l as [|[[p n] k] l IH]; intros m Hnd Hm; simpl.
  - by rewrite map_empty_union.
  - apply NoDup_cons in Hnd as [Hnin Hnd]. rewrite IH; [|done|].
    + rewrite <- insert_union_l, insert_union_r; [done|]. by apply not_elem_of_list_to_map_1.
    + intros k' Hk'. rewrite lookup_insert_ne; [apply Hm; by right|].
      intros E. apply Hnin. by rewrite E.
Qed.

(** The entry list determines the map. *)
Lemma skipped_entries_roundtrip m : skipped_of_entries (skipped_entries m) = m.
Proof.
  unfold skipped_of_entries, skipped_entries. rewrite foldl_skipped_entries.
  - rewrite list_to_map_to_list. apply map_union_empty.
  - apply NoDup_fst_map_to_list.
  - intros k _. apply lookup_empty.
Qed.

(** What a save/load cycle keeps.  Everything but the three fields the
    serializer skips survives exactly, the skipped-key map included; the DH
    secret is never written; and after [restore_dh_keys] the remote key is back
    whenever its stored copy is the 32 bytes the ratchet put there. *)
Theorem persistence_keeps s :
  dh_remote s = dh_remote_bytes s ->
  (forall k, dh_remote s = Some k -> length k = 32%nat) ->
  ss_dh_local (serde_image s) = None /\
  restore_dh_keys (of_serde (serde_image s)) =
    Ok (mkState (root_key s) (sending_chain s) (receiving_chain s) None (dh_local_bytes s)
          (dh_remote s) (dh_remote_bytes s) (skipped_message_keys s) 0 (previous_counter s)
          (created_at s) (last_activity s) (messages_sent s) (messages_received s) (version s)).
Proof.
  intros Hr Hl. split; [done|]. unfold restore_dh_keys, of_serde, serde_image. simpl.
  rewrite skipped_entries_roundtrip. rewrite Hr in *.
  destruct (dh_remote_bytes s) as [b|]; [|done].
  specialize (Hl b eq_refl). unfold len. rewrite Hl. done.
Qed.

Lemma persistence_keeps_witness :
  let s := mkState demo_key None None (Some demo_key) demo_key (Some demo_key) (Some demo_key)
             {[ (demo_key, 3) := demo_key ]} 2000 0 1 1 0 0 1 in
  exists s', restore_dh_keys (of_serde (serde_image s)) = Ok s' /\ dh_local s' = None.
Proof.
  intros s. eexists. split.
  - apply (persistence_keeps s); [reflexivity|]. intros k Hk. injection Hk as <-. reflexivity.
  - reflexivity.
Defined.
