(* ===== verification/Session.v ===== *)
(** * Double Ratchet sessions ([core/src/ratchet/session.rs])

    The operations of [DoubleRatchetSession].  The session's [RwLock] makes
    each operation atomic; the definitions below are the bodies that run under
    it, on the [DoubleRatchetState] it protects. *)

From S2P Require Import Prelude Effects Errors Primitives Compare Random Validation Padding Kdf Handler Encryptor Chain Message RatchetState.
#[local] Open Scope Z_scope.
#[local] Open Scope sibna_scope.

Module HandshakeRole.

Inductive t : Type := Initiator | Responder.

Definition is_initiator (r : t) : bool := match r with Initiator => true | Responder => false end.

(** Lexicographic order of byte arrays, [<] on [[u8; 32]]. *)
Fixpoint bytes_lt (a b : bytes) : bool :=
  match a, b with
  | [], [] => false
  | [], _ :: _ => true
  | _ :: _, [] => false
  | x :: a, y :: b => if b2z x <? b2z y then true else if b2z y <? b2z x then false else bytes_lt a b
  end.

Definition determine (our_pk peer_pk : bytes) : t :=
  if bytes_lt our_pk peer_pk then Initiator else Responder.

End HandshakeRole.

Record DoubleRatchetSession := mkSession {
  state : DoubleRatchetState;
  config : Config;
  session_id : bytes;
  peer_id : option string;
  created_at_ts : Z
}.

(** [hex::encode]: two lower-case digits per byte, as ASCII. *)
Definition hex_digit (n : Z) : u8 := if n <? 10 then z2b (48 + n) else z2b (87 + n).
Definition hex_encode (l : bytes) : bytes :=
  flat_map (fun b => [hex_digit (b2z b / 16); hex_digit (b2z b mod 16)]) l.

Section Session.
Context {P : Primitives}.

Abbreviation SM := (M DoubleRatchetState ProtocolError.t).

(** [r?] on a [CryptoResult] inside a function returning [ProtocolResult]. *)
Definition crypto {S A} (r : CResult A) : M S ProtocolError.t A :=
  res (map_err ProtocolError.from_crypto r).

Definition generate_session_id : IO ProtocolError.t bytes :=
  let* b := io_map_err ProtocolError.from_crypto (fresh_bytes 16) in io_ret (hex_encode b).

(** ** Construction *)

Definition session_new (config : Config) : IO ProtocolError.t DoubleRatchetSession :=
  let* dh := io_map_err (fun _ => ProtocolError.InternalError) (fresh_bytes 32) in
  let* t := read_secs in
  let* now := io_res (ok_or t ProtocolError.InternalError) in
  let* id := generate_session_id in
  io_ret (mkSession
    (mkState (zeros 32) None None (Some dh) (x25519_public dh) None None ∅
       (max_skipped_messages config) 0 now now 0 0 CURRENT_VERSION)
    config id None now).

Definition from_shared_secret (shared_secret local_dh remote_dh : bytes) (config : Config)
    (role : HandshakeRole.t) : IO ProtocolError.t DoubleRatchetSession :=
  if all_zero shared_secret then io_res (Err ProtocolError.InvalidArgument)
  else
  let* okm := io_res (ok_or (hkdf_sha256 (Some (bstr "SibnaSession_v3")) shared_secret
                               (bstr "SibnaRootAndChainKey_v3") 64)
                        ProtocolError.KeyDerivationFailed) in
  let root_key := take 32 okm in
  let chain_key := drop 32 okm in
  let* (sending, receiving) :=
    (if HandshakeRole.is_initiator role
     then let* ck := ChainKey_new chain_key in io_ret (Some ck, None)
     else let* ck := ChainKey_new chain_key in io_ret (None, Some ck)) in
  let* t := read_secs in
  let* now := io_res (ok_or t ProtocolError.InternalError) in
  let* id := generate_session_id in
  io_ret (mkSession
    (mkState root_key sending receiving (Some local_dh) (x25519_public local_dh)
       (Some remote_dh) (Some remote_dh) ∅ (max_skipped_messages config) 0 now now 0 0
       CURRENT_VERSION)
    config id None now).

(** ** Ratchet steps *)

(** [StaticSecret::random_from_rng(&mut OsRng)]. *)
Definition random_secret {E} : IO E bytes := os_bytes 32.

Definition perform_dh_ratchet : SM unit :=
  let! new_local := lift random_secret in
  let! s := get in
  let! _ :=
    match dh_remote s with
    | Some remote_dh =>
        let! (rk, sending_key) := crypto (kdf_rk (root_key s) (x25519_dh new_local remote_dh)) in
        let! _ := modify (set_root_key rk) in
        let! ck := lift (ChainKey_new sending_key) in
        modify (set_sending_chain (Some ck))
    | None => ret tt
    end in
  modify (set_local_dh new_local).

Definition dh_ratchet (remote_dh : bytes) : SM unit :=
  let! _ := modify (fun s => set_previous_counter (chain_index (sending_chain s)) s) in
  let! _ := modify (set_remote_dh remote_dh) in
  let! s := get in
  let! local := res (ok_or (dh_local s) ProtocolError.InvalidState) in
  let! (rk, receiving_key) := crypto (kdf_rk (root_key s) (x25519_dh local remote_dh)) in
  let! _ := modify (set_root_key rk) in
  let! ck := lift (ChainKey_new receiving_key) in
  let! _ := modify (set_receiving_chain (Some ck)) in
  let! new_local := lift random_secret in
  let! (rk2, sending_key) := crypto (kdf_rk rk (x25519_dh new_local remote_dh)) in
  let! _ := modify (set_root_key rk2) in
  let! ck := lift (ChainKey_new sending_key) in
  let! _ := modify (set_sending_chain (Some ck)) in
  modify (set_local_dh new_local).

(** The [while] loop of [skip_message_keys]; the caller gives one unit of fuel
    per missing index and one for the final test. *)
Fixpoint skip_loop (fuel : nat) (until_n : Z) : SM unit :=
  match fuel with
  | O => res Panic
  | S fuel =>
      let! s := get in
      let! chain := res (ok_or (receiving_chain s) ProtocolError.InvalidState) in
      if ck_index chain <? until_n then
        let (mk, chain') := next_message_key chain in
        let! _ := modify (set_receiving_chain (Some chain')) in
        let! mk := res (ok_or mk ProtocolError.InvalidState) in
        let! remote := res (ok_or (dh_remote s) ProtocolError.InvalidState) in
        let! key_index := res (or_panic (u_sub (ck_index chain') 1)) in
        let! s := get in
        let (added, s') := add_skipped_key remote key_index mk s in
        let! _ := put s' in
        if added then skip_loop fuel until_n
        else res (Err ProtocolError.MaxSkippedMessagesExceeded)
      else ret tt
  end.

Definition skip_message_keys (until_n : Z) : SM unit :=
  let! s := get in
  match receiving_chain s with
  | None => ret tt
  | Some chain =>
      let! limit := res (or_panic (u_add U64_MAX (ck_index chain) (max_skip s))) in
      if limit <? until_n then res (Err ProtocolError.MaxSkippedMessagesExceeded)
      else skip_loop (S (Z.to_nat (until_n - ck_index chain))) until_n
  end.

(** ** Sending *)

(** [encrypt] once the chain is chosen: the next key, the header, the seal. *)
Definition seal_next (config : Config) (plaintext associated_data : bytes) (rotated : bool) : SM bytes :=
  let! s := get in
  let! dh_pub := res (ok_or (option_map x25519_public (dh_local s)) ProtocolError.InvalidState) in
  let! chain := res (ok_or (sending_chain s) ProtocolError.InvalidState) in
  let! header_key := res (ok_or (derive_header_key chain) ProtocolError.InvalidState) in
  if ck_reserved_until chain <=? ck_index chain then res (Err ProtocolError.NonceReservationRequired)
  else
  let (mk, chain') := next_message_key chain in
  let! _ := modify (set_sending_chain (Some chain')) in
  let! message_key := res (ok_or mk ProtocolError.InvalidState) in
  let! t := lift read_secs in
  let! timestamp := res (ok_or t ProtocolError.InternalError) in
  let! number := res (or_panic (u_sub (ck_index chain') 1)) in
  let header := mkRatchetHeader dh_pub number (previous_counter s) timestamp in
  let! _ := lift (header_validate header) in
  let! encryptor := crypto (Encryptor_new message_key 0) in
  let final_ad := associated_data ++ header_to_bytes header in
  let! (ciphertext, _) := lift (io_map_err ProtocolError.from_crypto
                                  (run_on (encrypt_message plaintext final_ad) encryptor)) in
  let message := mkRatchetMessage header ciphertext in
  let! _ := touch in
  let! s := get in
  let! sent := res (or_panic (u_add U64_MAX (messages_sent s) 1)) in
  let! _ := modify (set_messages_sent sent) in
  if enable_header_encryption config && negb rotated
  then lift (message_to_bytes_encrypted message header_key)
  else ret (message_to_bytes message).

Definition encrypt (config : Config) (plaintext associated_data : bytes) : SM bytes :=
  let! _ := res (map_err (fun _ => ProtocolError.InvalidMessage)
                   (validate_message_for_encrypt plaintext)) in
  let! _ := res (map_err (fun _ => ProtocolError.InvalidArgument)
                   (validate_associated_data associated_data)) in
  let! s := get in
  let! rotated := lift (match sending_chain s with Some c => needs_rotation c | None => io_ret true end) in
  let! _ := (if rotated then perform_dh_ratchet else ret tt) in
  seal_next config plaintext associated_data rotated.

(** ** Receiving *)

Definition decrypt_with_key (key ciphertext associated_data : bytes) (header : RatchetHeader)
    (key_tuple : bytes * Z) : SM bytes :=
  let! encryptor := crypto (Encryptor_new key 0) in
  let full_ad := associated_data ++ header_to_bytes header in
  let! (plaintext, _) := lift (io_map_err ProtocolError.from_crypto
                                 (run_on (decrypt_message ciphertext full_ad) encryptor)) in
  let! _ := modify (fun s => set_skipped (delete key_tuple (skipped_message_keys s)) s) in
  ret plaintext.

(** [if let Some(ref chain) = ..., if let Some(hk) = ..., if let Ok(msg) = ...]. *)
Definition try_chain_header (chain : option ChainKey) (message : bytes) : option RatchetMessage :=
  match chain with
  | Some c =>
      match derive_header_key c with
      | Some hk => match message_from_bytes_encrypted message hk with Ok m => Some m | _ => None end
      | None => None
      end
  | None => None
  end.

Definition parse_message (config : Config) (s : DoubleRatchetState) (message : bytes)
    : PResult RatchetMessage :=
  if enable_header_encryption config && (Z.of_nat ENCRYPTED_HEADER_SIZE + 29 <=? len message)
  then
    match try_chain_header (receiving_chain s) message with
    | Some m => Ok m
    | None =>
        match try_chain_header (sending_chain s) message with
        | Some m => Ok m
        | None => message_from_bytes message
        end
    end
  else message_from_bytes message.

(** The end of the work on [state_clone]: take the next message key and open
    the message with it. *)
Definition receive_next (m : RatchetMessage) (associated_data : bytes) : SM bytes :=
  let h := header m in
  let! s := get in
  let! chain := res (ok_or (receiving_chain s) ProtocolError.InvalidState) in
  if h_message_number h <? ck_index chain then res (Err ProtocolError.ReplayAttackDetected)
  else
  let (mk, chain') := next_message_key chain in
  let! _ := modify (set_receiving_chain (Some chain')) in
  let! mk := res (ok_or mk ProtocolError.InvalidState) in
  let! plaintext := decrypt_with_key mk (ciphertext m) associated_data h
                      (dh_public h, h_message_number h) in
  let! _ := touch in
  ret plaintext.

(** The DH ratchet step of [decrypt], when the header's key is new. *)
Definition ratchet_if_new (h : RatchetHeader) : SM unit :=
  let! s := get in
  let needs_ratchet :=
    match dh_remote s with Some p => negb (constant_time_eq p (dh_public h)) | None => true end in
  if needs_ratchet then
    let! _ := match sending_chain s with
              | Some c => modify (set_previous_counter (ck_index c))
              | None => ret tt
              end in
    let! _ := skip_message_keys (previous_chain_length h) in
    dh_ratchet (dh_public h)
  else ret tt.

(** The work on [state_clone]. *)
Definition decrypt_trial (m : RatchetMessage) (associated_data : bytes) : SM bytes :=
  let! _ := ratchet_if_new (header m) in
  let! _ := skip_message_keys (h_message_number (header m)) in
  receive_next m associated_data.

Definition decrypt (config : Config) (message associated_data : bytes) : SM bytes :=
  if len message <? 48 + 29 then res (Err ProtocolError.InvalidMessage)
  else
  let! s := get in
  let! m := res (parse_message config s message) in
  let h := header m in
  let! _ := lift (header_validate h) in
  let key_tuple := (dh_public h, h_message_number h) in
  match skipped_message_keys s !! key_tuple with
  | Some mk => decrypt_with_key mk (ciphertext m) associated_data h key_tuple
  | None =>
      let! (plaintext, state_clone) := lift (run_on (decrypt_trial m associated_data) s) in
      let! _ := put state_clone in
      let! received := res (or_panic (u_add U64_MAX (messages_received state_clone) 1)) in
      let! _ := modify (set_messages_received received) in
      ret plaintext
  end.

(** ** Persistence and nonce reservation *)

Definition serialize_state `{Bincode} : SM bytes :=
  let! s := get in
  res (ok_or (bincode_encode (serde_image s)) ProtocolError.SerializationError).

(** [entries.sort_by_key(|((_, n), _)| *n)] is a stable sort. *)
Fixpoint insert_by_key (x : (bytes * Z) * bytes) (l : list ((bytes * Z) * bytes)) :=
  match l with
  | [] => [x]
  | y :: t => if y.1.2 <? x.1.2 then y :: insert_by_key x t else x :: l
  end.
Definition sort_by_key (l : list ((bytes * Z) * bytes)) := foldr insert_by_key [] l.

(** Sort, reverse, truncate to [max_skip], collect. *)
Definition truncate_skipped (max_skip : Z) (m : SkippedKeys) : SkippedKeys :=
  list_to_map (take (Z.to_nat max_skip) (reverse (sort_by_key (map_to_list m)))).

Definition deserialize_state `{Bincode} (data : bytes) : SM unit :=
  let! image := res (ok_or (bincode_decode data) ProtocolError.DeserializationError) in
  let! loaded := res (map_err (fun _ => ProtocolError.DeserializationError)
                        (restore_dh_keys (of_serde image))) in
  let! _ := put loaded in
  let max_skip := max_skip loaded in
  let! _ :=
    (if negb (bool_decide (is_Some (dh_local loaded))) && bool_decide (is_Some (dh_remote loaded))
        && bool_decide (is_Some (sending_chain loaded))
     then perform_dh_ratchet else ret tt) in
  modify (fun s => set_skipped (truncate_skipped max_skip (skipped_message_keys s)) s).

Definition jump_to_reservation : SM unit :=
  let! s := get in
  match sending_chain s with
  | Some ck =>
      if ck_index ck <? ck_reserved_until ck then
        let! _ := modify (set_sending_chain (Some (mkChainKey (ck_key ck) (ck_reserved_until ck)
                    (ck_created_at ck) (ck_max_messages ck) (ck_reserved_until ck)))) in
        touch
      else ret tt
  | None => ret tt
  end.

Definition reserve_nonces (count : Z) : SM unit :=
  let! s := get in
  match sending_chain s with
  | Some ck =>
      let! _ := modify (set_sending_chain (Some (mkChainKey (ck_key ck) (ck_index ck)
                  (ck_created_at ck) (ck_max_messages ck)
                  (sat_add U64_MAX (ck_index ck) count)))) in
      touch
  | None => ret tt
  end.

(** ** Methods of the session object *)

Definition set_state (s : DoubleRatchetState) (x : DoubleRatchetSession) : DoubleRatchetSession :=
  mkSession s (config x) (session_id x) (peer_id x) (created_at_ts x).

Definition session_encrypt (plaintext associated_data : bytes)
    : M DoubleRatchetSession ProtocolError.t bytes :=
  let! x := get in zoom state set_state (encrypt (config x) plaintext associated_data).

Definition session_decrypt (message associated_data : bytes)
    : M DoubleRatchetSession ProtocolError.t bytes :=
  let! x := get in zoom state set_state (decrypt (config x) message associated_data).

Definition set_peer_id (id : string) (x : DoubleRatchetSession) : DoubleRatchetSession :=
  mkSession (state x) (config x) (session_id x) (Some id) (created_at_ts x).

(** [Zeroize] and [Drop], with the lock free. *)
Definition session_zeroize (x : DoubleRatchetSession) : DoubleRatchetSession :=
  set_state (state_zeroize (state x)) x.

Definition message_stats (x : DoubleRatchetSession) : Z * Z :=
  (messages_sent (state x), messages_received (state x)).

Definition session_age {E} (x : DoubleRatchetSession) : IO E Z :=
  let* now := read_secs_or_far in io_ret (sat_sub now (created_at_ts x)).

End Session.

(** ** Roles *)

Lemma bytes_lt_antisym a : forall b, a <> b ->
  HandshakeRole.bytes_lt a b = negb (HandshakeRole.bytes_lt b a).
Proof.
  induction a as [|x a IH]; intros [|y b] Hne; try done. cbn [HandshakeRole.bytes_lt].
  destruct (Z.ltb_spec (b2z x) (b2z y)); destruct (Z.ltb_spec (b2z y) (b2z x)); try lia; try done.
  apply IH. assert (x = y) as -> by (apply b2z_inj; lia). congruence.
Qed.

Lemma bytes_lt_irrefl a : HandshakeRole.bytes_lt a a = false.
Proof. induction a as [|x a IH]; [done|]. cbn [HandshakeRole.bytes_lt]. by rewrite Z.ltb_irrefl. Qed.

(** Roles are complementary.  Two parties that decide their roles from the
    two public keys alone choose differently whenever the keys differ, so
    exactly one sending and one receiving chain come to be; with equal keys
    both become responders. *)
Theorem roles_complementary pk1 pk2 :
  (pk1 <> pk2 ->
     HandshakeRole.is_initiator (HandshakeRole.determine pk1 pk2) =
     negb (HandshakeRole.is_initiator (HandshakeRole.determine pk2 pk1))) /\
  HandshakeRole.determine pk1 pk1 = HandshakeRole.Responder.
Proof.
  unfold HandshakeRole.determine. split.
  - intros Hne. rewrite (bytes_lt_antisym pk1 pk2 Hne).
    by destruct (HandshakeRole.bytes_lt pk2 pk1).
  - by rewrite bytes_lt_irrefl.
Qed.

Lemma roles_complementary_witness :
  HandshakeRole.is_initiator (HandshakeRole.determine [x01; x02] [x01; x03]) =
  negb (HandshakeRole.is_initiator (HandshakeRole.determine [x01; x03] [x01; x02])).
Proof. apply (roles_complementary [x01; x02] [x01; x03]). discriminate. Defined.
