(* ===== verification/SessionInvariant.v ===== *)
(** * Invariants of Double Ratchet sessions

    What every operation of [core/src/ratchet/session.rs] preserves, whatever
    its arguments, and that a rejected message leaves no trace.  The sessions
    reachable by any interleaving of operations are those of [session_step]. *)

From S2P Require Import Prelude Effects Errors Primitives Compare Random Validation Padding Kdf Handler Encryptor Chain Message RatchetState Session.
#[local] Open Scope Z_scope.
#[local] Open Scope sibna_scope.

(** ** The invariant *)
Section Invariant.
Context {P : Primitives} {L : PrimitiveLaws P} (limit : Z).

(** - the skipped-key store is within [max_skip], which is within the
      configured limit;
    - the serialised copy of the local key is the public key, never the secret;
    - the remote key equals its serialised copy and is 32 bytes. *)
Record session_inv (s : DoubleRatchetState) : Prop := {
  inv_bounded : skipped_bounded s;
  inv_limit : 0 <= max_skip s <= limit;
  inv_local : forall sk, dh_local s = Some sk -> dh_local_bytes s = x25519_public sk;
  inv_remote : dh_remote s = dh_remote_bytes s;
  inv_remote_len : forall pk, dh_remote s = Some pk -> length pk = 32%nat
}.

(** Assignments to fields the invariant does not read. *)
Lemma inv_frame s s' :
  skipped_message_keys s' = skipped_message_keys s -> max_skip s' = max_skip s ->
  dh_local s' = dh_local s -> dh_local_bytes s' = dh_local_bytes s ->
  dh_remote s' = dh_remote s -> dh_remote_bytes s' = dh_remote_bytes s ->
  session_inv s -> session_inv s'.
Proof.
  intros E1 E2 E3 E4 E5 E6 []. split; unfold skipped_bounded, skipped_keys_count in *;
    rewrite ?E1, ?E2, ?E3, ?E4, ?E5, ?E6; done.
Qed.

Lemma inv_set_local sk s : session_inv s -> session_inv (set_local_dh sk s).
Proof. intros []. split; try done. by intros ? [= <-]. Qed.

Lemma inv_set_remote pk s : length pk = 32%nat -> session_inv s -> session_inv (set_remote_dh pk s).
Proof. intros Hl []. split; try done. by intros ? [= <-]. Qed.

Lemma inv_delete k s :
  session_inv s -> session_inv (set_skipped (delete k (skipped_message_keys s)) s).
Proof.
  intros []. split; try done. unfold skipped_bounded, skipped_keys_count in *. simpl.
  rewrite map_size_delete. destruct (skipped_message_keys s !! k); simpl; lia.
Qed.

Lemma inv_add_skipped p n k s b s' :
  session_inv s -> add_skipped_key p n k s = (b, s') -> session_inv s'.
Proof.
  intros Hi Ha. pose proof (add_skipped_key_bounded _ _ _ _ _ _ (inv_bounded _ Hi) Ha) as Hb.
  destruct Hi. unfold add_skipped_key in Ha. destruct (skipped_keys_full s); simplify_eq; by split.
Qed.

Ltac frame := eapply inv_frame; [.. | eassumption]; reflexivity.

#[local] Hint Extern 5 (session_inv _) => frame : sibna.
#[local] Hint Resolve inv_set_local inv_set_remote inv_delete : sibna.

Lemma touch_inv {E} : preserves session_inv (touch (E := E)).
Proof. unfold touch. lead_steps. Qed.
#[local] Hint Resolve touch_inv : sibna.

Lemma crypto_inv {A} (r : CResult A) : preserves session_inv (crypto r).
Proof. apply leads_res. Qed.
#[local] Hint Resolve crypto_inv : sibna.

Lemma perform_dh_ratchet_inv : preserves session_inv perform_dh_ratchet.
Proof. unfold perform_dh_ratchet. lead_steps. Qed.

Lemma dh_ratchet_inv pk : length pk = 32%nat -> preserves session_inv (dh_ratchet pk).
Proof. intros Hl. unfold dh_ratchet. lead_steps. Qed.
#[local] Hint Resolve perform_dh_ratchet_inv dh_ratchet_inv : sibna.

Lemma skip_loop_inv fuel n : preserves session_inv (skip_loop fuel n).
Proof.
  induction fuel as [|fuel IH]; cbn [skip_loop]; [eauto with sibna|].
  apply leads_bind; [eauto with sibna|intros s0]. apply leads_bind; [eauto with sibna|intros ck].
  destruct (_ <? _); [|eauto with sibna]. destruct (next_message_key ck) as [mk ck'].
  do 4 (apply leads_bind; [solve [lead_steps]|intros ?]).
  apply leads_get_bind. intros s Hs.
  destruct (add_skipped_key a1 a2 a0 s) as [b s'] eqn:Ea.
  intros env s1 c ->. unfold bind at 1, put. pose proof (inv_add_skipped _ _ _ _ _ _ Hs Ea).
  destruct b; [by apply IH | done].
Qed.

Lemma skip_message_keys_inv n : preserves session_inv (skip_message_keys n).
Proof. unfold skip_message_keys. pose proof skip_loop_inv. lead_steps. Qed.
#[local] Hint Resolve skip_message_keys_inv : sibna.

Lemma encrypt_inv cfg pt ad : preserves session_inv (encrypt cfg pt ad).
Proof. unfold encrypt, seal_next. lead_steps. Qed.

Lemma decrypt_with_key_inv k ct ad h kt : preserves session_inv (decrypt_with_key k ct ad h kt).
Proof. unfold decrypt_with_key. lead_steps. Qed.
#[local] Hint Resolve encrypt_inv decrypt_with_key_inv : sibna.

Lemma decrypt_trial_inv m ad :
  length (dh_public (header m)) = 32%nat -> preserves session_inv (decrypt_trial m ad).
Proof. intros Hl. unfold decrypt_trial, ratchet_if_new, receive_next. lead_steps. Qed.

(** Parsed headers carry 32-byte keys. *)
Lemma message_from_bytes_wf data m : message_from_bytes data = Ok m -> wf_header (header m).
Proof.
  unfold message_from_bytes. split_guard; [done|].
  destruct (header_from_bytes (take HEADER_SIZE data)) as [h| |] eqn:E; simpl; try done.
  intros [= <-]. by apply header_from_bytes_wf in E.
Qed.

Lemma try_chain_header_wf ck data m : try_chain_header ck data = Some m -> wf_header (header m).
Proof.
  unfold try_chain_header, derive_header_key. destruct ck as [ck|]; [|done].
  destruct (message_from_bytes_encrypted data _) as [m'| |] eqn:E; try done. intros [= ->].
  revert E. unfold message_from_bytes_encrypted, header_decrypt.
  split_guard; [done|]. split_guard; [done|]. destruct (aead_decrypt _ _ _ _); simpl; [|done].
  destruct (header_from_bytes l) as [h| |] eqn:Eh; simpl; try done.
  intros [= <-]. by apply header_from_bytes_wf in Eh.
Qed.

Lemma parse_message_wf cfg s data m : parse_message cfg s data = Ok m -> wf_header (header m).
Proof.
  unfold parse_message. destruct (_ && _); [|apply message_from_bytes_wf].
  destruct (try_chain_header (receiving_chain s) data) eqn:E1;
    [intros [= <-]; by eapply try_chain_header_wf|].
  destruct (try_chain_header (sending_chain s) data) eqn:E2;
    [intros [= <-]; by eapply try_chain_header_wf | apply message_from_bytes_wf].
Qed.

Lemma run_on_inv {A} (m : M DoubleRatchetState ProtocolError.t A) s env c a s' c' :
  preserves session_inv m -> session_inv s -> run_on m s env c = (Ok (a, s'), c') -> session_inv s'.
Proof.
  intros Hm Hs. specialize (Hm env s c Hs). unfold run_on.
  destruct (m env s c) as [[[x|e|] s1] c1]; intros [=]; by subst.
Qed.

Lemma decrypt_inv cfg data ad : preserves session_inv (decrypt cfg data ad).
Proof.
  intros env s c Hs. unfold decrypt. split_guard; [done|]. unfold bind at 1, get at 1. cbv iota beta.
  unfold bind at 1, res at 1. destruct (parse_message cfg s data) as [m| |] eqn:Ep; try done.
  apply parse_message_wf in Ep as (Hl & _). unfold bind at 1, lift at 1.
  destruct (header_validate (header m) env c) as [[[]| |] c1]; try done.
  destruct (_ !! _) as [mk|]; [by apply decrypt_with_key_inv|].
  unfold bind at 1, lift at 1.
  destruct (run_on (decrypt_trial m ad) s env c1) as [[[pt s1]| |] c2] eqn:Et; try done.
  apply (run_on_inv _ _ _ _ _ _ _ (decrypt_trial_inv m ad Hl) Hs) in Et.
  unfold bind at 1, put at 1. cbv iota beta.
  match goal with |- session_inv (snd (fst (?k env s1 c2))) => 
    enough (Hk : preserves session_inv k) by exact (Hk env s1 c2 Et) end.
  lead_steps.
Qed.

(** Restoring leaves an empty store with capacity zero. *)
Lemma truncate_skipped_0 m : truncate_skipped 0 m = ∅.
Proof. done. Qed.

(** The fields of the invariant after a sending ratchet step. *)
Lemma perform_dh_ratchet_run env s c : exists sk s' c',
  perform_dh_ratchet env s c = (Ok tt, s', c') /\ max_skip s' = max_skip s /\
  skipped_message_keys s' = skipped_message_keys s /\ dh_remote s' = dh_remote s /\
  dh_remote_bytes s' = dh_remote_bytes s /\ dh_local s' = Some sk /\
  dh_local_bytes s' = x25519_public sk.
Proof.
  unfold perform_dh_ratchet, bind at 1, lift at 1, random_secret, os_bytes. cbv iota beta.
  unfold bind at 1, get at 1. cbv iota beta. destruct (dh_remote s) as [pk|] eqn:Er.
  - unfold bind at 1, bind at 1, crypto at 1, res at 1.
    destruct (kdf_rk_ok (root_key s) (x25519_dh (map (e_os env) (seq (c_os c) 32)) pk))
      as (rk & ck & -> & _). simpl. eexists _, _, _. split; [reflexivity|]. by rewrite <- Er.
  - simpl. eexists _, _, _. split; [reflexivity|]. by rewrite <- Er.
Qed.

Lemma restore_ok i s : restore_dh_keys (of_serde i) = Ok s ->
  max_skip s = 0 /\ dh_local s = None /\ dh_remote s = dh_remote_bytes s /\
  forall pk, dh_remote s = Some pk -> length pk = 32%nat.
Proof.
  unfold restore_dh_keys. destruct (dh_remote_bytes (of_serde i)) as [b|] eqn:Eb.
  - split_guard; [|done]. intros [= <-]. repeat split; simpl; try done.
    intros pk [= <-]. unfold len in *. lia.
  - intros [= <-]. repeat split; simpl; try done.
Qed.

(** After any successful restore: no skipped keys and no room for any. *)
Lemma deserialize_run {B : Bincode} data env s c s' c' :
  deserialize_state data env s c = (Ok tt, s', c') ->
  skipped_message_keys s' = ∅ /\ max_skip s' = 0 /\
  (forall sk, dh_local s' = Some sk -> dh_local_bytes s' = x25519_public sk) /\
  dh_remote s' = dh_remote_bytes s' /\
  (forall pk, dh_remote s' = Some pk -> length pk = 32%nat).
Proof.
  unfold deserialize_state, bind at 1, res at 1. destruct (bincode_decode data) as [i|]; simpl; [|done].
  unfold bind at 1, res at 1. destruct (restore_dh_keys (of_serde i)) as [l| |] eqn:Er; simpl; try done.
  apply restore_ok in Er as (Hm & Hd & Hr & Hl). unfold bind at 1, put at 1. cbv iota beta.
  unfold bind at 1. split_guard.
  - destruct (perform_dh_ratchet_run env l c) as (sk & s1 & c1 & -> & E1 & E2 & E3 & E4 & E5 & E6).
    unfold modify. rewrite Hm. intros [= <- _]. simpl. rewrite E1, E3, E4, E5, E6, Hm, Hr.
    repeat split; try done; [by intros ? [= <-] | by rewrite <- Hr].
  - unfold ret, modify. rewrite Hm. intros [= <- _]. simpl. rewrite Hd. repeat split; done.
Qed.

(** A failed restore keeps the session's state. *)
Lemma deserialize_err {B : Bincode} data env s c r s' c' :
  deserialize_state data env s c = (r, s', c') -> r <> Ok tt -> s' = s.
Proof.
  unfold deserialize_state, bind at 1, res at 1.
  destruct (bincode_decode data) as [i|]; simpl; [|by intros [= _ <- _]].
  unfold bind at 1, res at 1.
  destruct (restore_dh_keys (of_serde i)) as [l| |]; simpl; try (by intros [= _ <- _]).
  unfold bind at 1, put at 1. cbv iota beta. unfold bind at 1. split_guard.
  - destruct (perform_dh_ratchet_run env l c) as (? & s1 & c1 & -> & _).
    unfold modify. by intros [= <- _ _].
  - unfold ret, modify. by intros [= <- _ _].
Qed.

Lemma deserialize_inv {B : Bincode} data : 0 <= limit -> preserves session_inv (deserialize_state data).
Proof.
  intros Hl env s c Hs. destruct (deserialize_state data env s c) as [[r s'] c'] eqn:E. simpl.
  destruct r as [[]|e|]; [|by rewrite (deserialize_err _ _ _ _ _ _ _ E)..].
  apply deserialize_run in E as (E1 & E2 & E3 & E4 & E5). split; try done; [|lia].
  unfold skipped_bounded, skipped_keys_count. rewrite E1, E2. done.
Qed.

Lemma reserve_inv n : preserves session_inv (reserve_nonces n).
Proof. unfold reserve_nonces. lead_steps. Qed.

Lemma jump_inv : preserves session_inv jump_to_reservation.
Proof. unfold jump_to_reservation. lead_steps. Qed.

(** ** Reachable states *)

(** One operation on the session, with any arguments. *)
Inductive session_step {B : Bincode} (cfg : Config) (env : Env)
    : DoubleRatchetState * Ctr -> DoubleRatchetState * Ctr -> Prop :=
| step_encrypt pt ad s c r s' c' :
    encrypt cfg pt ad env s c = (r, s', c') -> session_step cfg env (s, c) (s', c')
| step_decrypt data ad s c r s' c' :
    decrypt cfg data ad env s c = (r, s', c') -> session_step cfg env (s, c) (s', c')
| step_restore data s c r s' c' :
    deserialize_state data env s c = (r, s', c') -> session_step cfg env (s, c) (s', c')
| step_reserve n s c r s' c' :
    reserve_nonces n env s c = (r, s', c') -> session_step cfg env (s, c) (s', c')
| step_jump s c r s' c' :
    jump_to_reservation env s c = (r, s', c') -> session_step cfg env (s, c) (s', c').

Lemma leads_run {A} (m : M DoubleRatchetState ProtocolError.t A) env s c r s' c' :
  preserves session_inv m -> m env s c = (r, s', c') -> session_inv s -> session_inv s'.
Proof. intros Hm E Hs. specialize (Hm env s c Hs). by rewrite E in Hm. Qed.

Lemma session_step_inv {B : Bincode} cfg env st st' :
  0 <= limit -> session_step cfg env st st' -> session_inv st.1 -> session_inv st'.1.
Proof.
  intros Hl [pt ad s c r s' c' E|data ad s c r s' c' E|data s c r s' c' E|n s c r s' c' E|s c r s' c' E];
    simpl; (eapply leads_run; [|exact E]).
  - apply encrypt_inv.
  - apply decrypt_inv.
  - by apply deserialize_inv.
  - apply reserve_inv.
  - apply jump_inv.
Qed.

End Invariant.

(** ** Properties *)
Section Properties.
Context {P : Primitives} {L : PrimitiveLaws P} {B : Bincode}.

Lemma from_shared_secret_state ss ldh rdh cfg role env c x c' :
  from_shared_secret ss ldh rdh cfg role env c = (Ok x, c') ->
  config x = cfg /\ skipped_message_keys (state x) = ∅ /\
  max_skip (state x) = max_skipped_messages cfg /\ dh_local (state x) = Some ldh /\
  dh_local_bytes (state x) = x25519_public ldh /\
  dh_remote (state x) = Some rdh /\ dh_remote_bytes (state x) = Some rdh.
Proof.
  unfold from_shared_secret. split_guard; [done|]. unfold io_bind at 1, io_res at 1.
  destruct (hkdf_sha256 _ _ _ _); simpl; [|done]. unfold io_bind at 1.
  match goal with |- context [match ?m env c with _ => _ end] => destruct (m env c) as [[[a b]| |] c1] end;
    try done.
  unfold io_bind at 1, read_secs. destruct (e_clock env (c_clock c1)); simpl; [|done].
  unfold io_bind, io_res, io_ret.
  match goal with |- context [generate_session_id env ?c2] =>
    destruct (generate_session_id env c2) as [[id| |] c3] end; try done.
  by intros [= <- _].
Qed.

(** C5: the session invariant.  From a session established on a shared secret,
    any interleaving of encryptions, decryptions of arbitrary bytes, restores
    of arbitrary bytes, nonce reservations and jumps keeps: at most [max_skip]
    skipped keys, [max_skip] within the configured maximum; the serialised copy
    of the local key equal to its public key (the secret scalar is never
    there); the remote key equal to its serialised copy and 32 bytes long. *)
Theorem session_invariant ss ldh rdh cfg role env c x c1 s c2 :
  0 <= max_skipped_messages cfg -> length rdh = 32%nat ->
  from_shared_secret ss ldh rdh cfg role env c = (Ok x, c1) ->
  rtc (session_step cfg env) (state x, c1) (s, c2) ->
  session_inv (max_skipped_messages cfg) s.
Proof.
  intros Hl Hr Hx Hrun.
  apply from_shared_secret_state in Hx as (_ & E1 & E2 & E3 & E4 & E5 & E6).
  assert (H0 : session_inv (max_skipped_messages cfg) (state x, c1).1).
  { split; simpl; rewrite ?E5, ?E6; try done; [|lia|by rewrite E3, E4; intros ? [= <-]|by intros ? [= <-]].
    unfold skipped_bounded, skipped_keys_count. by rewrite E1, E2. }
  change s with (s, c2).1. induction Hrun as [|st st' st'' Hs _ IH]; [done|].
  apply IH. by eapply session_step_inv.
Qed.

(** C6: a rejected message leaves no trace.  Whatever bytes and associated
    data [decrypt] is given, when it returns an error, from a parse failure to
    a failed authentication after a trial DH ratchet, the session's state is
    exactly what it was; restoring a damaged snapshot likewise. *)
Theorem rejected_leaves_no_trace cfg data ad env s c e s' c' :
  (decrypt cfg data ad env s c = (Err e, s', c') -> s' = s) /\
  (deserialize_state data env s c = (Err e, s', c') -> s' = s).
Proof.
  split; [|intros E; by apply (deserialize_err _ _ _ _ _ _ _ E)].
  unfold decrypt. split_guard; [by intros [=]|]. unfold bind at 1, get at 1. cbv iota beta.
  unfold bind at 1, res at 1. destruct (parse_message cfg s data) as [m| |]; try (by intros [=]).
  unfold bind at 1, lift at 1.
  destruct (header_validate (header m) env c) as [[[]| |] c1]; try (by intros [=]).
  destruct (_ !! _) as [mk|].
  - unfold decrypt_with_key, bind at 1, crypto, res at 1.
    destruct (Encryptor_new mk 0) as [en| |]; simpl; try (by intros [=]).
    unfold bind at 1, lift at 1.
    destruct (io_map_err _ _ env c1) as [[[pt en']| |] c2]; by intros [=].
  - unfold bind at 1, lift at 1.
    destruct (run_on _ s env c1) as [[[pt s1]| |] c2]; try (by intros [=]).
    unfold bind, put, res, modify, ret. simpl. by destruct (u_add _ _ _).
Qed.

End Properties.

(** ** A concrete pair of sessions *)

#[global] Instance chain_key_eq_dec : EqDecision ChainKey.
Proof. solve_decision. Defined.
#[global] Instance skipped_entry_eq_dec : EqDecision SkippedKeyEntry.
Proof. solve_decision. Defined.
#[global] Instance serialized_state_eq_dec : EqDecision SerializedState.
Proof. solve_decision. Defined.

Definition demo_sk1 : bytes := repeat x11 31 ++ [x01].
Definition demo_sk2 : bytes := repeat x22 31 ++ [x02].

(** A session of [role] on the shared secret [demo_key]. *)
Definition demo_session (cfg : Config) (role : HandshakeRole.t) : DoubleRatchetSession :=
  let (sk, pk) := if HandshakeRole.is_initiator role
                  then (demo_sk1, x25519_public (Primitives := toy) demo_sk2)
                  else (demo_sk2, x25519_public (Primitives := toy) demo_sk1) in
  match from_shared_secret (P := toy) demo_key sk pk cfg role demo_env1 ctr0 with
  | (Ok x, _) => x
  | _ => mkSession (mkState [] None None None [] None None ∅ 0 0 0 0 0 0 0) cfg [] None 0
  end.

(** What creating it consumed. *)
Definition demo_ctr : Ctr :=
  snd (from_shared_secret (P := toy) demo_key demo_sk1 (x25519_public (Primitives := toy) demo_sk2)
         Config_default HandshakeRole.Initiator demo_env1 ctr0).

(** A codec that knows the snapshot [i0] only. *)
Definition demo_bincode (i0 : SerializedState) : Bincode := {|
  bincode_encode i := if decide (i = i0) then Some [x01] else None;
  bincode_decode b := if decide (b = [x01]) then Some i0 else None |}.

Lemma demo_bincode_laws i0 : BincodeLaws (demo_bincode i0).
Proof. split. intros i b. simpl. by case_decide; intros [= <-]; simplify_eq. Qed.

Definition demo_snapshot : SerializedState :=
  serde_image (state (demo_session Config_default HandshakeRole.Initiator)).

Lemma session_invariant_witness :
  let s0 := state (demo_session Config_default HandshakeRole.Initiator) in
  let r := encrypt (P := toy) Config_default (bstr "hi") (bstr "ad") demo_env1 s0 demo_ctr in
  is_ok (fst (fst r)) = true /\ session_inv (P := toy) 2000 (snd (fst r)).
Proof.
  intros s0 r. split; [vm_compute; reflexivity|].
  refine (session_invariant (P := toy) (L := toy_laws) (B := demo_bincode demo_snapshot)
    demo_key demo_sk1 (x25519_public (Primitives := toy) demo_sk2) Config_default
    HandshakeRole.Initiator demo_env1 ctr0
    (demo_session Config_default HandshakeRole.Initiator)
    demo_ctr _ (snd r) _ _ _ _).
  - vm_compute. discriminate.
  - vm_compute. reflexivity.
  - vm_compute. reflexivity.
  - eapply rtc_l; [|apply rtc_refl].
    eapply (step_encrypt _ _ (bstr "hi") (bstr "ad") _ _ (fst (fst r))). vm_compute. reflexivity.
Defined.

(** A forged message that reaches the trial ratchet and fails authentication. *)
Definition demo_forged : bytes :=
  message_to_bytes (mkRatchetMessage (mkRatchetHeader demo_key 5 0 1700000000)
    (build_header 0 1700000000 ++ repeat x41 40)).

Lemma rejected_leaves_no_trace_witness :
  let s0 := state (demo_session Config_default HandshakeRole.Responder) in
  let r := decrypt (P := toy) Config_default demo_forged [] demo_env1 s0 ctr0 in
  fst (fst r) = Err ProtocolError.AuthenticationFailed /\ snd (fst r) = s0.
Proof.
  intros s0 r. split; [vm_compute; reflexivity|].
  refine (proj1 (rejected_leaves_no_trace (P := toy) (L := toy_laws) (B := demo_bincode demo_snapshot)
    Config_default demo_forged [] demo_env1 s0 ctr0 ProtocolError.AuthenticationFailed
    (snd (fst r)) (snd r)) _).
  vm_compute. reflexivity.
Defined.
