(* ===== verification/SessionReceive.v ===== *)
(** * The receiving side refines a delivery window

    [Window] is what a receiving chain promises: it knows the next number and
    the numbers it has passed over, accepts each number at most once, in any
    order, within a bounded number of outstanding ones.  [recv_rep] relates it
    to the state of a session, and [decrypt] on the messages a sender of the
    chain produces implements [Window.deliver]. *)

From S2P Require Import Prelude Effects Errors Primitives Compare Random Validation Padding Kdf Handler Encryptor Chain Message RatchetState Session SessionInvariant.
#[local] Open Scope Z_scope.
#[local] Open Scope sibna_scope.

(** ** Specification *)
Module Window.

Record t := mk { next : nat; missing : gset nat }.

Inductive outcome := Accept (w : t) | Replay | Overflow.

(** Message [n] arrives; at most [room] numbers may be outstanding. *)
Definition deliver (room : Z) (w : t) (n : nat) : outcome :=
  if bool_decide (n ∈ missing w) then Accept (mk (next w) (missing w ∖ {[n]}))
  else if bool_decide (n < next w)%nat then Replay
  else if Z.of_nat (size (missing w)) + Z.of_nat (n - next w) <=? room
  then Accept (mk (S n) (missing w ∪ set_seq (next w) (n - next w)))
  else Overflow.

(** The window afterwards, and the outcomes of a sequence of arrivals. *)
Definition after (w : t) (o : outcome) : t := match o with Accept w' => w' | _ => w end.

Fixpoint trace (room : Z) (w : t) (l : list nat) : list outcome :=
  match l with
  | [] => []
  | n :: l => let o := deliver room w n in o :: trace room (after w o) l
  end.

(** The numbers accepted so far. *)
Definition seen (w : t) (n : nat) : Prop := (n < next w)%nat /\ n ∉ missing w.

Definition wf (w : t) : Prop := forall j, j ∈ missing w -> (j < next w)%nat.

Definition init : t := mk 0 ∅.

(** Deliveries one after the other; [None] when one is not accepted. *)
Fixpoint deliver_all (room : Z) (w : t) (l : list nat) : option t :=
  match l with
  | [] => Some w
  | n :: l => match deliver room w n with Accept w' => deliver_all room w' l | _ => None end
  end.

Lemma deliver_wf room w n w' : wf w -> deliver room w n = Accept w' -> wf w'.
Proof.
  unfold deliver, wf. intros Hw. case_bool_decide; [intros [= <-]; simpl; set_solver|].
  case_bool_decide; [done|]. split_guard; [|done]. intros [= <-] j. simpl.
  rewrite elem_of_union, elem_of_set_seq. intros [Hj|]; [apply Hw in Hj|]; lia.
Qed.

(** Acceptance adds exactly the delivered number. *)
Lemma deliver_seen room w n w' j :
  wf w -> deliver room w n = Accept w' -> (seen w' j <-> seen w j \/ j = n).
Proof.
  unfold deliver, seen, wf. intros Hw. case_bool_decide as Hin.
  - intros [= <-]. simpl. specialize (Hw _ Hin). destruct (decide (j = n)) as [->|]; set_solver by lia.
  - case_bool_decide; [done|]. split_guard; [|done]. intros [= <-]. simpl.
    rewrite elem_of_union, elem_of_set_seq. specialize (Hw j).
    destruct (decide (j ∈ missing w)); [specialize (Hw ltac:(done))|];
      intuition (try lia); destruct (decide (j = n)); intuition (try lia).
Qed.

(** A number already accepted is a replay. *)
Lemma deliver_replay room w n : seen w n -> deliver room w n = Replay.
Proof.
  intros [Hn Hm]. unfold deliver. rewrite bool_decide_eq_false_2 by done.
  by rewrite bool_decide_eq_true_2 by done.
Qed.

(** A fresh number below [room] is accepted while everything else was below [room]. *)
Lemma deliver_fresh room w n :
  wf w -> ~ seen w n -> (next w <= Z.to_nat room)%nat -> Z.of_nat n < room ->
  exists w', deliver room w n = Accept w' /\ (next w' <= Z.to_nat room)%nat.
Proof.
  unfold seen, wf, deliver. intros Hw Hs Hnx Hn. case_bool_decide as Hin.
  - eexists. split; [done|]. simpl. lia.
  - rewrite bool_decide_eq_false_2 by tauto.
    assert (Hsz : (size (missing w) <= next w)%nat).
    { etransitivity; [|apply Nat.eq_le_incl, (size_set_seq (C := gset nat) 0 (next w))].
      apply subseteq_size.
      intros j Hj. apply elem_of_set_seq. apply Hw in Hj. lia. }
    split_guard; [eexists; split; [done|]; simpl; lia|].
    lia.
Qed.

(** Any order, each number once. *)
Lemma deliver_all_fresh room l : forall w,
  wf w -> base.NoDup l -> (forall n, n ∈ l -> ~ seen w n /\ Z.of_nat n < room) ->
  (next w <= Z.to_nat room)%nat ->
  exists w', deliver_all room w l = Some w' /\ wf w' /\
    forall j, seen w' j <-> seen w j \/ j ∈ l.
Proof.
  induction l as [|n l IH]; intros w Hw Hnd Hl Hnx; simpl.
  - exists w. split; [done|]. split; [done|]. intros j. set_solver.
  - apply NoDup_cons in Hnd as [Hn Hnd]. destruct (Hl n) as [Hs Hr]; [by left|].
    destruct (deliver_fresh room w n Hw Hs Hnx Hr) as (w1 & E & Hnx1). rewrite E.
    destruct (IH w1) as (w' & E' & Hw' & Hsn); [by eapply deliver_wf|done| |done|].
    + intros m Hm. destruct (Hl m) as [Hsm Hrm]; [by right|]. split; [|done].
      rewrite (deliver_seen _ _ _ _ _ Hw E). intros [?| ->]; done.
    + exists w'. split; [done|]. split; [done|]. intros j.
      rewrite Hsn, (deliver_seen _ _ _ _ _ Hw E). set_solver.
Qed.

End Window.

(** ** Skipping over messages *)
Section Receive.
Context {P : Primitives} {L : PrimitiveLaws P}.

(** The chain of [k] after [n] messages, with the bookkeeping of [ck]. *)
Definition chain_to (k : bytes) (ck : ChainKey) (n : nat) : ChainKey :=
  mkChainKey (chain_at k n) (Z.of_nat n) (ck_created_at ck) (ck_max_messages ck)
    (ck_reserved_until ck).

Lemma chain_to_rep k i ck : chain_rep k i ck -> chain_to k ck i = ck.
Proof. intros (H1 & H2 & _). unfold chain_to. destruct ck. simpl in *. by subst. Qed.

Lemma next_message_key_to k i ck :
  chain_rep k i ck -> Z.of_nat i < ck_max_messages ck ->
  next_message_key ck = (Some (message_key_at k i), chain_to k ck (S i)) /\
  chain_rep k (S i) (chain_to k ck (S i)).
Proof.
  intros Hr Hi. destruct (next_message_key_some k i ck Hr Hi) as (ck' & -> & Hr' & Hm & Hu & Hc).
  assert (E : chain_to k ck (S i) = ck').
  { rewrite <- (chain_to_rep k (S i) ck' Hr'). unfold chain_to. by rewrite Hm, Hu, Hc. }
  by rewrite E.
Qed.

(** The keys of messages [i .. i + d - 1], stored under [pub]. *)
Fixpoint store_keys (k pub : bytes) (i d : nat) (m : SkippedKeys) : SkippedKeys :=
  match d with
  | O => m
  | S d => store_keys k pub (S i) d (<[(pub, Z.of_nat i) := message_key_at k i]> m)
  end.

Lemma store_keys_lookup k pub d : forall i m (j : nat),
  store_keys k pub i d m !! (pub, Z.of_nat j) =
    if bool_decide (i <= j < i + d)%nat then Some (message_key_at k j) else m !! (pub, Z.of_nat j).
Proof.
  induction d as [|d IH]; intros i m j; simpl.
  - by rewrite bool_decide_eq_false_2 by lia.
  - rewrite IH. destruct (decide (i = j)) as [->|Hne].
    + rewrite bool_decide_eq_false_2, bool_decide_eq_true_2 by lia. apply lookup_insert_eq.
    + rewrite lookup_insert_ne by (intros [=]; lia).
      destruct (decide (S i <= j < S i + d)%nat);
        [rewrite !bool_decide_eq_true_2 by lia | rewrite !bool_decide_eq_false_2 by lia]; done.
Qed.

Lemma store_keys_other k pub q z d : forall i m,
  q <> pub -> store_keys k pub i d m !! (q, z) = m !! (q, z).
Proof.
  induction d as [|d IH]; intros i m Hq; simpl; [done|]. rewrite IH by done.
  by rewrite lookup_insert_ne by congruence.
Qed.

Lemma store_keys_weaken k pub q z mk d i m :
  (forall j, (i <= j)%nat -> m !! (pub, Z.of_nat j) = None) ->
  m !! (q, z) = Some mk -> store_keys k pub i d m !! (q, z) = Some mk.
Proof.
  revert i m. induction d as [|d IH]; intros i m Hm Hq; simpl; [done|]. apply IH.
  - intros j Hj. rewrite lookup_insert_ne by (intros [=]; lia). apply Hm. lia.
  - rewrite lookup_insert_ne; [done|]. intros [= <- <-]. rewrite Hm in Hq; [done | lia].
Qed.

Lemma store_keys_size k pub d : forall i m,
  (forall j, (i <= j)%nat -> m !! (pub, Z.of_nat j) = None) ->
  size (store_keys k pub i d m) = (size m + d)%nat.
Proof.
  induction d as [|d IH]; intros i m Hm; simpl; [lia|].
  rewrite IH.
  - rewrite map_size_insert_None by (apply Hm; lia). lia.
  - intros j Hj. rewrite lookup_insert_ne by (intros [=]; lia). apply Hm. lia.
Qed.

(** The state after skipping from [i] to [i + d]. *)
Definition skipped_to (k pub : bytes) (ck : ChainKey) (i d : nat) (s : DoubleRatchetState) :=
  set_skipped (store_keys k pub i d (skipped_message_keys s))
    (set_receiving_chain (Some (chain_to k ck (i + d))) s).

Section Loop.
Context (k pub : bytes) (env : Env).

(** One iteration that finds room. *)
Lemma skip_loop_step fuel n i ck s c :
  receiving_chain s = Some ck -> chain_rep k i ck -> dh_remote s = Some pub ->
  Z.of_nat i < n -> Z.of_nat i < ck_max_messages ck ->
  skip_loop (S fuel) n env s c =
    if skipped_keys_full s
    then (Err ProtocolError.MaxSkippedMessagesExceeded,
          set_receiving_chain (Some (chain_to k ck (S i))) s, c)
    else skip_loop fuel n env (skipped_to k pub ck i 1 s) c.
Proof.
  intros Hrc Hr Hd Hn Hm. cbn [skip_loop]. unfold bind at 1, get at 1. cbv iota beta.
  unfold bind at 1, res at 1. rewrite Hrc. cbn [ok_or].
  replace (ck_index ck) with (Z.of_nat i) by (symmetry; apply Hr).
  destruct (Z.ltb_spec (Z.of_nat i) n); [|lia].
  destruct (next_message_key_to k i ck Hr Hm) as [-> _].
  unfold bind at 1, modify at 1. cbv iota beta. unfold bind at 1, res at 1. cbn [ok_or].
  unfold bind at 1, res at 1. rewrite Hd. cbn [ok_or].
  unfold bind at 1, res at 1. rewrite u_sub_ok by (simpl; lia). cbn [or_panic].
  replace (ck_index (chain_to k ck (S i)) - 1) with (Z.of_nat i) by (simpl; lia).
  unfold bind at 1, get at 1. cbv iota beta. unfold add_skipped_key.
  change (skipped_keys_full (set_receiving_chain _ s)) with (skipped_keys_full s).
  destruct (skipped_keys_full s); unfold bind at 1, put at 1; cbv iota beta; [done|].
  unfold skipped_to. by rewrite Nat.add_1_r.
Qed.

Lemma skip_loop_ok d : forall fuel i ck s c,
  receiving_chain s = Some ck -> chain_rep k i ck -> dh_remote s = Some pub ->
  (d < fuel)%nat -> Z.of_nat (i + d) <= ck_max_messages ck ->
  (forall j, (i <= j)%nat -> skipped_message_keys s !! (pub, Z.of_nat j) = None) ->
  skipped_keys_count s + Z.of_nat d <= max_skip s ->
  skip_loop fuel (Z.of_nat (i + d)) env s c = (Ok tt, skipped_to k pub ck i d s, c).
Proof.
  induction d as [|d IH]; intros fuel i ck s c Hrc Hr Hd Hf Hm Hfr Hcap;
    (destruct fuel as [|fuel]; [lia|]).
  - cbn [skip_loop]. unfold bind at 1, get at 1. cbv iota beta. unfold bind at 1, res at 1.
    rewrite Hrc. cbn [ok_or]. replace (ck_index ck) with (Z.of_nat i) by (symmetry; apply Hr).
    rewrite Nat.add_0_r. rewrite Z.ltb_irrefl. unfold ret, skipped_to. simpl.
    rewrite Nat.add_0_r, (chain_to_rep k i ck Hr), <- Hrc. by destruct s.
  - rewrite (skip_loop_step _ _ i ck) by (done || lia).
    unfold skipped_keys_full. destruct (Z.leb_spec (max_skip s) (skipped_keys_count s)); [lia|].
    destruct (next_message_key_to k i ck Hr) as [_ Hr']; [lia|].
    replace (i + S d)%nat with (S i + d)%nat by lia.
    assert (Hsz : skipped_keys_count (skipped_to k pub ck i 1 s) = skipped_keys_count s + 1).
    { unfold skipped_keys_count, skipped_to. simpl skipped_message_keys.
      rewrite map_size_insert_None by (apply Hfr; lia). lia. }
    rewrite (IH fuel (S i) (chain_to k ck (S i)) (skipped_to k pub ck i 1 s)).
    + unfold skipped_to. simpl. by replace (i + S d)%nat with (S (i + d)) by lia.
    + unfold skipped_to. simpl. by rewrite Nat.add_1_r.
    + done.
    + done.
    + lia.
    + simpl. lia.
    + intros j Hj. unfold skipped_to. simpl. rewrite lookup_insert_ne by (intros [=]; lia).
      apply Hfr. lia.
    + rewrite Hsz. simpl max_skip. lia.
Qed.

Lemma skip_loop_full d : forall fuel i ck s c,
  receiving_chain s = Some ck -> chain_rep k i ck -> dh_remote s = Some pub ->
  (d < fuel)%nat -> Z.of_nat (i + d) <= ck_max_messages ck ->
  (forall j, (i <= j)%nat -> skipped_message_keys s !! (pub, Z.of_nat j) = None) ->
  skipped_keys_count s <= max_skip s -> max_skip s < skipped_keys_count s + Z.of_nat d ->
  exists s', skip_loop fuel (Z.of_nat (i + d)) env s c =
    (Err ProtocolError.MaxSkippedMessagesExceeded, s', c).
Proof.
  induction d as [|d IH]; intros fuel i ck s c Hrc Hr Hd Hf Hm Hfr Hb Hcap;
    (destruct fuel as [|fuel]; [lia|]); [lia|].
  rewrite (skip_loop_step _ _ i ck) by (done || lia).
  unfold skipped_keys_full. destruct (Z.leb_spec (max_skip s) (skipped_keys_count s)); [eauto|].
  destruct (next_message_key_to k i ck Hr) as [_ Hr']; [lia|].
  replace (i + S d)%nat with (S i + d)%nat by lia.
  assert (Hsz : skipped_keys_count (skipped_to k pub ck i 1 s) = skipped_keys_count s + 1).
  { unfold skipped_keys_count, skipped_to. simpl skipped_message_keys.
    rewrite map_size_insert_None by (apply Hfr; lia). lia. }
  apply (IH fuel (S i) (chain_to k ck (S i))); try done; try (rewrite Hsz); simpl max_skip; try lia.
  - unfold skipped_to. simpl. by rewrite Nat.add_1_r.
  - simpl. lia.
  - intros j Hj. unfold skipped_to. simpl. rewrite lookup_insert_ne by (intros [=]; lia).
    apply Hfr. lia.
Qed.

(** [skip_message_keys] from [i] up to [n]: it skips, or finds no room, or
    has nothing to do. *)
Lemma skip_message_keys_run i ck s c (n : nat) :
  receiving_chain s = Some ck -> chain_rep k i ck -> dh_remote s = Some pub ->
  Z.of_nat n <= ck_max_messages ck ->
  (forall j, (i <= j)%nat -> skipped_message_keys s !! (pub, Z.of_nat j) = None) ->
  skipped_keys_count s <= max_skip s -> max_skip s + Z.of_nat i <= U64_MAX ->
  if bool_decide (n < i)%nat
  then skip_message_keys (Z.of_nat n) env s c = (Ok tt, s, c)
  else if skipped_keys_count s + Z.of_nat (n - i) <=? max_skip s
  then skip_message_keys (Z.of_nat n) env s c = (Ok tt, skipped_to k pub ck i (n - i) s, c)
  else exists s', skip_message_keys (Z.of_nat n) env s c =
    (Err ProtocolError.MaxSkippedMessagesExceeded, s', c).
Proof.
  intros Hrc Hr Hd Hm Hfr Hb Hov. unfold skip_message_keys, bind at 1 3 5, get. cbv iota beta.
  rewrite Hrc. replace (ck_index ck) with (Z.of_nat i) by (symmetry; apply Hr).
  unfold bind, res. rewrite u_add_ok by lia. cbn [or_panic].
  assert (0 <= skipped_keys_count s) by (unfold skipped_keys_count; lia).
  case_bool_decide as Hni.
  - destruct (Z.ltb_spec (Z.of_nat i + max_skip s) (Z.of_nat n)); [lia|].
    replace (Z.to_nat (Z.of_nat n - Z.of_nat i)) with 0%nat by lia. cbn [skip_loop].
    unfold bind, get, res. cbv iota beta. rewrite Hrc. cbn [ok_or].
    replace (ck_index ck) with (Z.of_nat i) by (symmetry; apply Hr).
    by destruct (Z.ltb_spec (Z.of_nat i) (Z.of_nat n)); [lia|].
  - remember (n - i)%nat as d eqn:Ed. assert (n = i + d)%nat as -> by lia.
    destruct (Z.leb_spec (skipped_keys_count s + Z.of_nat d) (max_skip s)).
    + destruct (Z.ltb_spec (Z.of_nat i + max_skip s) (Z.of_nat (i + d))); [lia|].
      apply skip_loop_ok; try done; lia.
    + destruct (Z.ltb_spec (Z.of_nat i + max_skip s) (Z.of_nat (i + d))); [eauto|].
      eapply skip_loop_full; try done; lia.
Qed.

End Loop.

(** ** Messages of a chain *)

(** A time stamp the receiver, whose clock stays in [lo .. hi], finds current. *)
Definition timely (lo hi ts : Z) : Prop := 0 <= ts <= lo + 30 /\ hi <= ts + 86400.

(** Message [n] of the chain of [k], sent under the DH key [pub] with
    [previous_chain_length] [pcl]. *)
Definition genuine (k pub : bytes) (pcl : Z) (n : nat) (lo hi : Z) (pt ad data : bytes) : Prop :=
  exists ts1 ts2 ct,
    is_u64 pcl /\ timely lo hi ts1 /\ timely lo hi ts2 /\
    let h := mkRatchetHeader pub (Z.of_nat n) pcl ts1 in
    sealed_as (message_key_at k n) pt (ad ++ header_to_bytes h) 0 ts2 ct /\
    data = message_to_bytes (mkRatchetMessage h ct).

Lemma genuine_len k pub pcl n lo hi pt ad data :
  length pub = 32%nat -> genuine k pub pcl n lo hi pt ad data -> len data = len pt + 108.
Proof.
  intros Hp (ts1 & ts2 & ct & _ & _ & _ & Hs%sealed_as_len & ->). unfold message_to_bytes, header_to_bytes.
  cbn [header ciphertext]. rewrite len_app, Hs. unfold len. rewrite !length_app, !length_to_le. cbn [dh_public]. lia.
Qed.

Lemma timely_u64 env lo hi ts : sane_clock env lo hi -> timely lo hi ts -> is_u64 ts.
Proof.
  intros (Hc & Hlo & Hhi) [? ?]. destruct (Hc 0%nat) as (ns & _ & ?). unfold in_u. lia.
Qed.

Lemma decrypt_with_key_ok key pt ad h kt ts ct env s c lo hi :
  sane_clock env lo hi -> timely lo hi ts -> length key = 32%nat -> weak_key key = false ->
  sealed_as key pt (ad ++ header_to_bytes h) 0 ts ct ->
  exists c', decrypt_with_key key ct ad h kt env s c =
    (Ok pt, set_skipped (delete kt (skipped_message_keys s)) s, c').
Proof.
  intros Hc Ht Hl Hw Hs. unfold decrypt_with_key, bind at 1, crypto, res.
  rewrite (proj2 (Encryptor_new_ok key 0 (mkEncryptor key 0 0 ∅ 100000)))
    by (unfold len; repeat split; [lia | done]).
  cbn [map_err]. pose proof (timely_u64 _ _ _ _ Hc Ht) as Hu. destruct Ht as [Ht1 Ht2].
  destruct (decrypt_message_ok key pt (ad ++ header_to_bytes h) 0 ts ct env
    (mkEncryptor key 0 0 ∅ 100000) c lo hi) as (now & c' & E & _); try done;
    try (unfold in_u, U64_MAX; lia).
  unfold bind at 1, lift at 1, io_map_err, run_on. rewrite E. cbn [map_err].
  unfold bind, modify, ret. eauto.
Qed.

(** The session state, seen as a delivery window for the chain of [k], [pub]. *)
Record recv_rep (k pub : bytes) (room : Z) (s : DoubleRatchetState) (w : Window.t) : Prop := {
  rr_chain : exists ck, receiving_chain s = Some ck /\ chain_rep k (Window.next w) ck /\
    ck_max_messages ck = DEFAULT_MAX_MESSAGES;
  rr_remote : dh_remote s = Some pub;
  rr_keys : forall j : nat, skipped_message_keys s !! (pub, Z.of_nat j) =
    if bool_decide (j ∈ Window.missing w) then Some (message_key_at k j) else None;
  rr_wf : Window.wf w;
  rr_next : Z.of_nat (Window.next w) <= DEFAULT_MAX_MESSAGES;
  rr_room : max_skip s - skipped_keys_count s = room - Z.of_nat (size (Window.missing w));
  rr_bounded : skipped_bounded s;
  rr_max : max_skip s <= U64_MAX - DEFAULT_MAX_MESSAGES
}.

(** Fields the representation does not read. *)
Lemma recv_rep_frame k pub room s s' w :
  receiving_chain s' = receiving_chain s -> dh_remote s' = dh_remote s ->
  skipped_message_keys s' = skipped_message_keys s -> max_skip s' = max_skip s ->
  recv_rep k pub room s w -> recv_rep k pub room s' w.
Proof.
  intros E1 E2 E3 E4 []. split; unfold skipped_bounded, skipped_keys_count in *;
    rewrite ?E1, ?E2, ?E3, ?E4; done.
Qed.

(** What a delivery on the chain of [pub] leaves alone. *)
Record same_elsewhere (pub : bytes) (s s' : DoubleRatchetState) : Prop := {
  se_root : root_key s' = root_key s;
  se_sending : sending_chain s' = sending_chain s;
  se_local : dh_local s' = dh_local s;
  se_previous : previous_counter s' = previous_counter s;
  se_sent : messages_sent s' = messages_sent s;
  se_max : max_skip s' = max_skip s;
  se_keys : forall q z, q <> pub -> skipped_message_keys s' !! (q, z) = skipped_message_keys s !! (q, z)
}.

(** Using up an outstanding key. *)
Lemma recv_rep_old k pub room s w n :
  recv_rep k pub room s w -> n ∈ Window.missing w ->
  recv_rep k pub room (set_skipped (delete (pub, Z.of_nat n) (skipped_message_keys s)) s)
    (Window.mk (Window.next w) (Window.missing w ∖ {[n]})).
Proof.
  intros [Hc Hr Hk Hw Hn Hro Hb Hm] Hin.
  assert (Hs : (size (Window.missing w ∖ {[n]}) + 1 = size (Window.missing w))%nat).
  { rewrite size_difference by set_solver. rewrite size_singleton.
    pose proof (size_non_empty_iff (Window.missing w)) as [_ H].
    assert (size (Window.missing w) <> 0)%nat by (apply H; set_solver). lia. }
  assert (Hd : (size (delete (pub, Z.of_nat n) (skipped_message_keys s)) + 1
                = size (skipped_message_keys s))%nat).
  { specialize (Hk n). rewrite bool_decide_eq_true_2 in Hk by done.
    rewrite map_size_delete, Hk. simpl.
    assert (size (skipped_message_keys s) <> 0)%nat by (eapply map_size_ne_0_lookup_2; eauto). lia. }
  split; simpl; try done.
  - intros j. destruct (decide (j = n)) as [->|Hj].
    + rewrite lookup_delete_eq, bool_decide_eq_false_2 by set_solver. done.
    + rewrite lookup_delete_ne by (intros [=]; lia). rewrite Hk.
      destruct (decide (j ∈ Window.missing w));
        [rewrite !bool_decide_eq_true_2 by set_solver | rewrite !bool_decide_eq_false_2 by set_solver]; done.
  - intros j Hj. apply Hw. set_solver.
  - unfold skipped_keys_count in *. simpl. lia.
  - unfold skipped_bounded, skipped_keys_count in *. simpl. lia.
Qed.

(** Passing over [d] messages and taking the next. *)
Lemma recv_rep_new k pub room s w ck d :
  recv_rep k pub room s w -> receiving_chain s = Some ck ->
  Z.of_nat (Window.next w + d) < DEFAULT_MAX_MESSAGES ->
  Z.of_nat (size (Window.missing w)) + Z.of_nat d <= room ->
  recv_rep k pub room
    (set_skipped (delete (pub, Z.of_nat (Window.next w + d))
                    (store_keys k pub (Window.next w) d (skipped_message_keys s)))
       (set_receiving_chain (Some (chain_to k ck (S (Window.next w + d)))) s))
    (Window.mk (S (Window.next w + d)) (Window.missing w ∪ set_seq (Window.next w) d)).
Proof.
  intros [Hc Hr Hk Hw Hn Hro Hb Hm] Hrc Hlt Hroom.
  destruct Hc as (ck0 & E0 & Hrep & Hmx). assert (ck0 = ck) as -> by congruence.
  assert (Hfr : forall j, (Window.next w <= j)%nat -> skipped_message_keys s !! (pub, Z.of_nat j) = None).
  { intros j Hj. rewrite Hk, bool_decide_eq_false_2; [done|]. intros Hin. apply Hw in Hin. lia. }
  assert (Hs : size (Window.missing w ∪ set_seq (Window.next w) d)
               = (size (Window.missing w) + d)%nat).
  { rewrite size_union, size_set_seq; [done|]. intros j Hj Hq. apply Hw in Hj.
    apply elem_of_set_seq in Hq. lia. }
  assert (Hd : delete (pub, Z.of_nat (Window.next w + d))
                 (store_keys k pub (Window.next w) d (skipped_message_keys s))
               = store_keys k pub (Window.next w) d (skipped_message_keys s)).
  { apply delete_id. rewrite store_keys_lookup, bool_decide_eq_false_2 by lia. apply Hfr. lia. }
  rewrite Hd. split; simpl; try done.
  - eexists. split; [done|]. split; [|done]. destruct Hrep as (_ & _ & Hu). repeat split; done.
  - intros j. rewrite store_keys_lookup, Hk.
    destruct (decide (Window.next w <= j < Window.next w + d)%nat) as [Hj|Hj].
    + rewrite !bool_decide_eq_true_2; [done| |done]. apply elem_of_union. right.
      by apply elem_of_set_seq.
    + rewrite (bool_decide_eq_false_2 _ Hj).
      destruct (decide (j ∈ Window.missing w)) as [Hin|Hin].
      * rewrite !bool_decide_eq_true_2 by set_solver. done.
      * rewrite !bool_decide_eq_false_2; [done| |done].
        rewrite elem_of_union, elem_of_set_seq. tauto.
  - intros j. simpl. rewrite elem_of_union, elem_of_set_seq. intros [Hj|]; [apply Hw in Hj|]; lia.
  - lia.
  - unfold skipped_keys_count in *. simpl. rewrite store_keys_size by done. lia.
  - unfold skipped_bounded, skipped_keys_count in *. simpl. rewrite store_keys_size by done. lia.
Qed.

(** ** One arrival *)
Section Deliver.
Context (cfg : Config) (k pub : bytes) (room lo hi : Z) (env : Env).
Hypothesis (Hcfg : enable_header_encryption cfg = false).
Hypothesis (Hclock : sane_clock env lo hi).
Hypothesis (Hpub : length pub = 32%nat) (Hnz : all_zero pub = false).

(** What the caller sees. *)
Definition verdict (o : Window.outcome) (pt : bytes) : PResult bytes :=
  match o with
  | Window.Accept _ => Ok pt
  | Window.Replay => Err ProtocolError.ReplayAttackDetected
  | Window.Overflow => Err ProtocolError.MaxSkippedMessagesExceeded
  end.

(** The message key of an arrival is usable, and its number in range. *)
Definition usable (n : nat) : Prop :=
  Z.of_nat n < DEFAULT_MAX_MESSAGES /\ weak_key (message_key_at k n) = false.

(** Parsing and header validation of a genuine message. *)
Lemma genuine_parses pcl n pt ad data s c :
  genuine k pub pcl n lo hi pt ad data -> usable n ->
  exists h ct ts c', header_validate h env c = (Ok tt, c') /\
    decrypt cfg data ad env s c =
      (match skipped_message_keys s !! (pub, Z.of_nat n) with
       | Some mk => decrypt_with_key mk ct ad h (pub, Z.of_nat n)
       | None =>
           let! (plaintext, state_clone) := lift (run_on (decrypt_trial (mkRatchetMessage h ct) ad) s) in
           let! _ := put state_clone in
           let! received := res (or_panic (u_add U64_MAX (messages_received state_clone) 1)) in
           let! _ := modify (set_messages_received received) in
           ret plaintext
       end) env s c' /\
    timely lo hi ts /\ sealed_as (message_key_at k n) pt (ad ++ header_to_bytes h) 0 ts ct /\
    dh_public h = pub /\ h_message_number h = Z.of_nat n /\ previous_chain_length h = pcl.
Proof.
  intros (ts1 & ts2 & ct & Hp & Ht1 & Ht2 & Hs & ->) [Hn _].
  set (h := mkRatchetHeader pub (Z.of_nat n) pcl ts1) in *.
  pose proof (sealed_as_len _ _ _ _ _ _ Hs) as Hlen. pose proof (len_nonneg pt).
  pose proof (timely_u64 _ _ _ _ Hclock Ht1) as Hu1.
  assert (Hwf : wf_header h).
  { repeat split; simpl; try done; try (apply Hp || apply Hu1); [lia|].
    unfold DEFAULT_MAX_MESSAGES, U64_MAX in *. lia. }
  destruct Hclock as (Hc & Hlo & Hhi). destruct Ht1 as [Ht1a Ht1b].
  destruct (header_validate_ok h env c lo hi) as (c' & Hv); simpl; try done; try lia.
  { unfold DEFAULT_MAX_MESSAGES in *. lia. }
  exists h, ct, ts2, c'. split; [done|]. split; [|done].
  unfold decrypt. destruct (Z.ltb_spec (len (message_to_bytes (mkRatchetMessage h ct))) (48 + 29)) as [Hx|_].
  { unfold message_to_bytes in Hx. simpl in Hx. rewrite len_app in Hx.
    unfold len in *. rewrite length_header_to_bytes in Hx by done. lia. }
  unfold bind at 1, get at 1. cbv iota beta. unfold bind at 1, res at 1.
  unfold parse_message. rewrite Hcfg. simpl andb. cbv iota.
  rewrite message_roundtrip by (simpl; done || lia). simpl header. simpl ciphertext.
  rewrite (bind_ok _ _ _ _ _ _ _ _ (lift_ok _ _ _ _ _ _ Hv)). done.
Qed.

(** Taking the next key of a chain that stands at the message's number. *)
Lemma receive_next_ok n pt ad h ct ts s ck c :
  receiving_chain s = Some ck -> chain_rep k n ck -> Z.of_nat n < ck_max_messages ck ->
  weak_key (message_key_at k n) = false -> timely lo hi ts ->
  sealed_as (message_key_at k n) pt (ad ++ header_to_bytes h) 0 ts ct ->
  dh_public h = pub -> h_message_number h = Z.of_nat n ->
  exists t c', receive_next (mkRatchetMessage h ct) ad env s c =
    (Ok pt, set_last_activity t
              (set_skipped (delete (pub, Z.of_nat n) (skipped_message_keys s))
                (set_receiving_chain (Some (chain_to k ck (S n))) s)), c').
Proof.
  intros Hrc Hr Hm Hw Ht Hs Hd Hn. unfold receive_next, bind at 1, get at 1. cbv iota beta.
  unfold bind at 1, res at 1. rewrite Hrc. cbn [ok_or header ciphertext]. rewrite Hn, Hd.
  replace (ck_index ck) with (Z.of_nat n) by (symmetry; apply Hr). rewrite Z.ltb_irrefl.
  destruct (next_message_key_to k n ck Hr Hm) as [-> _].
  unfold bind at 1, modify at 1. cbv iota beta. unfold bind at 1, res at 1. cbn [ok_or].
  destruct (decrypt_with_key_ok (message_key_at k n) pt ad h (pub, Z.of_nat n) ts ct env
    (set_receiving_chain (Some (chain_to k ck (S n))) s) c lo hi) as (c1 & E);
    [done | done | apply hmac_len | done | done |].
  rewrite (bind_ok _ _ _ _ _ _ _ _ E).
  unfold touch, bind, get, lift, modify, ret.
  destruct (clock_in_timestamp_or (E := ProtocolError.t) env lo hi c1 (last_activity s))
    as (t & c2 & E2 & _); [apply Hclock|]. cbn [last_activity set_skipped set_receiving_chain].
  rewrite E2. eauto.
Qed.

Lemma receive_next_replay m ad s ck c :
  receiving_chain s = Some ck -> h_message_number (header m) < ck_index ck ->
  receive_next m ad env s c = (Err ProtocolError.ReplayAttackDetected, s, c).
Proof.
  intros Hrc Hn. unfold receive_next, bind at 1, get at 1. cbv iota beta.
  unfold bind at 1, res at 1. rewrite Hrc. cbn [ok_or].
  destruct (Z.ltb_spec (h_message_number (header m)) (ck_index ck)); [done|lia].
Qed.

Lemma ratchet_if_new_same h s c :
  dh_remote s = Some (dh_public h) -> ratchet_if_new h env s c = (Ok tt, s, c).
Proof.
  intros Hr. unfold ratchet_if_new, bind at 1, get. cbv iota beta.
  by rewrite Hr, constant_time_eq_refl.
Qed.

(** The trial on a message of the current chain that is not outstanding. *)
Lemma trial_same_chain w n pt ad h ct ts s c :
  recv_rep k pub room s w -> usable n -> n ∉ Window.missing w ->
  timely lo hi ts -> sealed_as (message_key_at k n) pt (ad ++ header_to_bytes h) 0 ts ct ->
  dh_public h = pub -> h_message_number h = Z.of_nat n ->
  match Window.deliver room w n with
  | Window.Accept w' => exists s' c',
      decrypt_trial (mkRatchetMessage h ct) ad env s c = (Ok pt, s', c') /\
      recv_rep k pub room s' w' /\ messages_received s' = messages_received s /\
      same_elsewhere pub s s'
  | o => exists s' c', decrypt_trial (mkRatchetMessage h ct) ad env s c = (verdict o pt, s', c')
  end.
Proof.
  intros Hrep [Hn Hwk] Hmiss Ht Hs Hd Hnum.
  pose proof Hrep as [(ck & Hrc & Hcr & Hmx) Hr Hk Hw Hnx Hro Hb Hm].
  assert (Hfr : forall j, (Window.next w <= j)%nat -> skipped_message_keys s !! (pub, Z.of_nat j) = None).
  { intros j Hj. rewrite Hk, bool_decide_eq_false_2; [done|]. intros Hin. apply Hw in Hin. lia. }
  pose proof (skip_message_keys_run k pub env (Window.next w) ck s c n Hrc Hcr Hr
    ltac:(lia) Hfr Hb ltac:(lia)) as Hskip.
  unfold Window.deliver. rewrite (bool_decide_eq_false_2 _ Hmiss).
  unfold decrypt_trial. cbn [header]. rewrite <- Hd in Hr.
  rewrite !(bind_ok _ _ _ _ _ _ _ _ (ratchet_if_new_same h s c Hr)), Hnum.
  destruct (decide (n < Window.next w)%nat) as [Hlt|Hge].
  - rewrite (bool_decide_eq_true_2 _ Hlt). rewrite bool_decide_eq_true_2 in Hskip by lia.
    rewrite (bind_ok _ _ _ _ _ _ _ _ Hskip). eexists _, _. eapply receive_next_replay; [done|].
    cbn [header]. destruct Hcr as (_ & -> & _). lia.
  - rewrite (bool_decide_eq_false_2 _ Hge).
    remember (n - Window.next w)%nat as d eqn:Ed.
    assert (n = Window.next w + d)%nat as -> by lia. 
    assert (Heq : Z.of_nat (size (Window.missing w)) + Z.of_nat d <=? room
                  = (skipped_keys_count s + Z.of_nat d <=? max_skip s)).
    { destruct (Z.leb_spec (skipped_keys_count s + Z.of_nat d) (max_skip s));
        [apply Z.leb_le | apply Z.leb_gt]; lia. }
    rewrite Heq. rewrite bool_decide_eq_false_2 in Hskip by lia. 
    destruct (Z.leb_spec (skipped_keys_count s + Z.of_nat d) (max_skip s)) as [Hcap|].
    + rewrite (bind_ok _ _ _ _ _ _ _ _ Hskip).
      destruct (receive_next_ok (Window.next w + d) pt ad h ct ts
        (skipped_to k pub ck (Window.next w) d s) (chain_to k ck (Window.next w + d)) c)
        as (t & c' & E); try done.
      { destruct Hcr as (_ & _ & ?). repeat split; done. }
      { simpl. lia. }
      eexists _, _. split; [exact E|]. rewrite Hd in Hr. split; [|split; [done|]].
      { eapply recv_rep_frame; [..|apply (recv_rep_new k pub room s w ck d); try done; lia]; done. }
      split; try done. intros q z Hq. simpl. rewrite lookup_delete_ne by congruence.
      by apply store_keys_other.
    + destruct Hskip as (s' & Hskip). rewrite (bind_err _ _ _ _ _ _ _ _ Hskip). eauto.
Qed.

(** One arrival: [decrypt] does what the window does. *)
Lemma decrypt_deliver w pcl n pt ad data s c :
  recv_rep k pub room s w -> messages_received s < U64_MAX ->
  genuine k pub pcl n lo hi pt ad data -> usable n ->
  exists s' c', decrypt cfg data ad env s c = (verdict (Window.deliver room w n) pt, s', c') /\
    recv_rep k pub room s' (Window.after w (Window.deliver room w n)) /\
    messages_received s' <= messages_received s + 1 /\ same_elsewhere pub s s'.
Proof.
  intros Hrep Hmr Hg Hu. 
  destruct (genuine_parses pcl n pt ad data s c Hg Hu)
    as (h & ct & ts & c1 & _ & -> & Ht & Hs & Hd & Hnum & _).
  rewrite (rr_keys _ _ _ _ _ Hrep n).
  destruct (decide (n ∈ Window.missing w)) as [Hin|Hout].
  - rewrite bool_decide_eq_true_2 by done.
    destruct (decrypt_with_key_ok (message_key_at k n) pt ad h (pub, Z.of_nat n) ts ct env s c1 lo hi)
      as (c2 & ->); [done | done | apply hmac_len | apply Hu | done |].
    unfold Window.deliver. rewrite bool_decide_eq_true_2 by done.
    eexists _, _. split; [done|]. split; [by apply recv_rep_old|]. split; [simpl; lia|].
    split; try done. intros q z Hq. simpl. by rewrite lookup_delete_ne by congruence.
  - rewrite bool_decide_eq_false_2 by done.
    pose proof (trial_same_chain w n pt ad h ct ts s c1 Hrep Hu Hout Ht Hs Hd Hnum) as Htr.
    unfold bind at 1, lift at 1, run_on. destruct (Window.deliver room w n) as [w'| |].
    + destruct Htr as (s' & c' & -> & Hrep' & Hmr' & []). unfold bind, put, res, modify, ret.
      rewrite u_add_ok by lia. eexists _, _. split; [done|]. simpl. split; [|by split; [lia|]].
      by eapply recv_rep_frame; [..|exact Hrep'].
    + destruct Htr as (s' & c' & ->). simpl. eexists _, _. split; [done|]. by split; [done|split; [lia|]].
    + destruct Htr as (s' & c' & ->). simpl. eexists _, _. split; [done|]. by split; [done|split; [lia|]].
Qed.

End Deliver.

(** ** Sequences of arrivals *)

(** An arrival: message number, plaintext, associated data, bytes, and the
    environment the call runs in, whose clock stays in [a_lo .. a_hi]. *)
Record arrival := mkArrival {
  a_num : nat; a_pt : bytes; a_ad : bytes; a_data : bytes;
  a_env : Env; a_ctr : Ctr; a_lo : Z; a_hi : Z
}.

(** [decrypt] on each arrival in turn: the results and the final state. *)
Fixpoint decrypt_all (cfg : Config) (l : list arrival) (s : DoubleRatchetState)
    : list (PResult bytes) * DoubleRatchetState :=
  match l with
  | [] => ([], s)
  | a :: l =>
      let '(r, s, _) := decrypt cfg (a_data a) (a_ad a) (a_env a) s (a_ctr a) in
      let '(rs, s) := decrypt_all cfg l s in (r :: rs, s)
  end.

(** The arrival is a message of the chain, and timely. *)
Definition arrives (k pub : bytes) (a : arrival) : Prop :=
  sane_clock (a_env a) (a_lo a) (a_hi a) /\ usable k (a_num a) /\
  exists pcl, genuine k pub pcl (a_num a) (a_lo a) (a_hi a) (a_pt a) (a_ad a) (a_data a).

Section Arrivals.
Context (cfg : Config) (k pub : bytes) (room : Z).
Hypothesis (Hcfg : enable_header_encryption cfg = false).
Hypothesis (Hpub : length pub = 32%nat) (Hnz : all_zero pub = false).

Lemma decrypt_all_trace l : forall w s,
  recv_rep k pub room s w -> messages_received s + len l <= U64_MAX -> Forall (arrives k pub) l ->
  exists s', decrypt_all cfg l s =
    (zip_with verdict (Window.trace room w (map a_num l)) (map a_pt l), s').
Proof.
  induction l as [|a l IH]; intros w s Hrep Hmr Hl; cbn [map decrypt_all]; [by eauto|].
  apply Forall_cons in Hl as [(Hc & Hu & (pcl & Hg)) Hl].
  assert (Hlen : len (a :: l) = len l + 1) by (unfold len; simpl; lia).
  pose proof (len_nonneg l).
  destruct (decrypt_deliver cfg k pub room (a_lo a) (a_hi a) (a_env a) Hcfg Hc Hpub Hnz w pcl
    (a_num a) (a_pt a) (a_ad a) (a_data a) s (a_ctr a) Hrep) as (s1 & c1 & -> & Hrep1 & Hmr1 & _);
    [lia | done | done |].
  destruct (IH _ s1 Hrep1) as (s2 & ->); [lia | done |]. by eauto.
Qed.

(** The trace of a sequence that is accepted throughout, then repeated. *)
Lemma trace_accepted l2 w2 : forall l1 w1, Window.deliver_all room w1 l1 = Some w2 ->
  exists os, Window.trace room w1 (l1 ++ l2) = os ++ Window.trace room w2 l2 /\
    Forall2 (fun o (_ : nat) => exists w, o = Window.Accept w) os l1.
Proof.
  induction l1 as [|n l1 IH]; intros w1; simpl; [intros [= ->]; exists []; by split|].
  destruct (Window.deliver room w1 n) as [w'| |] eqn:E; try done. intros H.
  destruct (IH _ H) as (os & Et & Hf). exists (Window.Accept w' :: os). simpl. rewrite Et.
  split; [done|]. constructor; [by eexists | done].
Qed.

Lemma trace_replayed l w :
  (forall n, n ∈ l -> Window.seen w n) -> Window.trace room w l = replicate (length l) Window.Replay.
Proof.
  induction l as [|n l IH]; intros Hs; simpl; [done|].
  rewrite (Window.deliver_replay room w n) by (apply Hs; by left). simpl. f_equal.
  apply IH. intros m Hm. apply Hs. by right.
Qed.

(** C3: the receiving side refines the delivery window.  Take, in a session with
    plain headers (header encryption off), any sequence of messages of one
    chain, in any order, with losses and duplicates, each call in an environment
    of its own whose clock finds the message current, and none with a weak key
    or a number beyond the length of the chain: the results of [decrypt] are,
    call by call, those of [Window]: the plaintext the first time a number
    within reach arrives, [ReplayAttackDetected] for a number already accepted,
    [MaxSkippedMessagesExceeded] when too many numbers would be outstanding. *)
Theorem receive_refines_window l w s :
  recv_rep k pub room s w -> messages_received s + len l <= U64_MAX -> Forall (arrives k pub) l ->
  fst (decrypt_all cfg l s) = zip_with verdict (Window.trace room w (map a_num l)) (map a_pt l).
Proof. intros H1 H2 H3. by destruct (decrypt_all_trace l w s H1 H2 H3) as (s' & ->). Qed.

(** Every message once, in any order: of a chain at its start with [room]
    free places, any sequence of distinct messages numbered below [room] is
    accepted completely, whatever the order; and each of them, delivered again
    afterwards, is rejected as a replay. *)
Lemma decrypt_all_any_order l again s :
  recv_rep k pub room s Window.init -> messages_received s + len (l ++ again) <= U64_MAX ->
  Forall (arrives k pub) l -> Forall (arrives k pub) again ->
  base.NoDup (map a_num l) -> Forall (fun a => Z.of_nat (a_num a) < room) l ->
  Forall (fun a => a_num a ∈ map a_num l) again ->
  fst (decrypt_all cfg (l ++ again) s) =
    map (fun a => Ok (a_pt a)) l ++ replicate (length again) (Err ProtocolError.ReplayAttackDetected).
Proof.
  intros Hrep Hmr Hl Ha Hnd Hroom Hag.
  destruct (decrypt_all_trace (l ++ again) Window.init s Hrep Hmr) as (s' & ->);
    [by apply Forall_app|]. simpl fst.
  destruct (Window.deliver_all_fresh room (map a_num l) Window.init) as (w & Ew & Hwf & Hseen).
  { intros j Hj. set_solver. }
  { done. }
  { intros n Hn. split; [intros [? _]; simpl in *; lia|]. apply list_elem_of_fmap in Hn as (a & -> & Hin).
    by eapply Forall_forall in Hroom. }
  { simpl. lia. }
  rewrite !map_app. destruct (trace_accepted (map a_num again) w _ _ Ew) as (os & -> & Hos).
  rewrite trace_replayed.
  2: { intros n Hn. apply Hseen. right. apply list_elem_of_fmap in Hn as (a & -> & Hin).
       by eapply (proj1 (Forall_forall _ _) Hag). }
  rewrite zip_with_app by (apply Forall2_length in Hos; by rewrite !length_map in *).
  f_equal.
  - clear -Hos. revert os Hos. induction l as [|a l IH]; intros os Hos; inversion Hos as [|? ? ? ? [w ->]];
      subst; simpl; [done|]. f_equal. by apply IH.
  - rewrite !length_map. clear. induction again as [|a l IH]; simpl; [done|]. by f_equal.
Qed.

End Arrivals.
End Receive.
