(* ===== verification/SessionSend.v ===== *)
(** * The sending side, and conversations end to end

    A sending chain yields the messages [genuine] describes, in order; two
    sessions of the same shared secret agree on the chain; so a conversation
    of any arrival order goes through [Window]. *)

From S2P Require Import Prelude Effects Errors Primitives Compare Random Validation Padding Kdf Handler Encryptor Chain Message RatchetState Session SessionInvariant SessionReceive.
#[local] Open Scope Z_scope.
#[local] Open Scope sibna_scope.

Section Send.
Context {P : Primitives} {L : PrimitiveLaws P}.
Context (cfg : Config) (env : Env) (lo hi rlo rhi : Z).
Hypothesis (Hcfg : enable_header_encryption cfg = false).
Hypothesis (Hclock : sane_clock env lo hi) (Hrng : rng_healthy env) (Hshort : hi <= lo + 300).
(** The receiver's clock window, close enough to the sender's. *)
Hypothesis (Hskew : hi <= rlo + 30) (Hage : rhi <= lo + 86400).

(** A session that has sent [n] messages on the chain of [k] with DH secret [sk]. *)
Record sending (k sk : bytes) (n : nat) (s : DoubleRatchetState) : Prop := {
  sg_chain : exists ck, sending_chain s = Some ck /\ chain_rep k n ck /\
    ck_max_messages ck = DEFAULT_MAX_MESSAGES /\ ck_reserved_until ck = DEFAULT_MAX_MESSAGES;
  sg_local : dh_local s = Some sk;
  sg_prev : is_u64 (previous_counter s);
  sg_sent : 0 <= messages_sent s < U64_MAX
}.

(** ... and whose chain stays young enough in this environment. *)
Record send_rep (k sk : bytes) (n : nat) (s : DoubleRatchetState) : Prop := {
  sr_chain : exists ck, sending_chain s = Some ck /\ chain_rep k n ck /\
    ck_max_messages ck = DEFAULT_MAX_MESSAGES /\ ck_reserved_until ck = DEFAULT_MAX_MESSAGES /\
    hi <= ck_created_at ck + 86400;
  sr_local : dh_local s = Some sk;
  sr_prev : is_u64 (previous_counter s);
  sr_sent : 0 <= messages_sent s < U64_MAX
}.

Lemma needs_rotation_no ck c :
  ck_index ck < ck_max_messages ck -> hi <= ck_created_at ck + 86400 ->
  exists c', needs_rotation (E := ProtocolError.t) ck env c = (Ok false, c').
Proof.
  intros Hi Ha. unfold needs_rotation. destruct (Z.leb_spec (ck_max_messages ck) (ck_index ck)); [lia|].
  destruct (clock_in_timestamp_or (E := ProtocolError.t) env lo hi c (ck_created_at ck))
    as (t & c' & E & Ht); [apply Hclock|].
  unfold age_secs, io_bind. rewrite E. unfold io_ret.
  destruct (Z.ltb_spec 86400 (sat_sub t (ck_created_at ck))) as [H1|]; [unfold sat_sub in H1; lia|].
  eauto.
Qed.

(** The encryptor of one message key, and the width of a header. *)
Lemma key_encryptor k n :
  usable k n ->
  Encryptor_new (message_key_at k n) 0 = Ok (mkEncryptor (message_key_at k n) 0 0 ∅ 100000).
Proof.
  intros [_ Hwk]. apply Encryptor_new_ok. unfold len, message_key_at at 1. by rewrite hmac_len.
Qed.

Lemma len_header sk n p t : length sk = 32%nat ->
  len (header_to_bytes (mkRatchetHeader (x25519_public sk) n p t)) = 56.
Proof.
  intros H. unfold header_to_bytes, len. simpl dh_public.
  rewrite !length_app, !length_to_le, x25519_public_len by done. lia.
Qed.

Lemma encrypt_split pt ad s c :
  1 <= len pt <= limits.MAX_MESSAGE_SIZE -> len ad <= limits.MAX_AD_LEN - 56 ->
  encrypt cfg pt ad env s c =
  (let! rotated := lift (match sending_chain s with Some c => needs_rotation c | None => io_ret true end) in
   let! _ := (if rotated then perform_dh_ratchet else ret tt) in
   seal_next cfg pt ad rotated) env s c.
Proof.
  intros Hpt Had. unfold encrypt. unfold bind at 1, res at 1.
  rewrite (proj2 (validate_message_for_encrypt_ok pt)) by lia. cbn [map_err].
  unfold bind at 1, res at 1.
  rewrite (proj2 (validate_associated_data_ok ad)) by (unfold limits.MAX_AD_LEN in *; lia). done.
Qed.

(** What sealing message [n] leaves. *)
Record sealed_from (k sk : bytes) (n : nat) (s : DoubleRatchetState) (pt ad data : bytes)
    (s' : DoubleRatchetState) : Prop := {
  sf_genuine : genuine k (x25519_public sk) (previous_counter s) n rlo rhi pt ad data;
  sf_chain : sending_chain s' = option_map (fun ck => chain_to k ck (S n)) (sending_chain s);
  sf_sent : messages_sent s' = messages_sent s + 1;
  sf_local : dh_local s' = dh_local s;
  sf_previous : previous_counter s' = previous_counter s;
  sf_root : root_key s' = root_key s;
  sf_remote : dh_remote s' = dh_remote s;
  sf_receiving : receiving_chain s' = receiving_chain s;
  sf_keys : skipped_message_keys s' = skipped_message_keys s;
  sf_max : max_skip s' = max_skip s;
  sf_received : messages_received s' = messages_received s
}.

(** Sealing message [n] either fails, or the key was usable, the DH key not
    zero, and the bytes are the chain's message [n]. *)
Lemma seal_next_run k sk n s c pt ad rotated :
  sending k sk n s -> Z.of_nat n < DEFAULT_MAX_MESSAGES -> length sk = 32%nat ->
  1 <= len pt <= limits.MAX_MESSAGE_SIZE -> len ad <= limits.MAX_AD_LEN - 56 ->
  if all_zero (x25519_public sk) || weak_key (message_key_at k n)
  then exists e s' c', seal_next cfg pt ad rotated env s c = (Err e, s', c')
  else exists data s' c', seal_next cfg pt ad rotated env s c = (Ok data, s', c') /\
    sealed_from k sk n s pt ad data s'.
Proof.
  intros [(ck & Hsc & Hcr & Hmx & Hrs) Hl Hpv Hms] Hn Hskl Hpt Had.
  pose proof Hclock as (Hc & Hlo & Hhi). assert (Hidx : ck_index ck = Z.of_nat n) by apply Hcr.
  remember (seal_next cfg pt ad rotated env s c) as r eqn:Er. unfold seal_next in Er.
  unfold bind at 1, get at 1 in Er. cbv iota beta in Er. rewrite Hl, Hsc in Er. cbn [option_map ok_or] in Er.
  unfold bind at 1, res at 1 in Er. cbv iota beta in Er. unfold bind at 1, res at 1 in Er. cbv iota beta in Er.
  unfold bind at 1, res at 1 in Er. cbn [derive_header_key ok_or] in Er. rewrite Hrs, Hidx in Er.
  destruct (Z.leb_spec DEFAULT_MAX_MESSAGES (Z.of_nat n)); [lia|].
  rewrite (proj1 (next_message_key_to k n ck Hcr ltac:(lia))) in Er.
  unfold bind at 1, modify at 1 in Er. cbv iota beta in Er. unfold bind at 1, res at 1 in Er. cbn [ok_or] in Er.
  unfold bind at 1, lift at 1, read_secs in Er.
  destruct (clock_in_secs env lo hi (c_clock c) Hc) as (ts1 & Ets & Hts1). rewrite Ets in Er. cbv iota beta in Er.
  unfold bind at 1, res at 1 in Er. cbn [ok_or] in Er. unfold bind at 1, res at 1 in Er.
  rewrite u_sub_ok in Er by (simpl; lia). cbn [or_panic] in Er.
  replace (ck_index (chain_to k ck (S n)) - 1) with (Z.of_nat n) in Er by (simpl; lia).
  set (h := mkRatchetHeader (x25519_public sk) (Z.of_nat n) (previous_counter s) ts1) in *.
  set (c2 := mkCtr _ _ _) in *.
  destruct (all_zero (x25519_public sk)) eqn:Hnz; cbn [orb].
  { unfold bind, lift at 1, header_validate in Er. cbn [dh_public h] in Er. rewrite Hnz in Er. subst r. by eauto. }
  destruct (header_validate_ok h env c2 lo hi) as (c3 & E3); try done; try (simpl; lia).
  { simpl. unfold DEFAULT_MAX_MESSAGES in *. lia. }
  rewrite (bind_ok _ _ _ _ _ _ _ _ (lift_ok _ _ _ _ _ _ E3)) in Er.
  unfold bind at 1, crypto, res at 1 in Er.
  destruct (weak_key (message_key_at k n)) eqn:Hwk.
  { destruct (Encryptor_new (message_key_at k n) 0) as [en|e|] eqn:En.
    - apply Encryptor_new_ok in En. destruct En as (_ & ? & _). congruence.
    - subst r. by eauto.
    - revert En. unfold Encryptor_new. by repeat case_match. }
  rewrite (key_encryptor k n (conj Hn Hwk)) in Er. cbn [map_err] in Er.
  pose proof (len_header sk (Z.of_nat n) (previous_counter s) ts1 Hskl) as Hhl. fold h in Hhl.
  destruct (encrypt_message_ok pt (ad ++ header_to_bytes h) env
    (mkEncryptor (message_key_at k n) 0 0 ∅ 100000) c3 lo hi) as (ct & en & c4 & E4);
    [done | done | done | rewrite len_app; unfold limits.MAX_AD_LEN in *; lia |].
  pose proof (encrypt_message_inv _ _ _ _ _ _ _ _ E4) as (_ & _ & _ & i & ns & Ei & Hs).
  unfold bind at 1, lift at 1, io_map_err, run_on in Er. rewrite E4 in Er. cbn [map_err] in Er.
  unfold bind at 1, touch, bind, get at 1, lift in Er.
  destruct (clock_in_timestamp_or (E := ProtocolError.t) env lo hi c4 (last_activity s))
    as (t & c5 & E5 & _); [done|]. cbn [last_activity set_sending_chain] in Er. rewrite E5 in Er.
  unfold modify at 1, get, res in Er. cbn [messages_sent set_last_activity set_sending_chain] in Er.
  rewrite u_add_ok in Er by lia. cbn [or_panic] in Er. rewrite Hcfg in Er. cbn [andb] in Er.
  unfold modify, ret in Er. subst r. eexists _, _, _. split; [reflexivity|].
  split; try done; [|by rewrite Hsc].
  destruct (Hc i) as (ns' & Ei' & Hns). assert (ns' = ns) as -> by congruence.
  exists ts1, (ns / NANOS), ct. repeat split; try lia; try apply Hpv; done.
Qed.

(** Sending on the chain in place. *)
Lemma encrypt_on_chain k sk n s c pt ad :
  send_rep k sk n s -> Z.of_nat n < DEFAULT_MAX_MESSAGES ->
  1 <= len pt <= limits.MAX_MESSAGE_SIZE -> len ad <= limits.MAX_AD_LEN - 56 ->
  exists c1, encrypt cfg pt ad env s c = seal_next cfg pt ad false env s c1.
Proof.
  intros [(ck & Hsc & Hcr & Hmx & Hrs & Hcre) _ _ _] Hn Hpt Had. rewrite encrypt_split, Hsc by done.
  destruct (needs_rotation_no ck c) as (c1 & E1); [destruct Hcr as (_ & -> & _); lia | done |].
  rewrite (bind_ok _ _ _ _ _ _ _ _ (lift_ok _ _ _ _ _ _ E1)). by exists c1.
Qed.

Lemma send_rep_sending k sk n s : send_rep k sk n s -> sending k sk n s.
Proof. intros [(ck & ? & ? & ? & ? & _) ? ? ?]. split; try done. by exists ck. Qed.

(** Sending message [n]: the bytes are the chain's message [n], and the chain moves on. *)
Lemma encrypt_sends k sk n s c pt ad :
  send_rep k sk n s -> usable k n -> length sk = 32%nat -> all_zero (x25519_public sk) = false ->
  1 <= len pt <= limits.MAX_MESSAGE_SIZE -> len ad <= limits.MAX_AD_LEN - 56 ->
  exists data s' c', encrypt cfg pt ad env s c = (Ok data, s', c') /\
    genuine k (x25519_public sk) (previous_counter s) n rlo rhi pt ad data /\
    sending_chain s' = option_map (fun ck => chain_to k ck (S n)) (sending_chain s) /\
    dh_local s' = dh_local s /\ previous_counter s' = previous_counter s /\
    messages_sent s' = messages_sent s + 1.
Proof.
  intros Hs [Hn Hwk] Hskl Hnz Hpt Had.
  destruct (encrypt_on_chain k sk n s c pt ad Hs Hn Hpt Had) as (c1 & ->).
  pose proof (seal_next_run k sk n s c1 pt ad false (send_rep_sending _ _ _ _ Hs) Hn Hskl Hpt Had) as Hr.
  rewrite Hnz, Hwk in Hr. destruct Hr as (data & s' & c' & E & []). by exists data, s', c'.
Qed.

(** The chain after sending. *)
Lemma send_rep_next k sk n s s' :
  send_rep k sk n s -> sending_chain s' = option_map (fun ck => chain_to k ck (S n)) (sending_chain s) ->
  dh_local s' = dh_local s -> previous_counter s' = previous_counter s ->
  messages_sent s' = messages_sent s + 1 -> messages_sent s' < U64_MAX -> send_rep k sk (S n) s'.
Proof.
  intros [(ck & Hsc & Hcr & Hmx & Hrs & Hcre) Hl Hpv Hms] E1 E2 E3 E4 Hlt.
  split; [|by rewrite E2|by rewrite E3|lia].
  exists (chain_to k ck (S n)). rewrite E1, Hsc. destruct Hcr as (_ & _ & ?). done.
Qed.

(** Sending one message after the other. *)
Fixpoint encrypt_all (l : list (bytes * bytes)) (s : DoubleRatchetState) (c : Ctr)
    : list (PResult bytes) * DoubleRatchetState * Ctr :=
  match l with
  | [] => ([], s, c)
  | (pt, ad) :: l =>
      let '(r, s, c) := encrypt cfg pt ad env s c in
      let '(rs, s, c) := encrypt_all l s c in (r :: rs, s, c)
  end.

(** A plaintext and associated data [encrypt] takes. *)
Definition sendable (x : bytes * bytes) : Prop :=
  1 <= len x.1 <= limits.MAX_MESSAGE_SIZE /\ len x.2 <= limits.MAX_AD_LEN - 56.

Lemma encrypt_all_sends k sk l : forall n s c,
  send_rep k sk n s -> length sk = 32%nat -> all_zero (x25519_public sk) = false ->
  Forall sendable l -> (forall j, (n <= j < n + length l)%nat -> usable k j) ->
  messages_sent s + len l < U64_MAX ->
  exists datas s' c', encrypt_all l s c = (map Ok datas, s', c') /\ length datas = length l /\
    forall i pt ad data, l !! i = Some (pt, ad) -> datas !! i = Some data ->
      genuine k (x25519_public sk) (previous_counter s) (n + i) rlo rhi pt ad data.
Proof.
  induction l as [|[pt ad] l IH]; intros n s c Hs Hsk Hz Hl Hu Hms; cbn [encrypt_all].
  - exists [], s, c. split; [done|]. split; [done|]. intros i pt ad data. by rewrite lookup_nil.
  - apply Forall_cons in Hl as [[Hpt Had] Hl]. simpl in Hpt, Had.
    assert (Hlen : len ((pt, ad) :: l) = len l + 1) by (unfold len; simpl; lia).
    pose proof (len_nonneg l). simpl length in Hu.
    destruct (encrypt_sends k sk n s c pt ad Hs) as (data & s1 & c1 & -> & Hg & E1 & E2 & E3 & E4);
      [apply Hu; lia | done | done | done | done |].
    destruct (IH (S n) s1 c1) as (datas & s2 & c2 & -> & Hld & Hgs); try done.
    { eapply send_rep_next; try done. lia. }
    { intros j Hj. apply Hu. lia. }
    { lia. }
    exists (data :: datas), s2, c2. split; [done|]. split; [simpl; lia|].
    intros [|i] pt' ad' data'; simpl.
    + intros [= <- <-] [= <-]. by rewrite Nat.add_0_r.
    + intros H1 H2. rewrite <- E3. replace (n + S i)%nat with (S n + i)%nat by lia. by eapply Hgs.
Qed.

End Send.

(** ** Established sessions *)
Section Established.
Context {P : Primitives} {L : PrimitiveLaws P}.

(** The first chain key of the sessions on a shared secret. *)
Definition session_okm (ss : bytes) : bytes :=
  default [] (hkdf_sha256 (Some (bstr "SibnaSession_v3")) ss (bstr "SibnaRootAndChainKey_v3") 64).
Definition session_root (ss : bytes) : bytes := take 32 (session_okm ss).
Definition session_chain (ss : bytes) : bytes := drop 32 (session_okm ss).

(** A chain just created. *)
Definition fresh_chain (key : bytes) (t : Z) : ChainKey :=
  mkChainKey key 0 t DEFAULT_MAX_MESSAGES DEFAULT_MAX_MESSAGES.

Lemma fresh_chain_rep key t : chain_rep key 0 (fresh_chain key t).
Proof. repeat split. vm_compute. discriminate. Qed.

Lemma ChainKey_new_run {E} key env c lo hi :
  clock_in env lo hi -> exists t c', ChainKey_new (E := E) key env c = (Ok (fresh_chain key t), c')
    /\ lo <= t <= hi.
Proof.
  intros Hc. destruct (clock_in_timestamp_or (E := E) env lo hi c 0 Hc) as (t & c' & E1 & Ht).
  exists t, c'. unfold ChainKey_new, io_bind. rewrite E1. done.
Qed.

(** Establishment succeeds, on either side, with the same first chain. *)
Lemma from_shared_secret_ok ss ldh rdh cfg role env c lo hi :
  all_zero ss = false -> clock_in env lo hi -> rng_healthy env ->
  exists t now id c', lo <= t <= hi /\
    from_shared_secret ss ldh rdh cfg role env c =
    (Ok (mkSession
      (mkState (session_root ss)
        (if HandshakeRole.is_initiator role then Some (fresh_chain (session_chain ss) t) else None)
        (if HandshakeRole.is_initiator role then None else Some (fresh_chain (session_chain ss) t))
        (Some ldh) (x25519_public ldh) (Some rdh) (Some rdh) ∅ (max_skipped_messages cfg) 0 now now
        0 0 CURRENT_VERSION) cfg id None now), c').
Proof.
  intros Hz Hc Hr. unfold from_shared_secret. rewrite Hz. unfold session_root, session_chain, session_okm.
  destruct (hkdf_ok (Some (bstr "SibnaSession_v3")) ss (bstr "SibnaRootAndChainKey_v3") 64)
    as (okm & -> & _); [unfold HKDF_MAX; lia|]. cbn [default from_option ok_or].
  unfold io_bind at 1, io_res at 1. cbv iota beta.
  destruct (ChainKey_new_run (E := ProtocolError.t) (drop 32 okm) env c lo hi Hc) as (t & c1 & E1 & Ht).
  unfold io_bind at 1. 
  destruct (fresh_bytes_ok env (mkCtr (S (c_clock c1)) (c_instant c1) (c_os c1)) 16 Hr) as (b & c2 & Eb & _); [lia|].
  destruct (clock_in_secs env lo hi (c_clock c1) Hc) as (now & En & _).
  exists t, now, (hex_encode b), c2. split; [done|].
  destruct role; cbn [HandshakeRole.is_initiator]; unfold io_bind at 1; rewrite E1; unfold io_ret at 1;
    cbv iota beta; unfold io_bind, read_secs, generate_session_id, io_bind, io_map_err, io_res, io_ret;
    rewrite En; cbn [ok_or]; by rewrite Eb.
Qed.

(** The first sending and receiving state, as representations. *)
Lemma established_send ss ldh rdh cfg t now id hi :
  hi <= t + 86400 ->
  send_rep hi (session_chain ss) ldh 0
    (state (mkSession (mkState (session_root ss) (Some (fresh_chain (session_chain ss) t)) None
      (Some ldh) (x25519_public ldh) (Some rdh) (Some rdh) ∅ (max_skipped_messages cfg) 0 now now 0 0
      CURRENT_VERSION) cfg id None now)).
Proof.
  intros Ht. split; simpl; try done; try (unfold in_u, U64_MAX; lia).
  eexists. split; [done|]. by split; [apply fresh_chain_rep|].
Qed.

Lemma established_recv ss ldh rdh cfg t now id :
  0 <= max_skipped_messages cfg <= U64_MAX - DEFAULT_MAX_MESSAGES ->
  recv_rep (session_chain ss) rdh (max_skipped_messages cfg)
    (state (mkSession (mkState (session_root ss) None (Some (fresh_chain (session_chain ss) t))
      (Some ldh) (x25519_public ldh) (Some rdh) (Some rdh) ∅ (max_skipped_messages cfg) 0 now now 0 0
      CURRENT_VERSION) cfg id None now)) Window.init.
Proof.
  intros Hm. split; simpl; try lia; try (unfold skipped_bounded; done || (simpl; lia)).
  - eexists. split; [done|]. by split; [apply fresh_chain_rep|].
  - intros j. simpl. set_solver.
Qed.

(** Reading a list of plaintexts by index. *)
Definition nth_sent (l : list (bytes * bytes)) (i : nat) : bytes * bytes := default ([], []) (l !! i).

(** The arrival of message [i] of a conversation, in [env2]. *)
Definition arrival_of (l : list (bytes * bytes)) (datas : list bytes) (env2 : Env) (rlo rhi : Z)
    (i : nat) : arrival :=
  mkArrival i (nth_sent l i).1 (nth_sent l i).2 (default [] (datas !! i)) env2 ctr0 rlo rhi.

(** C2: a conversation, end to end.  Two sessions with plain headers (header
    encryption off) established on the same non-zero shared secret, the
    initiator's DH key (32 bytes, its public key not all zeros) known to the
    responder.  The initiator sends any list of messages (of 1 byte to 10 MiB,
    with at most 200 bytes of associated data, at most as many as the skip
    limit, within the length of the chain and with message keys that are not
    weak), all within 300 seconds, by a clock at most 30 seconds ahead of the
    responder's, and the responder receives them within a day of the first. 
    Then both constructors and every [encrypt] succeed, and in whatever order
    the messages reach the responder, with any of them lost, [decrypt] returns
    exactly the plaintexts that were sent; and every one that is delivered again
    afterwards is rejected as a replay. *)
Theorem conversation_delivers ss sk1 sk2 cfg env1 env2 lo hi rlo rhi c1 c2 l :
  enable_header_encryption cfg = false ->
  sane_clock env1 lo hi -> rng_healthy env1 -> hi <= lo + 300 ->
  sane_clock env2 rlo rhi -> rng_healthy env2 -> hi <= rlo + 30 -> rhi <= lo + 86400 ->
  all_zero ss = false -> length sk1 = 32%nat -> all_zero (x25519_public sk1) = false ->
  0 <= max_skipped_messages cfg <= U64_MAX - DEFAULT_MAX_MESSAGES ->
  Forall sendable l -> len l <= max_skipped_messages cfg ->
  (forall i, (i < length l)%nat -> usable (session_chain ss) i) ->
  exists a b c1' c2' datas,
    from_shared_secret ss sk1 (x25519_public sk2) cfg HandshakeRole.Initiator env1 c1 = (Ok a, c1') /\
    from_shared_secret ss sk2 (x25519_public sk1) cfg HandshakeRole.Responder env2 c2 = (Ok b, c2') /\
    fst (fst (encrypt_all cfg env1 l (state a) c1')) = map Ok datas /\
    forall order again, base.NoDup order -> Forall (fun i => (i < length l)%nat) order ->
      again ⊆ order -> len (order ++ again) <= U64_MAX ->
      fst (decrypt_all cfg (map (arrival_of l datas env2 rlo rhi) (order ++ again)) (state b)) =
        map (fun i => Ok (nth_sent l i).1) order ++
        replicate (length again) (Err ProtocolError.ReplayAttackDetected).
Proof.
  intros Hcfg Hc1 Hr1 Hshort Hc2 Hr2 Hskew Hage Hz Hsk Hnz Hm Hl Hlen Hu.
  destruct (from_shared_secret_ok ss sk1 (x25519_public sk2) cfg HandshakeRole.Initiator env1 c1 lo hi)
    as (t1 & now1 & id1 & c1' & Ht1 & Ea); [done | apply Hc1 | done |].
  destruct (from_shared_secret_ok ss sk2 (x25519_public sk1) cfg HandshakeRole.Responder env2 c2 rlo rhi)
    as (t2 & now2 & id2 & c2' & Ht2 & Eb); [done | apply Hc2 | done |].
  destruct (encrypt_all_sends cfg env1 lo hi rlo rhi Hcfg Hc1 Hr1 Hshort Hskew Hage
    (session_chain ss) sk1 l 0 _ c1' (established_send ss sk1 (x25519_public sk2) cfg t1 now1 id1 hi ltac:(lia)))
    as (datas & s' & c' & Es & Hld & Hg); try done.
  { intros j Hj. apply Hu. lia. }
  { simpl. unfold DEFAULT_MAX_MESSAGES in *. lia. }
  do 2 eexists. exists c1', c2', datas. split; [exact Ea|]. split; [exact Eb|].
  cbn [HandshakeRole.is_initiator]. rewrite Es. split; [done|]. clear Ea Eb Es.
  intros order again Hnd Ho Hag Hbig.
  assert (Harr : forall i, (i < length l)%nat ->
    arrives (session_chain ss) (x25519_public sk1) (arrival_of l datas env2 rlo rhi i)).
  { intros i Hi. split; [done|]. split; [by apply Hu|].
    simpl. destruct (lookup_lt_is_Some_2 l i Hi) as ([pt ad] & Epa).
    destruct (lookup_lt_is_Some_2 datas i) as (data & Ed); [lia|].
    exists 0. unfold nth_sent. rewrite Epa, Ed. exact (Hg i pt ad data Epa Ed). }
  assert (Hord : forall i, i ∈ order -> (i < length l)%nat) by (by apply Forall_forall).
  rewrite map_app.
  rewrite (decrypt_all_any_order cfg (session_chain ss) (x25519_public sk1) (max_skipped_messages cfg)
    Hcfg (x25519_public_len _ Hsk) Hnz _ _ _
    (established_recv ss sk2 (x25519_public sk1) cfg t2 now2 id2 Hm)).
  - by rewrite map_map, length_map.
  - simpl. rewrite <- map_app. unfold len. rewrite length_map. exact Hbig.
  - apply Forall_map, Forall_forall. auto.
  - apply Forall_map, Forall_forall. auto.
  - rewrite map_map. simpl. by rewrite map_id.
  - apply Forall_map, Forall_forall. simpl. intros i Hi. apply Hord in Hi. unfold len in *. lia.
  - apply Forall_map, Forall_forall. simpl. intros i Hi. rewrite map_map, map_id. auto.
Qed.

End Established.

(** ** Concrete runs *)

Lemma demo_clock : sane_clock demo_env1 1700000000 1700000000.
Proof. apply demo_windows. Qed.

Lemma demo_usable i : (i < 3)%nat -> usable (P := toy) (session_chain (P := toy) demo_key) i.
Proof.
  intros Hi. split; [unfold DEFAULT_MAX_MESSAGES; lia|].
  destruct i as [|[|[|?]]]; [vm_compute; reflexivity..|lia].
Qed.

Definition demo_msgs : list (bytes * bytes) :=
  [(bstr "first", bstr "ad"); (bstr "second", []); (bstr "third", bstr "ad")].

Lemma conversation_delivers_witness :
  exists a b c1' c2' datas,
    from_shared_secret (P := toy) demo_key demo_sk1 (x25519_public (Primitives := toy) demo_sk2)
      Config_default HandshakeRole.Initiator demo_env1 ctr0 = (Ok a, c1') /\
    from_shared_secret (P := toy) demo_key demo_sk2 (x25519_public (Primitives := toy) demo_sk1)
      Config_default HandshakeRole.Responder demo_env1 ctr0 = (Ok b, c2') /\
    fst (decrypt_all (P := toy) Config_default
      (map (arrival_of demo_msgs datas demo_env1 1700000000 1700000000) ([2; 0] ++ [0; 2])%nat) (state b))
    = [Ok (bstr "third"); Ok (bstr "first"); Err ProtocolError.ReplayAttackDetected;
       Err ProtocolError.ReplayAttackDetected].
Proof.
  edestruct (conversation_delivers (P := toy) (L := toy_laws) demo_key demo_sk1 demo_sk2 Config_default
    demo_env1 demo_env1 1700000000 1700000000 1700000000 1700000000 ctr0 ctr0 demo_msgs)
    as (a & b & c1' & c2' & datas & Ha & Hb & _ & Hall);
    try exact demo_clock; try exact demo_env1_healthy; try reflexivity; try lia.
  - vm_compute. split; discriminate.
  - repeat constructor; vm_compute; discriminate.
  - vm_compute. discriminate.
  - intros i Hi. by apply demo_usable.
  - exists a, b, c1', c2', datas. split; [exact Ha|]. split; [exact Hb|].
    apply (Hall [2; 0]%nat [0; 2]%nat).
    + apply (bool_decide_unpack _). vm_compute. exact I.
    + repeat constructor; simpl; lia.
    + set_solver.
    + vm_compute. discriminate.
Defined.

(** The responder of [demo_session], as a literal. *)
Definition demo_responder : DoubleRatchetState :=
  mkState (session_root (P := toy) demo_key) None
    (Some (fresh_chain (session_chain (P := toy) demo_key) 1700000000)) (Some demo_sk2)
    (x25519_public (Primitives := toy) demo_sk2) (Some (x25519_public (Primitives := toy) demo_sk1))
    (Some (x25519_public (Primitives := toy) demo_sk1)) ∅ 2000 0 1700000000 1700000000 0 0 1.

Lemma receive_refines_window_witness :
  let pub := x25519_public (Primitives := toy) demo_sk1 in
  let k := session_chain (P := toy) demo_key in
  let data := match encrypt (P := toy) Config_default (bstr "hi") (bstr "ad") demo_env1
                      (state (demo_session Config_default HandshakeRole.Initiator)) ctr0
              with (Ok d, _, _) => d | _ => [] end in
  let a := mkArrival 0 (bstr "hi") (bstr "ad") data demo_env1 ctr0 1700000000 1700000000 in
  fst (decrypt_all (P := toy) Config_default [a; a] demo_responder) =
    zip_with verdict (Window.trace 2000 Window.init [0; 0]%nat) [bstr "hi"; bstr "hi"] /\
  fst (decrypt_all (P := toy) Config_default [a; a] demo_responder) =
    [Ok (bstr "hi"); Err ProtocolError.ReplayAttackDetected].
Proof.
  intros pub k data a.
  assert (Ha : arrives (P := toy) k pub a).
  { split; [apply demo_clock|]. split; [apply demo_usable; simpl; lia|].
    exists 0, 1700000000, 1700000000, (drop 56 data).
    split; [split; vm_compute; discriminate|]. split; [split; [split|]; vm_compute; discriminate|].
    split; [split; [split|]; vm_compute; discriminate|]. split; [|vm_compute; reflexivity].
    exists (take 12 (drop 24 (drop 56 data))), (drop 36 (drop 56 data)).
    split; [vm_compute; reflexivity|]. split; vm_compute; reflexivity. }
  split; [|vm_compute; reflexivity].
  apply (receive_refines_window (P := toy) (L := toy_laws) Config_default k pub 2000 eq_refl
    ltac:(vm_compute; reflexivity) ltac:(vm_compute; reflexivity) [a; a] Window.init demo_responder).
  - apply (established_recv (P := toy) (L := toy_laws) demo_key demo_sk2 pub Config_default 1700000000 1700000000 [] ).
    vm_compute. split; discriminate.
  - vm_compute. discriminate.
  - do 2 (apply Forall_cons; split; [exact Ha|]). apply Forall_nil_2.
Defined.
