(* ===== verification/SessionRatchet.v ===== *)
(** * The Diffie-Hellman ratchet

    One side is [ahead]: it has drawn a new key and derived a root and a
    sending chain the other can only derive on seeing the new public key.  The
    first message of the new chain lets the other side catch up and be ahead in
    turn, without losing the messages of the old chain still in flight. *)

From S2P Require Import Prelude Effects Errors Primitives Compare Random Validation Padding Kdf Handler Encryptor Chain Message RatchetState Session SessionInvariant SessionReceive SessionSend.
#[local] Open Scope Z_scope.
#[local] Open Scope sibna_scope.

Section Ratchet.
Context {P : Primitives} {L : PrimitiveLaws P}.

(** [x] (with secret [a]) is ahead of [y] (with secret [b]) by the chain of [k]. *)
Record ahead (a b k : bytes) (x y : DoubleRatchetState) : Prop := {
  ah_local : dh_local x = Some a;
  ah_peer : dh_local y = Some b;
  ah_len : length a = 32%nat;
  ah_peer_len : length b = 32%nat;
  ah_root : kdf_rk (root_key y) (x25519_dh a (x25519_public b)) = Ok (root_key x, k);
  ah_chain : exists n ck, sending_chain x = Some ck /\ chain_rep k n ck
}.

(** What a ratchet step leaves alone. *)
Record same_frame (s s' : DoubleRatchetState) : Prop := {
  fr_keys : skipped_message_keys s' = skipped_message_keys s;
  fr_max : max_skip s' = max_skip s;
  fr_sent : messages_sent s' = messages_sent s;
  fr_received : messages_received s' = messages_received s
}.

Lemma length_os_bytes env c n : length (map (e_os env) (seq c n)) = n.
Proof. by rewrite length_map, length_seq. Qed.

Section Steps.
Context (env : Env) (lo hi : Z).
Hypothesis (Hclock : clock_in env lo hi).

(** The first step of a conversation: from equal roots to being ahead. *)
Lemma perform_dh_ratchet_ahead a x y c :
  root_key x = root_key y -> dh_local y = Some a -> length a = 32%nat ->
  dh_remote x = Some (x25519_public a) ->
  exists b k x' c', perform_dh_ratchet env x c = (Ok tt, x', c') /\ ahead b a k x' y /\
    (exists t, sending_chain x' = Some (fresh_chain k t) /\ lo <= t <= hi) /\
    receiving_chain x' = receiving_chain x /\ previous_counter x' = previous_counter x /\
    dh_remote x' = dh_remote x /\ same_frame x x'.
Proof.
  intros Hroot Hl Hlen Hr. unfold perform_dh_ratchet, bind at 1, lift at 1, random_secret, os_bytes.
  cbv iota beta. set (b := map (e_os env) (seq (c_os c) 32)).
  assert (Hb : length b = 32%nat) by apply length_os_bytes.
  unfold bind at 1, get at 1. cbv iota beta. rewrite Hr. unfold bind at 1, bind at 1, crypto, res.
  destruct (kdf_rk_ok (root_key x) (x25519_dh b (x25519_public a))) as (rk & k & Ek & _ & Hk).
  rewrite Ek. cbn [map_err]. unfold bind at 1, modify at 1. cbv iota beta.
  set (c1 := mkCtr _ _ _).
  destruct (ChainKey_new_run (E := ProtocolError.t) k env c1 lo hi Hclock) as (t & c2 & E & Ht).
  rewrite (bind_ok _ _ _ _ _ _ _ _ (lift_ok _ _ _ _ _ _ E)). unfold modify.
  eexists b, k, _, c2. split; [reflexivity|]. split; [|repeat split; by eauto].
  split; simpl; try done; [by rewrite <- Hroot|]. exists 0%nat. eexists. split; [done|].
  apply fresh_chain_rep.
Qed.

(** Catching up on the peer's new key, and getting ahead. *)
Lemma dh_ratchet_catches_up a b k x y c :
  ahead a b k x y ->
  exists b' k' y' t c', dh_ratchet (x25519_public a) env y c = (Ok tt, y', c') /\
    receiving_chain y' = Some (fresh_chain k t) /\ ahead b' a k' y' x /\
    dh_remote y' = Some (x25519_public a) /\ same_frame y y' /\
    (exists t', sending_chain y' = Some (fresh_chain k' t')) /\
    previous_counter y' = chain_index (sending_chain y).
Proof.
  intros [Hl Hp Hla Hlb Hroot Hch]. unfold dh_ratchet, bind at 1, modify at 1. cbv iota beta.
  unfold bind at 1, modify at 1. cbv iota beta. unfold bind at 1, get at 1. cbv iota beta.
  unfold bind at 1, res at 1. cbn [dh_local set_remote_dh set_dh_remote set_previous_counter].
  rewrite Hp. cbn [ok_or]. unfold bind at 1, crypto at 1, res at 1.
  cbn [root_key set_remote_dh set_dh_remote set_previous_counter].
  rewrite (x25519_comm b a) by done. rewrite Hroot. cbn [map_err].
  unfold bind at 1, modify at 1. cbv iota beta.
  destruct (ChainKey_new_run (E := ProtocolError.t) k env c lo hi Hclock) as (t & c1 & E & _).
  rewrite (bind_ok _ _ _ _ _ _ _ _ (lift_ok _ _ _ _ _ _ E)).
  unfold bind at 1, modify at 1. cbv iota beta.
  unfold bind at 1, lift at 1, random_secret, os_bytes. cbv iota beta.
  set (b' := map (e_os env) (seq (c_os c1) 32)).
  assert (Hb' : length b' = 32%nat) by apply length_os_bytes.
  unfold bind at 1, crypto at 1, res at 1.
  destruct (kdf_rk_ok (root_key x) (x25519_dh b' (x25519_public a))) as (rk & k' & Ek & _).
  rewrite Ek. cbn [map_err]. unfold bind at 1, modify at 1. cbv iota beta. set (c2 := mkCtr _ _ _).
  destruct (ChainKey_new_run (E := ProtocolError.t) k' env c2 lo hi Hclock) as (t' & c3 & E3 & _).
  rewrite (bind_ok _ _ _ _ _ _ _ _ (lift_ok _ _ _ _ _ _ E3)). unfold bind, modify.
  exists b', k'. eexists _, t, c3. split; [reflexivity|]. split; [done|]. split; [|repeat split; by eauto].
  split; simpl; try done. exists 0%nat. eexists. split; [done|]. apply fresh_chain_rep.
Qed.

End Steps.

(** Operations of the side that is ahead keep it ahead. *)
Lemma ahead_frame a b k x y x' y' :
  ahead a b k x y ->
  root_key x' = root_key x -> root_key y' = root_key y ->
  dh_local x' = dh_local x -> dh_local y' = dh_local y ->
  (exists n ck, sending_chain x' = Some ck /\ chain_rep k n ck) -> ahead a b k x' y'.
Proof. intros [] E1 E2 E3 E4 Hc. split; rewrite ?E1, ?E2, ?E3, ?E4; done. Qed.

(** ** Catching up inside [decrypt] *)

(** The receiving chain being left, if any: its key, DH key and window, with
    room for the messages up to [p] still in flight. *)
Definition leaving (p : nat) (old : option (bytes * bytes * Z * Window.t)) (y : DoubleRatchetState) : Prop :=
  match old with
  | None => receiving_chain y = None /\ skipped_bounded y
  | Some (k, q, room, w) =>
      recv_rep k q room y w /\ Z.of_nat p <= DEFAULT_MAX_MESSAGES /\
      Z.of_nat (size (Window.missing w)) + Z.of_nat (p - Window.next w) <= room
  end.

(** Keys to be stored on leaving. *)
Definition to_skip (p : nat) (old : option (bytes * bytes * Z * Window.t)) : nat :=
  match old with None => 0 | Some (_, _, _, w) => p - Window.next w end.

(** The messages of the old chain that have not been delivered are still known. *)
Definition kept (p : nat) (old : option (bytes * bytes * Z * Window.t)) (y : DoubleRatchetState) : Prop :=
  match old with
  | None => True
  | Some (k, q, _, w) => forall j, j ∈ Window.missing w \/ (Window.next w <= j < p)%nat ->
      skipped_message_keys y !! (q, Z.of_nat j) = Some (message_key_at k j)
  end.

Lemma skipped_to_0 k pub i ck s :
  receiving_chain s = Some ck -> chain_rep k i ck -> skipped_to k pub ck i 0 s = s.
Proof.
  intros Hrc Hr. unfold skipped_to. simpl.
  rewrite Nat.add_0_r, (chain_to_rep k i ck Hr), <- Hrc. by destruct s.
Qed.

Lemma skip_old p old env y c pub :
  leaving p old y -> dh_remote y <> Some pub ->
  exists y', skip_message_keys (Z.of_nat p) env y c = (Ok tt, y', c) /\
    kept p old y' /\ skipped_bounded y' /\ max_skip y' = max_skip y /\
    skipped_keys_count y' = skipped_keys_count y + Z.of_nat (to_skip p old) /\
    messages_received y' = messages_received y /\ same_elsewhere (default [] (dh_remote y)) y y' /\
    skipped_message_keys y ⊆ skipped_message_keys y' /\
    (forall z, skipped_message_keys y' !! (pub, z) = skipped_message_keys y !! (pub, z)).
Proof.
  destruct old as [[[[k q] room] w]|]; simpl.
  - intros (Hrep & Hp & Hroom) Hne. pose proof Hrep as [(ck & Hrc & Hcr & Hmx) Hr Hk Hw Hnx Hro Hb Hm].
    assert (Hfr : forall j, (Window.next w <= j)%nat -> skipped_message_keys y !! (q, Z.of_nat j) = None).
    { intros j Hj. rewrite Hk, bool_decide_eq_false_2; [done|]. intros Hin. apply Hw in Hin. lia. }
    pose proof (skip_message_keys_run k q env (Window.next w) ck y c p Hrc Hcr Hr
      ltac:(lia) Hfr Hb ltac:(lia)) as Hskip.
    exists (skipped_to k q ck (Window.next w) (p - Window.next w) y). split.
    { destruct (decide (p < Window.next w)%nat) as [Hlt|Hge].
      - rewrite (bool_decide_eq_true_2 _ Hlt) in Hskip. rewrite Hskip.
        replace (p - Window.next w)%nat with 0%nat by lia. by rewrite skipped_to_0.
      - rewrite (bool_decide_eq_false_2 _ Hge) in Hskip.
        destruct (Z.leb_spec (skipped_keys_count y + Z.of_nat (p - Window.next w)) (max_skip y)); [done|lia]. }
    assert (Hsz : skipped_keys_count (skipped_to k q ck (Window.next w) (p - Window.next w) y)
                  = skipped_keys_count y + Z.of_nat (p - Window.next w)).
    { unfold skipped_keys_count, skipped_to. simpl. rewrite store_keys_size by done. lia. }
    split; [|split; [|split; [done|split; [done|split; [done|split; [|split]]]]]].
    + intros j Hj. unfold skipped_to. simpl. rewrite store_keys_lookup, Hk.
      destruct (decide (Window.next w <= j < Window.next w + (p - Window.next w))%nat);
        [by rewrite bool_decide_eq_true_2|].
      destruct Hj as [Hj|]; [|lia]. by rewrite bool_decide_eq_false_2, bool_decide_eq_true_2.
    + unfold skipped_bounded. rewrite Hsz. simpl max_skip. lia.
    + split; try done. rewrite Hr. simpl. intros q' z Hq'. by apply store_keys_other.
    + apply map_subseteq_spec. intros [q' z] mk. simpl. by apply store_keys_weaken.
    + intros z. simpl. apply store_keys_other. congruence.
  - intros (Hrc & Hb) _. exists y. unfold skip_message_keys, bind, get. rewrite Hrc.
    split; [done|]. repeat split; try done. lia.
Qed.

(** The whole DH step of [decrypt]. *)
Lemma ratchet_if_new_catches_up a b k x y p old h env lo hi c :
  clock_in env lo hi -> ahead a b k x y -> leaving p old y ->
  dh_remote y <> Some (x25519_public a) ->
  dh_public h = x25519_public a -> previous_chain_length h = Z.of_nat p ->
  exists b' k' y' t c', ratchet_if_new h env y c = (Ok tt, y', c') /\
    receiving_chain y' = Some (fresh_chain k t) /\ ahead b' a k' y' x /\
    dh_remote y' = Some (x25519_public a) /\ kept p old y' /\ skipped_bounded y' /\
    max_skip y' = max_skip y /\
    skipped_keys_count y' = skipped_keys_count y + Z.of_nat (to_skip p old) /\
    messages_received y' = messages_received y /\
    previous_counter y' = chain_index (sending_chain y) /\
    messages_sent y' = messages_sent y /\ (exists t', sending_chain y' = Some (fresh_chain k' t')) /\
    skipped_message_keys y ⊆ skipped_message_keys y' /\
    (forall z, skipped_message_keys y' !! (x25519_public a, z) =
               skipped_message_keys y !! (x25519_public a, z)).
Proof.
  intros Hc Ha Hold Hne Hd Hp. unfold ratchet_if_new, bind at 1, get at 1. cbv iota beta.
  replace (match dh_remote y with Some p => negb (constant_time_eq p (dh_public h)) | None => true end)
    with true.
  2: { destruct (dh_remote y) as [q|]; [|done]. symmetry. apply negb_true_iff, constant_time_eq_false.
       congruence. }
  set (y1 := match sending_chain y with Some c => set_previous_counter (ck_index c) y | None => y end).
  assert (E1 : (match sending_chain y with Some c => modify (set_previous_counter (ck_index c))
                | None => ret tt end) env y c = (Ok (E := ProtocolError.t) tt, y1, c))
    by (unfold y1; by destruct (sending_chain y)).
  rewrite (bind_ok _ _ _ _ _ _ _ _ E1), Hp, Hd.
  assert (Hf : exists pc, y1 = set_previous_counter pc y).
  { exists (previous_counter y1). unfold y1. destruct y as [? [?|]]; done. }
  destruct Hf as (pc & Hf). rewrite Hf. clear E1 Hf y1. set (y1 := set_previous_counter pc y).
  assert (Hold1 : leaving p old y1).
  { destruct old as [[[[ko q] room] w]|]; [|done]. destruct Hold as [Hrep Hrest]. split; [|done].
    by eapply recv_rep_frame; [..|exact Hrep]. }
  destruct (skip_old p old env y1 c (x25519_public a) Hold1 Hne)
    as (y2 & E2 & Hk & Hb & Hm & Hcnt & Hmr & [R1 R2 R3 R4 R5 R6 R7] & Hsub & Hpub).
  rewrite (bind_ok _ _ _ _ _ _ _ _ E2).
  assert (Ha2 : ahead a b k x y2) by (eapply ahead_frame; [exact Ha|..]; try done; apply Ha).
  destruct (dh_ratchet_catches_up env lo hi Hc a b k x y2 c Ha2)
    as (b' & k' & y3 & t & c' & E3 & F1 & F2 & F3 & [F4 F5 F8 F6] & F9 & F7).
  exists b', k', y3, t, c'. split; [done|]. split; [done|]. split; [done|]. split; [done|].
  unfold skipped_bounded, skipped_keys_count in *.
  split. { destruct old as [[[[ko q] room] w]|]; [|done]. simpl in *. by rewrite F4. }
  rewrite F4, F5, F6, F7, F8, R2. repeat split; try done; lia.
Qed.

(** A chain entered by a DH step is a delivery window at its start. *)
Lemma entered_rep k pub y t :
  receiving_chain y = Some (fresh_chain k t) -> dh_remote y = Some pub ->
  (forall z, skipped_message_keys y !! (pub, z) = None) -> skipped_bounded y ->
  max_skip y <= U64_MAX - DEFAULT_MAX_MESSAGES ->
  recv_rep k pub (max_skip y - skipped_keys_count y) y Window.init.
Proof.
  intros Hrc Hr Hk Hb Hm.
  split; [|exact Hr|intros j; by rewrite Hk|intros j; simpl; set_solver|vm_compute; discriminate| |done..].
  - eexists. split; [done|]. split; [apply fresh_chain_rep | done].
  - change (Window.missing Window.init) with (∅ : gset nat). rewrite size_empty. lia.
Qed.

Lemma kept_elsewhere p old pub y y' :
  (forall k q room w, old = Some (k, q, room, w) -> q <> pub) ->
  same_elsewhere pub y y' -> kept p old y -> kept p old y'.
Proof.
  intros Hq Hs. destruct old as [[[[k q] room] w]|]; simpl; [|done].
  intros H j Hj. rewrite (se_keys _ _ _ Hs) by (by eapply Hq). by apply H.
Qed.

(** [y'] has caught up with [x] by its message [n], and is ahead in turn. *)
Record caught_up (a k : bytes) (p : nat) old (n : nat) (x y y' : DoubleRatchetState) (b' k' : bytes) : Prop := {
  cu_window : recv_rep k (x25519_public a)
    (max_skip y - skipped_keys_count y - Z.of_nat (to_skip p old)) y' (Window.mk (S n) (set_seq 0 n));
  cu_ahead : ahead b' a k' y' x;
  cu_kept : kept p old y';
  cu_sending : exists t, sending_chain y' = Some (fresh_chain k' t);
  cu_previous : previous_counter y' = chain_index (sending_chain y);
  cu_sent : messages_sent y' = messages_sent y;
  cu_received : messages_received y' = messages_received y + 1;
  cu_max : max_skip y' = max_skip y;
  cu_keys : forall q z mk, q <> x25519_public a -> skipped_message_keys y !! (q, z) = Some mk ->
    skipped_message_keys y' !! (q, z) = Some mk
}.

Lemma decrypt_catches_up cfg env lo hi a b k x y p old n pt ad data c :
  enable_header_encryption cfg = false -> sane_clock env lo hi ->
  ahead a b k x y -> leaving p old y -> dh_remote y <> Some (x25519_public a) ->
  all_zero (x25519_public a) = false ->
  (forall z, skipped_message_keys y !! (x25519_public a, z) = None) ->
  genuine k (x25519_public a) (Z.of_nat p) n lo hi pt ad data -> usable k n ->
  skipped_keys_count y + Z.of_nat (to_skip p old) + Z.of_nat n <= max_skip y ->
  max_skip y <= U64_MAX - DEFAULT_MAX_MESSAGES -> messages_received y < U64_MAX ->
  exists b' k' y' c', decrypt cfg data ad env y c = (Ok pt, y', c') /\
    caught_up a k p old n x y y' b' k'.
Proof.
  intros Hcfg Hc Ha Hold Hne Hz Hfr Hg Hu Hcap Hmax Hmr. set (pub := x25519_public a) in *.
  assert (Hpl : length pub = 32%nat) by (apply x25519_public_len, Ha).
  destruct (genuine_parses cfg k pub lo hi env Hcfg Hc Hpl Hz (Z.of_nat p) n pt ad data y c Hg Hu)
    as (h & ct & ts & c1 & _ & -> & Ht & Hs & Hd & Hnum & Hpc). rewrite Hfr.
  destruct (ratchet_if_new_catches_up a b k x y p old h env lo hi c1 (proj1 Hc) Ha Hold Hne Hd Hpc)
    as (b' & k' & y1 & t & c2 & E1 & Hrc & Ha' & Hr1 & Hk1 & Hb1 & Hm1 & Hc1 & Hmr1 & Hp1 & Hms1 & (t' & Hst) & Hsub & Hpub).
  assert (Hrep : recv_rep k pub (max_skip y1 - skipped_keys_count y1) y1 Window.init).
  { apply (entered_rep k pub y1 t); try done; [|by rewrite Hm1]. intros z. by rewrite Hpub. }
  rewrite Hm1, Hc1 in Hrep.
  pose proof (trial_same_chain k pub _ lo hi env Hc Hpl Window.init n pt ad h ct ts y1 c2 Hrep Hu)
    as Htr. specialize (Htr ltac:(simpl; set_solver) Ht Hs Hd Hnum).
  unfold Window.deliver in Htr. rewrite !bool_decide_eq_false_2 in Htr by (simpl; set_solver || lia).
  cbn [Window.missing Window.next Window.init] in Htr. rewrite size_empty, Nat.sub_0_r in Htr.
  destruct (Z.leb_spec (Z.of_nat 0 + Z.of_nat n)
    (max_skip y - (skipped_keys_count y + Z.of_nat (to_skip p old)))); [|lia].
  destruct Htr as (y2 & c3 & E2 & Hrep2 & Hmr2 & Hse).
  assert (Etr : decrypt_trial (mkRatchetMessage h ct) ad env y c1 = (Ok pt, y2, c3)).
  { rewrite <- E2. unfold decrypt_trial. cbn [header].
    rewrite (bind_ok _ _ _ _ _ _ _ _ E1).
    rewrite (bind_ok _ _ _ _ _ _ _ _ (ratchet_if_new_same env h y1 c2 ltac:(by rewrite Hd))). done. }
  unfold bind at 1, lift at 1, run_on. rewrite Etr. unfold bind, put, res, modify, ret.
  rewrite u_add_ok by lia. exists b', k'. eexists _, _. split; [reflexivity|].
  rewrite union_empty_l_L in Hrep2. destruct Hse as [R1 R2 R3 R4 R5 R6 R7].
  split; cbn [set_messages_received]; try (simpl; congruence).
  - apply (recv_rep_frame _ _ _ y2); [reflexivity..|].
    by replace (max_skip y - skipped_keys_count y - Z.of_nat (to_skip p old))
      with (max_skip y - (skipped_keys_count y + Z.of_nat (to_skip p old))) by lia.
  - eapply ahead_frame; [exact Ha'|..]; simpl; try done. rewrite R2. apply Ha'.
  - apply (kept_elsewhere p old pub y1); [|by split|done].
    intros k0 q room w ->. destruct Hold as [[_ Hq _ _ _ _ _ _] _]. congruence.
  - exists t'. simpl. congruence.
  - intros q z mk Hq Hmk. simpl. rewrite R7 by done. by eapply lookup_weaken.
Qed.

(** C4: the DH ratchet step.  One side is ahead by a chain that is new to the
    other (whose remote key it is not, and which has stored no key for it),
    under a DH key that is not all zeros; both use plain headers, and the skip
    limit is a sensible number.  Let [n] be the number of the first message of
    that chain to arrive, within the length of the chain, current by the
    receiver's clock and with a key that is not weak, and let the skipped keys
    already stored, those the old chain still needs (up to the length the header
    announces) and the [n] of the new chain not exceed the skip limit together. 
    Then [decrypt] ratchets and returns the plaintext.  Afterwards the receiver
    is on the sender's chain as a delivery window in which exactly [n] is
    accepted and the numbers below [n] are outstanding; it is itself ahead by a
    fresh chain; and every message of the old chain the header announces as sent
    but not yet delivered can still be opened. *)
Theorem ratchet_message_accepted cfg env lo hi a b k x y p old n pt ad data c :
  enable_header_encryption cfg = false -> sane_clock env lo hi ->
  ahead a b k x y -> leaving p old y -> dh_remote y <> Some (x25519_public a) ->
  all_zero (x25519_public a) = false ->
  (forall z, skipped_message_keys y !! (x25519_public a, z) = None) ->
  genuine k (x25519_public a) (Z.of_nat p) n lo hi pt ad data -> usable k n ->
  skipped_keys_count y + Z.of_nat (to_skip p old) + Z.of_nat n <= max_skip y ->
  max_skip y <= U64_MAX - DEFAULT_MAX_MESSAGES -> messages_received y < U64_MAX ->
  exists b' k' y' c', decrypt cfg data ad env y c = (Ok pt, y', c') /\
    recv_rep k (x25519_public a) (max_skip y - skipped_keys_count y - Z.of_nat (to_skip p old)) y'
      (Window.mk (S n) (set_seq 0 n)) /\
    ahead b' a k' y' x /\ kept p old y'.
Proof.
  intros. edestruct decrypt_catches_up as (b' & k' & y' & c' & E & []); eauto 10.
Qed.

End Ratchet.

(** ** Concrete runs *)

(** The responder's first reply to the initiator. *)
Definition demo_reply : Res ProtocolError.t bytes * DoubleRatchetState * Ctr :=
  encrypt (P := toy) Config_default (bstr "reply") (bstr "ad") demo_env1
    (state (demo_session Config_default HandshakeRole.Responder)) ctr0.
Definition demo_reply_data : bytes := match demo_reply with (Ok d, _, _) => d | _ => [] end.
Definition demo_reply_state : DoubleRatchetState := snd (fst demo_reply).
Definition demo_reply_secret : bytes := default [] (dh_local demo_reply_state).
Definition demo_reply_chain : bytes :=
  match kdf_rk (P := toy) (session_root (P := toy) demo_key)
          (x25519_dh (Primitives := toy) demo_reply_secret (x25519_public (Primitives := toy) demo_sk1))
  with Ok (_, k) => k | _ => [] end.

Lemma ratchet_message_accepted_witness :
  let y := state (demo_session Config_default HandshakeRole.Initiator) in
  exists b' k' y' c',
    decrypt (P := toy) Config_default demo_reply_data (bstr "ad") demo_env1 y ctr0
      = (Ok (bstr "reply"), y', c') /\
    ahead (P := toy) b' demo_reply_secret k' y' demo_reply_state.
Proof.
  intros y.
  assert (Hah : ahead (P := toy) demo_reply_secret demo_sk1 demo_reply_chain demo_reply_state y).
  { split; [vm_compute; reflexivity..|]. exists 1%nat. eexists.
    split; [vm_compute; reflexivity|].
    split; [vm_compute; reflexivity|]. split; [reflexivity | vm_compute; discriminate]. }
  assert (Hgen : genuine (P := toy) demo_reply_chain (x25519_public (Primitives := toy) demo_reply_secret)
                   (Z.of_nat 0) 0 1700000000 1700000000 (bstr "reply") (bstr "ad") demo_reply_data).
  { exists 1700000000, 1700000000, (drop 56 demo_reply_data).
    split; [split; vm_compute; discriminate|]. split; [split; [split|]; vm_compute; discriminate|].
    split; [split; [split|]; vm_compute; discriminate|]. split; [|vm_compute; reflexivity].
    exists (take 12 (drop 24 (drop 56 demo_reply_data))), (drop 36 (drop 56 demo_reply_data)).
    split; [vm_compute; reflexivity|]. split; vm_compute; reflexivity. }
  destruct (ratchet_message_accepted (P := toy) (L := toy_laws) Config_default demo_env1
    1700000000 1700000000 demo_reply_secret demo_sk1 demo_reply_chain demo_reply_state y 0 None 0
    (bstr "reply") (bstr "ad") demo_reply_data ctr0) as (b' & k' & y' & c' & E & _ & Ha & _).
  - reflexivity.
  - apply demo_clock.
  - exact Hah.
  - split; vm_compute; [reflexivity | discriminate].
  - vm_compute. discriminate.
  - vm_compute. reflexivity.
  - intros z. vm_compute. reflexivity.
  - exact Hgen.
  - split; vm_compute; reflexivity.
  - vm_compute. discriminate.
  - vm_compute. discriminate.
  - vm_compute. reflexivity.
  - exists b', k', y', c'. split; [exact E | exact Ha].
Defined.
