(* ===== verification/SessionInbox.v ===== *)
(** * What is in flight to a session

    The messages sent to a session and not delivered yet, as tags: the chain,
    the DH key, the announced length of the chain before, and the number of
    each.  [inbound] says that the session can open every one of them, because
    it has stored the key, or holds the chain, or will enter the chain by a DH
    step; and that it never stores more keys than there are messages in flight.
    Sending adds a tag, delivering in any order removes one. *)

From S2P Require Import Prelude Effects Errors Primitives Compare Random Validation Padding Kdf Handler Encryptor Chain Message RatchetState Session SessionInvariant SessionReceive SessionSend SessionRatchet.
#[local] Open Scope Z_scope.
#[local] Open Scope sibna_scope.

Record Tag := mkTag { g_chain : bytes; g_pub : bytes; g_pcl : Z; g_num : nat }.

Definition tag_id (t : Tag) : bytes * nat := (g_pub t, g_num t).

(** A message on the wire: what was sent, its bytes, and the sender's clock. *)
Record Packet := mkPacket {
  pk_pt : bytes; pk_ad : bytes; pk_data : bytes; pk_lo : Z; pk_hi : Z }.

Section Inbox.
Context {P : Primitives} {L : PrimitiveLaws P}.

(** The packet is the message of the tag, sent while the clock was in [pk_lo .. pk_hi]. *)
Record tagged (t : Tag) (m : Packet) : Prop := {
  tg_genuine : genuine (g_chain t) (g_pub t) (g_pcl t) (g_num t) (pk_hi m - 30) (pk_lo m + 86400)
    (pk_pt m) (pk_ad m) (pk_data m);
  tg_usable : usable (g_chain t) (g_num t);
  tg_len : length (g_pub t) = 32%nat;
  tg_zero : all_zero (g_pub t) = false
}.

Lemma genuine_mono k pub pcl n lo hi lo' hi' pt ad data :
  lo <= lo' -> hi' <= hi -> genuine k pub pcl n lo hi pt ad data -> genuine k pub pcl n lo' hi' pt ad data.
Proof.
  intros H1 H2 (ts1 & ts2 & ct & Hp & [? ?] & [? ?] & Hs). exists ts1, ts2, ct.
  unfold timely. split; [done|]. split; [lia|]. split; [lia|done].
Qed.

(** A receiving chain in use: its key, DH key, room and window. *)
Abbreviation InUse := (option (bytes * bytes * Z * Window.t)).
(** A chain not entered yet: its key, DH key and the messages sent on it. *)
Abbreviation Coming := (option (bytes * bytes * nat)).

Definition coming (new : Coming) : nat := match new with Some (_, _, sent) => sent | None => 0 end.

(** [v] can open the message of [t]; [p] messages were sent on the chain in use. *)
Definition available (v : DoubleRatchetState) (old : InUse) (p : nat) (new : Coming) (t : Tag) : Prop :=
  skipped_message_keys v !! (g_pub t, Z.of_nat (g_num t)) = Some (message_key_at (g_chain t) (g_num t)) \/
  (exists room w, old = Some (g_chain t, g_pub t, room, w) /\ (Window.next w <= g_num t < p)%nat) \/
  (exists sent, new = Some (g_chain t, g_pub t, sent) /\ (g_num t < sent)%nat /\ g_pcl t = Z.of_nat p).

Record inbound (v : DoubleRatchetState) (old : InUse) (p : nat) (new : Coming) (tags : list Tag) : Prop := {
  ib_window : match old with
              | None => receiving_chain v = None
              | Some (k, q, room, w) => recv_rep k q room v w /\
                  Z.of_nat p <= DEFAULT_MAX_MESSAGES /\ (Window.next w <= p)%nat
              end;
  ib_new : match new with
           | None => True
           | Some (_, pub, _) => dh_remote v <> Some pub /\ forall z, skipped_message_keys v !! (pub, z) = None
           end;
  ib_nodup : base.NoDup (map tag_id tags);
  ib_available : Forall (available v old p new) tags;
  ib_count : skipped_keys_count v + Z.of_nat (to_skip p old) + Z.of_nat (coming new) <= len tags;
  ib_limit : len tags <= max_skip v;
  ib_max : max_skip v <= U64_MAX - DEFAULT_MAX_MESSAGES
}.

Lemma len_cons {A} (x : A) l : len (x :: l) = len l + 1.
Proof. unfold len. simpl. lia. Qed.

Lemma inbound_perm v old p new tags tags' :
  tags ≡ₚ tags' -> inbound v old p new tags -> inbound v old p new tags'.
Proof.
  intros Hp []. assert (len tags' = len tags) by (unfold len; by rewrite Hp).
  split; try done; try lia.
  - assert (Hm : map tag_id tags ≡ₚ map tag_id tags') by (by apply Permutation_map). by rewrite <- Hm.
  - by rewrite <- Hp.
Qed.

(** Fields receiving does not read. *)
Lemma inbound_frame v v' old p new tags :
  receiving_chain v' = receiving_chain v -> dh_remote v' = dh_remote v ->
  skipped_message_keys v' = skipped_message_keys v -> max_skip v' = max_skip v ->
  inbound v old p new tags -> inbound v' old p new tags.
Proof.
  intros E1 E2 E3 E4 []. split; try done; unfold skipped_keys_count in *; rewrite ?E2, ?E3, ?E4; try done.
  - destruct old as [[[[k q] room] w]|]; [|by rewrite E1]. destruct ib_window0 as [Hr ?].
    split; [|done]. by apply (recv_rep_frame _ _ _ v).
  - eapply Forall_impl; [exact ib_available0|]. intros t. unfold available. by rewrite E3.
Qed.

(** ** Sending *)

(** One more message on the chain in use. *)
Lemma inbound_send v k q room w p pcl tags :
  inbound v (Some (k, q, room, w)) p None tags ->
  Z.of_nat p < DEFAULT_MAX_MESSAGES -> len tags + 1 <= max_skip v ->
  inbound v (Some (k, q, room, w)) (S p) None (mkTag k q pcl p :: tags).
Proof.
  intros [(Hrep & Hp & Hn) Hnew Hnd Hav Hcnt Hlim Hmax] Hlt Hroom.
  split; try done; try rewrite len_cons; try lia; [..|simpl in *; lia].
  - split; [done|]. lia.
  - simpl. apply NoDup_cons. split; [|done]. intros Hin.
    apply list_elem_of_fmap in Hin as (t & [= Eq En] & Ht). rewrite Forall_forall in Hav.
    destruct (Hav t Ht) as [Hk|[(r' & w' & [= _ _ _ <-] & Hw)|(sent & ? & _)]]; [|lia|done].
    rewrite <- Eq, <- En, (rr_keys _ _ _ _ _ Hrep) in Hk. case_bool_decide as Hm; [|done].
    apply (rr_wf _ _ _ _ _ Hrep) in Hm. lia.
  - apply Forall_cons. split.
    + right; left. exists room, w. simpl. split; [done|lia].
    + eapply Forall_impl; [exact Hav|]. intros t [Hk|[(r' & w' & E & Hw)|(sent & ? & _)]]; [by left| |done].
      right; left. exists r', w'. split; [done|lia].
Qed.

(** One more message on the chain to come. *)
Lemma inbound_send_coming v old p k pub sent tags :
  inbound v old p (Some (k, pub, sent)) tags -> len tags + 1 <= max_skip v ->
  inbound v old p (Some (k, pub, S sent)) (mkTag k pub (Z.of_nat p) sent :: tags).
Proof.
  intros [Hw [Hr Hnk] Hnd Hav Hcnt Hlim Hmax] Hroom.
  split; try done; try rewrite len_cons; try lia; [..|simpl in *; lia].
  - simpl. apply NoDup_cons. split; [|done]. intros Hin.
    apply list_elem_of_fmap in Hin as (t & [= Eq En] & Ht). rewrite Forall_forall in Hav.
    destruct (Hav t Ht) as [Hk|[(r' & w' & -> & _)|(s' & [= _ _ <-] & Hlt & _)]]; [| |lia].
    + rewrite <- Eq, Hnk in Hk. done.
    + destruct Hw as [Hrep _]. apply Hr. rewrite (rr_remote _ _ _ _ _ Hrep). congruence.
  - apply Forall_cons. split.
    + right; right. exists (S sent). simpl. split; [done|]. split; [lia|done].
    + eapply Forall_impl; [exact Hav|]. intros t [Hk|[Hc|(s' & [= -> -> ->] & Hlt & Hp)]]; [by left|by right; left|].
      right; right. exists (S s'). split; [done|]. split; [lia|done].
Qed.

(** A fresh chain announced by a session that had sent [p] messages before. *)
Lemma inbound_announce v old p k pub tags :
  inbound v old p None tags -> dh_remote v <> Some pub ->
  (forall z, skipped_message_keys v !! (pub, z) = None) -> inbound v old p (Some (k, pub, 0%nat)) tags.
Proof.
  intros [] Hr Hk. split; try done; try (simpl in *; lia).
  eapply Forall_impl; [exact ib_available0|].
  intros t [Hs|[Hc|(s' & ? & _)]]; [by left|by right; left|done].
Qed.

(** ** Delivering on the chains the session has *)

(** What a delivery without a DH step leaves alone. *)
Record same_outgoing (s s' : DoubleRatchetState) : Prop := {
  so_root : root_key s' = root_key s;
  so_sending : sending_chain s' = sending_chain s;
  so_local : dh_local s' = dh_local s;
  so_previous : previous_counter s' = previous_counter s;
  so_sent : messages_sent s' = messages_sent s;
  so_remote : dh_remote s' = dh_remote s;
  so_max : max_skip s' = max_skip s;
  so_received : messages_received s' <= messages_received s + 1
}.

Definition same_in_use (old old' : InUse) : Prop :=
  match old, old' with
  | None, None => True
  | Some (k, q, _, _), Some (k', q', _, _) => k' = k /\ q' = q
  | _, _ => False
  end.

(** Using up a key of a chain left before. *)
Lemma recv_rep_delete_other k pub room s w q z mk :
  recv_rep k pub room s w -> q <> pub -> skipped_message_keys s !! (q, z) = Some mk ->
  recv_rep k pub (room + 1) (set_skipped (delete (q, z) (skipped_message_keys s)) s) w.
Proof.
  intros [] Hq Hk.
  assert (Hs : skipped_keys_count (set_skipped (delete (q, z) (skipped_message_keys s)) s)
               = skipped_keys_count s - 1).
  { unfold skipped_keys_count. simpl. rewrite map_size_delete_Some by (by eexists).
    assert (size (skipped_message_keys s) <> 0)%nat by (by eapply map_size_ne_0_lookup_2). lia. }
  split; unfold skipped_bounded in *; rewrite ?Hs; simpl max_skip; try done; try lia.
  intros j. simpl. by rewrite lookup_delete_ne by congruence.
Qed.

(** The chain in use after the key of [t] has been used up. *)
Definition used_up (t : Tag) (old : InUse) : InUse :=
  match old with
  | None => None
  | Some (k, q, room, w) =>
      if bool_decide (g_pub t = q)
      then Some (k, q, room, Window.mk (Window.next w) (Window.missing w ∖ {[g_num t]}))
      else Some (k, q, room + 1, w)
  end.

Lemma used_up_next t old p :
  same_in_use old (used_up t old) /\ to_skip p (used_up t old) = to_skip p old /\
  forall k q room w, old = Some (k, q, room, w) -> exists room' w',
    used_up t old = Some (k, q, room', w') /\ Window.next w' = Window.next w.
Proof.
  destruct old as [[[[k q] room] w]|]; [|by split_and!].
  unfold used_up. case_bool_decide; split_and!; try done; intros ? ? ? ? [= <- <- <- <-]; by eexists _, _.
Qed.

Lemma inbound_use_up v old p new t tags :
  inbound v old p new (t :: tags) ->
  skipped_message_keys v !! (g_pub t, Z.of_nat (g_num t)) = Some (message_key_at (g_chain t) (g_num t)) ->
  inbound (set_skipped (delete (g_pub t, Z.of_nat (g_num t)) (skipped_message_keys v)) v)
    (used_up t old) p new tags.
Proof.
  intros [Hw Hnew Hnd Hav Hcnt Hlim Hmax] Hk. rewrite len_cons in *.
  destruct (used_up_next t old p) as (_ & Ets & Hnx).
  simpl in Hnd. apply NoDup_cons in Hnd as [Hnin Hnd]. apply Forall_cons in Hav as [_ Hav].
  assert (Hs : size (skipped_message_keys v) <> 0%nat) by (by eapply map_size_ne_0_lookup_2).
  split; simpl max_skip; try done; try lia.
  - destruct old as [[[[k q] room] w]|]; [|done]. destruct Hw as [Hrep Hp]. unfold used_up.
    case_bool_decide as Hq; (split; [|done]).
    + subst q. apply recv_rep_old; [done|]. rewrite (rr_keys _ _ _ _ _ Hrep) in Hk.
      by case_bool_decide.
    + by eapply recv_rep_delete_other.
  - destruct new as [[[k pub] sent]|]; [|done]. destruct Hnew as [? Hnk]. split; [done|].
    intros z. simpl. apply lookup_delete_None. by right.
  - apply Forall_forall. intros t' Ht'. rewrite Forall_forall in Hav.
    destruct (Hav t' Ht') as [Hs'|[(r' & w' & E & Hw')|Hc]]; [left|right; left|by right; right].
    + simpl. rewrite lookup_delete_ne; [done|]. intros [= Eq En]. apply Hnin.
      apply list_elem_of_fmap. exists t'. split; [|done]. unfold tag_id. f_equal; [done|lia].
    + destruct (Hnx _ _ _ _ E) as (r2 & w2 & E2 & En). exists r2, w2. by rewrite En.
  - rewrite Ets. unfold skipped_keys_count in *. simpl. rewrite map_size_delete_Some by (by eexists). lia.
Qed.

Section Deliver.
Context (cfg : Config) (env : Env) (lo hi : Z).
Hypothesis (Hcfg : enable_header_encryption cfg = false) (Hclock : sane_clock env lo hi).

Definition in_time (m : Packet) : Prop := pk_hi m <= lo + 30 /\ hi <= pk_lo m + 86400.

Lemma tagged_now t m : tagged t m -> in_time m ->
  genuine (g_chain t) (g_pub t) (g_pcl t) (g_num t) lo hi (pk_pt m) (pk_ad m) (pk_data m).
Proof. intros [] []. eapply genuine_mono; [..|done]; lia. Qed.

(** A message whose key is stored. *)
Lemma deliver_stored v old p new t tags m c :
  inbound v old p new (t :: tags) -> tagged t m -> in_time m ->
  skipped_message_keys v !! (g_pub t, Z.of_nat (g_num t)) = Some (message_key_at (g_chain t) (g_num t)) ->
  exists v' c' old', decrypt cfg (pk_data m) (pk_ad m) env v c = (Ok (pk_pt m), v', c') /\
    inbound v' old' p new tags /\ same_in_use old old' /\ same_outgoing v v'.
Proof.
  intros Hin Htg Htm Hk. pose proof (tagged_now t m Htg Htm) as Hg. destruct Htg as [_ Hu Hl Hz].
  destruct (genuine_parses cfg (g_chain t) (g_pub t) lo hi env Hcfg Hclock Hl Hz _ _ _ _ _ v c Hg Hu)
    as (h & ct & ts & c1 & _ & -> & Ht & Hs & _). rewrite Hk.
  destruct (decrypt_with_key_ok (message_key_at (g_chain t) (g_num t)) (pk_pt m) (pk_ad m) h
    (g_pub t, Z.of_nat (g_num t)) ts ct env v c1 lo hi) as (c2 & ->);
    [done | done | apply hmac_len | apply Hu | done |].
  eexists _, c2, (used_up t old). split; [reflexivity|]. split; [by apply inbound_use_up|].
  split; [apply (used_up_next t old p)|]. split; try done. simpl. lia.
Qed.

(** The window after number [n] beyond its end. *)
Definition advance (w : Window.t) (n : nat) : Window.t :=
  Window.mk (S n) (Window.missing w ∪ set_seq (Window.next w) (n - Window.next w)).

Lemma inbound_advance v v' k q room w p new t tags :
  inbound v (Some (k, q, room, w)) p new (t :: tags) ->
  g_pub t = q -> (Window.next w <= g_num t < p)%nat ->
  recv_rep k q room v' (advance w (g_num t)) -> same_elsewhere q v v' ->
  inbound v' (Some (k, q, room, advance w (g_num t))) p new tags.
Proof.
  intros [(Hrep & Hp & Hn) Hnew Hnd Hav Hcnt Hlim Hmax] Hq Hnum Hrep' Hse. rewrite len_cons in *.
  set (n := g_num t) in *. simpl in Hnd, Hcnt. apply NoDup_cons in Hnd as [Hnin Hnd]. apply Forall_cons in Hav as [_ Hav].
  pose proof (se_max _ _ _ Hse) as Em.
  assert (Hsz : (size (Window.missing (advance w n)) <= size (Window.missing w) + (n - Window.next w))%nat).
  { simpl. rewrite size_union_alt. apply Nat.add_le_mono_l.
    etransitivity; [|apply Nat.eq_le_incl, (size_set_seq (C := gset nat) (Window.next w))].
    apply subseteq_size. set_solver. }
  assert (Hcnt' : skipped_keys_count v' <= skipped_keys_count v + Z.of_nat (n - Window.next w)).
  { pose proof (rr_room _ _ _ _ _ Hrep). pose proof (rr_room _ _ _ _ _ Hrep'). lia. }
  split; rewrite ?Em; try done; try lia.
  - split; [done|]. simpl. lia.
  - destruct new as [[[kn pub] sent]|]; [|done]. destruct Hnew as [Hr Hnk].
    rewrite (rr_remote _ _ _ _ _ Hrep) in Hr. rewrite (rr_remote _ _ _ _ _ Hrep').
    split; [done|]. intros z. rewrite (se_keys _ _ _ Hse) by congruence. apply Hnk.
  - apply Forall_forall. intros t' Ht'. rewrite Forall_forall in Hav.
    assert (Hne : g_pub t' = q -> g_num t' <> n).
    { intros E1 E2. apply Hnin, list_elem_of_fmap. exists t'. split; [|done].
      unfold tag_id. by rewrite E1, E2, Hq. }
    destruct (Hav t' Ht') as [Hs|[(r' & w' & [= Ek Eq <- <-] & Hw')|Hc]]; [left| |by right; right].
    + destruct (decide (g_pub t' = q)) as [E|E]; [|by rewrite (se_keys _ _ _ Hse)].
      rewrite E, (rr_keys _ _ _ _ _ Hrep) in Hs. case_bool_decide as Hm; [|done].
      rewrite E, (rr_keys _ _ _ _ _ Hrep'), bool_decide_eq_true_2; [done|]. simpl. set_solver.
    + specialize (Hne ltac:(done)). destruct (decide (g_num t' < n)%nat) as [Hlt|Hge].
      * left. rewrite <- Eq, (rr_keys _ _ _ _ _ Hrep'), bool_decide_eq_true_2; [by rewrite Ek|].
        simpl. apply elem_of_union. right. apply elem_of_set_seq. lia.
      * right; left. exists room, (advance w n). rewrite <- Ek, <- Eq. simpl. split; [done|lia].
  - simpl. lia.
Qed.

(** A message of the chain in use, beyond its window. *)
Lemma deliver_in_use v k room w p new t tags m c :
  inbound v (Some (k, g_pub t, room, w)) p new (t :: tags) -> tagged t m -> in_time m ->
  messages_received v < U64_MAX -> k = g_chain t -> (Window.next w <= g_num t < p)%nat ->
  exists v' c', decrypt cfg (pk_data m) (pk_ad m) env v c = (Ok (pk_pt m), v', c') /\
    inbound v' (Some (k, g_pub t, room, advance w (g_num t))) p new tags /\ same_outgoing v v'.
Proof.
  intros Hin Htg Htm Hmr -> Hn. pose proof (tagged_now t m Htg Htm) as Hg. destruct Htg as [_ Hu Hl Hz].
  pose proof Hin as [(Hrep & Hp & _) _ _ _ Hcnt Hlim _]. simpl in Hcnt.
  destruct (decrypt_deliver cfg (g_chain t) (g_pub t) room lo hi env Hcfg Hclock Hl Hz w _ _ _ _ _ v c Hrep Hmr Hg Hu)
    as (v' & c' & E & Hrep' & Hmr' & Hse). exists v', c'.
  assert (Hd : Window.deliver room w (g_num t) = Window.Accept (advance w (g_num t))).
  { unfold Window.deliver. rewrite bool_decide_eq_false_2.
    2: { intros Hm. apply (rr_wf _ _ _ _ _ Hrep) in Hm. lia. }
    rewrite bool_decide_eq_false_2 by lia. pose proof (rr_room _ _ _ _ _ Hrep).
    destruct (Z.leb_spec (Z.of_nat (size (Window.missing w)) + Z.of_nat (g_num t - Window.next w)) room); [done|lia]. }
  rewrite Hd in E, Hrep'. simpl in E, Hrep'. split; [done|]. split; [by eapply inbound_advance|].
  pose proof (rr_remote _ _ _ _ _ Hrep). pose proof (rr_remote _ _ _ _ _ Hrep').
  destruct Hse. split; try done. congruence.
Qed.

(** Any message but one of a chain to come. *)
Lemma deliver_known v old p new t tags m c :
  inbound v old p new (t :: tags) -> tagged t m -> in_time m -> messages_received v < U64_MAX ->
  (exists sent, new = Some (g_chain t, g_pub t, sent) /\ (g_num t < sent)%nat /\ g_pcl t = Z.of_nat p) \/
  exists v' c' old', decrypt cfg (pk_data m) (pk_ad m) env v c = (Ok (pk_pt m), v', c') /\
    inbound v' old' p new tags /\ same_in_use old old' /\ same_outgoing v v'.
Proof.
  intros Hin Htg Htm Hmr. pose proof (ib_available _ _ _ _ _ Hin) as Hav.
  apply Forall_cons in Hav as [[Hk|[(room & w & -> & Hn)|Hc]] _]; [right..|by left].
  - by eapply deliver_stored.
  - destruct (deliver_in_use v (g_chain t) room w p new t tags m c) as (v' & c' & E & Hi & Hs); try done.
    exists v', c'. eexists. split; [done|]. split; [exact Hi|]. by split.
Qed.

(** ** Delivering on a chain to come *)

Lemma inbound_leaving v old p new tags : inbound v old p new tags -> leaving p old v.
Proof.
  intros [Hw _ _ _ Hcnt Hlim _]. destruct old as [[[[k q] room] w]|]; simpl in *.
  - destruct Hw as (Hrep & Hp & Hn). pose proof (rr_room _ _ _ _ _ Hrep). split; [done|]. split; [done|]. lia.
  - split; [done|]. unfold skipped_bounded. lia.
Qed.

Lemma inbound_enter a k p old x y y' b' k' sent t tags :
  inbound y old p (Some (k, x25519_public a, sent)) (t :: tags) ->
  caught_up a k p old (g_num t) x y y' b' k' -> g_pub t = x25519_public a ->
  (g_num t < sent)%nat -> Z.of_nat sent <= DEFAULT_MAX_MESSAGES ->
  inbound y' (Some (k, x25519_public a,
    max_skip y - skipped_keys_count y - Z.of_nat (to_skip p old),
    Window.mk (S (g_num t)) (set_seq 0 (g_num t)))) sent None tags.
Proof.
  intros [Hw [Hr Hnk] Hnd Hav Hcnt Hlim Hmax] [Hrep _ Hkept _ _ _ _ Em Hkeys] Hq Hlt Hs.
  rewrite len_cons in *. set (n := g_num t) in *. simpl in Hnd, Hcnt.
  apply NoDup_cons in Hnd as [Hnin Hnd]. apply Forall_cons in Hav as [_ Hav].
  pose proof (rr_room _ _ _ _ _ Hrep) as Hro. simpl in Hro. rewrite size_set_seq in Hro.
  split; rewrite ?Em; try done; try lia.
  - apply Forall_forall. intros t' Ht'. rewrite Forall_forall in Hav.
    destruct (Hav t' Ht') as [Hst|[(r' & w' & -> & Hw')|(s' & [= Ek Eq Es] & Hlt' & _)]]; [left; apply Hkeys; [|done]| |].
    + intros E. by rewrite E, Hnk in Hst.
    + left. apply Hkept. by right.
    + assert (Hne : g_num t' <> n).
      { intros E. apply Hnin, list_elem_of_fmap. exists t'. split; [|done].
        unfold tag_id. by rewrite E, <- Eq, Hq. }
      destruct (decide (g_num t' < n)%nat) as [Hl|Hl].
      * left. rewrite <- Eq, (rr_keys _ _ _ _ _ Hrep), bool_decide_eq_true_2; [by rewrite Ek|].
        simpl. apply elem_of_set_seq. lia.
      * right; left. eexists _, _. rewrite <- Ek, <- Eq. split; [reflexivity|]. simpl. lia.
  - simpl. lia.
Qed.

Lemma deliver_coming a b k x y p old sent t tags m c :
  inbound y old p (Some (k, x25519_public a, sent)) (t :: tags) -> tagged t m -> in_time m ->
  messages_received y < U64_MAX -> ahead a b k x y ->
  g_chain t = k -> g_pub t = x25519_public a -> (g_num t < sent)%nat -> g_pcl t = Z.of_nat p ->
  Z.of_nat sent <= DEFAULT_MAX_MESSAGES ->
  exists b' k' y' c' old', decrypt cfg (pk_data m) (pk_ad m) env y c = (Ok (pk_pt m), y', c') /\
    caught_up a k p old (g_num t) x y y' b' k' /\
    old' = Some (k, x25519_public a, max_skip y - skipped_keys_count y - Z.of_nat (to_skip p old),
                 Window.mk (S (g_num t)) (set_seq 0 (g_num t))) /\
    inbound y' old' sent None tags.
Proof.
  intros Hin Htg Htm Hmr Ha Ek Eq Hlt Ep Hs. pose proof (tagged_now t m Htg Htm) as Hg.
  destruct Htg as [_ Hu _ Hz]. rewrite Ek, Eq, Ep in *.
  pose proof Hin as [_ [Hr Hnk] _ _ Hcnt Hlim Hmax]. simpl in Hcnt. pose proof (inbound_leaving _ _ _ _ _ Hin) as Hlv.
  destruct (decrypt_catches_up cfg env lo hi a b k x y p old (g_num t) (pk_pt m) (pk_ad m) (pk_data m) c)
    as (b' & k' & y' & c' & E & Hcu); try done; [lia|].
  exists b', k', y', c'. eexists. split; [done|]. split; [done|]. split; [reflexivity|].
  by eapply inbound_enter.
Qed.

End Deliver.
End Inbox.
