(* ===== verification/SessionNetwork.v ===== *)
(** * Two sessions and a network between them

    Either side may send at any time, and any message in flight may be
    delivered at any time: out of order, interleaved with sending, crossing
    messages of the other side, late by any number of DH steps, or never.  A
    run is a sequence of such events; the invariant says which of the two
    sessions is ahead and that each can open whatever is in flight to it. *)

From S2P Require Import Prelude Effects Errors Primitives Compare Random Validation Padding Kdf Handler Encryptor Chain Message RatchetState Session SessionInvariant SessionReceive SessionSend SessionRatchet SessionInbox.
#[local] Open Scope Z_scope.
#[local] Open Scope sibna_scope.

Inductive Party := Alice | Bob.

(** A session and the messages in flight to it. *)
Record Side := mkSide { s_state : DoubleRatchetState; s_inbox : list Packet }.

Definition Net : Type := Side * Side.

(** The two sides as [p] sees them: itself first. *)
Definition view (p : Party) (n : Net) : Net := match p with Alice => n | Bob => (n.2, n.1) end.

Inductive Event :=
| Send (who : Party) (pt ad : bytes) (env : Env) (c : Ctr) (lo hi : Z)
| Deliver (who : Party) (i : nat) (env : Env) (c : Ctr) (lo hi : Z).

Inductive Outcome :=
| Sent (r : PResult bytes)
| Received (r : PResult bytes) (sent : bytes)
| Nothing.

Section Network.
Context {P : Primitives} {L : PrimitiveLaws P}.
Context (cfg : Config).

(** [encrypt], and what it returns goes on the wire. *)
Definition send (pt ad : bytes) (env : Env) (c : Ctr) (lo hi : Z) (n : Net) : PResult bytes * Net :=
  let '(r, s, _) := encrypt cfg pt ad env (s_state n.1) c in
  (r, (mkSide s (s_inbox n.1),
       match r with
       | Ok data => mkSide (s_state n.2) (mkPacket pt ad data lo hi :: s_inbox n.2)
       | _ => n.2
       end)).

(** [decrypt] on message [i] in flight. *)
Definition deliver (i : nat) (env : Env) (c : Ctr) (n : Net) : Outcome * Net :=
  match s_inbox n.1 !! i with
  | Some m =>
      let '(r, s, _) := decrypt cfg (pk_data m) (pk_ad m) env (s_state n.1) c in
      (Received r (pk_pt m), (mkSide s (delete i (s_inbox n.1)), n.2))
  | None => (Nothing, n)
  end.

Definition step (e : Event) (n : Net) : Outcome * Net :=
  match e with
  | Send who pt ad env c lo hi =>
      let (r, n') := send pt ad env c lo hi (view who n) in (Sent r, view who n')
  | Deliver who i env c _ _ => let (o, n') := deliver i env c (view who n) in (o, view who n')
  end.

Fixpoint run (es : list Event) (n : Net) : list Outcome * Net :=
  match es with
  | [] => ([], n)
  | e :: es => let (o, n') := step e n in let (os, n'') := run es n' in (o :: os, n'')
  end.

(** ** Conditions on a run *)

(** The DH key of [s] is new to [peer]. *)
Definition unused_key (s peer : DoubleRatchetState) : bool :=
  match dh_local s with
  | Some sk =>
      negb (bool_decide (dh_remote peer = Some (x25519_public sk))) &&
      forallb (fun kv => negb (bool_decide (kv.1.1 = x25519_public sk)))
        (map_to_list (skipped_message_keys peer))
  | None => true
  end.

(** The sending chain is not due for rotation. *)
Definition not_due (hi : Z) (s : DoubleRatchetState) : Prop :=
  match sending_chain s with
  | Some ck => ck_index ck < DEFAULT_MAX_MESSAGES /\ hi <= ck_created_at ck + 86400
  | None => True
  end.

(** The event is one the two sides can take: clocks and random source are in
    order, the message is of a size [encrypt] takes, there is room for one more
    message in flight, a message arrives in its time window, and a DH key drawn
    is new.  [encrypt] may still refuse: then nothing is claimed of the rest. *)
Definition admissible (e : Event) (n : Net) : Prop :=
  match e with
  | Send who pt ad env c lo hi =>
      let x := (view who n).1 in let y := (view who n).2 in
      sane_clock env lo hi /\ rng_healthy env /\ hi <= lo + 300 /\ sendable (pt, ad) /\
      not_due hi (s_state x) /\ len (s_inbox y) < max_skip (s_state y) /\
      is_ok (send pt ad env c lo hi (view who n)).1 = true /\
      (sending_chain (s_state x) = None ->
       unused_key (s_state (send pt ad env c lo hi (view who n)).2.1) (s_state y) = true)
  | Deliver who i env c lo hi =>
      let x := (view who n).1 in let x' := (deliver i env c (view who n)).2.1 in
      sane_clock env lo hi /\ (exists m, s_inbox x !! i = Some m /\ in_time lo hi m) /\
      (dh_remote (s_state x') = dh_remote (s_state x) \/
       unused_key (s_state x') (s_state (view who n).2) = true)
  end.

Fixpoint admissible_run (es : list Event) (n : Net) : Prop :=
  match es with
  | [] => True
  | e :: es => admissible e n /\ admissible_run es (step e n).2
  end.

(** The same, as a test: all but the clocks and random sources. *)
Definition allowed (e : Event) (n : Net) : bool :=
  match e with
  | Send who pt ad env c lo hi =>
      let x := s_state (view who n).1 in let y := (view who n).2 in
      let r := send pt ad env c lo hi (view who n) in
      (hi <=? lo + 300) && (1 <=? len pt) && (len pt <=? limits.MAX_MESSAGE_SIZE) &&
      (len ad <=? limits.MAX_AD_LEN - 56) && (len (s_inbox y) <? max_skip (s_state y)) && is_ok r.1 &&
      match sending_chain x with
      | Some ck => (ck_index ck <? DEFAULT_MAX_MESSAGES) && (hi <=? ck_created_at ck + 86400)
      | None => unused_key (s_state r.2.1) (s_state y)
      end
  | Deliver who i env c lo hi =>
      let x := (view who n).1 in let x' := s_state (deliver i env c (view who n)).2.1 in
      match s_inbox x !! i with
      | Some m => (pk_hi m <=? lo + 30) && (hi <=? pk_lo m + 86400) &&
          (bool_decide (dh_remote x' = dh_remote (s_state x)) || unused_key x' (s_state (view who n).2))
      | None => false
      end
  end.

Fixpoint allowed_run (es : list Event) (n : Net) : bool :=
  match es with
  | [] => true
  | e :: es => allowed e n && allowed_run es (step e n).2
  end.

Definition in_order (e : Event) : Prop :=
  match e with
  | Send _ _ _ env _ lo hi => sane_clock env lo hi /\ rng_healthy env
  | Deliver _ _ env _ lo hi => sane_clock env lo hi
  end.

Lemma allowed_admissible e n : in_order e -> allowed e n = true -> admissible e n.
Proof.
  destruct e as [who pt ad env c lo hi|who i env c lo hi]; unfold allowed, admissible, in_order, sendable, not_due, in_time.
  - intros [Hc Hr]. rewrite !andb_true_iff, !Z.leb_le, Z.ltb_lt. intros ((((((? & ?) & ?) & ?) & ?) & ?) & Hs).
    split_and!; try done; destruct (sending_chain _) as [ck|]; try done.
    rewrite andb_true_iff, Z.leb_le, Z.ltb_lt in Hs. done.
  - intros Hc. destruct (s_inbox _ !! i) as [m|]; [|done].
    rewrite !andb_true_iff, orb_true_iff, bool_decide_eq_true, !Z.leb_le. intros ((? & ?) & ?).
    split; [done|]. split; [by exists m|done].
Qed.

Lemma allowed_run_admissible es : forall n,
  Forall in_order es -> allowed_run es n = true -> admissible_run es n.
Proof.
  induction es as [|e es IH]; intros n Ho; simpl; [done|]. apply Forall_cons in Ho as [He Ho].
  intros [Ha Hr]%andb_true_iff. split; [by apply allowed_admissible|by apply IH].
Qed.

Lemma unused_key_spec s peer sk : dh_local s = Some sk -> unused_key s peer = true ->
  dh_remote peer <> Some (x25519_public sk) /\
  forall z, skipped_message_keys peer !! (x25519_public sk, z) = None.
Proof.
  intros Hl. unfold unused_key. rewrite Hl. intros [H1 H2]%andb_true_iff. split.
  - intros E. by rewrite bool_decide_eq_true_2 in H1.
  - intros z. destruct (_ !! _) as [mk|] eqn:E; [|done]. apply elem_of_map_to_list in E.
    rewrite forallb_forall in H2. apply list_elem_of_In, H2 in E. simpl in E.
    by rewrite bool_decide_eq_true_2 in E.
Qed.

(** ** The invariant *)

(** Nobody has taken a DH step: the responder [y] has only received. *)
Record opening (x y : Side) : Prop := {
  op_rep : exists a b k i room w tags,
    root_key (s_state x) = root_key (s_state y) /\
    length a = 32%nat /\ length b = 32%nat /\ sending k a i (s_state x) /\
    dh_local (s_state y) = Some b /\ dh_remote (s_state x) = Some (x25519_public b) /\
    inbound (s_state y) (Some (k, x25519_public a, room, w)) i None tags /\
    Forall2 tagged tags (s_inbox y);
  op_quiet : sending_chain (s_state y) = None;
  op_previous : previous_counter (s_state y) = 0;
  op_empty : s_inbox x = [];
  op_in : inbound (s_state x) None 0 None []
}.

(** [x] is ahead of [y] by a chain on which it has sent [i] messages. *)
Record leading (x y : Side) : Prop := {
  ld_rep : exists a b k i k2 j p old room w tx ty,
    ahead a b k (s_state x) (s_state y) /\ Z.of_nat i <= DEFAULT_MAX_MESSAGES /\
    sending k a i (s_state x) /\ sending k2 b j (s_state y) /\
    previous_counter (s_state x) = Z.of_nat p /\
    inbound (s_state y) old p (Some (k, x25519_public a, i)) ty /\ Forall2 tagged ty (s_inbox y) /\
    inbound (s_state x) (Some (k2, x25519_public b, room, w)) j None tx /\ Forall2 tagged tx (s_inbox x)
}.

Definition connected (n : Net) : Prop :=
  opening n.1 n.2 \/ opening n.2 n.1 \/ leading n.1 n.2 \/ leading n.2 n.1.

(** The counters have room for [t] more events. *)
Definition countable (t : nat) (s : DoubleRatchetState) : Prop :=
  0 <= messages_sent s /\ messages_sent s + Z.of_nat t < U64_MAX /\ messages_received s + Z.of_nat t < U64_MAX.

Definition sent_one (s s' : DoubleRatchetState) : Prop :=
  messages_sent s' = messages_sent s + 1 /\ messages_received s' = messages_received s.

(** ** Sending *)
Section SendStep.
Context (env : Env) (c : Ctr) (lo hi : Z) (pt ad : bytes).
Hypothesis (Hcfg : enable_header_encryption cfg = false).
Hypothesis (Hclock : sane_clock env lo hi) (Hrng : rng_healthy env) (Hshort : hi <= lo + 300).
Hypothesis (Hsend : sendable (pt, ad)).

(** Sealing succeeded: the packet is message [n] of the chain. *)
Lemma seal_next_tagged k sk n s c1 rotated data s' c' :
  sending k sk n s -> Z.of_nat n < DEFAULT_MAX_MESSAGES -> length sk = 32%nat ->
  messages_sent s + 1 < U64_MAX ->
  seal_next cfg pt ad rotated env s c1 = (Ok data, s', c') ->
  tagged (mkTag k (x25519_public sk) (previous_counter s) n) (mkPacket pt ad data lo hi) /\
  sending k sk (S n) s' /\ sealed_from (hi - 30) (lo + 86400) k sk n s pt ad data s'.
Proof.
  intros Hs Hn Hl Hms E. destruct Hsend as [Hpt Had].
  pose proof (seal_next_run cfg env lo hi (hi - 30) (lo + 86400) Hcfg Hclock Hrng Hshort ltac:(lia) ltac:(lia)
    k sk n s c1 pt ad rotated Hs Hn Hl Hpt Had) as Hr.
  destruct (all_zero (x25519_public sk)) eqn:Hz; cbn [orb] in Hr; [destruct Hr as (? & ? & ? & ?); congruence|].
  destruct (weak_key (message_key_at k n)) eqn:Hw; [destruct Hr as (? & ? & ? & ?); congruence|].
  destruct Hr as (data' & s1 & c2 & E' & Hsf). rewrite E in E'. injection E' as <- <- <-.
  pose proof Hsf as []. split; [|split; [|done]].
  - split; simpl; try done. by apply x25519_public_len.
  - destruct Hs as [(ck & Hsc & (_ & _ & ?) & Hmx & Hrs) Hlo Hpv Hsn].
    split; [|congruence..|lia]. exists (chain_to k ck (S n)). by rewrite sf_chain, Hsc.
Qed.

Lemma send_run x y : is_ok (send pt ad env c lo hi (x, y)).1 = true ->
  exists data s' c', encrypt cfg pt ad env (s_state x) c = (Ok data, s', c') /\
    send pt ad env c lo hi (x, y) =
      (Ok data, (mkSide s' (s_inbox x), mkSide (s_state y) (mkPacket pt ad data lo hi :: s_inbox y))).
Proof.
  unfold send. simpl. destruct (encrypt cfg pt ad env (s_state x) c) as [[[data| |] s'] c']; try done.
  intros _. by exists data, s', c'.
Qed.

(** Sending on the chain in place. *)
Lemma on_chain_tagged k sk n s data s' c' :
  sending k sk n s -> not_due hi s -> length sk = 32%nat -> messages_sent s + 1 < U64_MAX ->
  encrypt cfg pt ad env s c = (Ok data, s', c') ->
  tagged (mkTag k (x25519_public sk) (previous_counter s) n) (mkPacket pt ad data lo hi) /\
  Z.of_nat n < DEFAULT_MAX_MESSAGES /\
  sending k sk (S n) s' /\ sealed_from (hi - 30) (lo + 86400) k sk n s pt ad data s'.
Proof.
  intros Hs Hd Hl Hms E. pose proof Hs as [(ck & Hsc & Hcr & Hmx & Hrs) Hlo Hpv Hsn].
  unfold not_due in Hd. rewrite Hsc in Hd. destruct Hd as [Hi Ha].
  assert (Hn : Z.of_nat n < DEFAULT_MAX_MESSAGES) by (destruct Hcr as (_ & <- & _); lia).
  assert (Hrep : send_rep hi k sk n s) by (split; try done; by exists ck).
  destruct (encrypt_on_chain cfg env lo hi Hclock k sk n s c pt ad Hrep Hn) as (c1 & E1); [apply Hsend..|].
  rewrite E1 in E. apply (seal_next_tagged k sk n) in E as (? & ? & ?); done.
Qed.

(** The sender's own inbox is not touched by sending. *)
Lemma sealed_inbound k sk n s data s' old p new tags :
  sealed_from (hi - 30) (lo + 86400) k sk n s pt ad data s' ->
  inbound s old p new tags -> inbound s' old p new tags.
Proof. intros []. by apply inbound_frame. Qed.

Lemma sending_chain_rep k sk n s : sending k sk n s ->
  exists m ck, sending_chain s = Some ck /\ chain_rep k m ck.
Proof. intros [(ck & ? & ? & _) _ _ _]. by exists n, ck. Qed.

Lemma opening_send_first x y : opening x y -> not_due hi (s_state x) ->
  messages_sent (s_state x) + 1 < U64_MAX -> len (s_inbox y) < max_skip (s_state y) ->
  is_ok (send pt ad env c lo hi (x, y)).1 = true ->
  let n' := (send pt ad env c lo hi (x, y)).2 in
  opening n'.1 n'.2 /\ sent_one (s_state x) (s_state n'.1).
Proof.
  intros [(a & b & k & i & room & w & tags & Hroot & Hla & Hlb & Hs & Hlo & Hre & Hin & Htg) Hq Hpv He Hx]
    Hd Hms Hlen Hok.
  destruct (send_run x y Hok) as (data & s' & c' & E & ->).
  destruct (on_chain_tagged k a i _ _ _ _ Hs Hd Hla Hms E) as (Ht & Hi & Hs' & Hsf).
  simpl. split; [|by destruct Hsf]. split; simpl; try done; [|by eapply sealed_inbound].
  exists a, b, k, (S i), room, w, (mkTag k (x25519_public a) (previous_counter (s_state x)) i :: tags).
  assert (len tags = len (s_inbox y)) by (unfold len; by rewrite (Forall2_length _ _ _ Htg)).
  pose proof Hsf as []. rewrite sf_root, sf_remote. do 6 (split; [done|]).
  split; [apply inbound_send; try done; lia|]. by constructor.
Qed.

(** The responder's first message: it takes a DH step and is ahead. *)
Lemma opening_send_reply x y : opening x y ->
  messages_sent (s_state y) + 1 < U64_MAX -> 0 <= messages_sent (s_state y) ->
  len (s_inbox x) < max_skip (s_state x) ->
  is_ok (send pt ad env c lo hi (y, x)).1 = true ->
  unused_key (s_state (send pt ad env c lo hi (y, x)).2.1) (s_state x) = true ->
  let n' := (send pt ad env c lo hi (y, x)).2 in
  leading n'.1 n'.2 /\ sent_one (s_state y) (s_state n'.1).
Proof.
  intros [(a & b & k & i & room & w & tags & Hroot & Hla & Hlb & Hs & Hlo & Hre & Hin & Htg) Hq Hpv He Hx]
    Hms H0 Hlen Hok.
  destruct (send_run y x Hok) as (data & s' & c' & E & ->). simpl. intros Hnew.
  rewrite encrypt_split, Hq in E by apply Hsend. unfold bind at 1, lift at 1, io_ret at 1 in E.
  destruct (perform_dh_ratchet_ahead env lo hi (proj1 Hclock) a (s_state y) (s_state x) c)
    as (b' & k' & y1 & c1 & E1 & Ha & (t & Hst & _) & Hrc & Hpv1 & Hre1 & [Hk1 Hm1 Hs1 Hr1]);
    [done | apply Hs | done | apply (rr_remote _ _ _ _ _ (proj1 (ib_window _ _ _ _ _ Hin))) |].
  rewrite (bind_ok _ _ _ _ _ _ _ _ E1) in E.
  assert (Hsy : sending k' b' 0 y1).
  { split; [|apply Ha|rewrite Hpv1, Hpv; unfold in_u, U64_MAX; lia|lia].
    eexists. split; [exact Hst|]. by split; [apply fresh_chain_rep|]. }
  destruct (seal_next_tagged k' b' 0 y1 c1 true data s' c' Hsy) as (Ht & Hs' & Hsf);
    [unfold DEFAULT_MAX_MESSAGES; lia | apply Ha | lia | done |].
  pose proof Hsf as []. destruct (unused_key_spec s' (s_state x) b') as [Hu1 Hu2]; [by rewrite sf_local; apply Ha|done|].
  split; [|split; congruence]. split. exists b', a, k', 1%nat, k, i, 0%nat, None, room, w, tags. eexists. simpl.
  split. { eapply ahead_frame; [exact Ha|done|done|done|done|]. by eapply sending_chain_rep. }
  split; [unfold DEFAULT_MAX_MESSAGES; lia|]. split; [done|]. split; [done|].
  split; [by rewrite sf_previous, Hpv1, Hpv|].
  split. { apply inbound_send_coming; [by apply inbound_announce|]. rewrite He in Hlen.
    unfold len in *. simpl in *. lia. }
  split. { rewrite He. constructor; [|constructor]. by rewrite Hpv1, Hpv in Ht. }
  split; [|done]. eapply sealed_inbound; [done|]. by apply (inbound_frame (s_state y)).
Qed.

Lemma leading_send_ahead x y : leading x y -> not_due hi (s_state x) ->
  messages_sent (s_state x) + 1 < U64_MAX -> len (s_inbox y) < max_skip (s_state y) ->
  is_ok (send pt ad env c lo hi (x, y)).1 = true ->
  let n' := (send pt ad env c lo hi (x, y)).2 in
  leading n'.1 n'.2 /\ sent_one (s_state x) (s_state n'.1).
Proof.
  intros [(a & b & k & i & k2 & j & p & old & room & w & tx & ty & Ha & Hi & Hs & Hs2 & Hp & Hy & Hty & Hx & Htx)]
    Hd Hms Hlen Hok.
  destruct (send_run x y Hok) as (data & s' & c' & E & ->).
  destruct (on_chain_tagged k a i _ _ _ _ Hs Hd (ah_len _ _ _ _ _ Ha) Hms E) as (Ht & Hlt & Hs' & Hsf).
  pose proof Hsf as []. simpl. split; [|by split]. split. simpl. exists a, b, k, (S i), k2, j, p, old, room, w, tx. eexists.
  split. { eapply ahead_frame; [exact Ha|done..|]. by eapply sending_chain_rep. }
  split; [lia|]. split; [done|]. split; [done|]. split; [congruence|].
  assert (len ty = len (s_inbox y)) by (unfold len; by rewrite (Forall2_length _ _ _ Hty)).
  split; [apply inbound_send_coming; [done|lia]|].
  split; [constructor; [by rewrite <- Hp|done]|]. split; [|done]. by eapply sealed_inbound.
Qed.

Lemma leading_send_behind x y : leading x y -> not_due hi (s_state y) ->
  messages_sent (s_state y) + 1 < U64_MAX -> len (s_inbox x) < max_skip (s_state x) ->
  is_ok (send pt ad env c lo hi (y, x)).1 = true ->
  let n' := (send pt ad env c lo hi (y, x)).2 in
  leading n'.2 n'.1 /\ sent_one (s_state y) (s_state n'.1).
Proof.
  intros [(a & b & k & i & k2 & j & p & old & room & w & tx & ty & Ha & Hi & Hs & Hs2 & Hp & Hy & Hty & Hx & Htx)]
    Hd Hms Hlen Hok.
  destruct (send_run y x Hok) as (data & s' & c' & E & ->).
  destruct (on_chain_tagged k2 b j _ _ _ _ Hs2 Hd (ah_peer_len _ _ _ _ _ Ha) Hms E) as (Ht & Hlt & Hs' & Hsf).
  pose proof Hsf as []. simpl. split; [|by split]. split. simpl. exists a, b, k, i, k2, (S j), p, old, room, w.
  exists (mkTag k2 (x25519_public b) (previous_counter (s_state y)) j :: tx), ty.
  split. { eapply ahead_frame; [exact Ha|done..|]. by eapply sending_chain_rep. }
  do 4 (split; [done|]). split; [by eapply sealed_inbound|]. split; [done|].
  assert (len tx = len (s_inbox x)) by (unfold len; by rewrite (Forall2_length _ _ _ Htx)).
  split; [apply inbound_send; try done; lia|]. by constructor.
Qed.

End SendStep.

(** ** Delivering *)
Section DeliverStep.
Context (env : Env) (c : Ctr) (lo hi : Z) (i : nat).
Hypothesis (Hcfg : enable_header_encryption cfg = false) (Hclock : sane_clock env lo hi).

(** What the caller of [decrypt] sees is what was sent. *)
Definition delivered (o : Outcome) : Prop :=
  match o with Received r pt => r = Ok pt | Sent r => is_ok r = true | Nothing => False end.

Lemma deliver_run x y m v' c' :
  s_inbox x !! i = Some m -> decrypt cfg (pk_data m) (pk_ad m) env (s_state x) c = (Ok (pk_pt m), v', c') ->
  deliver i env c (x, y) = (Received (Ok (pk_pt m)) (pk_pt m), (mkSide v' (delete i (s_inbox x)), y)).
Proof. intros Hm E. unfold deliver. simpl. by rewrite Hm, E. Qed.

(** The tag of message [i], taken to the front. *)
Lemma tag_at v old p new tags l m :
  inbound v old p new tags -> Forall2 tagged tags l -> l !! i = Some m ->
  exists t, tagged t m /\ inbound v old p new (t :: delete i tags) /\
    Forall2 tagged (delete i tags) (delete i l).
Proof.
  intros Hin Hf Hm. destruct (Forall2_lookup_r _ _ _ _ _ Hf Hm) as (t & Ht & Htg).
  exists t. split; [done|]. split; [|by apply Forall2_delete].
  eapply inbound_perm; [|exact Hin]. by apply delete_Permutation.
Qed.

Lemma sending_kept k sk n s s' : same_outgoing s s' -> sending k sk n s -> sending k sk n s'.
Proof. intros [_ E1 E2 E3 E4 _ _ _] []. split; by rewrite ?E1, ?E2, ?E3, ?E4. Qed.

Lemma ahead_kept_left a b k x x' y : same_outgoing x x' -> ahead a b k x y -> ahead a b k x' y.
Proof. intros [] Ha. eapply ahead_frame; [exact Ha|done..|]. rewrite so_sending. apply Ha. Qed.

Lemma ahead_kept_right a b k x y y' : same_outgoing y y' -> ahead a b k x y -> ahead a b k x y'.
Proof. intros [] Ha. eapply ahead_frame; [exact Ha|done..|]. apply Ha. Qed.

Lemma opening_deliver x y m : opening x y -> s_inbox y !! i = Some m -> in_time lo hi m ->
  messages_received (s_state y) < U64_MAX ->
  exists y', deliver i env c (y, x) = (Received (Ok (pk_pt m)) (pk_pt m), (y', x)) /\
    opening x y' /\ same_outgoing (s_state y) (s_state y').
Proof.
  intros [(a & b & k & n & room & w & tags & Hroot & Hla & Hlb & Hs & Hlo & Hre & Hin & Htg) Hq Hpv He Hx] Hm Htm Hmr.
  destruct (tag_at _ _ _ _ _ _ _ Hin Htg Hm) as (t & Ht & Hin' & Htg').
  destruct (deliver_known cfg env lo hi Hcfg Hclock _ _ _ _ _ _ _ c Hin' Ht Htm Hmr)
    as [(? & ? & _)|(v' & c' & old' & E & Hin2 & Hold & Hso)]; [done|].
  destruct old' as [[[[k' q'] room'] w']|]; [|done]. destruct Hold as [-> ->].
  eexists. split; [by eapply deliver_run|]. split; [|done]. pose proof Hso as []. split; simpl; try congruence.
  exists a, b, k, n, room', w', (delete i tags). rewrite so_root, so_local. by split_and!.
Qed.

(** The side that is ahead receives. *)
Lemma leading_deliver_ahead x y m : leading x y -> s_inbox x !! i = Some m -> in_time lo hi m ->
  messages_received (s_state x) < U64_MAX ->
  exists x', deliver i env c (x, y) = (Received (Ok (pk_pt m)) (pk_pt m), (x', y)) /\
    leading x' y /\ same_outgoing (s_state x) (s_state x').
Proof.
  intros [(a & b & k & n & k2 & j & p & old & room & w & tx & ty & Ha & Hi & Hs & Hs2 & Hp & Hy & Hty & Hx & Htx)] Hm Htm Hmr.
  destruct (tag_at _ _ _ _ _ _ _ Hx Htx Hm) as (t & Ht & Hin' & Htg').
  destruct (deliver_known cfg env lo hi Hcfg Hclock _ _ _ _ _ _ _ c Hin' Ht Htm Hmr)
    as [(? & ? & _)|(v' & c' & old' & E & Hin2 & Hold & Hso)]; [done|].
  destruct old' as [[[[k' q'] room'] w']|]; [|done]. destruct Hold as [-> ->].
  eexists. split; [by eapply deliver_run|]. split; [|done]. split. simpl.
  exists a, b, k, n, k2, j, p, old, room', w', (delete i tx), ty.
  split; [by eapply ahead_kept_left|]. split; [done|]. split; [by eapply sending_kept|]. split; [done|].
  split; [by rewrite (so_previous _ _ Hso)|]. done.
Qed.

(** The side that is behind receives, and perhaps catches up. *)
Lemma leading_deliver_behind x y m : leading x y -> s_inbox y !! i = Some m -> in_time lo hi m ->
  messages_received (s_state y) < U64_MAX ->
  exists y', deliver i env c (y, x) = (Received (Ok (pk_pt m)) (pk_pt m), (y', x)) /\
    messages_sent (s_state y') = messages_sent (s_state y) /\
    messages_received (s_state y') <= messages_received (s_state y) + 1 /\
    (dh_remote (s_state y') = dh_remote (s_state y) \/ unused_key (s_state y') (s_state x) = true ->
     leading x y' \/ leading y' x).
Proof.
  intros [(a & b & k & n & k2 & j & p & old & room & w & tx & ty & Ha & Hi & Hs & Hs2 & Hp & Hy & Hty & Hx & Htx)] Hm Htm Hmr.
  destruct (tag_at _ _ _ _ _ _ _ Hy Hty Hm) as (t & Ht & Hin' & Htg').
  destruct (deliver_known cfg env lo hi Hcfg Hclock _ _ _ _ _ _ _ c Hin' Ht Htm Hmr)
    as [(n' & [= Ek Eq <-] & Hlt & Hpcl)|(v' & c' & old' & E & Hin2 & Hold & Hso)].
  - destruct (deliver_coming cfg env lo hi Hcfg Hclock a b k _ _ _ _ n t _ m c Hin' Ht Htm Hmr Ha)
      as (b' & k' & y' & c' & old' & E & [Hcw Hca _ (t' & Hst) Hpv Hsn Hrc _ _] & -> & Hin2); try done.
    eexists. split; [by eapply deliver_run|]. simpl. split; [done|]. split; [lia|].
    intros Hfresh. right. pose proof Hs2 as [(ck & Hsc & Hcr & _) _ _ Hsn2].
    assert (Hj : previous_counter y' = Z.of_nat j).
    { rewrite Hpv, Hsc. destruct Hcr as (_ & Hj & _). exact Hj. }
    destruct (unused_key_spec y' (s_state x) b') as [Hu1 Hu2]; [apply Hca| |].
    { destruct Hfresh as [Hf|]; [|done]. destruct (ib_new _ _ _ _ _ Hy) as [Hne _].
      rewrite (rr_remote _ _ _ _ _ Hcw) in Hf. congruence. }
    split. simpl. exists b', a, k', 0%nat, k, n, j, (Some (k2, x25519_public b, room, w)).
    eexists _, _, (delete i ty), tx. split; [done|]. split; [unfold DEFAULT_MAX_MESSAGES; lia|].
    split. { split; [|apply Hca| |lia].
      - eexists. split; [exact Hst|]. by split; [apply fresh_chain_rep|].
      - rewrite Hj. destruct (ib_window _ _ _ _ _ Hx) as (_ & Hjm & _).
        unfold in_u, U64_MAX, DEFAULT_MAX_MESSAGES in *. lia. }
    split; [done|]. split; [done|]. split; [by apply inbound_announce|]. split; [done|].
    split; [exact Hin2|done].
  - eexists. split; [by eapply deliver_run|]. simpl. pose proof Hso as []. split; [done|]. split; [done|].
    intros _. left. split. simpl. exists a, b, k, n, k2, j, p, old', room, w, tx, (delete i ty).
    split; [by eapply ahead_kept_right|]. do 2 (split; [done|]). split; [by eapply sending_kept|]. done.
Qed.

End DeliverStep.

(** ** Runs *)

Lemma countable_sent t s s' : countable (S t) s -> sent_one s s' -> countable t s'.
Proof. intros (? & ? & ?) []. split_and!; lia. Qed.

Lemma countable_less t s : countable (S t) s -> countable t s.
Proof. intros (? & ? & ?). split_and!; lia. Qed.

Lemma countable_received t s s' : countable (S t) s ->
  messages_sent s' = messages_sent s -> messages_received s' <= messages_received s + 1 -> countable t s'.
Proof. intros (? & ? & ?) ? ?. split_and!; lia. Qed.

Definition both (Q : DoubleRatchetState -> Prop) (n : Net) : Prop := Q (s_state n.1) /\ Q (s_state n.2).

Lemma send_peer pt ad env c lo hi n : s_state (send pt ad env c lo hi n).2.2 = s_state n.2.
Proof. unfold send. by destruct (encrypt _ _ _ _ _ _) as [[[| |] ?] ?]. Qed.

Hypothesis (Hcfg : enable_header_encryption cfg = false).

Lemma connected_view who n : connected (view who n) <-> connected n.
Proof. destruct who; [done|]. unfold connected. simpl. tauto. Qed.

Lemma both_view Q who n : both Q (view who n) <-> both Q n.
Proof. destruct who; [done|]. unfold both. simpl. tauto. Qed.

Lemma send_keeps pt ad env c lo hi t x y :
  connected (x, y) -> both (countable (S t)) (x, y) -> admissible (Send Alice pt ad env c lo hi) (x, y) ->
  let n' := (send pt ad env c lo hi (x, y)).2 in connected n' /\ both (countable t) n'.
Proof.
  intros Hc [Hx Hy] (Hck & Hr & Hsh & Hs & Hd & Hl & Hok & Hn). cbv zeta. simpl in *.
  assert (Hroom : messages_sent (s_state x) + 1 < U64_MAX) by (destruct Hx as (? & ? & ?); lia).
  pose proof (send_peer pt ad env c lo hi (x, y)) as Hp.
  assert (H : connected (send pt ad env c lo hi (x, y)).2 /\
              sent_one (s_state x) (s_state (send pt ad env c lo hi (x, y)).2.1)).
  { unfold connected. destruct Hc as [Hc|[Hc|[Hc|Hc]]]; simpl in Hc.
    - destruct (opening_send_first env c lo hi pt ad Hcfg Hck Hr Hsh Hs x y Hc Hd Hroom Hl Hok). tauto.
    - destruct (opening_send_reply env c lo hi pt ad Hcfg Hck Hr Hsh Hs y x Hc Hroom (proj1 Hx) Hl Hok);
        [by apply Hn, Hc|tauto].
    - destruct (leading_send_ahead env c lo hi pt ad Hcfg Hck Hr Hsh Hs x y Hc Hd Hroom Hl Hok). tauto.
    - destruct (leading_send_behind env c lo hi pt ad Hcfg Hck Hr Hsh Hs y x Hc Hd Hroom Hl Hok). tauto. }
  destruct H as [H1 H2]. split; [done|]. split; [exact (countable_sent _ _ _ Hx H2)|]. rewrite Hp. by apply countable_less.
Qed.

Lemma deliver_keeps i env c lo hi t x y :
  connected (x, y) -> both (countable (S t)) (x, y) -> admissible (Deliver Alice i env c lo hi) (x, y) ->
  let r := deliver i env c (x, y) in delivered r.1 /\ connected r.2 /\ both (countable t) r.2.
Proof.
  intros Hc [Hx Hy] (Hck & (m & Hm & Htm) & Hn). cbv zeta. simpl in *.
  assert (Hmr : messages_received (s_state x) < U64_MAX) by (destruct Hx as (? & ? & ?); lia).
  assert (H : exists x', deliver i env c (x, y) = (Received (Ok (pk_pt m)) (pk_pt m), (x', y)) /\
    messages_sent (s_state x') = messages_sent (s_state x) /\
    messages_received (s_state x') <= messages_received (s_state x) + 1 /\
    (dh_remote (s_state x') = dh_remote (s_state x) \/ unused_key (s_state x') (s_state y) = true ->
     connected (x', y))).
  { unfold connected. destruct Hc as [Hc|[Hc|[Hc|Hc]]]; simpl in *.
    - rewrite (op_empty _ _ Hc), lookup_nil in Hm. done.
    - destruct (opening_deliver env c lo hi i Hcfg Hck y x m Hc Hm Htm Hmr) as (x' & E & Hc' & []).
      exists x'. by split_and!; [..|intros _; right; left].
    - destruct (leading_deliver_ahead env c lo hi i Hcfg Hck x y m Hc Hm Htm Hmr) as (x' & E & Hc' & []).
      exists x'. by split_and!; [..|intros _; right; right; left].
    - destruct (leading_deliver_behind env c lo hi i Hcfg Hck y x m Hc Hm Htm Hmr) as (x' & E & H1 & H2 & H3).
      exists x'. split_and!; [done..|]. intros H. apply H3 in H. tauto. }
  destruct H as (x' & E & H1 & H2 & H3). rewrite E in *. simpl in *. split; [done|]. split; [by apply H3|].
  split; [exact (countable_received _ _ _ Hx H1 H2)|by apply countable_less].
Qed.

(** One event. *)
Lemma step_keeps e t n :
  connected n -> both (countable (S t)) n -> admissible e n ->
  delivered (step e n).1 /\ connected (step e n).2 /\ both (countable t) (step e n).2.
Proof.
  intros Hc Hb Ha. destruct e as [who pt ad env c lo hi|who i env c lo hi]; simpl step.
  - rewrite <- (connected_view who) in Hc. rewrite <- (both_view _ who) in Hb. simpl in Ha.
    destruct (view who n) as [x y] eqn:Ev.
    pose proof (send_keeps pt ad env c lo hi t x y Hc Hb Ha) as [H1 H2].
    destruct Ha as (_ & _ & _ & _ & _ & _ & Hok & _).
    destruct (send pt ad env c lo hi (x, y)) as [r n']. split; [exact Hok|].
    by split; [apply connected_view|apply both_view].
  - rewrite <- (connected_view who) in Hc. rewrite <- (both_view _ who) in Hb. simpl in Ha.
    destruct (view who n) as [x y] eqn:Ev.
    pose proof (deliver_keeps i env c lo hi t x y Hc Hb Ha) as (H0 & H1 & H2).
    destruct (deliver i env c (x, y)) as [o n']. split; [exact H0|].
    by split; [apply connected_view|apply both_view].
Qed.

Lemma run_keeps es : forall n,
  connected n -> both (countable (length es)) n -> admissible_run es n ->
  Forall delivered (run es n).1 /\ connected (run es n).2.
Proof.
  induction es as [|e es IH]; intros n Hc Hb Ha; simpl; [by split|].
  destruct Ha as [Ha Hes]. destruct (step_keeps e (length es) n Hc Hb Ha) as (H0 & H1 & H2).
  destruct (step e n) as [o n']. simpl in *. destruct (IH n' H1 H2 Hes) as [H3 H4].
  destruct (run es n') as [os n'']. by split; [constructor|].
Qed.

(** No more keys are stored than messages are in flight. *)
Definition frugal (x : Side) : Prop := skipped_keys_count (s_state x) <= len (s_inbox x).

Lemma inbound_frugal v old p new tags l :
  inbound v old p new tags -> Forall2 tagged tags l -> skipped_keys_count v <= len l.
Proof.
  intros [_ _ _ _ Hcnt _ _] Hf. unfold len in *. rewrite <- (Forall2_length _ _ _ Hf). lia.
Qed.

Lemma connected_frugal n : connected n -> frugal n.1 /\ frugal n.2.
Proof.
  assert (G1 : forall x y, opening x y -> frugal x /\ frugal y).
  { intros x y [(a & b & k & i & room & w & tags & _ & _ & _ & _ & _ & _ & Hin & Hf) _ _ E Hx].
    split; [|by eapply inbound_frugal]. eapply inbound_frugal; [exact Hx|]. by rewrite E. }
  assert (G2 : forall x y, leading x y -> frugal x /\ frugal y).
  { intros x y [(a & b & k & i & k2 & j & p & old & room & w & tx & ty & _ & _ & _ & _ & _ & Hy & Hty & Hx & Htx)].
    split; by eapply inbound_frugal. }
  intros [H|[H|[H|H]]]; [by apply G1|apply and_comm; by apply G1|by apply G2|apply and_comm; by apply G2].
Qed.

End Network.

Section FromTheStart.
Context {P : Primitives} {L : PrimitiveLaws P}.

(** Nothing in flight to a session that has received nothing. *)
Lemma inbound_none v : receiving_chain v = None -> skipped_keys_count v = 0 ->
  0 <= max_skip v <= U64_MAX - DEFAULT_MAX_MESSAGES -> inbound v None 0 None [].
Proof. intros H1 H2 H3. split; try done; rewrite ?H2; try (unfold len; simpl; lia). constructor. Qed.

Lemma inbound_init v k q room : recv_rep k q room v Window.init -> max_skip v = room ->
  0 <= room <= U64_MAX - DEFAULT_MAX_MESSAGES -> inbound v (Some (k, q, room, Window.init)) 0 None [].
Proof.
  intros Hr <- Hm. pose proof (rr_room _ _ _ _ _ Hr) as Hro.
  change (Window.missing Window.init) with (∅ : gset nat) in Hro. rewrite size_empty in Hro.
  split; try done; try (unfold len; simpl; lia). constructor.
Qed.

(** C1: two sessions over an arbitrary network.  Establish the two sessions of a
    non-zero shared secret, with plain headers (header encryption off).  From
    there let either side send at any time and let any message in flight arrive
    at any time: out of order, crossing messages of the other side, through any
    number of DH steps of both sides, late or never.  As long as clocks and
    random sources are in order, messages have 1 byte to 10 MiB and at most 200
    bytes of associated data, every [encrypt] returns, takes at most 300 seconds
    and finds its chain not due for rotation, DH keys drawn are new, messages
    arrive in their time window (at most 30 seconds early by the receiver's
    clock, at most a day old) and no more are in flight to a side than its skip
    limit, every [decrypt] of the run returns exactly the plaintext given to the
    [encrypt] that made the message; and neither side ever holds more skipped
    keys than there are messages still in flight to it. *)
Theorem network_delivers ss sk1 sk2 cfg env1 env2 lo hi rlo rhi c1 c2 es :
  enable_header_encryption cfg = false ->
  clock_in env1 lo hi -> rng_healthy env1 -> clock_in env2 rlo rhi -> rng_healthy env2 ->
  all_zero ss = false -> length sk1 = 32%nat -> length sk2 = 32%nat ->
  0 <= max_skipped_messages cfg <= U64_MAX - DEFAULT_MAX_MESSAGES -> len es < U64_MAX ->
  exists a b c1' c2',
    from_shared_secret ss sk1 (x25519_public sk2) cfg HandshakeRole.Initiator env1 c1 = (Ok a, c1') /\
    from_shared_secret ss sk2 (x25519_public sk1) cfg HandshakeRole.Responder env2 c2 = (Ok b, c2') /\
    let start := (mkSide (state a) [], mkSide (state b) []) in
    (admissible_run cfg es start ->
     Forall delivered (run cfg es start).1 /\
     frugal (run cfg es start).2.1 /\ frugal (run cfg es start).2.2).
Proof.
  intros Hcfg Hc1 Hr1 Hc2 Hr2 Hz Hl1 Hl2 Hm Hes.
  destruct (from_shared_secret_ok ss sk1 (x25519_public sk2) cfg HandshakeRole.Initiator env1 c1 lo hi)
    as (t1 & now1 & id1 & c1' & _ & Ea); [done..|].
  destruct (from_shared_secret_ok ss sk2 (x25519_public sk1) cfg HandshakeRole.Responder env2 c2 rlo rhi)
    as (t2 & now2 & id2 & c2' & _ & Eb); [done..|].
  cbn [HandshakeRole.is_initiator] in Ea, Eb.
  do 2 eexists. exists c1', c2'. split; [exact Ea|]. split; [exact Eb|]. clear Ea Eb. intros start Hadm.
  assert (Hst : connected start).
  { left. split; try done; [|by apply inbound_none].
    exists sk1, sk2, (session_chain ss), 0%nat, (max_skipped_messages cfg), Window.init, [].
    split_and!; try done.
    - destruct (established_send ss sk1 (x25519_public sk2) cfg t1 now1 id1 (t1 + 86400)) as [Hch ? ? ?]; [lia|].
      split; try done. destruct Hch as (ck & ? & ? & ? & ? & _). by exists ck.
    - apply (inbound_init _ _ _ _ (established_recv ss sk2 (x25519_public sk1) cfg t2 now2 id2 Hm)); done. }
  assert (Hb : both (countable (length es)) start).
  { unfold len in Hes. split; split_and!; simpl; lia. }
  destruct (run_keeps cfg Hcfg es start Hst Hb Hadm) as [H1 H2]. split; [done|]. by apply connected_frugal.
Qed.

End FromTheStart.

(** ** A run *)

(** Environments whose random bytes differ. *)
Definition demo_noise (b : u8) : Env := mkEnv (fun _ => Some (1700000000 * NANOS)) (fun _ => 0) (fun _ => b) 7.

Definition demo_say (who : Party) (text : string) (b : u8) : Event :=
  Send who (bstr text) (bstr "ad") (demo_noise b) ctr0 1700000000 1700000000.
Definition demo_hear (who : Party) (i : nat) (b : u8) : Event :=
  Deliver who i (demo_noise b) ctr0 1700000000 1700000000.

(** Messages cross, one arrives two DH steps late, one never. *)
Definition demo_events : list Event :=
  [demo_say Alice "a0" x31; demo_say Alice "a1" x32; demo_say Bob "b0" x33; demo_hear Bob 0 x34;
   demo_hear Alice 0 x35; demo_say Alice "a2" x36; demo_say Alice "a3" x37; demo_hear Bob 0 x38;
   demo_say Bob "b1" x39; demo_hear Alice 0 x3a; demo_hear Bob 1 x3b; demo_say Alice "a4" x3c; demo_hear Bob 0 x3d].

Definition demo_start : Net :=
  (mkSide (state (demo_session Config_default HandshakeRole.Initiator)) [],
   mkSide (state (demo_session Config_default HandshakeRole.Responder)) []).

Lemma demo_noise_clock b : sane_clock (demo_noise b) 1700000000 1700000000.
Proof.
  split; [|vm_compute; split; discriminate]. intros j. exists (1700000000 * NANOS). split; [done|].
  rewrite Z.div_mul by (vm_compute; discriminate). lia.
Qed.

Lemma demo_events_in_order : Forall in_order demo_events.
Proof.
  repeat (apply Forall_cons; split); try apply demo_noise_clock; [..|by apply Forall_nil_2].
  all: split; [apply demo_noise_clock|]. all: intros p; exists 20%nat; split; [lia | discriminate].
Qed.

Definition heard (o : Outcome) : option bytes := match o with Received (Ok pt) _ => Some pt | _ => None end.

Lemma network_delivers_witness :
  Forall delivered (run (P := toy) Config_default demo_events demo_start).1 /\
  omap heard (run (P := toy) Config_default demo_events demo_start).1 =
    [bstr "a1"; bstr "b0"; bstr "a3"; bstr "b1"; bstr "a0"; bstr "a4"].
Proof.
  split; [|vm_compute; reflexivity].
  assert (Hc : clock_in demo_env1 1700000000 1700000000) by apply demo_clock.
  destruct (network_delivers (P := toy) (L := toy_laws) demo_key demo_sk1 demo_sk2 Config_default demo_env1 demo_env1
    1700000000 1700000000 1700000000 1700000000 ctr0 ctr0 demo_events) as (a & b & c1 & c2 & Ea & Eb & H);
    try exact Hc; try exact demo_env1_healthy; try reflexivity; [vm_compute; split; discriminate|].
  assert (Es : demo_start = (mkSide (state a) [], mkSide (state b) [])).
  { unfold demo_start, demo_session. cbn [HandshakeRole.is_initiator]. by rewrite Ea, Eb. }
  rewrite Es. apply H. rewrite <- Es. apply allowed_run_admissible; [exact demo_events_in_order | vm_compute; reflexivity].
Defined.
