(* ===== verification/SessionEdges.v ===== *)
(** * Sessions at the edges

    Behaviour of [core/src/ratchet/session.rs] its documentation does not lead
    one to expect: what a restored session can no longer receive, which inputs
    [encrypt] refuses, and runs in which two honest sides lose each other. *)

From S2P Require Import Prelude Effects Errors Primitives Compare Random Validation Padding Kdf Handler Encryptor Chain Message RatchetState Session SessionInvariant SessionReceive SessionSend.
#[local] Open Scope Z_scope.
#[local] Open Scope sibna_scope.

Section Edges.
Context {P : Primitives} {L : PrimitiveLaws P}.

Lemma perform_dh_ratchet_local env s c r s' c' :
  perform_dh_ratchet env s c = (Ok r, s', c') ->
  exists sk, dh_local s' = Some sk /\ length sk = 32%nat.
Proof.
  unfold perform_dh_ratchet. intros H. inv_bind H. inv_bind H. inv_bind H.
  unfold lift, random_secret, os_bytes in E. injection E as <- _ _. injection H as _ <- _.
  eexists. split; [reflexivity|]. reflexivity.
Qed.

(** The inner encryptor is called on the caller's plaintext with the header,
    whose DH key is the local one, appended to the associated data. *)
Lemma encrypt_reaches_encryptor cfg pt ad env s c data s' c' :
  encrypt cfg pt ad env s c = (Ok data, s', c') ->
  exists h en c1 out en' c2, encrypt_message pt (ad ++ header_to_bytes h) env en c1 = (Ok out, en', c2) /\
    exists sk, dh_public h = x25519_public sk /\ (dh_local s = Some sk \/ length sk = 32%nat).
Proof.
  intros H. unfold encrypt, seal_next in H. do 9 inv_bind H.
  assert (Hsk : exists sk, a5 = x25519_public sk /\ (dh_local s = Some sk \/ length sk = 32%nat)).
  { unfold res in E, E0, E5. unfold get in E1, E4. unfold lift in E2. injection E4 as <- <- <-.
    injection E as _ <- <-. injection E0 as _ <- <-. injection E1 as <- <- <-.
    destruct (match sending_chain s with Some _ => _ | None => _ end) as [rr cc].
    injection E2 as -> <- <-. destruct (dh_local s4) as [sk|] eqn:El; [|done].
    injection E5 as <- _ _. exists sk. split; [done|]. destruct a2.
    - apply perform_dh_ratchet_local in E3 as (sk' & E' & Hl). right. congruence.
    - injection E3 as _ <- _. by left. }
  destruct (_ <=? _) in H; [done|]. destruct (next_message_key a6) as [mk ck'].
  do 7 inv_bind H. set (h := mkRatchetHeader _ _ _ _) in *.
  destruct Hsk as (sk & -> & Hsk). exists h. inv_bind H.
  unfold lift, io_map_err, run_on in E15.
  destruct (encrypt_message pt (ad ++ header_to_bytes h) env a14 c15) as [[[out|e|] en2] c17] eqn:Em;
    try done.
  do 5 eexists. split; [exact Em|]. by exists sk.
Qed.

(** Inputs [encrypt] documents but cannot send.  The empty plaintext, which
    its own validation lets through for cover traffic, and associated data of
    201 to 256 bytes, which the validation also accepts, never produce a
    message: the inner encryptor rejects both. *)
Theorem encrypt_never_sends cfg pt ad env s c data s' c' :
  (forall sk, dh_local s = Some sk -> length sk = 32%nat) ->
  pt = [] \/ 200 < len ad ->
  encrypt cfg pt ad env s c <> (Ok data, s', c') /\
  validate_message_for_encrypt [] = Ok tt.
Proof.
  intros Hsk Hin. split; [|done]. intros H.
  apply encrypt_reaches_encryptor in H as (h & en & c1 & out & en' & c2 & Em & sk & Hh & Hl).
  apply encrypt_message_inv in Em as (Hp & Ha & _).
  destruct Hin as [-> | Hlong]; [unfold len in Hp; simpl in Hp; lia|].
  rewrite len_app in Ha. unfold header_to_bytes, limits.MAX_AD_LEN in Ha. rewrite Hh in Ha.
  rewrite !len_app in Ha. unfold len in *. rewrite !length_to_le in Ha.
  rewrite x25519_public_len in Ha; [lia|]. destruct Hl; auto.
Qed.

(** A restored session receives in order only.  Whatever was saved, after a
    successful [deserialize_state] the skipped keys are gone and
    [max_skip] is zero, so a message of the current chain that is not exactly
    the next one is refused with [MaxSkippedMessagesExceeded]. *)
Theorem restored_session_in_order {B : Bincode} env blob s0 c0 s0' c0' n c1 :
  deserialize_state blob env s0 c0 = (Ok tt, s0', c0') ->
  skipped_message_keys s0' = ∅ /\ max_skip s0' = 0 /\
  (forall ck, receiving_chain s0' = Some ck -> ck_index ck <= U64_MAX -> ck_index ck < n ->
     skip_message_keys n env s0' c1 = (Err ProtocolError.MaxSkippedMessagesExceeded, s0', c1)).
Proof.
  intros Hd. apply deserialize_run in Hd as (H1 & H2 & _). split; [done|]. split; [done|].
  intros ck Hck Hu Hn. unfold skip_message_keys, bind, get, res. rewrite Hck, H2.
  rewrite u_add_ok by lia. cbn [or_panic]. rewrite Z.add_0_r.
  by destruct (Z.ltb_spec (ck_index ck) n); [|lia].
Qed.

End Edges.

(** ** Two honest sides losing each other *)

(** The clock stands at [t] seconds; the random bytes depend on [b]. *)
Definition env_at (t b : Z) : Env :=
  mkEnv (fun _ => Some (t * NANOS)) (fun _ => 0) (fun i => z2b (b + 3 * Z.of_nat i)) 7.

Definition T0 : Z := 1700000000.
Definition sent (r : PResult bytes * DoubleRatchetState * Ctr) : bytes :=
  match r with (Ok d, _, _) => d | _ => [] end.
Definition left (r : PResult bytes * DoubleRatchetState * Ctr) : DoubleRatchetState := snd (fst r).
Definition outcome (r : PResult bytes * DoubleRatchetState * Ctr) : PResult bytes := fst (fst r).

(** Two rotations of the sender's chain without a reply in between: the first
    message after the first is received, the one after the second is not. *)
Example second_rotation_desyncs :
  let a0 := state (demo_session Config_default HandshakeRole.Initiator) in
  let b0 := state (demo_session Config_default HandshakeRole.Responder) in
  let m1 := encrypt (P := toy) Config_default (bstr "day one") [] (env_at (T0 + 90000) 1) a0 ctr0 in
  let r1 := decrypt (P := toy) Config_default (sent m1) [] (env_at (T0 + 90000) 2) b0 ctr0 in
  let m2 := encrypt (P := toy) Config_default (bstr "day two") [] (env_at (T0 + 180000) 3) (left m1) ctr0 in
  let r2 := decrypt (P := toy) Config_default (sent m2) [] (env_at (T0 + 180000) 4) (left r1) ctr0 in
  outcome r1 = Ok (bstr "day one") /\ is_ok (outcome m2) = true /\
  outcome r2 = Err ProtocolError.AuthenticationFailed.
Proof. vm_compute. repeat split. Qed.

(** A jump to the reservation changes the index and not the chain key. *)
Example jump_desyncs :
  let a0 := state (demo_session Config_default HandshakeRole.Initiator) in
  let b0 := state (demo_session Config_default HandshakeRole.Responder) in
  let step {A} (m : M DoubleRatchetState ProtocolError.t A) s := snd (fst (m (env_at T0 1) s ctr0)) in
  let a1 := step (reserve_nonces 10) (step jump_to_reservation (step (reserve_nonces 10) a0)) in
  let m := encrypt (P := toy) Config_default (bstr "hi") [] (env_at T0 1) a1 ctr0 in
  let r := decrypt (P := toy) Config_default (sent m) [] (env_at T0 2) b0 ctr0 in
  is_ok (outcome m) = true /\ outcome r = Err ProtocolError.AuthenticationFailed.
Proof. vm_compute. repeat split. Qed.

(** With sealed headers, the loss of one message makes the next unreadable. *)
Example sealed_headers_need_order :
  let a0 := state (demo_session Config_core_mode HandshakeRole.Initiator) in
  let b0 := state (demo_session Config_core_mode HandshakeRole.Responder) in
  let m1 := encrypt (P := toy) Config_core_mode (bstr "lost") [] (env_at T0 1) a0 ctr0 in
  let m2 := encrypt (P := toy) Config_core_mode (bstr "next") [] (env_at T0 2) (left m1) ctr0 in
  is_ok (outcome m2) = true /\
  outcome (decrypt (P := toy) Config_core_mode (sent m1) [] (env_at T0 3) b0 ctr0) = Ok (bstr "lost") /\
  outcome (decrypt (P := toy) Config_core_mode (sent m2) [] (env_at T0 4) b0 ctr0)
    = Err ProtocolError.InvalidMessage.
Proof. vm_compute. repeat split. Qed.

Lemma encrypt_never_sends_witness :
  encrypt (P := toy) Config_default [] [] demo_env1
    (state (demo_session Config_default HandshakeRole.Initiator)) ctr0
  <> (Ok [x00], state (demo_session Config_default HandshakeRole.Initiator), ctr0).
Proof.
  apply (encrypt_never_sends (P := toy) (L := toy_laws) Config_default [] []).
  - intros sk. vm_compute. intros H. injection H as <-. reflexivity.
  - left. reflexivity.
Defined.

(** A responder's snapshot, restored. *)
Lemma restored_session_in_order_witness :
  let i := serde_image (state (demo_session Config_default HandshakeRole.Responder)) in
  let r := deserialize_state (P := toy) (H := demo_bincode i) [x01] demo_env1
             (state (demo_session Config_default HandshakeRole.Initiator)) ctr0 in
  max_skip (snd (fst r)) = 0 /\
  skip_message_keys (P := toy) 1 demo_env1 (snd (fst r)) ctr0 =
    (Err ProtocolError.MaxSkippedMessagesExceeded, snd (fst r), ctr0).
Proof.
  intros i r.
  assert (Er : r = (Ok tt, snd (fst r), snd r)) by (vm_compute; reflexivity).
  destruct (restored_session_in_order (P := toy) (L := toy_laws) (B := demo_bincode i) demo_env1 [x01]
    (state (demo_session Config_default HandshakeRole.Initiator)) ctr0 (snd (fst r)) (snd r) 1 ctr0 Er)
    as (_ & Hm & Hskip).
  split; [exact Hm|]. eapply Hskip; [vm_compute; reflexivity | vm_compute; discriminate | vm_compute; reflexivity].
Defined.
