(* ===== verification/RateLimit.v ===== *)
(** * The rate limiter ([core/src/rate_limit.rs])

    Counters per client, shared by all operations, with fixed windows, burst
    tokens and cooldowns.  [Instant]s and [Duration]s are nanoseconds;
    [duration_since] saturates at zero.  Every method runs under the limiter's
    locks and is one step of the model. *)

From stdpp Require Import pretty.
From S2P Require Import Prelude Effects Errors.
#[local] Open Scope Z_scope.
#[local] Open Scope sibna_scope.

Definition secs (n : Z) : Z := n * NANOS.
Definition since (now earlier : Z) : Z := sat_sub now earlier.

Record OperationLimit := mkOperationLimit {
  max_per_second : Z;
  max_per_minute : Z;
  max_per_hour : Z;
  max_per_day : Z;
  cooldown : Z;
  burst_size : Z
}.

Definition OperationLimit_default : OperationLimit :=
  mkOperationLimit 10 100 1000 10000 (secs 60) 5.

Record ClientCounter := mkClientCounter {
  second_count : Z;
  minute_count : Z;
  hour_count : Z;
  day_count : Z;
  last_second : Z;
  last_minute : Z;
  last_hour : Z;
  last_day : Z;
  cooldown_until : option Z;
  burst_tokens : Z;
  last_refill : Z
}.

(** An [Instant] of the 64-bit targets can be moved back by a minute. *)
Definition ClientCounter_default {E} : IO E ClientCounter :=
  let* now := read_instant in
  io_ret (mkClientCounter 0 0 0 0 now now now now None 0 (now - secs 60)).

Record GlobalCounter := mkGlobalCounter { g_count : Z; last_reset : Z }.

Definition GlobalCounter_default {E} : IO E GlobalCounter :=
  let* now := read_instant in io_ret (mkGlobalCounter 0 now).

Module RateLimitError.
Inductive t : Type :=
| RateExceeded (operation limit_type : string) (retry_after : Z)
| CooldownActive (remaining : Z)
| GlobalRateExceeded
| BurstExceeded
| UnknownOperation (operation : string).

(** [impl Display for RateLimitError]; the durations are in nanoseconds. *)
Definition rate_display (e : t) : string :=
  match e with
  | RateExceeded operation limit_type retry_after =>
      "Rate limit exceeded for " +:+ operation +:+ " (" +:+ limit_type +:+ "). Retry after " +:+ pretty (retry_after / NANOS) +:+ "s"
  | CooldownActive remaining => "Cooldown active. Retry after " +:+ pretty (remaining / NANOS) +:+ "s"
  | UnknownOperation op => "Unknown operation: " +:+ op
  | GlobalRateExceeded => "Global rate limit exceeded"
  | BurstExceeded => "Burst limit exceeded"
  end.

End RateLimitError.

Record RateLimiter := mkRateLimiter {
  limits : gmap string OperationLimit;
  counters : gmap string ClientCounter;
  global_enabled : bool;
  global_rps : Z;
  global_counter : GlobalCounter
}.

Definition MAX_TRACKED_CLIENTS : Z := 100000.

Definition default_limits : gmap string OperationLimit :=
  list_to_map [
    ("decrypt"%string, mkOperationLimit 5 50 500 5000 (secs 120) 5);
    ("handshake"%string, mkOperationLimit 1 10 100 1000 (secs 300) 2);
    ("encrypt"%string, mkOperationLimit 20 200 2000 20000 (secs 30) 10);
    ("key_gen"%string, mkOperationLimit 2 20 100 1000 (secs 600) 2);
    ("create_session"%string, mkOperationLimit 3 30 300 3000 (secs 60) 5)].

Definition RateLimiter_new {E} : IO E RateLimiter :=
  let* g := GlobalCounter_default in
  io_ret (mkRateLimiter default_limits ∅ true 100 g).

(** ** Counter updates *)

Definition update_counters (c : ClientCounter) (now : Z) : ClientCounter :=
  let s := secs 1 <=? since now (last_second c) in
  let m := secs 60 <=? since now (last_minute c) in
  let h := secs 3600 <=? since now (last_hour c) in
  let d := secs 86400 <=? since now (last_day c) in
  mkClientCounter
    (if s then 0 else second_count c) (if m then 0 else minute_count c)
    (if h then 0 else hour_count c) (if d then 0 else day_count c)
    (if s then now else last_second c) (if m then now else last_minute c)
    (if h then now else last_hour c) (if d then now else last_day c)
    (cooldown_until c) (burst_tokens c) (last_refill c).

(** [elapsed.as_millis() as u32 * limit.burst_size / 1000]: the cast truncates,
    the product is checked. *)
Definition tokens_to_add (c : ClientCounter) (limit : OperationLimit) (now : Z) : option Z :=
  option_map (fun p => p / 1000)
    (u_mul U32_MAX ((since now (last_refill c) / 1000000) mod (U32_MAX + 1)) (burst_size limit)).

Definition set_tokens (tokens refill : Z) (c : ClientCounter) : ClientCounter :=
  mkClientCounter (second_count c) (minute_count c) (hour_count c) (day_count c)
    (last_second c) (last_minute c) (last_hour c) (last_day c) (cooldown_until c) tokens refill.

Definition refill_burst_tokens {E} (c : ClientCounter) (limit : OperationLimit) (now : Z)
    : Res E ClientCounter :=
  let? add := or_panic (tokens_to_add c limit now) in
  if 0 <? add then
    let? t := or_panic (u_add U32_MAX (burst_tokens c) add) in
    Ok (set_tokens (Z.min t (burst_size limit)) now c)
  else Ok c.

Definition set_cooldown (until : option Z) (c : ClientCounter) : ClientCounter :=
  mkClientCounter (second_count c) (minute_count c) (hour_count c) (day_count c)
    (last_second c) (last_minute c) (last_hour c) (last_day c) until (burst_tokens c) (last_refill c).

(** [second_count += 1; ...; burst_tokens -= 1]. *)
Definition consume {E} (c : ClientCounter) : Res E ClientCounter :=
  let? s := or_panic (u_add U32_MAX (second_count c) 1) in
  let? m := or_panic (u_add U32_MAX (minute_count c) 1) in
  let? h := or_panic (u_add U32_MAX (hour_count c) 1) in
  let? d := or_panic (u_add U32_MAX (day_count c) 1) in
  let? b := or_panic (u_sub (burst_tokens c) 1) in
  Ok (mkClientCounter s m h d (last_second c) (last_minute c) (last_hour c) (last_day c)
        (cooldown_until c) b (last_refill c)).

Definition limit_hit (c : ClientCounter) (l : OperationLimit) : option string :=
  if max_per_second l <=? second_count c then Some "per_second"%string
  else if max_per_minute l <=? minute_count c then Some "per_minute"%string
  else if max_per_hour l <=? hour_count c then Some "per_hour"%string
  else if max_per_day l <=? day_count c then Some "per_day"%string
  else None.

(** ** Field assignments of the limiter *)

Definition set_counters m r :=
  mkRateLimiter (limits r) m (global_enabled r) (global_rps r) (global_counter r).
Definition set_global g r :=
  mkRateLimiter (limits r) (counters r) (global_enabled r) (global_rps r) g.
Definition set_limits l r :=
  mkRateLimiter l (counters r) (global_enabled r) (global_rps r) (global_counter r).
Definition set_global_enabled b r :=
  mkRateLimiter (limits r) (counters r) b (global_rps r) (global_counter r).
Definition set_global_rps n r :=
  mkRateLimiter (limits r) (counters r) (global_enabled r) n (global_counter r).

(** ** Operations *)

Abbreviation RM := (M RateLimiter RateLimitError.t).

(** The reset of the global second, then the test: the new counter and the verdict. *)
Definition global_tick (g : GlobalCounter) (rps now : Z) : GlobalCounter * bool :=
  let g := if secs 1 <=? since now (last_reset g) then mkGlobalCounter 0 now else g in
  if rps <=? g_count g then (g, false) else (mkGlobalCounter (g_count g + 1) (last_reset g), true).

(** [counters.entry(client_id).or_default()]. *)
Definition entry_or_default (client_id : string) : RM ClientCounter :=
  let! r := get in
  match counters r !! client_id with
  | Some c => ret c
  | None =>
      let! c := lift ClientCounter_default in
      let! _ := modify (fun r => set_counters (<[client_id := c]> (counters r)) r) in
      ret c
  end.

Definition put_counter (client_id : string) (c : ClientCounter) : RM unit :=
  modify (fun r => set_counters (<[client_id := c]> (counters r)) r).

(** [error.get_or_insert(e)]: the first error wins. *)
Definition or_error (error : option RateLimitError.t) (b : bool) (e : RateLimitError.t) :=
  match error with Some _ => error | None => if b then Some e else None end.

(** The final decision: a cooldown on failure, a count and a token on success. *)
Definition settle (client_id : string) (limit : OperationLimit) (now : Z)
    (error : option RateLimitError.t) (c : ClientCounter) : RM unit :=
  match error with
  | Some err =>
      let! _ := put_counter client_id (set_cooldown (Some (now + cooldown limit)) c) in
      res (Err err)
  | None =>
      let! _ := put_counter client_id c in
      let! c := res (consume c) in
      put_counter client_id c
  end.

(** The part of [check] that works on the client's counter [c]. *)
Definition check_client (operation client_id : string) (limit : OperationLimit) (now : Z)
    (error : option RateLimitError.t) (c : ClientCounter) : RM unit :=
  let cooling := match cooldown_until c with Some e => now <? e | None => false end in
  let error := or_error error cooling
    (RateLimitError.CooldownActive (since (default now (cooldown_until c)) now)) in
  let c := if cooling then c else set_cooldown None c in
  let c := update_counters c now in
  let! _ := put_counter client_id c in
  let! c := res (refill_burst_tokens c limit now) in
  let error := or_error error (burst_tokens c =? 0) RateLimitError.BurstExceeded in
  let error := match limit_hit c limit with
               | Some lt => or_error error true
                   (RateLimitError.RateExceeded operation lt (cooldown limit))
               | None => error end in
  settle client_id limit now error c.

Definition check (operation client_id : string) : RM unit :=
  let! now := lift read_instant in
  let! r := get in
  let! error :=
    (if global_enabled r then
       let (g, ok) := global_tick (global_counter r) (global_rps r) now in
       let! _ := modify (set_global g) in
       ret (if ok then None else Some RateLimitError.GlobalRateExceeded)
     else ret None) in
  match limits r !! operation with
  | None => res (Err (RateLimitError.UnknownOperation operation))
  | Some limit =>
      let is_known := bool_decide (is_Some (counters r !! client_id)) in
      let error := or_error error
        (negb is_known && (MAX_TRACKED_CLIENTS <=? Z.of_nat (size (counters r))))
        RateLimitError.GlobalRateExceeded in
      let! c := entry_or_default client_id in
      check_client operation client_id limit now error c
  end.

Definition check_global : RM unit :=
  let! now := lift read_instant in
  let! r := get in
  let (g, ok) := global_tick (global_counter r) (global_rps r) now in
  let! _ := modify (set_global g) in
  if ok then ret tt else res (Err RateLimitError.GlobalRateExceeded).

Definition reset (client_id : string) : RM unit :=
  modify (fun r => set_counters (delete client_id (counters r)) r).

Definition add_limit (operation : string) (limit : OperationLimit) : RM unit :=
  modify (fun r => set_limits (<[operation := limit]> (limits r)) r).

Record RemainingQuota := mkRemainingQuota {
  per_second : Z; per_minute : Z; per_hour : Z; per_day : Z; q_tokens : Z; q_in_cooldown : bool }.

Definition remaining (operation client_id : string) : RM (option RemainingQuota) :=
  let! r := get in
  match limits r !! operation with
  | None => ret None
  | Some limit =>
      if negb (bool_decide (is_Some (counters r !! client_id)))
         && (MAX_TRACKED_CLIENTS <=? Z.of_nat (size (counters r)))
      then ret None
      else
      let! c := entry_or_default client_id in
      let! now := lift read_instant in
      let c := update_counters c now in
      let! _ := put_counter client_id c in
      let! c := res (refill_burst_tokens c limit now) in
      let! _ := put_counter client_id c in
      ret (Some (mkRemainingQuota
        (sat_sub (max_per_second limit) (second_count c))
        (sat_sub (max_per_minute limit) (minute_count c))
        (sat_sub (max_per_hour limit) (hour_count c))
        (sat_sub (max_per_day limit) (day_count c))
        (burst_tokens c)
        (match cooldown_until c with Some t => now <? t | None => false end)))
  end.

Record RateLimiterStats := mkRateLimiterStats { total_clients : Z; stats_in_cooldown : Z }.

Definition stats (r : RateLimiter) : RateLimiterStats :=
  mkRateLimiterStats (Z.of_nat (size (counters r)))
    (Z.of_nat (size (filter (fun kc : string * ClientCounter => is_Some (cooldown_until kc.2)) (counters r)))).

Definition prune_inactive (max_age : Z) : RM unit :=
  let! now := lift read_instant in
  modify (fun r => set_counters
    (filter (fun kc : string * ClientCounter => since now (last_second kc.2) < max_age) (counters r)) r).

(** ** The four windows *)
Module Win.
Inductive t := Second | Minute | Hour | Day.

Definition len (w : t) : Z :=
  match w with Second => secs 1 | Minute => secs 60 | Hour => secs 3600 | Day => secs 86400 end.
Definition count (w : t) (c : ClientCounter) : Z :=
  match w with Second => second_count c | Minute => minute_count c | Hour => hour_count c
             | Day => day_count c end.
Definition last (w : t) (c : ClientCounter) : Z :=
  match w with Second => last_second c | Minute => last_minute c | Hour => last_hour c
             | Day => last_day c end.
Definition max (w : t) (l : OperationLimit) : Z :=
  match w with Second => max_per_second l | Minute => max_per_minute l | Hour => max_per_hour l
             | Day => max_per_day l end.

Lemma count_update w c now :
  count w (update_counters c now) = if len w <=? since now (last w c) then 0 else count w c.
Proof. by destruct w. Qed.

Lemma last_update w c now :
  last w (update_counters c now) = if len w <=? since now (last w c) then now else last w c.
Proof. by destruct w. Qed.

Lemma len_pos w : 0 < len w.
Proof. by destruct w. Qed.
End Win.

(** Every test of the four limits passed. *)
Lemma limit_hit_none w c l : limit_hit c l = None -> Win.count w c < Win.max w l.
Proof.
  unfold limit_hit.
  destruct (Z.leb_spec (max_per_second l) (second_count c)); [done|].
  destruct (Z.leb_spec (max_per_minute l) (minute_count c)); [done|].
  destruct (Z.leb_spec (max_per_hour l) (hour_count c)); [done|].
  destruct (Z.leb_spec (max_per_day l) (day_count c)); [done|]. by destruct w.
Qed.

Lemma refill_frame {E} c l now c' w :
  refill_burst_tokens (E := E) c l now = Ok c' ->
  Win.count w c' = Win.count w c /\ Win.last w c' = Win.last w c /\ cooldown_until c' = cooldown_until c.
Proof.
  unfold refill_burst_tokens. destruct (tokens_to_add c l now) as [a|]; simpl; [|done].
  split_guard; [|by intros [= <-]]. destruct (u_add _ _ _); simpl; [|done]. intros [= <-].
  by destruct w.
Qed.

Lemma consume_frame {E} c c' w :
  consume (E := E) c = Ok c' ->
  Win.count w c' = Win.count w c + 1 /\ Win.last w c' = Win.last w c /\ cooldown_until c' = cooldown_until c.
Proof.
  unfold consume, u_add, u_sub. repeat (split_guard; simpl; try done). intros [= <-].
  by destruct w.
Qed.

(** What one call does to the counter of its client: time passes to [now], and
    the operation is counted when it was allowed. *)
Definition evolved (now : Z) (allowed : bool) (c c' : ClientCounter) : Prop :=
  forall w, Win.last w c' = Win.last w (update_counters c now) /\
    Win.count w c' = Win.count w (update_counters c now) + (if allowed then 1 else 0).

(** The counter the call starts from: the client's, or a new one. *)
Definition starts_from (env : Env) (k : nat) (o : option ClientCounter) (c : ClientCounter) : Prop :=
  match o with
  | Some c0 => c = c0
  | None => exists i, (k <= i)%nat /\ forall w, Win.count w c = 0 /\ Win.last w c = e_instant env i
  end.

Lemma entry_or_default_run cl env r c :
  exists c0 r1 c1, entry_or_default cl env r c = (Ok c0, r1, c1) /\
    starts_from env (c_instant c) (counters r !! cl) c0 /\ (c_instant c <= c_instant c1)%nat /\
    limits r1 = limits r /\ counters r1 !! cl = Some c0 /\
    (forall cl', cl' <> cl -> counters r1 !! cl' = counters r !! cl').
Proof.
  unfold entry_or_default, bind at 1, get. cbv iota beta.
  destruct (counters r !! cl) as [c0|] eqn:E.
  - exists c0, r, c. by repeat split.
  - eexists _, _, _. split; [reflexivity|]. simpl. split; [|split; [lia|split; [done|split]]].
    + exists (c_instant c). split; [lia|]. by intros [].
    + by rewrite lookup_insert_eq.
    + intros cl' Hne. by rewrite lookup_insert_ne.
Qed.

(** The step at the end: the counter is stored, counted when there was no error. *)
Lemma settle_effect cl limit now error c env r k :
  let '(out, r', k') := settle cl limit now error c env r k in
  k' = k /\ limits r' = limits r /\ exists c1, counters r' = <[cl := c1]> (counters r) /\
    (forall w, Win.last w c1 = Win.last w c /\
       Win.count w c1 = Win.count w c + (if is_ok out then 1 else 0)) /\
    (is_ok out = true -> error = None) /\
    (is_err out = true -> cooldown_until c1 = Some (now + cooldown limit)).
Proof.
  unfold settle. destruct error as [err|]; unfold bind, put_counter, modify, res.
  - repeat split. eexists. split; [done|]. split; [|done]. intros w. by destruct w; simpl; rewrite Z.add_0_r.
  - destruct (consume c) as [cc|e|] eqn:Ec; repeat split; simpl.
    + exists cc. rewrite insert_insert_eq. split; [done|]. split; [|done].
      intros w. by destruct (consume_frame _ _ w Ec) as (-> & -> & _).
    + exfalso. revert Ec. unfold consume, u_add, u_sub. by repeat (split_guard; simpl).
    + exists c. split; [done|]. split; [|done]. intros w. by rewrite Z.add_0_r.
Qed.

Lemma refill_no_err {E} c l now e : refill_burst_tokens (E := E) c l now <> Err e.
Proof.
  unfold refill_burst_tokens. destruct (tokens_to_add c l now); simpl; [|done].
  split_guard; [|done]. by destruct (u_add _ _ _).
Qed.

Lemma check_client_effect op cl limit now error c0 env r k :
  let '(out, r', k') := check_client op cl limit now error c0 env r k in
  k' = k /\ limits r' = limits r /\ exists c1, counters r' = <[cl := c1]> (counters r) /\
    evolved now (is_ok out) c0 c1 /\
    (is_ok out = true -> error = None /\
       (forall e, cooldown_until c0 = Some e -> e <= now) /\
       forall w, Win.count w (update_counters c0 now) < Win.max w limit) /\
    (is_err out = true -> cooldown_until c1 = Some (now + cooldown limit)).
Proof.
  unfold check_client. set (cooling := match cooldown_until c0 with Some e => now <? e | None => false end).
  set (cu := update_counters (if cooling then c0 else set_cooldown None c0) now).
  assert (Hcu : evolved now false c0 cu).
  { intros w. unfold cu. destruct cooling; split; destruct w; simpl; lia. }
  unfold bind at 1, put_counter at 1, modify at 1. cbv iota beta. unfold bind at 1, res at 1.
  destruct (refill_burst_tokens cu limit now) as [cr|e|] eqn:Er; [|by apply refill_no_err in Er|].
  2: { repeat split. exists cu. split; [done|]. split; [done|]. by split. }
  match goal with |- context [settle cl limit now ?e cr env ?r1 k] =>
    set (err := e); pose proof (settle_effect cl limit now err cr env r1 k) as Hs;
    destruct (settle cl limit now err cr env r1 k) as [[out r'] k'] end.
  destruct Hs as (-> & Hl & c1 & Hc1 & Hev & Hno & Hcd). split; [done|]. split; [done|].
  exists c1. simpl in Hc1. rewrite insert_insert_eq in Hc1. split; [done|].
  pose proof (fun w => refill_frame _ _ _ _ w Er) as Hfr.
  split; [|split; [|done]].
  - intros w. destruct (Hev w) as [-> ->], (Hfr w) as (-> & -> & _), (Hcu w) as [-> ->]. split; [done|lia].
  - intros Hok. specialize (Hno Hok). unfold err, or_error in Hno.
    destruct error; [by destruct (limit_hit cr limit)|]. split; [done|].
    destruct cooling eqn:Ecool; [by destruct (limit_hit cr limit)|]. split.
    { intros e He. unfold cooling in Ecool. rewrite He in Ecool. by apply Z.ltb_ge in Ecool. }
    intros w. destruct (Hfr w) as (Hw & _), (Hcu w) as [_ Hw2].
    replace (Win.count w (update_counters c0 now)) with (Win.count w cr) by lia.
    apply limit_hit_none. destruct (burst_tokens cr =? 0); [by destruct (limit_hit cr limit)|].
    by destruct (limit_hit cr limit).
Qed.

(** The effect of [check]. *)
Lemma check_effect op cl env r c :
  let now := e_instant env (c_instant c) in
  let '(out, r', c') := check op cl env r c in
  (c_instant c < c_instant c')%nat /\ limits r' = limits r /\
  (forall cl', cl' <> cl -> counters r' !! cl' = counters r !! cl') /\
  match limits r !! op with
  | None => counters r' = counters r /\ is_ok out = false
  | Some limit => exists c0 c1, starts_from env (S (c_instant c)) (counters r !! cl) c0 /\
      counters r' !! cl = Some c1 /\ evolved now (is_ok out) c0 c1 /\
      (is_ok out = true -> (forall e, cooldown_until c0 = Some e -> e <= now) /\
         forall w, Win.count w (update_counters c0 now) < Win.max w limit) /\
      (is_err out = true -> cooldown_until c1 = Some (now + cooldown limit))
  end.
Proof.
  intros now. unfold check, bind at 1, lift at 1, read_instant at 1. cbv iota beta. fold now.
  unfold bind at 1, get at 1. cbv iota beta.
  set (c1 := mkCtr (c_clock c) (S (c_instant c)) (c_os c)).
  match goal with |- context [bind ?m ?k env r c1] => set (glob := m); set (rest := k) end.
  assert (Hg : exists e r1, glob env r c1 = (Ok e, r1, c1) /\ limits r1 = limits r /\ counters r1 = counters r).
  { unfold glob. destruct (global_enabled r); [|by eexists _, _].
    destruct (global_tick _ _ _) as [g ok]. by eexists _, _. }
  destruct Hg as (error & r1 & Eg & Hl1 & Hc1). rewrite (bind_ok _ _ _ _ _ _ _ _ Eg). subst rest.
  cbv beta. destruct (limits r !! op) as [limit|] eqn:El.
  2: { unfold res. simpl. repeat split; try done; [lia|]. intros cl' _. by rewrite Hc1. }
  destruct (entry_or_default_run cl env r1 c1) as (c0 & r2 & c2 & E2 & Hst & Hi & Hl2 & Hcl & Hoth).
  rewrite (bind_ok _ _ _ _ _ _ _ _ E2). rewrite Hc1 in Hst, Hoth.
  match goal with |- context [check_client op cl limit now ?e c0 env r2 c2] =>
    pose proof (check_client_effect op cl limit now e c0 env r2 c2) as Hs;
    destruct (check_client op cl limit now e c0 env r2 c2) as [[out r'] c'] end.
  destruct Hs as (-> & Hl & c1' & Hcs & Hev & Hok & Herr).
  split; [simpl in *; lia|]. split; [congruence|]. rewrite Hcs. split.
  { intros cl' Hne. rewrite lookup_insert_ne by done. by apply Hoth. }
  exists c0, c1'. rewrite lookup_insert_eq. split; [done|]. split; [done|]. split; [done|].
  split; [|done]. intros H. by destruct (Hok H) as (_ & ?).
Qed.

(** ** Runs *)

(** The calls a limiter serves between administrative removals ([reset],
    [prune_inactive]). *)
Inductive rl_op :=
| OpCheck (op cl : string)
| OpRemaining (op cl : string)
| OpGlobal
| OpAddLimit (op : string) (l : OperationLimit)
| OpSetEnabled (b : bool)
| OpSetRps (n : Z).

(** Whether the call succeeded, and what it leaves. *)
Definition exec (o : rl_op) (env : Env) (r : RateLimiter) (c : Ctr) : bool * RateLimiter * Ctr :=
  match o with
  | OpCheck op cl => let '(out, r, c) := check op cl env r c in (is_ok out, r, c)
  | OpRemaining op cl => let '(_, r, c) := remaining op cl env r c in (false, r, c)
  | OpGlobal => let '(_, r, c) := check_global env r c in (false, r, c)
  | OpAddLimit op l => let '(_, r, c) := add_limit op l env r c in (false, r, c)
  | OpSetEnabled b => (false, set_global_enabled b r, c)
  | OpSetRps n => (false, set_global_rps n r, c)
  end.

(** One step as the counter of client [cl] sees it; [j] is the reading of the
    clock the step used. *)
Definition counter_step (env : Env) (k k' : nat) (allowed : bool) (o o' : option ClientCounter) : Prop :=
  (o' = o /\ allowed = false) \/
  exists j c0 c1, (k <= j < k')%nat /\ starts_from env k o c0 /\ o' = Some c1 /\
    evolved (e_instant env j) allowed c0 c1.

Lemma remaining_effect op cl env r c cl' :
  let '(_, r', c') := remaining op cl env r c in
  (c_instant c <= c_instant c')%nat /\ limits r' = limits r /\
  counter_step env (c_instant c) (c_instant c') false (counters r !! cl') (counters r' !! cl').
Proof.
  unfold remaining, bind at 1, get at 1. cbv iota beta.
  destruct (limits r !! op) as [limit|] eqn:El; [|split; [simpl; lia|]; split; [done|]; by left].
  split_guard; [split; [simpl; lia|]; split; [done|]; by left|].
  destruct (entry_or_default_run cl env r c) as (c0 & r1 & c1 & E1 & Hst & Hi & Hl & Hcl & Hoth).
  rewrite (bind_ok _ _ _ _ _ _ _ _ E1). unfold bind at 1, lift at 1, read_instant at 1. cbv iota beta.
  unfold bind at 1, put_counter at 1, modify at 1. cbv iota beta. unfold bind at 1, res at 1.
  set (now := e_instant env (c_instant c1)). set (cu := update_counters c0 now).
  assert (Hstep : forall cx m, (forall w, Win.last w cx = Win.last w cu /\ Win.count w cx = Win.count w cu) ->
    m = <[cl := cx]> (counters r1) ->
    counter_step env (c_instant c) (S (c_instant c1)) false (counters r !! cl') (m !! cl')).
  { intros cx m Hcx ->. destruct (decide (cl' = cl)) as [->|Hne].
    - right. exists (c_instant c1), c0, cx. rewrite lookup_insert_eq. split; [lia|]. split; [done|].
      split; [done|]. intros w. destruct (Hcx w) as [-> ->]. split; [done|]. by rewrite Z.add_0_r.
    - left. by rewrite lookup_insert_ne, Hoth by done. }
  destruct (refill_burst_tokens cu limit now) as [cr|e|] eqn:Er; [|by apply refill_no_err in Er|].
  - simpl. split; [lia|]. split; [done|]. apply (Hstep cr).
    + intros w. by destruct (refill_frame _ _ _ _ w Er) as (-> & -> & _).
    + by rewrite insert_insert_eq.
  - simpl. split; [lia|]. split; [done|]. by apply (Hstep cu).
Qed.

(** Every step moves the clock forward and is a [counter_step]; a success of
    [check op cl] found every window of the client below its limit. *)
Lemma exec_effect o env r c op cl :
  let '(b, r', c') := exec o env r c in
  (c_instant c <= c_instant c')%nat /\
  ((forall l, o <> OpAddLimit op l) -> limits r' !! op = limits r !! op) /\
  (exists a, counter_step env (c_instant c) (c_instant c') a (counters r !! cl) (counters r' !! cl)) /\
  (o = OpCheck op cl -> b = true ->
     exists limit c0 c1, limits r !! op = Some limit /\
       (c_instant c < c_instant c')%nat /\ starts_from env (c_instant c) (counters r !! cl) c0 /\
       counters r' !! cl = Some c1 /\ evolved (e_instant env (c_instant c)) true c0 c1 /\
       forall w, Win.count w (update_counters c0 (e_instant env (c_instant c))) < Win.max w limit).
Proof.
  destruct o as [op' cl2|op' cl2| |op' l|en|n]; simpl exec.
  - pose proof (check_effect op' cl2 env r c) as H. cbv zeta in H.
    destruct (check op' cl2 env r c) as [[out r'] c'].
    destruct H as (Hi & Hl & Hoth & Hmain). split; [lia|]. split; [by rewrite Hl|].
    assert (Hsf : forall c0, starts_from env (S (c_instant c)) (counters r !! cl2) c0 ->
                  starts_from env (c_instant c) (counters r !! cl2) c0).
    { intros c0. unfold starts_from. destruct (counters r !! cl2); [done|].
      intros (i & ? & ?). exists i. split; [lia|done]. }
    split.
    + destruct (decide (cl = cl2)) as [->|Hne]; [|exists false; left; by rewrite Hoth].
      destruct (limits r !! op') as [limit|]; [|destruct Hmain as [-> _]; exists false; by left].
      destruct Hmain as (c0 & c1 & Hst & Hc1 & Hev & _). exists (is_ok out). right.
      exists (c_instant c), c0, c1. split; [lia|]. split; [by apply Hsf|]. by split.
    + intros [= -> ->] Hok. destruct (limits r !! op) as [limit|]; [|destruct Hmain; congruence].
      destruct Hmain as (c0 & c1 & Hst & Hc1 & Hev & Hlim & _). rewrite Hok in Hev.
      exists limit, c0, c1. split; [done|]. split; [lia|]. split; [by apply Hsf|]. split; [done|].
      split; [done|]. by apply Hlim.
  - pose proof (remaining_effect op' cl2 env r c cl) as H.
    destruct (remaining op' cl2 env r c) as [[out r'] c']. destruct H as (Hi & Hl & Hst).
    split; [done|]. split; [by rewrite Hl|]. split; [by exists false | done].
  - unfold check_global, bind, lift, read_instant, get. destruct (global_tick _ _ _) as [g []]; simpl;
      (split; [lia|]; split; [done|]; split; [exists false; by left | done]).
  - simpl. split; [lia|]. split.
    { intros Hne. rewrite lookup_insert_ne; [done|]. intros ->. by apply (Hne l). }
    split; [exists false; by left | done].
  - simpl. split; [lia|]. split; [done|]. split; [exists false; by left | done].
  - simpl. split; [lia|]. split; [done|]. split; [exists false; by left | done].
Qed.

Section WindowBound.
Context (env : Env) (op cl : string) (w : Win.t) (limit : OperationLimit) (t0 : Z).
Hypothesis (Hmono : forall i j : nat, (i <= j)%nat -> e_instant env i <= e_instant env j).
Hypothesis (Hmax : 0 <= Win.max w limit).

Abbreviation cap := (Win.max w limit).

(** [n] successes have been counted in the interval [t0 .. t0 + len): the
    counter accounts for them, with one reset at most, or the interval is over. *)
Definition accounts (n : Z) (o : option ClientCounter) (k : nat) : Prop :=
  (n = 0 \/ forall j, (k <= j)%nat -> t0 <= e_instant env j) /\
  ((exists c, o = Some c /\ 0 <= Win.count w c /\
     ((Win.last w c < t0 /\ 0 <= n <= Z.min (Win.count w c) cap) \/
      (t0 <= Win.last w c /\ 0 <= n <= cap + Z.min (Win.count w c) cap))) \/
   (o = None /\ n = 0) \/
   ((forall j, (k <= j)%nat -> t0 + Win.len w <= e_instant env j) /\ 0 <= n <= 2 * cap)).

(** Is this call a counted one? *)
Definition in_interval (k : nat) : bool :=
  (t0 <=? e_instant env k) && (e_instant env k <? t0 + Win.len w).

Lemma accounts_bound n o k : accounts n o k -> 0 <= n <= 2 * cap.
Proof. intros [_ [(c & _ & ? & [[? ?]|[? ?]])|[[_ ->]|[_ ?]]]]; lia. Qed.

Lemma accounts_start n o k c0 :
  accounts n o k -> starts_from env k o c0 ->
  accounts n (Some c0) k.
Proof.
  intros [H1 H2] Hs. split; [done|]. destruct o as [c|]; simpl in Hs.
  - by subst.
  - destruct H2 as [(c & [=] & _)|[[_ ->]|H3]]; [|by right; right].
    destruct Hs as (i & Hi & Hc). destruct (Hc w) as [E1 E2]. left. exists c0. split; [done|].
    rewrite E1, E2. split; [lia|]. destruct (Z.lt_ge_cases (e_instant env i) t0); [left|right]; lia.
Qed.

(** The step itself, from a counter that exists. *)
Lemma accounts_evolved n c0 c1 k k' j (allowed counted : bool) :
  accounts n (Some c0) k -> (k <= j < k')%nat -> evolved (e_instant env j) allowed c0 c1 ->
  (counted = true -> allowed = true /\ in_interval j = true /\
     Win.count w (update_counters c0 (e_instant env j)) < cap) ->
  accounts (n + if counted then 1 else 0) (Some c1) k'.
Proof.
  intros [H1 H2] Hj Hev Hcnt. destruct (Hev w) as [El Ec]. clear Hev.
  rewrite Win.last_update in El. rewrite Win.count_update in Ec, Hcnt.
  pose proof (Win.len_pos w) as Hlen. set (now := e_instant env j) in *. unfold since, sat_sub in *.
  assert (Hlater : forall j', (k' <= j')%nat -> now <= e_instant env j') by (intros; apply Hmono; lia).
  assert (Hint : counted = true -> t0 <= now < t0 + Win.len w).
  { intros Hc. destruct (Hcnt Hc) as (_ & Hi & _). unfold in_interval in Hi.
    apply andb_true_iff in Hi as [?%Z.leb_le ?%Z.ltb_lt]. done. }
  split.
  { destruct counted; [right; intros j' Hj'; specialize (Hlater j' Hj'); specialize (Hint eq_refl); lia|].
    destruct H1 as [->|H1]; [by left|right]. intros j' Hj'. apply H1. lia. }
  destruct H2 as [(c & [= <-] & Hc0 & Hdis)|[[[=] _]|[Hover Hn]]].
  2: { right; right. split; [intros j' Hj'; apply Hover; lia|]. destruct counted; [|lia].
       specialize (Hint eq_refl). specialize (Hover j ltac:(lia)). unfold now in Hint. lia. }
  destruct (Z.lt_ge_cases now (t0 + Win.len w)) as [Hin|Hout].
  2: { right; right. split; [intros j' Hj'; specialize (Hlater j' Hj'); lia|].
       destruct counted; [specialize (Hint eq_refl)|]; lia. }
  left. exists c1. split; [done|].
  assert (Hn0 : t0 <= now \/ n = 0).
  { destruct H1 as [->|H1]; [by right|left]. apply H1. lia. }
  destruct (Z.leb_spec (Win.len w) (Z.max 0 (now - Win.last w c0))) as [Hreset|Hkeep];
    rewrite El, Ec; destruct counted, allowed; try (destruct (Hcnt eq_refl) as (? & ? & ?); done);
    try specialize (Hcnt eq_refl); try specialize (Hint eq_refl); split; lia.
Qed.

(** The number of successes of [check op cl] in the interval, over a run. *)
Definition is_op (o : rl_op) : bool :=
  match o with OpCheck op' cl' => bool_decide (op' = op) && bool_decide (cl' = cl) | _ => false end.

Fixpoint allowed_in_interval (l : list rl_op) (r : RateLimiter) (c : Ctr) : Z :=
  match l with
  | [] => 0
  | o :: l =>
      let '(b, r', c') := exec o env r c in
      (if is_op o && b && in_interval (c_instant c) then 1 else 0) + allowed_in_interval l r' c'
  end.

Lemma allowed_accounts l : forall n r c,
  accounts n (counters r !! cl) (c_instant c) -> limits r !! op = Some limit ->
  Forall (fun o => forall l, o <> OpAddLimit op l) l ->
  n + allowed_in_interval l r c <= 2 * cap.
Proof.
  induction l as [|o l IH]; intros n r c Hacc Hlim Hl; cbn [allowed_in_interval].
  - apply accounts_bound in Hacc. lia.
  - apply Forall_cons in Hl as [Ho Hl]. pose proof (exec_effect o env r c op cl) as He.
    destruct (exec o env r c) as [[b r'] c'] eqn:Ex. destruct He as (Hi & Hlims & Hst & Hok).
    specialize (Hlims Ho). rewrite Z.add_assoc. apply IH; [|by rewrite Hlims|done].
    destruct (is_op o && b && in_interval (c_instant c)) eqn:Ecnt.
    + apply andb_true_iff in Ecnt as [[Eop ->]%andb_true_iff Eint].
      assert (o = OpCheck op cl) as -> by (destruct o; try done; simpl in Eop;
        apply andb_true_iff in Eop as [->%bool_decide_eq_true ->%bool_decide_eq_true]; done).
      destruct (Hok eq_refl eq_refl) as (l' & c0 & c1 & El & Hk & Hs & -> & Hev & Hlt).
      assert (l' = limit) as -> by congruence.
      apply (accounts_evolved n c0 c1 (c_instant c) (c_instant c') (c_instant c) true true);
        [by eapply accounts_start | lia | done | by intros _].
    + destruct Hst as (a & [[-> _]|(j & c0 & c1 & Hj & Hs & -> & Hev)]).
      * rewrite Z.add_0_r. destruct Hacc as [H1 H2]. split; [|].
        { destruct H1 as [->|H1]; [by left|right; intros; apply H1; lia]. }
        destruct H2 as [H2|[H2|[H2 ?]]]; [by left|by right; left|right; right].
        split; [intros; apply H2; lia|done].
      * apply (accounts_evolved n c0 c1 (c_instant c) (c_instant c') j a false);
          [by eapply accounts_start | lia | done | done].
Qed.

(** C9: the limiter limits.  In any run of checks, quota queries and
    configuration changes by any clients, under a monotonic clock (the
    operation's own limit unchanged, no administrative removal), and for each of
    the four windows, the number of times one client's operation is allowed
    within any interval of the window's length is at most twice its limit: once
    before and once after the single reset the interval can contain. *)
Theorem window_limit_holds l r c :
  limits r !! op = Some limit ->
  (forall cnt, counters r !! cl = Some cnt -> 0 <= Win.count w cnt) ->
  Forall (fun o => forall l, o <> OpAddLimit op l) l ->
  allowed_in_interval l r c <= 2 * Win.max w limit.
Proof.
  intros Hlim Hcnt Hl. apply (allowed_accounts l 0 r c); [|done|done].
  split; [by left|]. destruct (counters r !! cl) as [cnt|]; [|by right; left].
  left. exists cnt. split; [done|]. specialize (Hcnt cnt eq_refl). split; [done|].
  destruct (Z.lt_ge_cases (Win.last w cnt) t0); [left|right]; lia.
Qed.

End WindowBound.

(** A refused client is held off.  After [check] has refused a known
    operation, every further check by that client, of whatever operation, is
    refused while the operation's cooldown lasts. *)
Theorem cooldown_blocks env op cl r c e r' c' limit op2 c2 :
  limits r !! op = Some limit -> check op cl env r c = (Err e, r', c') ->
  e_instant env (c_instant c2) < e_instant env (c_instant c) + cooldown limit ->
  is_ok (fst (fst (check op2 cl env r' c2))) = false.
Proof.
  intros Hl Hc Ht. pose proof (check_effect op cl env r c) as H. cbv zeta in H. rewrite Hc, Hl in H.
  destruct H as (_ & Hlims & _ & c0 & c1 & _ & Hc1 & _ & _ & Hcd). specialize (Hcd eq_refl).
  pose proof (check_effect op2 cl env r' c2) as H. cbv zeta in H.
  destruct (check op2 cl env r' c2) as [[out r2] c2'] eqn:E2. simpl.
  destruct H as (_ & _ & _ & Hm). destruct (limits r' !! op2) as [l2|]; [|by destruct Hm].
  destruct Hm as (d0 & d1 & Hst & _ & _ & Hok & _). rewrite Hc1 in Hst. simpl in Hst. subst d0.
  destruct (is_ok out); [|done]. destruct (Hok eq_refl) as [He _]. specialize (He _ Hcd). lia.
Qed.

(** A client that returns after a long pause takes the call down.  When the
    milliseconds since the last refill, times the burst size, leave the [u32]
    range, [check] panics, whatever the counters say. *)
Theorem long_idle_panics env op cl r c limit cnt :
  limits r !! op = Some limit -> counters r !! cl = Some cnt ->
  U32_MAX < ((since (e_instant env (c_instant c)) (last_refill cnt) / 1000000) mod (U32_MAX + 1))
            * burst_size limit ->
  is_panic (fst (fst (check op cl env r c))) = true.
Proof.
  intros Hl Hc Hov. unfold check, bind at 1, lift at 1, read_instant at 1. cbv iota beta.
  set (now := e_instant env (c_instant c)) in *. set (c1 := mkCtr _ _ _).
  unfold bind at 1, get at 1. cbv iota beta.
  match goal with |- context [bind ?m ?k env r c1] => set (glob := m) end.
  assert (Hg : exists e r1, glob env r c1 = (Ok e, r1, c1) /\ counters r1 = counters r).
  { unfold glob. destruct (global_enabled r); [|by eexists _, _].
    destruct (global_tick _ _ _) as [g ok]. by eexists _, _. }
  destruct Hg as (error & r1 & Eg & Hc1). rewrite (bind_ok _ _ _ _ _ _ _ _ Eg), Hl.
  unfold bind at 1, entry_or_default, bind at 1, get at 1. rewrite Hc1, Hc. unfold ret.
  unfold check_client, bind at 1, put_counter, modify. cbv iota beta. unfold bind at 1, res at 1.
  unfold refill_burst_tokens, tokens_to_add.
  match goal with |- context [last_refill ?cu] => assert (Elr : last_refill cu = last_refill cnt)
    by (destruct (cooldown_until cnt) as [e|]; simpl; [by destruct (now <? e)|done]) end.
  rewrite Elr. unfold u_mul.
  destruct (Z.leb_spec ((since now (last_refill cnt) / 1000000) mod (U32_MAX + 1) * burst_size limit) U32_MAX);
    [lia|done].
Qed.

(** ** Concrete runs *)

(** Instants [t i] seconds. *)
Definition instants (t : nat -> Z) : Env := mkEnv (fun _ => None) (fun i => secs (t i)) (fun _ => x00) 1.

Definition demo_limiter : RateLimiter :=
  mkRateLimiter default_limits ∅ true 100 (mkGlobalCounter 0 (secs 1000)).

Lemma window_limit_holds_witness :
  allowed_in_interval (instants (fun _ => 1000)) "handshake" "alice" Win.Second (secs 1000)
    (repeat (OpCheck "handshake" "alice") 5) demo_limiter ctr0 <= 2.
Proof.
  apply (window_limit_holds (instants (fun _ => 1000)) "handshake" "alice" Win.Second
    (mkOperationLimit 1 10 100 1000 (secs 300) 2) (secs 1000)).
  - intros i j _. vm_compute. discriminate.
  - vm_compute. discriminate.
  - vm_compute. reflexivity.
  - intros cnt. vm_compute. discriminate.
  - repeat constructor; discriminate.
Defined.

(** The limiter after alice's two handshake attempts of the same second. *)
Definition after_two : Res RateLimitError.t unit * RateLimiter * Ctr :=
  let r1 := check "handshake" "alice" (instants (fun _ => 1000)) demo_limiter ctr0 in
  check "handshake" "alice" (instants (fun _ => 1000)) (snd (fst r1)) (snd r1).

Lemma cooldown_blocks_witness :
  let e := RateLimitError.RateExceeded "handshake" "per_second" (secs 300) in
  fst (fst after_two) = Err e /\
  is_ok (fst (fst (check "encrypt" "alice" (instants (fun _ => 1000)) (snd (fst after_two)) ctr0))) = false.
Proof.
  intros e. split; [vm_compute; reflexivity|].
  pose (r1 := check "handshake" "alice" (instants (fun _ => 1000)) demo_limiter ctr0).
  apply (cooldown_blocks (instants (fun _ => 1000)) "handshake" "alice" (snd (fst r1)) (snd r1) e
    (snd (fst after_two)) (snd after_two) (mkOperationLimit 1 10 100 1000 (secs 300) 2)).
  - vm_compute. reflexivity.
  - vm_compute. reflexivity.
  - vm_compute. reflexivity.
Defined.

(** A failed call of an operation with a short cooldown replaces a long one: the
    300 seconds after the handshakes become 30 seconds after an encryption. *)
Example cooldown_shortened :
  let r := snd (fst after_two) in
  let enc := check "encrypt" "alice" (instants (fun _ => 1001)) r ctr0 in
  let again := check "handshake" "alice" (instants (fun _ => 1032)) (snd (fst enc)) ctr0 in
  is_err (fst (fst enc)) = true /\ is_ok (fst (fst again)) = true.
Proof. vm_compute. split; reflexivity. Qed.

(** Five days of silence, then one encryption. *)
Lemma long_idle_panics_witness :
  let r := snd (fst (check "encrypt" "alice" (instants (fun _ => 1000)) demo_limiter ctr0)) in
  is_panic (fst (fst (check "encrypt" "alice" (instants (fun _ => 1000 + 5 * 86400)) r ctr0))) = true.
Proof.
  intros r. eapply (long_idle_panics _ "encrypt" "alice" r ctr0).
  - vm_compute. reflexivity.
  - vm_compute. reflexivity.
  - vm_compute. reflexivity.
Defined.

(** The cap on tracked clients: the call is refused, the entry is created. *)
Lemma untracked_client_inserted env op cl r c limit :
  limits r !! op = Some limit -> counters r !! cl = None ->
  is_Some (counters (snd (fst (check op cl env r c))) !! cl).
Proof.
  intros Hl Hc. pose proof (check_effect op cl env r c) as H. cbv zeta in H. rewrite Hl in H.
  destruct (check op cl env r c) as [[out r'] c']. destruct H as (_ & _ & _ & c0 & c1 & _ & Hc1 & _).
  simpl. rewrite Hc1. eauto.
Qed.
