(* ===== verification/Group.v ===== *)
(** * Group messaging ([core/src/group/mod.rs])

    Sender keys, group sessions and the group manager.  A sender key is a
    symmetric chain, derived with HKDF; each member holds a copy of every other
    member's chain and advances it as messages arrive. *)

From S2P Require Import Prelude Effects Errors Primitives Codec Compare Random Kdf Handler Encryptor Message.
#[local] Open Scope Z_scope.
#[local] Open Scope sibna_scope.

Definition MAX_GROUP_SIZE : Z := 1000.
Definition MAX_GROUP_MESSAGE_SIZE : Z := 10 * 1024 * 1024.
Definition MAX_SKIP_GROUP : Z := 500.
Definition DEFAULT_EXPIRATION_SECS : Z := 7 * 86400.
Definition DEFAULT_MAX_GROUPS : Z := 100.

(** ** Sender keys *)

Record SenderKey := mkSenderKey {
  sk_chain_key : bytes;
  sk_message_number : Z;
  sk_expiration : option Z;
  sk_created_at : Z;
  sk_key_id : Z
}.

(** [SystemTime::now()...map_err(|_| InternalError)?.as_secs()]. *)
Definition now_or_internal : IO ProtocolError.t Z :=
  let* t := read_secs in io_res (ok_or t ProtocolError.InternalError).

Section Group.
Context {P : Primitives}.

Definition SenderKey_new (key_id : Z) : IO ProtocolError.t SenderKey :=
  let* chain_key := io_map_err ProtocolError.from_crypto (fresh_bytes 32) in
  let* created_at := now_or_internal in
  let* expiration := io_res (or_panic (u_add U64_MAX created_at DEFAULT_EXPIRATION_SECS)) in
  io_ret (mkSenderKey chain_key 0 (Some expiration) created_at key_id).

Definition SenderKey_with_expiration (key_id expiration_secs : Z) : IO ProtocolError.t SenderKey :=
  let* key := SenderKey_new key_id in
  let* expiration := io_res (or_panic (u_add U64_MAX (sk_created_at key) expiration_secs)) in
  io_ret (mkSenderKey (sk_chain_key key) (sk_message_number key) (Some expiration)
            (sk_created_at key) (sk_key_id key)).

Definition SenderKey_is_expired {E} (k : SenderKey) : IO E bool :=
  match sk_expiration k with
  | Some expiration => let* now := read_secs_or_far in io_ret (expiration <? now)
  | None => io_ret false
  end.

Definition SenderKey_age_secs {E} (k : SenderKey) : IO E Z :=
  let* now := read_secs_or_far in io_ret (sat_sub now (sk_created_at k)).

(** [self.key_id.wrapping_add(1)]. *)
Definition SenderKey_rotate : M SenderKey ProtocolError.t unit :=
  let! k := get in
  let! new_key := lift (SenderKey_new ((sk_key_id k + 1) mod (U32_MAX + 1))) in
  put new_key.

Definition group_message_key (chain_key : bytes) : option bytes :=
  hkdf_sha256 None chain_key (bstr "SibnaGroupMessageKey_v3") 32.
Definition group_next_chain (chain_key : bytes) : option bytes :=
  hkdf_sha256 None chain_key (bstr "SibnaGroupChainKey_v3") 32.

Definition sk_next_message_key : M SenderKey ProtocolError.t bytes :=
  let! k := get in
  let! _ := (match sk_expiration k with
             | Some expiration =>
                 let! now := lift now_or_internal in
                 if expiration <? now then res (Err ProtocolError.Expired) else ret tt
             | None => ret tt
             end) in
  let! message_key := res (ok_or (group_message_key (sk_chain_key k)) ProtocolError.KeyDerivationFailed) in
  let! next_chain := res (ok_or (group_next_chain (sk_chain_key k)) ProtocolError.KeyDerivationFailed) in
  let! _ := put (mkSenderKey next_chain (sk_message_number k) (sk_expiration k) (sk_created_at k)
                   (sk_key_id k)) in
  let! n := res (ok_or (u_add U32_MAX (sk_message_number k) 1) ProtocolError.MessageNumberOverflow) in
  let! _ := put (mkSenderKey next_chain n (sk_expiration k) (sk_created_at k) (sk_key_id k)) in
  ret message_key.

(** [while sender_key.message_number < n { sender_key.next_message_key()?; }]. *)
Fixpoint sk_skip_to (fuel : nat) (n : Z) : M SenderKey ProtocolError.t unit :=
  match fuel with
  | O => res Panic
  | S fuel =>
      let! k := get in
      if sk_message_number k <? n then
        let! _ := sk_next_message_key in sk_skip_to fuel n
      else ret tt
  end.

(** ** Distribution messages *)

(** [Vec::zeroize] also empties the vector. *)
Definition SenderKey_zeroize (k : SenderKey) : SenderKey :=
  mkSenderKey [] 0 (sk_expiration k) (sk_created_at k) (sk_key_id k).

Record SenderKeyMessage := mkSenderKeyMessage {
  skm_group_id : bytes; skm_sender_public_key : bytes; skm_encrypted_key : bytes;
  skm_signature : bytes; skm_timestamp : Z; skm_key_id : Z }.

Definition SenderKeyMessage_new {E} (group_id pk ek sig : bytes) (key_id : Z) : IO E SenderKeyMessage :=
  let* timestamp := read_secs_or_far in
  io_ret (mkSenderKeyMessage group_id pk ek sig timestamp key_id).

Definition SenderKeyMessage_validate (m : SenderKeyMessage) : IO ProtocolError.t unit :=
  let* now := now_or_internal in
  let* limit := io_res (or_panic (u_add U64_MAX now 300)) in
  if limit <? skm_timestamp m then io_res (Err ProtocolError.InvalidMessage)
  else
  let* expiry := io_res (or_panic (u_add U64_MAX (skm_timestamp m) 3600)) in
  if expiry <? now then io_res (Err ProtocolError.Expired) else io_ret tt.

(** ** Group messages *)

Record GroupMessage := mkGroupMessage {
  gm_group_id : bytes;
  gm_sender_key_id : Z;
  gm_message_number : Z;
  gm_ciphertext : bytes;
  gm_epoch : Z;
  gm_timestamp : Z;
  gm_signature : bytes
}.

Definition signable_bytes (m : GroupMessage) : bytes :=
  gm_group_id m ++ u32_le (gm_sender_key_id m) ++ u32_le (gm_message_number m) ++
  u64_le (gm_epoch m) ++ u64_le (gm_timestamp m) ++ sha256 (gm_ciphertext m).

(** [bincode] is a parameter. *)
Definition GroupMessage_to_bytes {C : Codec GroupMessage} (m : GroupMessage) : PResult bytes :=
  ok_or (encode m) ProtocolError.SerializationError.

Definition GroupMessage_from_bytes {C : Codec GroupMessage} (b : bytes) : PResult GroupMessage :=
  ok_or (decode b) ProtocolError.DeserializationError.

Definition wf_group_message (m : GroupMessage) : Prop :=
  length (gm_group_id m) = 32%nat /\ is_u32 (gm_sender_key_id m) /\ is_u32 (gm_message_number m) /\
  is_u64 (gm_epoch m) /\ is_u64 (gm_timestamp m).

Lemma group_message_wire {C : Codec GroupMessage} {CL : CodecLaws C wf_group_message} m : wf_group_message m ->
  exists b, GroupMessage_to_bytes m = Ok b /\ GroupMessage_from_bytes b = Ok m.
Proof.
  intros Hm. destruct (codec_roundtrip m Hm) as (b & E & D). exists b. unfold GroupMessage_to_bytes, GroupMessage_from_bytes.
  by rewrite E, D.
Qed.

Definition GroupMessage_validate (m : GroupMessage) : IO ProtocolError.t unit :=
  if len (gm_signature m) =? 0 then io_res (Err ProtocolError.AuthenticationFailed)
  else
  let* now := now_or_internal in
  let* limit := io_res (or_panic (u_add U64_MAX now 300)) in
  if limit <? gm_timestamp m then io_res (Err ProtocolError.InvalidMessage)
  else
  let* expiry := io_res (or_panic (u_add U64_MAX (gm_timestamp m) 86400)) in
  if expiry <? now then io_res (Err ProtocolError.Expired)
  else if MAX_GROUP_MESSAGE_SIZE + 1024 <? len (gm_ciphertext m)
  then io_res (Err ProtocolError.InvalidMessage)
  else io_ret tt.

(** ** Group sessions *)

Record GroupSession := mkGroupSession {
  group_id : bytes;
  our_sender_key : option SenderKey;
  sender_keys : gmap bytes SenderKey;
  members : list bytes;
  epoch : Z;
  name : option string;
  g_created_at : Z;
  g_last_activity : Z;
  max_size : Z;
  our_signing_key : option bytes
}.

Abbreviation GM := (M GroupSession ProtocolError.t).

Definition GroupSession_new {E} (gid : bytes) (size : Z) : IO E GroupSession :=
  let* now := read_secs_or_far in
  io_ret (mkGroupSession gid None ∅ [] 0 None now now (Z.min size MAX_GROUP_SIZE) None).

Definition set_our_key k g := mkGroupSession (group_id g) k (sender_keys g) (members g) (epoch g)
  (name g) (g_created_at g) (g_last_activity g) (max_size g) (our_signing_key g).
Definition set_sender_keys k g := mkGroupSession (group_id g) (our_sender_key g) k (members g) (epoch g)
  (name g) (g_created_at g) (g_last_activity g) (max_size g) (our_signing_key g).
Definition set_members k g := mkGroupSession (group_id g) (our_sender_key g) (sender_keys g) k (epoch g)
  (name g) (g_created_at g) (g_last_activity g) (max_size g) (our_signing_key g).
Definition set_epoch k g := mkGroupSession (group_id g) (our_sender_key g) (sender_keys g) (members g) k
  (name g) (g_created_at g) (g_last_activity g) (max_size g) (our_signing_key g).
Definition set_g_activity k g := mkGroupSession (group_id g) (our_sender_key g) (sender_keys g)
  (members g) (epoch g) (name g) (g_created_at g) k (max_size g) (our_signing_key g).
Definition set_signing_key k g := mkGroupSession (group_id g) (our_sender_key g) (sender_keys g)
  (members g) (epoch g) (name g) (g_created_at g) (g_last_activity g) (max_size g) (Some k).

Definition g_touch : GM unit :=
  let! now := lift read_secs_or_far in modify (set_g_activity now).

Definition initialize_sender_key : GM unit :=
  let! k := lift (SenderKey_new 1) in
  let! _ := modify (set_our_key (Some k)) in
  g_touch.

(** [self.epoch += 1]. *)
Definition bump_epoch : GM unit :=
  let! g := get in
  let! e := res (or_panic (u_add U64_MAX (epoch g) 1)) in
  modify (set_epoch e).

Definition add_member (pk : bytes) : GM unit :=
  let! g := get in
  if max_size g <=? len (members g) then res (Err ProtocolError.InvalidArgument)
  else if bool_decide (pk ∈ members g) then res (Err ProtocolError.InvalidArgument)
  else
  let! _ := modify (set_members (members g ++ [pk])) in
  let! _ := bump_epoch in
  g_touch.

(** A method of our own sender key, in place. *)
Definition with_our_key {A} (k : SenderKey) (m : M SenderKey ProtocolError.t A) : GM A :=
  fun env g c => let '(r, k', c') := m env k c in (r, set_our_key (Some k') g, c').

Definition remove_member (pk : bytes) : GM unit :=
  let! _ := modify (fun g => set_members (List.filter (fun k => negb (constant_time_eq k pk)) (members g)) g) in
  let! _ := modify (fun g => set_sender_keys (delete pk (sender_keys g)) g) in
  let! _ := bump_epoch in
  let! g := get in
  let! _ := (match our_sender_key g with
             | Some sk => with_our_key sk SenderKey_rotate
             | None => ret tt
             end) in
  g_touch.

Definition group_encrypt (plaintext : bytes) : GM GroupMessage :=
  if MAX_GROUP_MESSAGE_SIZE <? len plaintext then res (Err ProtocolError.InvalidArgument)
  else
  let! g := get in
  let! sender_key := res (ok_or (our_sender_key g) ProtocolError.InvalidState) in
  let! rotate := lift (if 1000 <? sk_message_number sender_key then io_ret true
                       else SenderKey_is_expired sender_key) in
  let! _ := (if rotate then with_our_key sender_key SenderKey_rotate else ret tt) in
  let! g := get in
  let! sender_key := res (ok_or (our_sender_key g) ProtocolError.InvalidState) in
  let! message_key := with_our_key sender_key sk_next_message_key in
  let! crypto := res (map_err ProtocolError.from_crypto (CryptoHandler_new message_key)) in
  let! ciphertext := lift (io_map_err ProtocolError.from_crypto
                             (handler_encrypt crypto plaintext (group_id g))) in
  let! timestamp := lift read_secs_or_far in
  let! g := get in
  let! sender_key := res (ok_or (our_sender_key g) ProtocolError.InvalidState) in
  let! number := res (or_panic (u_sub (sk_message_number sender_key) 1)) in
  let message := mkGroupMessage (group_id g) (sk_key_id sender_key) number ciphertext (epoch g)
                   timestamp [] in
  let signature := match our_signing_key g with
                   | Some seed => ed25519_sign seed (signable_bytes message)
                   | None => []
                   end in
  let! _ := g_touch in
  ret (mkGroupMessage (gm_group_id message) (gm_sender_key_id message) (gm_message_number message)
         (gm_ciphertext message) (gm_epoch message) (gm_timestamp message) signature).

(** The signature check of [decrypt]. *)
Definition verify_sender (m : GroupMessage) (pk : bytes) : PResult unit :=
  if negb (len (gm_signature m) =? 0) then
    if negb (ed25519_key_ok pk) then Err ProtocolError.InvalidKey
    else if negb (len (gm_signature m) =? 64) then Err ProtocolError.InvalidMessage
    else if ed25519_verify pk (signable_bytes m) (gm_signature m) then Ok tt
    else Err ProtocolError.AuthenticationFailed
  else Err ProtocolError.AuthenticationFailed.

(** A method of the sender key of [pk], in place. *)
Definition with_sender_key {A} (pk : bytes) (k : SenderKey) (m : M SenderKey ProtocolError.t A) : GM A :=
  fun env g c => let '(r, k', c') := m env k c in
    (r, set_sender_keys (<[pk := k']> (sender_keys g)) g, c').

(** The keys up to [n], then the message key itself. *)
Definition sk_key_for (n : Z) : M SenderKey ProtocolError.t bytes :=
  let! k := get in
  let! _ := sk_skip_to (S (Z.to_nat (n - sk_message_number k))) n in
  sk_next_message_key.

Definition group_decrypt (m : GroupMessage) (pk : bytes) : GM bytes :=
  let! _ := lift (GroupMessage_validate m) in
  let! g := get in
  if negb (constant_time_eq (gm_group_id m) (group_id g)) then res (Err ProtocolError.InvalidMessage)
  else if gm_epoch m <? epoch g then res (Err ProtocolError.InvalidMessage)
  else
  let! _ := res (verify_sender m pk) in
  let! sender_key := res (ok_or (sender_keys g !! pk) ProtocolError.KeyNotFound) in
  if negb (sk_key_id sender_key =? gm_sender_key_id m) then res (Err ProtocolError.InvalidMessage)
  else
  let! limit := res (or_panic (u_add U32_MAX (sk_message_number sender_key) MAX_SKIP_GROUP)) in
  if limit <? gm_message_number m then res (Err ProtocolError.MaxSkippedMessagesExceeded)
  else
  let! message_key := with_sender_key pk sender_key (sk_key_for (gm_message_number m)) in
  let! crypto := res (map_err ProtocolError.from_crypto (CryptoHandler_new message_key)) in
  let! plaintext := res (map_err ProtocolError.from_crypto
                           (handler_decrypt crypto (gm_ciphertext m) (group_id g))) in
  let! _ := g_touch in
  ret plaintext.

Definition import_sender_key (pk : bytes) (key : SenderKey) : GM unit :=
  let! expired := lift (SenderKey_is_expired key) in
  if (expired : bool) then res (Err ProtocolError.Expired)
  else
  let! g := get in
  if (match sender_keys g !! pk with Some existing => sk_key_id key <=? sk_key_id existing | None => false end)
  then res (Err ProtocolError.InvalidArgument)
  else
  let! _ := modify (fun g => set_sender_keys (<[pk := key]> (sender_keys g)) g) in
  g_touch.

Definition member_count (g : GroupSession) : Z := len (members g).
Definition has_member (pk : bytes) (g : GroupSession) : bool :=
  existsb (fun m => constant_time_eq m pk) (members g).
Definition group_age_secs {E} (g : GroupSession) : IO E Z :=
  let* now := read_secs_or_far in io_ret (sat_sub now (g_created_at g)).

Definition GroupSession_zeroize (g : GroupSession) : GroupSession :=
  mkGroupSession (zeros (length (group_id g))) None ∅ [] 0 (name g) (g_created_at g) (g_last_activity g)
    (max_size g) (our_signing_key g).

(** ** The manager *)

Record GroupManager := mkGroupManager {
  groups : gmap bytes GroupSession; master_key : bytes; max_groups : Z }.

Definition GroupManager_new (master_key : bytes) : GroupManager :=
  mkGroupManager ∅ master_key DEFAULT_MAX_GROUPS.

Definition create_group (gid : bytes) : M GroupManager ProtocolError.t GroupSession :=
  let! gm := get in
  if max_groups gm <=? Z.of_nat (size (groups gm)) then res (Err ProtocolError.InvalidArgument)
  else
  let! session := lift (GroupSession_new gid MAX_GROUP_SIZE) in
  let! (_, session) := lift (run_on initialize_sender_key session) in
  let! _ := put (mkGroupManager (<[gid := session]> (groups gm)) (master_key gm) (max_groups gm)) in
  ret session.

(** Each session is wiped before the map is emptied. *)
Definition GroupManager_zeroize (gm : GroupManager) : GroupManager :=
  mkGroupManager ∅ (zeros (length (master_key gm))) (max_groups gm).

Definition get_group (gid : bytes) (gm : GroupManager) : option GroupSession := groups gm !! gid.
Definition leave_group (gid : bytes) (gm : GroupManager) : GroupManager :=
  mkGroupManager (delete gid (groups gm)) (master_key gm) (max_groups gm).
Definition group_count (gm : GroupManager) : Z := Z.of_nat (size (groups gm)).

(** [retain(|_, g| now - g.last_activity < max_age_secs)]: the subtraction is
    checked for every group. *)
Definition group_prune_inactive (max_age_secs : Z) : M GroupManager ProtocolError.t unit :=
  let! now := lift read_secs_or_far in
  let! gm := get in
  if bool_decide (map_Forall (fun _ g => g_last_activity g <= now) (groups gm))
  then put (mkGroupManager
         (filter (fun kg : bytes * GroupSession => now - g_last_activity kg.2 < max_age_secs) (groups gm))
         (master_key gm) (max_groups gm))
  else res Panic.

End Group.

(** ** Membership *)
Section Membership.
Context {P : Primitives} (e0 : Z).

(** No duplicates, within the size limit, the epoch not below [e0]. *)
Record group_inv (g : GroupSession) : Prop := {
  gi_nodup : base.NoDup (members g);
  gi_size : len (members g) <= max_size g;
  gi_max : max_size g <= MAX_GROUP_SIZE;
  gi_epoch : e0 <= epoch g
}.

Lemma group_inv_frame g g' :
  members g' = members g -> max_size g' = max_size g -> epoch g <= epoch g' ->
  group_inv g -> group_inv g'.
Proof. intros E1 E2 E3 []. split; rewrite ?E1, ?E2; try done. lia. Qed.

Ltac gframe := eapply group_inv_frame; [.. | eassumption]; simpl; (reflexivity || lia).
#[local] Hint Extern 5 (group_inv _) => gframe : sibna.

Lemma g_touch_inv : preserves group_inv g_touch.
Proof. unfold g_touch. lead_steps. Qed.
#[local] Hint Resolve g_touch_inv : sibna.

Lemma with_our_key_inv {A} k (m : M SenderKey ProtocolError.t A) : preserves group_inv (with_our_key k m).
Proof. intros env g c Hg. unfold with_our_key. destruct (m env k c) as [[r k'] c']. simpl. gframe. Qed.

Lemma with_sender_key_inv {A} pk k (m : M SenderKey ProtocolError.t A) :
  preserves group_inv (with_sender_key pk k m).
Proof. intros env g c Hg. unfold with_sender_key. destruct (m env k c) as [[r k'] c']. simpl. gframe. Qed.

Lemma bump_epoch_inv : preserves group_inv bump_epoch.
Proof.
  intros env g c Hg. unfold bump_epoch, bind, get, res, modify, u_add. split_guard; simpl; [gframe|done].
Qed.
#[local] Hint Resolve with_our_key_inv with_sender_key_inv bump_epoch_inv : sibna.

Lemma add_member_inv pk : preserves group_inv (add_member pk).
Proof.
  unfold add_member. apply leads_get_bind. intros g Hg env g1 c ->.
  destruct (Z.leb_spec (max_size g) (len (members g))) as [|Hlt]; [done|].
  case_bool_decide as Hin; [done|].
  assert (H1 : group_inv (set_members (members g ++ [pk]) g)).
  { destruct Hg. split; simpl; try done.
    - apply NoDup_app. repeat split; try done; [|apply NoDup_singleton].
      intros x Hx ->%list_elem_of_singleton. done.
    - rewrite len_app. unfold len at 2. simpl. lia. }
  unfold bind at 1, modify at 1. cbv iota beta.
  match goal with |- group_inv (snd (fst (?k env _ c))) =>
    enough (Hk : preserves group_inv k) by exact (Hk env _ c H1) end.
  lead_steps.
Qed.

Lemma remove_member_inv pk : preserves group_inv (remove_member pk).
Proof.
  unfold remove_member. apply leads_bind; [|intros _; lead_steps].
  apply leads_modify. intros g []. split; simpl; try done.
  - apply base.NoDup_ListNoDup, List.NoDup_filter, base.NoDup_ListNoDup. done.
  - pose proof (List.filter_length_le (fun k => negb (constant_time_eq k pk)) (members g)).
    unfold len in *. lia.
Qed.

Lemma group_encrypt_inv pt : preserves group_inv (group_encrypt pt).
Proof. unfold group_encrypt. lead_steps. Qed.

Lemma group_decrypt_inv m pk : preserves group_inv (group_decrypt m pk).
Proof. unfold group_decrypt. lead_steps. Qed.

Lemma import_inv pk k : preserves group_inv (import_sender_key pk k).
Proof. unfold import_sender_key. lead_steps. Qed.

Lemma init_inv : preserves group_inv initialize_sender_key.
Proof. unfold initialize_sender_key. lead_steps. Qed.

End Membership.

(** Any operation on a group session, with any arguments. *)
Inductive group_step {P : Primitives} (env : Env) : GroupSession * Ctr -> GroupSession * Ctr -> Prop :=
| gs_add pk g c r g' c' : add_member pk env g c = (r, g', c') -> group_step env (g, c) (g', c')
| gs_remove pk g c r g' c' : remove_member pk env g c = (r, g', c') -> group_step env (g, c) (g', c')
| gs_encrypt pt g c r g' c' : group_encrypt pt env g c = (r, g', c') -> group_step env (g, c) (g', c')
| gs_decrypt m pk g c r g' c' : group_decrypt m pk env g c = (r, g', c') -> group_step env (g, c) (g', c')
| gs_import pk k g c r g' c' : import_sender_key pk k env g c = (r, g', c') -> group_step env (g, c) (g', c')
| gs_init g c r g' c' : initialize_sender_key env g c = (r, g', c') -> group_step env (g, c) (g', c')
| gs_signing seed g c : group_step env (g, c) (set_signing_key seed g, c).

Lemma group_step_inv {P : Primitives} env e0 st st' :
  group_step env st st' -> group_inv e0 st.1 -> group_inv e0 st'.1.
Proof.
  intros H Hi. destruct H as [pk g c r g' c' E|pk g c r g' c' E|pt g c r g' c' E|m pk g c r g' c' E|
    pk k g c r g' c' E|g c r g' c' E|seed g c]; simpl in *; try (change g' with (snd (fst (r, g', c'))); rewrite <- E).
  - by apply add_member_inv.
  - by apply remove_member_inv.
  - by apply group_encrypt_inv.
  - by apply group_decrypt_inv.
  - by apply import_inv.
  - by apply init_inv.
  - by eapply group_inv_frame; [..|exact Hi].
Qed.

(** C36: group membership stays sound.  From a new group session, after any
    sequence of joins, removals, encryptions, decryptions of arbitrary
    messages and key imports, the member list has no duplicates and at most
    [max_size] entries, itself at most 1000; and along the way the epoch never
    decreases. *)
Theorem group_membership_sound {P : Primitives} env gid size c g0 c0 g1 c1 g2 c2 :
  0 <= size ->
  GroupSession_new (E := ProtocolError.t) gid size env c = (Ok g0, c0) ->
  rtc (group_step env) (g0, c0) (g1, c1) -> rtc (group_step env) (g1, c1) (g2, c2) ->
  base.NoDup (members g2) /\ len (members g2) <= max_size g2 <= MAX_GROUP_SIZE /\ epoch g1 <= epoch g2.
Proof.
  intros Hs Hn Hr1 Hr2. injection Hn as <- _.
  assert (Hkeep : forall e st st', rtc (group_step env) st st' -> group_inv e st.1 -> group_inv e st'.1).
  { intros e st st'. induction 1; [done|]. eauto using group_step_inv. }
  assert (H1 : group_inv 0 (g1, c1).1).
  { apply (Hkeep _ _ _ Hr1). split; simpl; [constructor | unfold len, MAX_GROUP_SIZE in *; simpl; lia
      | lia | lia]. }
  assert (H2 : group_inv (epoch g1) (g2, c2).1).
  { apply (Hkeep _ _ _ Hr2). by destruct H1. }
  destruct H2. by repeat split.
Qed.

Lemma SenderKey_new_ok {P : Primitives} {L : PrimitiveLaws P} id env c k c' :
  SenderKey_new id env c = (Ok k, c') ->
  sk_key_id k = id /\ sk_message_number k = 0 /\ length (sk_chain_key k) = 32%nat.
Proof.
  unfold SenderKey_new, io_bind, io_map_err.
  destruct (fresh_bytes 32 env c) as [[b| |] cb] eqn:Eb; try done. simpl map_err.
  apply fresh_bytes_len in Eb; [|lia]. cbv iota beta.
  destruct (now_or_internal env cb) as [[t| |] ct]; try done. unfold io_res, u_add.
  split_guard; simpl; [|done]. by intros [= <- _].
Qed.

(** Our key after a rotation in place. *)
Lemma with_our_key_rotate {P : Primitives} {L : PrimitiveLaws P} k env g c r g' c' :
  with_our_key k SenderKey_rotate env g c = (Ok r, g', c') ->
  exists k', g' = set_our_key (Some k') g /\
    sk_key_id k' = (sk_key_id k + 1) mod (U32_MAX + 1) /\ sk_message_number k' = 0 /\
    length (sk_chain_key k') = 32%nat.
Proof.
  unfold with_our_key, SenderKey_rotate, bind, get, lift, put.
  destruct (SenderKey_new _ env c) as [[k'| |] c1] eqn:En; try done. intros [= <- <- <-].
  apply SenderKey_new_ok in En as (? & ? & ?). by exists k'.
Qed.

(** A sender without a key cannot be heard. *)
Lemma group_decrypt_unknown {P : Primitives} m pk env g c pt g2 c2 :
  sender_keys g !! pk = None -> group_decrypt m pk env g c <> (Ok pt, g2, c2).
Proof.
  intros Hk H. unfold group_decrypt in H. inv_bind H. inv_bind H. unfold lift in E.
  destruct (GroupMessage_validate m env c) as [v cv]. injection E as -> <- <-.
  injection E0 as <- <- <-. destruct (negb _); [done|]. destruct (_ <? _) in H; [done|].
  inv_bind H. inv_bind H. by rewrite Hk in E0.
Qed.

Lemma has_member_filter pk (l : list bytes) :
  existsb (fun m => constant_time_eq m pk) (List.filter (fun k => negb (constant_time_eq k pk)) l) = false.
Proof.
  induction l as [|x l IH]; simpl; [done|]. destruct (constant_time_eq x pk) eqn:E; simpl; [done|].
  by rewrite E.
Qed.

(** Removal takes effect.  When [remove_member] returns, the member and its
    sender key are gone, the epoch is one higher, and our own sender key, if
    any, is a fresh one under the next key id; from then on no message of the
    removed sender is accepted. *)
Theorem removal_takes_effect {P : Primitives} {L : PrimitiveLaws P} env pk g c g' c' m c2 pt g2 c3 :
  remove_member pk env g c = (Ok tt, g', c') ->
  has_member pk g' = false /\ sender_keys g' !! pk = None /\ epoch g' = epoch g + 1 /\
  (forall k, our_sender_key g = Some k -> exists k', our_sender_key g' = Some k' /\
     sk_key_id k' = (sk_key_id k + 1) mod (U32_MAX + 1) /\ sk_message_number k' = 0 /\
     length (sk_chain_key k') = 32%nat) /\
  group_decrypt m pk env g' c2 <> (Ok pt, g2, c3).
Proof.
  intros H. unfold remove_member in H. do 5 inv_bind H. injection E as <- <- <-.
  injection E0 as <- <- <-. unfold bump_epoch, bind, get, res, modify, u_add in E1.
  split_guard_in E1; [|done]. injection E1 as <- <- <-. injection E2 as <- <- <-.
  injection H as <- _. change (our_sender_key (set_epoch _ _)) with (our_sender_key g) in E3.
  assert (Hk : exists ok, s3 = set_our_key ok (set_epoch (epoch g + 1) (set_sender_keys
     (delete pk (sender_keys g)) (set_members (List.filter (fun k => negb (constant_time_eq k pk)) (members g)) g))) /\
     forall k, our_sender_key g = Some k -> exists k', ok = Some k' /\
       sk_key_id k' = (sk_key_id k + 1) mod (U32_MAX + 1) /\ sk_message_number k' = 0 /\
       length (sk_chain_key k') = 32%nat).
  { destruct (our_sender_key g) as [k|] eqn:Ek.
    - apply with_our_key_rotate in E3 as (k' & -> & Hk'). exists (Some k'). split; [done|].
      intros ? [= <-]. by exists k'.
    - injection E3 as _ <- _. exists None. split; [|done]. unfold set_our_key. simpl. by rewrite <- Ek. }
  destruct Hk as (ok & -> & Hok). split; [apply has_member_filter|].
  assert (Hd : delete pk (sender_keys g) !! pk = None) by apply lookup_delete_eq.
  split; [exact Hd|]. split; [done|]. split; [exact Hok|]. by apply group_decrypt_unknown.
Qed.

(** ** Delivery *)
Section Delivery.
Context {P : Primitives} {L : PrimitiveLaws P}.

(** The chain of a sender key, and its message keys. *)
Fixpoint gchain_at (k : bytes) (i : nat) : bytes :=
  match i with O => k | S i => default [] (group_next_chain (gchain_at k i)) end.
Definition gkey_at (k : bytes) (i : nat) : bytes := default [] (group_message_key (gchain_at k i)).

Definition sk_rep (k : bytes) (i : nat) (sk : SenderKey) : Prop :=
  sk_chain_key sk = gchain_at k i /\ sk_message_number sk = Z.of_nat i.

(** The key of [sk]'s chain that stands at [n]. *)
Definition sk_to (k : bytes) (sk : SenderKey) (n : nat) : SenderKey :=
  mkSenderKey (gchain_at k n) (Z.of_nat n) (sk_expiration sk) (sk_created_at sk) (sk_key_id sk).

Definition valid_until (hi : Z) (sk : SenderKey) : Prop := forall e, sk_expiration sk = Some e -> hi <= e.

Lemma sk_to_rep k i sk : sk_rep k i sk -> sk_to k sk i = sk.
Proof. intros [H1 H2]. unfold sk_to. destruct sk. simpl in *. by subst. Qed.

Section Chain.
Context (k : bytes) (env : Env) (lo hi : Z).
Hypothesis (Hclock : clock_in env lo hi).

Lemma now_or_internal_ok c : exists t c', now_or_internal env c = (Ok t, c') /\ lo <= t <= hi.
Proof.
  destruct (clock_in_secs env lo hi (c_clock c) Hclock) as (t & E & Ht).
  unfold now_or_internal, io_bind, read_secs, io_res. rewrite E. simpl. eauto.
Qed.

Lemma sk_next_ok i sk c :
  sk_rep k i sk -> valid_until hi sk -> Z.of_nat i < U32_MAX ->
  exists c', sk_next_message_key env sk c = (Ok (gkey_at k i), sk_to k sk (S i), c').
Proof.
  intros [Hk Hn] Hv Hi. unfold sk_next_message_key, bind at 1, get at 1. cbv iota beta.
  assert (Hexp : exists c1, (match sk_expiration sk with
     | Some expiration => let! now := lift now_or_internal in
         if expiration <? now then res (Err ProtocolError.Expired) else ret tt
     | None => ret tt end) env sk c = (Ok tt, sk, c1)).
  { destruct (sk_expiration sk) as [e|] eqn:Ee; [|unfold ret; eauto].
    destruct (now_or_internal_ok c) as (t & c1 & E & Ht).
    rewrite (bind_ok _ _ _ _ _ _ _ _ (lift_ok _ _ _ _ _ _ E)).
    specialize (Hv e Ee). destruct (Z.ltb_spec e t); [lia|]. unfold ret. eauto. }
  destruct Hexp as (c1 & E). rewrite (bind_ok _ _ _ _ _ _ _ _ E). rewrite Hk.
  unfold gkey_at, sk_to. cbn [gchain_at]. unfold group_message_key, group_next_chain.
  destruct (hkdf_ok None (gchain_at k i) (bstr "SibnaGroupMessageKey_v3") 32) as (mk & -> & _);
    [unfold HKDF_MAX; lia|].
  destruct (hkdf_ok None (gchain_at k i) (bstr "SibnaGroupChainKey_v3") 32) as (nc & -> & _);
    [unfold HKDF_MAX; lia|].
  unfold bind, res, put, ret. cbn [ok_or default]. rewrite Hn, u_add_ok by lia. cbn [ok_or].
  exists c1. do 3 f_equal. f_equal. lia.
Qed.

Lemma sk_skip_to_ok d : forall fuel i sk c,
  sk_rep k i sk -> valid_until hi sk -> Z.of_nat (i + d) < U32_MAX -> (d < fuel)%nat ->
  exists c', sk_skip_to fuel (Z.of_nat (i + d)) env sk c = (Ok tt, sk_to k sk (i + d), c').
Proof.
  induction d as [|d IH]; intros fuel i sk c Hr Hv Hi Hf; (destruct fuel as [|fuel]; [lia|]);
    cbn [sk_skip_to]; unfold bind at 1, get at 1; cbv iota beta; rewrite (proj2 Hr).
  - rewrite Nat.add_0_r, Z.ltb_irrefl, sk_to_rep by done. unfold ret. eauto.
  - destruct (Z.ltb_spec (Z.of_nat i) (Z.of_nat (i + S d))); [|lia].
    destruct (sk_next_ok i sk c Hr Hv) as (c1 & E); [lia|]. rewrite (bind_ok _ _ _ _ _ _ _ _ E).
    replace (i + S d)%nat with (S i + d)%nat by lia.
    destruct (IH fuel (S i) (sk_to k sk (S i)) c1) as (c2 & ->); [done | done | lia | lia |]. eauto.
Qed.

Lemma sk_key_for_ok i n sk c :
  sk_rep k i sk -> valid_until hi sk -> (i <= n)%nat -> Z.of_nat n < U32_MAX ->
  exists c', sk_key_for (Z.of_nat n) env sk c = (Ok (gkey_at k n), sk_to k sk (S n), c').
Proof.
  intros Hr Hv Hin Hn. unfold sk_key_for, bind at 1, get at 1. cbv iota beta. rewrite (proj2 Hr).
  remember (n - i)%nat as d eqn:Ed. assert (n = i + d)%nat as -> by lia.
  destruct (sk_skip_to_ok d (S (Z.to_nat (Z.of_nat (i + d) - Z.of_nat i))) i sk c Hr Hv)
    as (c1 & E); [lia | lia |]. rewrite (bind_ok _ _ _ _ _ _ _ _ E).
  destruct (sk_next_ok (i + d) (sk_to k sk (i + d)) c1) as (c2 & ->); [done | done | lia |]. eauto.
Qed.

End Chain.

Lemma signable_unsigned m sig :
  signable_bytes (mkGroupMessage (gm_group_id m) (gm_sender_key_id m) (gm_message_number m)
    (gm_ciphertext m) (gm_epoch m) (gm_timestamp m) sig) = signable_bytes m.
Proof. done. Qed.

Lemma g_touch_run env g c : exists t c', g_touch env g c = (Ok tt, set_g_activity t g, c').
Proof. unfold g_touch, bind, lift, read_secs_or_far, modify. eauto. Qed.

(** Sending: message [n] of our chain, sealed under its key and signed. *)
Lemma group_encrypt_ok k n sk seed h pt env lo hi g c :
  clock_in env lo hi -> rng_healthy env ->
  our_sender_key g = Some sk -> sk_rep k n sk -> Z.of_nat n <= 1000 -> valid_until hi sk ->
  our_signing_key g = Some seed -> CryptoHandler_new (gkey_at k n) = Ok h ->
  len pt <= MAX_GROUP_MESSAGE_SIZE -> len (group_id g) <= MAX_INFO_LENGTH ->
  exists m nonce ct g' c', group_encrypt pt env g c = (Ok m, g', c') /\
    our_sender_key g' = Some (sk_to k sk (S n)) /\
    gm_group_id m = group_id g /\ gm_sender_key_id m = sk_key_id sk /\
    gm_message_number m = Z.of_nat n /\ gm_epoch m = epoch g /\ lo <= gm_timestamp m <= hi /\
    gm_signature m = ed25519_sign seed (signable_bytes m) /\
    gm_ciphertext m = nonce ++ ct /\ length nonce = 12%nat /\
    aead_encrypt (handler_key h) nonce (group_id g) pt = Some ct /\ length ct = (length pt + 16)%nat.
Proof.
  intros Hc Hr Hk Hrep Hn Hv Hs Hh Hp Hg. unfold group_encrypt.
  destruct (Z.ltb_spec MAX_GROUP_MESSAGE_SIZE (len pt)); [lia|].
  unfold bind at 1, get at 1. cbv iota beta. unfold bind at 1, res at 1. rewrite Hk. cbn [ok_or].
  rewrite (proj2 Hrep). destruct (Z.ltb_spec 1000 (Z.of_nat n)); [lia|].
  assert (Hrot : exists c1, lift (S := GroupSession) (SenderKey_is_expired (E := ProtocolError.t) sk) env g c
                 = (Ok false, g, c1)).
  { unfold lift, SenderKey_is_expired. destruct (sk_expiration sk) as [e|] eqn:Ee; [|unfold io_ret; eauto].
    unfold io_bind, read_secs_or_far, io_ret. destruct (Hc (c_clock c)) as (ns & -> & Hns). simpl.
    specialize (Hv e Ee). destruct (Z.ltb_spec e (ns / NANOS)); [lia|]. eauto. }
  destruct Hrot as (c1 & E1). rewrite (bind_ok _ _ _ _ _ _ _ _ E1).
  unfold bind at 1, ret at 1. cbv iota beta. unfold bind at 1, get at 1. cbv iota beta.
  unfold bind at 1, res at 1. rewrite Hk. cbn [ok_or].
  destruct (sk_next_ok k env lo hi Hc n sk c1 Hrep Hv) as (c2 & E2); [unfold U32_MAX; lia|].
  unfold bind at 1, with_our_key at 1. rewrite E2. unfold bind at 1, res at 1. rewrite Hh. cbn [map_err].
  destruct (handler_encrypt_ok h pt (group_id g) env c2 Hr) as (nonce & ct & c3 & E3 & Hnl & Ect & Hl);
    [unfold MAX_PLAINTEXT_LENGTH, MAX_GROUP_MESSAGE_SIZE in *; lia | done |].
  unfold bind at 1, lift at 1, io_map_err. rewrite E3. cbn [map_err].
  unfold bind at 1, lift at 1, read_secs_or_far at 1. cbv iota beta.
  destruct (Hc (c_clock c3)) as (ns & Ens & Hns). rewrite Ens. cbn [from_option].
  unfold bind at 1, get at 1. cbv iota beta. unfold bind at 1, res at 1.
  cbn [our_sender_key set_our_key ok_or]. unfold bind at 1, res at 1.
  rewrite u_sub_ok by (simpl; lia). cbn [or_panic].
  replace (sk_message_number (sk_to k sk (S n)) - 1) with (Z.of_nat n) by (simpl; lia).
  cbn [our_signing_key set_our_key]. rewrite Hs.
  match goal with |- context [bind g_touch _ env ?g1 ?c4] =>
    destruct (g_touch_run env g1 c4) as (t & c5 & E5); rewrite (bind_ok _ _ _ _ _ _ _ _ E5) end.
  unfold ret. eexists _, nonce, ct, _, _. split; [reflexivity|]. simpl. by repeat split; try lia.
Qed.

(** Receiving: a signed message of the sender's chain at or ahead of our copy. *)
Lemma group_decrypt_ok k j n sk seed h pt nonce ct m env lo hi g c :
  clock_in env lo hi -> 0 <= lo -> hi <= U64_MAX - 86700 ->
  sender_keys g !! ed25519_public seed = Some sk -> length seed = 32%nat -> sk_rep k j sk ->
  (j <= n)%nat -> Z.of_nat n <= Z.of_nat j + MAX_SKIP_GROUP -> Z.of_nat n <= 1000 -> valid_until hi sk ->
  gm_group_id m = group_id g -> gm_sender_key_id m = sk_key_id sk ->
  gm_message_number m = Z.of_nat n -> epoch g <= gm_epoch m ->
  gm_timestamp m <= lo + 300 -> hi <= gm_timestamp m + 86400 ->
  gm_signature m = ed25519_sign seed (signable_bytes m) ->
  gm_ciphertext m = nonce ++ ct -> length nonce = 12%nat ->
  CryptoHandler_new (gkey_at k n) = Ok h ->
  aead_encrypt (handler_key h) nonce (group_id g) pt = Some ct -> length ct = (length pt + 16)%nat ->
  len pt <= MAX_GROUP_MESSAGE_SIZE ->
  exists g' c', group_decrypt m (ed25519_public seed) env g c = (Ok pt, g', c') /\
    sender_keys g' !! ed25519_public seed = Some (sk_to k sk (S n)).
Proof.
  intros Hc Hlo Hhi Hk Hseed Hrep Hjn Hskip Hn Hv Egid Eid Enum Hep Ht1 Ht2 Hsig Ect Hnl Hh Hae Hcl Hp.
  assert (Hsl : len (gm_signature m) = 64) by (rewrite Hsig; unfold len; rewrite ed25519_sign_len; done).
  assert (Hval : exists c1, GroupMessage_validate m env c = (Ok tt, c1)).
  { unfold GroupMessage_validate. rewrite Hsl. change (64 =? 0) with false. cbv iota.
    destruct (now_or_internal_ok env lo hi Hc c) as (t & c1 & E & Ht).
    rewrite (io_bind_ok _ _ _ _ _ _ E). unfold io_bind, io_res. rewrite u_add_ok by lia. cbn [or_panic].
    destruct (Z.ltb_spec (t + 300) (gm_timestamp m)); [lia|]. rewrite u_add_ok by lia. cbn [or_panic].
    destruct (Z.ltb_spec (gm_timestamp m + 86400) t); [lia|]. rewrite Ect, len_app.
    destruct (Z.ltb_spec (MAX_GROUP_MESSAGE_SIZE + 1024) (len nonce + len ct)) as [Hx|];
      [unfold len in *; lia|]. unfold io_ret. eauto. }
  destruct Hval as (c1 & E1). unfold group_decrypt.
  rewrite (bind_ok _ _ _ _ _ _ _ _ (lift_ok _ _ _ _ _ _ E1)).
  unfold bind at 1, get at 1. cbv iota beta. rewrite Egid, constant_time_eq_refl. cbn [negb].
  destruct (Z.ltb_spec (gm_epoch m) (epoch g)); [lia|].
  assert (Hver : verify_sender m (ed25519_public seed) = Ok tt).
  { unfold verify_sender. rewrite Hsl. change (64 =? 0) with false. change (64 =? 64) with true. cbn [negb].
    rewrite (proj1 (ed25519_public_ok seed Hseed)). cbn [negb].
    by rewrite Hsig, ed25519_correct. }
  unfold bind at 1, res at 1. rewrite Hver. unfold bind at 1, res at 1. rewrite Hk. cbn [ok_or].
  rewrite Eid, Z.eqb_refl. cbn [negb]. unfold bind at 1, res at 1.
  rewrite (proj2 Hrep), u_add_ok by (unfold MAX_SKIP_GROUP, U32_MAX in *; lia). cbn [or_panic].
  rewrite Enum. destruct (Z.ltb_spec (Z.of_nat j + MAX_SKIP_GROUP) (Z.of_nat n)); [lia|].
  destruct (sk_key_for_ok k env lo hi Hc j n sk c1 Hrep Hv Hjn) as (c2 & E2); [unfold U32_MAX; lia|].
  unfold bind at 1, with_sender_key at 1. rewrite E2. unfold bind at 1, res at 1. rewrite Hh. cbn [map_err].
  unfold bind at 1, res at 1. rewrite Ect, (handler_decrypt_ok h nonce ct pt) by
    (done || (unfold MAX_PLAINTEXT_LENGTH, MAX_GROUP_MESSAGE_SIZE in *; lia)). cbn [map_err].
  match goal with |- context [bind g_touch _ env ?g1 ?c4] =>
    destruct (g_touch_run env g1 c4) as (t & c5 & E5); rewrite (bind_ok _ _ _ _ _ _ _ _ E5) end.
  unfold ret. eexists _, _. split; [reflexivity|]. simpl. by rewrite lookup_insert_eq.
Qed.

(** C10: group messages are delivered, losses included.  A sender with a signing
    key whose chain stands at [n], at most 1000 (beyond that it changes its
    key), and a receiver whose copy of that chain, under the sender's public key
    and the same key id, stands at [j], at most 500 behind; the same group (an
    id of at most 256 bytes), an epoch of the receiver not ahead of the
    sender's, neither copy of the key expired, a message key that is not weak,
    healthy clocks and random source, a sender's clock at most 300 seconds ahead
    of the receiver's and an arrival within a day: for every plaintext of at
    most 10 MiB [encrypt] returns a signed message, [decrypt] returns its
    plaintext although the messages in between were lost, and afterwards both
    stand at [n + 1]. *)
Theorem group_message_delivered k j n ska skb seed h pt env1 env2 lo1 hi1 lo2 hi2 ga gb c1 c2 :
  clock_in env1 lo1 hi1 -> rng_healthy env1 -> clock_in env2 lo2 hi2 -> 0 <= lo2 ->
  hi2 <= U64_MAX - 86700 -> hi1 <= lo2 + 300 -> hi2 <= lo1 + 86400 ->
  our_sender_key ga = Some ska -> our_signing_key ga = Some seed -> length seed = 32%nat ->
  sender_keys gb !! ed25519_public seed = Some skb -> sk_key_id skb = sk_key_id ska ->
  group_id gb = group_id ga -> len (group_id ga) <= MAX_INFO_LENGTH -> epoch gb <= epoch ga ->
  sk_rep k n ska -> sk_rep k j skb -> (j <= n)%nat -> Z.of_nat n <= Z.of_nat j + MAX_SKIP_GROUP ->
  Z.of_nat n <= 1000 -> valid_until hi1 ska -> valid_until hi2 skb ->
  CryptoHandler_new (gkey_at k n) = Ok h -> len pt <= MAX_GROUP_MESSAGE_SIZE ->
  exists m ga' gb' c1' c2',
    group_encrypt pt env1 ga c1 = (Ok m, ga', c1') /\
    group_decrypt m (ed25519_public seed) env2 gb c2 = (Ok pt, gb', c2') /\
    our_sender_key ga' = Some (sk_to k ska (S n)) /\
    sender_keys gb' !! ed25519_public seed = Some (sk_to k skb (S n)).
Proof.
  intros Hc1 Hr1 Hc2 Hlo Hhi Hsk Hag Hoa Hsa Hsl Hkb Hid Hgid Hgl Hep Hra Hrb Hjn Hskip Hn Hva Hvb Hh Hp.
  destruct (group_encrypt_ok k n ska seed h pt env1 lo1 hi1 ga c1) as
    (m & nonce & ct & ga' & c1' & Ee & Hk' & E1 & E2 & E3 & E4 & E5 & E6 & E7 & E8 & E9 & E10); try done.
  destruct (group_decrypt_ok k j n skb seed h pt nonce ct m env2 lo2 hi2 gb c2) as (gb' & c2' & Ed & Hkb');
    try done; try congruence; try lia.
  by exists m, ga', gb', c1', c2'.
Qed.

End Delivery.

(** ** Concrete runs *)

Definition demo_gid : bytes := repeat x47 32.
Definition demo_seed : bytes := repeat x51 31 ++ [x52].
Definition demo_pk : bytes := ed25519_public (Primitives := toy) demo_seed.
Definition demo_sender_key : SenderKey := mkSenderKey demo_key 0 None 1700000000 1.

Definition demo_sender : GroupSession :=
  mkGroupSession demo_gid (Some demo_sender_key) ∅ [demo_pk] 1 None 1700000000 1700000000 1000 (Some demo_seed).
Definition demo_receiver : GroupSession :=
  mkGroupSession demo_gid None {[ demo_pk := demo_sender_key ]} [demo_pk] 1 None 1700000000 1700000000 1000 None.

Lemma group_membership_sound_witness :
  let g1 := snd (fst (add_member demo_pk demo_env1
    (mkGroupSession demo_gid None ∅ [] 0 None 1700000000 1700000000 256 None) ctr0)) in
  base.NoDup (members g1) /\ len (members g1) <= max_size g1 <= MAX_GROUP_SIZE /\ 0 <= epoch g1.
Proof.
  intros g1.
  pose (g0 := mkGroupSession demo_gid None ∅ [] 0 None 1700000000 1700000000 256 None).
  pose (c0 := mkCtr 1 0 0).
  pose (r := add_member demo_pk demo_env1 g0 c0).
  refine (group_membership_sound (P := toy) demo_env1 demo_gid 256 ctr0 g0 c0 g0 c0 g1 (snd r) _ _ _ _).
  - lia.
  - vm_compute. reflexivity.
  - apply rtc_refl.
  - eapply rtc_l; [|apply rtc_refl]. apply (gs_add (P := toy) demo_env1 demo_pk g0 c0 (fst (fst r))).
    vm_compute. reflexivity.
Defined.

Lemma removal_takes_effect_witness :
  let r := remove_member (P := toy) demo_pk demo_env1 demo_receiver ctr0 in
  has_member demo_pk demo_receiver = true /\ has_member demo_pk (snd (fst r)) = false.
Proof.
  intros r. split; [vm_compute; reflexivity|].
  apply (removal_takes_effect (P := toy) (L := toy_laws) demo_env1 demo_pk demo_receiver ctr0
    (snd (fst r)) (snd r) (mkGroupMessage [] 0 0 [] 0 0 []) ctr0 [] demo_receiver ctr0).
  vm_compute. reflexivity.
Defined.

(** A sender two of whose messages were lost. *)
Definition demo_after (pt : bytes) (g : GroupSession) : GroupSession := snd (fst (group_encrypt (P := toy) pt demo_env1 g ctr0)).
Definition demo_sender_ahead : GroupSession := demo_after (bstr "lost too") (demo_after (bstr "lost") demo_sender).

Lemma group_message_delivered_witness :
  exists m ga' gb' c1' c2',
    group_encrypt (P := toy) (bstr "hello group") demo_env1 demo_sender_ahead ctr0 = (Ok m, ga', c1') /\
    group_decrypt (P := toy) m demo_pk demo_env1 demo_receiver ctr0 = (Ok (bstr "hello group"), gb', c2').
Proof.
  destruct (group_message_delivered (P := toy) (L := toy_laws) demo_key 0 2 (sk_to (P := toy) demo_key demo_sender_key 2) demo_sender_key
    demo_seed (mkCryptoHandler (gkey_at (P := toy) demo_key 2)) (bstr "hello group") demo_env1 demo_env1
    1700000000 1700000000 1700000000 1700000000 demo_sender_ahead demo_receiver ctr0 ctr0)
    as (m & ga' & gb' & c1' & c2' & H1 & H2 & _);
    [apply demo_windows | apply demo_env1_healthy | apply demo_windows | lia | vm_compute; discriminate
    | lia | lia | vm_compute; reflexivity | vm_compute; reflexivity | vm_compute; reflexivity
    | vm_compute; reflexivity | vm_compute; reflexivity | vm_compute; reflexivity
    | vm_compute; discriminate | vm_compute; discriminate | split; vm_compute; reflexivity
    | split; vm_compute; reflexivity | lia | vm_compute; discriminate | vm_compute; discriminate
    | intros e He; discriminate | intros e He; discriminate | vm_compute; reflexivity
    | vm_compute; discriminate |].
  exists m, ga', gb', c1', c2'. split; [exact H1 | exact H2].
Defined.

(** A message delivered a second time fails, and moves the receiver's copy of
    the chain on all the same: the next genuine message fails too. *)
Example group_replay_desyncs :
  let m0 := group_encrypt (P := toy) (bstr "first") demo_env1 demo_sender ctr0 in
  let m1 := group_encrypt (P := toy) (bstr "second") demo_env1 (snd (fst m0)) ctr0 in
  match fst (fst m0), fst (fst m1) with
  | Ok a, Ok b =>
      let r1 := group_decrypt (P := toy) a demo_pk demo_env1 demo_receiver ctr0 in
      let r2 := group_decrypt (P := toy) a demo_pk demo_env1 (snd (fst r1)) ctr0 in
      let r3 := group_decrypt (P := toy) b demo_pk demo_env1 (snd (fst r2)) ctr0 in
      fst (fst (group_decrypt (P := toy) b demo_pk demo_env1 (snd (fst r1)) ctr0)) = Ok (bstr "second") /\
      fst (fst r1) = Ok (bstr "first") /\
      fst (fst r2) = Err ProtocolError.AuthenticationFailed /\
      fst (fst r3) = Err ProtocolError.AuthenticationFailed
  | _, _ => False
  end.
Proof. vm_compute. repeat split. Qed.

(** An imported sender key with a number near the top of [u32] makes the
    next message from that sender panic. *)
Example group_imported_number_panics :
  let key := mkSenderKey demo_key (U32_MAX - 100) None 1700000000 2 in
  let imported := import_sender_key demo_pk key demo_env1 demo_receiver ctr0 in
  let m := mkGroupMessage demo_gid 2 0 (repeat x00 40) 1 1700000000 [] in
  let signed := mkGroupMessage demo_gid 2 0 (repeat x00 40) 1 1700000000
                  (ed25519_sign (Primitives := toy) demo_seed (signable_bytes (P := toy) m)) in
  fst (fst imported) = Ok tt /\
  fst (fst (group_decrypt (P := toy) signed demo_pk demo_env1 (snd (fst imported)) ctr0)) = Panic.
Proof. vm_compute. repeat split. Qed.
