(* ===== verification/X3dh.v ===== *)
(** * The X3DH key agreement ([core/src/handshake/x3dh.rs])

    The default build, with the post-quantum layer: both sides combine three or
    four Diffie-Hellman results, optionally an ML-KEM secret, and a transcript
    of everything exchanged. *)

From S2P Require Import Prelude Effects Errors Primitives Compare Random Kdf Handler Encryptor Message.
#[local] Open Scope Z_scope.
#[local] Open Scope sibna_scope.

Record X3dhResult := mkX3dhResult {
  x_shared_secret : bytes;
  x_dh_results : list bytes;
  x_pq_ciphertext : option bytes
}.

Definition X3dhResult_validate (r : X3dhResult) : PResult unit :=
  if all_zero (x_shared_secret r) then Err ProtocolError.InvalidArgument
  else if (len (x_dh_results r) =? 0) || (4 <? len (x_dh_results r))
  then Err ProtocolError.InvalidArgument
  else match x_pq_ciphertext r with
       | Some ct => if negb (len ct =? 1088) then Err ProtocolError.InvalidArgument else Ok tt
       | None => Ok tt
       end.

Definition erase (k : bytes) : bytes := zeros (length k).

Definition X3dhResult_zeroize (r : X3dhResult) : X3dhResult :=
  mkX3dhResult (erase (x_shared_secret r)) (map erase (x_dh_results r)) (x_pq_ciphertext r).

Section X3dh.
Context {P : Primitives}.

(** The hash of the exchanged public keys and device ids. *)
Definition transcript (ik_i ek_i ik_r spk_r : bytes) (opk_r : option bytes) (dev_i dev_r : bytes) : bytes :=
  blake3 (ik_i ++ ek_i ++ ik_r ++ spk_r ++ from_option id [] opk_r ++ dev_i ++ dev_r).

(** Binding to the caller's transcript; the [expect] cannot fail for 32 bytes. *)
Definition bind_transcript (ext hash : bytes) : PResult bytes :=
  or_panic (hkdf_sha256 (Some ext) hash (bstr "SibnaX3DH_TranscriptBind_v3") 32).

Definition crypto_res {A} (r : CResult A) : PResult A := map_err ProtocolError.from_crypto r.

(** [dh_results] as the vector the code builds. *)
Definition dh_list (dh1 dh2 dh3 : bytes) (dh4 : option bytes) : list bytes :=
  [dh1; dh2; dh3] ++ match dh4 with Some d => [d] | None => [] end.

Definition x3dh_initiator_v3 (our_identity our_ephemeral peer_identity peer_signed_prekey : bytes)
    (peer_onetime_prekey peer_pq_pk : option bytes) (our_device_id peer_device_id ext : bytes)
    : IO ProtocolError.t X3dhResult :=
  let dh1 := x25519_dh our_identity peer_signed_prekey in
  let dh2 := x25519_dh our_ephemeral peer_identity in
  let dh3 := x25519_dh our_ephemeral peer_signed_prekey in
  let dh4 := option_map (x25519_dh our_ephemeral) peer_onetime_prekey in
  let hash := transcript (x25519_public our_identity) (x25519_public our_ephemeral) peer_identity
                peer_signed_prekey peer_onetime_prekey our_device_id peer_device_id in
  let* combined := io_res (bind_transcript ext hash) in
  let* (shared_secret, pq_ct) :=
    match peer_pq_pk with
    | Some pk =>
        if negb (len pk =? 1184) then io_res (Err ProtocolError.InvalidKeyLength)
        else if negb (mlkem_ek_ok pk) then io_res (Err ProtocolError.InvalidKey)
        else
        let* coins := os_bytes 32 in
        let* (ss, ct) := io_res (ok_or (mlkem_encaps pk coins) ProtocolError.KeyDerivationFailed) in
        let* derived := io_res (crypto_res (derive_pq_shared_secret dh1 dh2 dh3 dh4 ss combined)) in
        io_ret (derived, Some ct)
    | None =>
        let* derived := io_res (crypto_res (derive_shared_secret dh1 dh2 dh3 dh4 combined)) in
        io_ret (derived, None)
    end in
  let result := mkX3dhResult shared_secret (dh_list dh1 dh2 dh3 dh4) pq_ct in
  let* _ := io_res (X3dhResult_validate result) in
  io_ret result.

Definition x3dh_responder_v3 (our_identity our_signed_prekey : bytes) (our_onetime_prekey : option bytes)
    (peer_identity peer_ephemeral : bytes) (our_pq_sk peer_pq_ct : option bytes)
    (our_device_id peer_device_id ext : bytes) : PResult X3dhResult :=
  let dh1 := x25519_dh our_signed_prekey peer_identity in
  let dh2 := x25519_dh our_identity peer_ephemeral in
  let dh3 := x25519_dh our_signed_prekey peer_ephemeral in
  let dh4 := option_map (fun opk => x25519_dh opk peer_ephemeral) our_onetime_prekey in
  let hash := transcript peer_identity peer_ephemeral (x25519_public our_identity)
                (x25519_public our_signed_prekey) (option_map x25519_public our_onetime_prekey)
                peer_device_id our_device_id in
  let? combined := bind_transcript ext hash in
  let? shared_secret :=
    match our_pq_sk, peer_pq_ct with
    | Some sk, Some ct =>
        if negb (len sk =? 2400) then Err ProtocolError.InvalidKeyLength
        else if negb (len ct =? 1088) then Err ProtocolError.InvalidCiphertext
        else if negb (mlkem_dk_ok sk) then Err ProtocolError.InvalidKey
        else if negb (mlkem_ct_ok ct) then Err ProtocolError.InvalidCiphertext
        else
        let? ss := ok_or (mlkem_decaps sk ct) ProtocolError.KeyDerivationFailed in
        crypto_res (derive_pq_shared_secret dh1 dh2 dh3 dh4 ss combined)
    | _, _ => crypto_res (derive_shared_secret dh1 dh2 dh3 dh4 combined)
    end in
  let result := mkX3dhResult shared_secret (dh_list dh1 dh2 dh3 dh4) None in
  let? _ := X3dhResult_validate result in
  Ok result.

Definition verify_shared_secret (a b : X3dhResult) : bool :=
  constant_time_eq (x_shared_secret a) (x_shared_secret b).

(** ** Session keys *)

Record X3dhSessionKeys := mkX3dhSessionKeys {
  sending_key : bytes; receiving_key : bytes; auth_key : bytes; extra_keys : list bytes }.

Definition X3dhSessionKeys_zeroize (k : X3dhSessionKeys) : X3dhSessionKeys :=
  mkX3dhSessionKeys (erase (sending_key k)) (erase (receiving_key k)) (erase (auth_key k))
    (map erase (extra_keys k)).

(** [k.as_slice().try_into::<[u8; 32]>()]. *)
Definition as_key (k : bytes) : PResult bytes :=
  if len k =? 32 then Ok k else Err ProtocolError.InvalidKeyLength.

Fixpoint as_keys (ks : list bytes) : PResult (list bytes) :=
  match ks with
  | [] => Ok []
  | k :: ks => let? k := as_key k in let? ks := as_keys ks in Ok (k :: ks)
  end.

Definition session_key_infos : list bytes :=
  [bstr "SibnaSendingKey_v3"; bstr "SibnaReceivingKey_v3"; bstr "SibnaAuthKey_v3";
   bstr "SibnaExtraKey1_v3"; bstr "SibnaExtraKey2_v3"].

Definition X3dhSessionKeys_from (shared_secret : bytes) : PResult X3dhSessionKeys :=
  let? keys := crypto_res (hkdf_derive_multiple shared_secret (bstr "SibnaX3DH_SessionKeys_v3")
                             session_key_infos) in
  match keys with
  | k0 :: k1 :: k2 :: rest =>
      let? sending := as_key k0 in
      let? receiving := as_key k1 in
      let? auth := as_key k2 in
      let? extra := as_keys rest in
      Ok (mkX3dhSessionKeys sending receiving auth extra)
  | _ => Err ProtocolError.KeyDerivationFailed
  end.

(** ** Properties *)
Context {L : PrimitiveLaws P}.

(** The secrets of one agreement: 32-byte X25519 secrets throughout. *)
Definition keys32 (ks : list bytes) : Prop := Forall (fun k => length k = 32%nat) ks.

(** The two sides compute the same Diffie-Hellman values, pairwise. *)
Lemma x3dh_dh_agree ia ea ib sb ob :
  keys32 [ia; ea; ib; sb] -> (forall o, ob = Some o -> length o = 32%nat) ->
  x25519_dh ia (x25519_public sb) = x25519_dh sb (x25519_public ia) /\
  x25519_dh ea (x25519_public ib) = x25519_dh ib (x25519_public ea) /\
  x25519_dh ea (x25519_public sb) = x25519_dh sb (x25519_public ea) /\
  option_map (x25519_dh ea) (option_map x25519_public ob) =
    option_map (fun opk => x25519_dh opk (x25519_public ea)) ob.
Proof.
  unfold keys32. rewrite !Forall_cons. intros (Hia & Hea & Hib & Hsb & _) Ho.
  repeat split; try (by apply x25519_comm).
  destruct ob as [o|]; simpl; [|done]. f_equal. apply x25519_comm; auto.
Qed.

Lemma hkdf_key salt ikm info : exists k, hkdf_sha256 salt ikm info 32 = Some k /\ length k = 32%nat.
Proof. apply hkdf_ok. unfold HKDF_MAX. lia. Qed.

(** The secret as the protocol defines it, from the initiator's secrets, the
    responder's public keys and the coins of the encapsulation, with the
    ciphertext: HKDF over the Diffie-Hellman values and the encapsulated secret,
    salted with the transcript bound to the caller's. *)
Definition x3dh_secret (ia ea ib sb : bytes) (ob pk : option bytes) (dev_a dev_b ext coins : bytes) : option (bytes * option bytes) :=
  match hkdf_sha256 (Some ext) (transcript (x25519_public ia) (x25519_public ea) ib sb ob dev_a dev_b)
          (bstr "SibnaX3DH_TranscriptBind_v3") 32 with
  | None => None
  | Some comb =>
      let ikm := dh_concat (x25519_dh ia sb) (x25519_dh ea ib) (x25519_dh ea sb) (option_map (x25519_dh ea) ob) in
      match pk with
      | None => option_map (fun s => (s, None)) (hkdf_sha256 (Some comb) ikm (bstr "SibnaX3DH_v3") 32)
      | Some k =>
          match mlkem_encaps k coins with
          | None => None
          | Some (ss, ct) => option_map (fun s => (s, Some ct)) (hkdf_sha256 (Some comb) (ikm ++ ss) (bstr "SibnaPQX3DH_v3") 32)
          end
      end
  end.

(** The Diffie-Hellman results on the initiator's side. *)
Definition x3dh_dhs (ia ea ib sb : bytes) (ob : option bytes) : list bytes :=
  dh_list (x25519_dh ia sb) (x25519_dh ea ib) (x25519_dh ea sb) (option_map (x25519_dh ea) ob).

(** What both sides make of a secret. *)
Definition x3dh_outcome (secret : bytes) (dhs : list bytes) (ct : option bytes) : PResult X3dhResult :=
  if all_zero secret then Err ProtocolError.InvalidArgument else Ok (mkX3dhResult secret dhs ct).

Lemma validate_outcome sh dh1 dh2 dh3 dh4 ct : (forall x, ct = Some x -> length x = 1088%nat) ->
  let r := mkX3dhResult sh (dh_list dh1 dh2 dh3 dh4) ct in
  (let? _ := X3dhResult_validate r in Ok r) = x3dh_outcome sh (dh_list dh1 dh2 dh3 dh4) ct.
Proof.
  intros Hct r. unfold r, x3dh_outcome, X3dhResult_validate. cbn [x_shared_secret x_dh_results x_pq_ciphertext].
  destruct (all_zero sh); [done|]. replace (_ || _) with false by (by destruct dh4).
  destruct ct as [x|]; [|done]. replace (len x =? 1088) with true; [done|]. symmetry. apply Z.eqb_eq. unfold len. by rewrite (Hct x eq_refl).
Qed.

Lemma io_res_bind {E A B} (r : Res E A) (f : A -> B) env c :
  fst (io_bind (io_res r) (fun a => io_ret (f a)) env c) = let? a := r in Ok (f a).
Proof. unfold io_bind, io_res, io_ret. by destruct r. Qed.

(** With a usable post-quantum key, or none, the initiator gets the secret of
    the protocol, and refuses it if it is all zeros. *)
Lemma x3dh_initiator_run ia ea ib sb ob pk dev_a dev_b ext env c :
  (forall k, pk = Some k -> length k = 1184%nat /\ mlkem_ek_ok k = true) ->
  exists secret ct, x3dh_secret ia ea ib sb ob pk dev_a dev_b ext (map (e_os env) (seq (c_os c) 32)) = Some (secret, ct) /\
    length secret = 32%nat /\
    fst (x3dh_initiator_v3 ia ea ib sb ob pk dev_a dev_b ext env c) = x3dh_outcome secret (x3dh_dhs ia ea ib sb ob) ct.
Proof.
  intros Hpk. unfold x3dh_initiator_v3, bind_transcript, x3dh_secret, x3dh_dhs.
  destruct (hkdf_key (Some ext) (transcript (x25519_public ia) (x25519_public ea) ib sb ob dev_a dev_b)
    (bstr "SibnaX3DH_TranscriptBind_v3")) as (comb & -> & _).
  unfold io_bind at 1, io_res at 1. cbn [or_panic]. unfold io_bind at 1. destruct pk as [k|].
  - destruct (Hpk k eq_refl) as [Hl Hk]. replace (len k =? 1184) with true by (symmetry; apply Z.eqb_eq; unfold len; lia).
    rewrite Hk. cbn [negb]. unfold io_bind at 1, os_bytes. unfold io_bind at 1, io_res at 1.
    destruct (mlkem_encaps_ok k (map (e_os env) (seq (c_os c) 32)) Hk) as (ss & ct & Ee). rewrite Ee. cbn [ok_or].
    unfold derive_pq_shared_secret, KEY_LENGTH.
    destruct (hkdf_key (Some comb) (dh_concat (x25519_dh ia sb) (x25519_dh ea ib) (x25519_dh ea sb)
      (option_map (x25519_dh ea) ob) ++ ss) (bstr "SibnaPQX3DH_v3")) as (sh & -> & Hsh).
    exists sh, (Some ct). split; [done|]. split; [done|]. unfold io_bind at 1, io_res at 1, io_ret at 1.
    cbn [expand_or_fail ok_or crypto_res map_err]. rewrite io_res_bind. apply validate_outcome.
    intros x [= <-]. by apply (mlkem_lens _ _ _ _ Ee).
  - unfold derive_shared_secret, KEY_LENGTH.
    destruct (hkdf_key (Some comb) (dh_concat (x25519_dh ia sb) (x25519_dh ea ib) (x25519_dh ea sb)
      (option_map (x25519_dh ea) ob)) (bstr "SibnaX3DH_v3")) as (sh & -> & Hsh).
    exists sh, None. split; [done|]. split; [done|]. unfold io_bind at 1, io_res at 1, io_ret at 1.
    cbn [expand_or_fail ok_or crypto_res map_err]. rewrite io_res_bind. by apply validate_outcome.
Qed.

(** The responder gets the same secret from its own secrets and the ciphertext. *)
Lemma x3dh_responder_run ia ea ib sb ob dk dev_a dev_b ext coins secret ct :
  keys32 [ia; ea; ib; sb] -> (forall o, ob = Some o -> length o = 32%nat) ->
  (forall d, dk = Some d -> length d = 2400%nat /\ mlkem_dk_ok d = true) ->
  x3dh_secret ia ea (x25519_public ib) (x25519_public sb) (option_map x25519_public ob) (option_map mlkem_ek_of dk)
    dev_a dev_b ext coins = Some (secret, ct) ->
  x3dh_responder_v3 ib sb ob (x25519_public ia) (x25519_public ea) dk ct dev_b dev_a ext =
    x3dh_outcome secret (x3dh_dhs ia ea (x25519_public ib) (x25519_public sb) (option_map x25519_public ob)) None.
Proof.
  intros Hk Ho Hdk. destruct (x3dh_dh_agree ia ea ib sb ob Hk Ho) as (D1 & D2 & D3 & D4).
  unfold x3dh_secret, x3dh_responder_v3, x3dh_dhs, bind_transcript. rewrite D1, D2, D3, D4.
  destruct (hkdf_sha256 (Some ext) _ _ 32) as [comb|]; [|done]. cbn [or_panic res_bind]. destruct dk as [d|]; cbn [option_map].
  - destruct (Hdk d eq_refl) as [Hdl Hdok]. destruct (mlkem_encaps (mlkem_ek_of d) coins) as [[ss x]|] eqn:Ee; [|done].
    destruct (hkdf_sha256 (Some comb) _ (bstr "SibnaPQX3DH_v3") 32) as [sh|] eqn:Es; [|done]. cbn [option_map]. intros [= <- <-].
    pose proof (mlkem_lens _ _ _ _ Ee) as (_ & Hcl & Hcok).
    replace (len d =? 2400) with true by (symmetry; apply Z.eqb_eq; unfold len; lia).
    replace (len x =? 1088) with true by (symmetry; apply Z.eqb_eq; unfold len; lia).
    rewrite Hdok, Hcok, (mlkem_correct _ _ _ _ Hdok Ee). cbn [negb ok_or res_bind].
    unfold derive_pq_shared_secret, KEY_LENGTH. rewrite Es. cbn [expand_or_fail ok_or crypto_res map_err res_bind]. by apply validate_outcome.
  - destruct (hkdf_sha256 (Some comb) _ (bstr "SibnaX3DH_v3") 32) as [sh|] eqn:Es; [|done]. cbn [option_map]. intros [= <- <-].
    unfold derive_shared_secret, KEY_LENGTH. rewrite Es. cbn [expand_or_fail ok_or crypto_res map_err res_bind]. by apply validate_outcome.
Qed.

Lemma mlkem_public_usable dk :
  (forall d, dk = Some d -> length d = 2400%nat /\ mlkem_dk_ok d = true) ->
  forall k, option_map mlkem_ek_of dk = Some k -> length k = 1184%nat /\ mlkem_ek_ok k = true.
Proof.
  intros Hdk k Hk. destruct dk as [d|]; [|done]. injection Hk as <-.
  destruct (Hdk d eq_refl) as [_ Hd]. by destruct (mlkem_ek_of_ok d Hd).
Qed.

(** The two runs in the form the handshakes use them. *)
Lemma x3dh_initiator_total ia ea ib sb ob pk dev_a dev_b ext env c :
  (forall k, pk = Some k -> length k = 1184%nat /\ mlkem_ek_ok k = true) ->
  match fst (x3dh_initiator_v3 ia ea ib sb ob pk dev_a dev_b ext env c) with
  | Ok r => length (x_shared_secret r) = 32%nat /\ all_zero (x_shared_secret r) = false
  | Err e => e = ProtocolError.InvalidArgument
  | Panic => False
  end.
Proof.
  intros Hpk. destruct (x3dh_initiator_run ia ea ib sb ob pk dev_a dev_b ext env c Hpk) as (sh & ct & _ & Hl & ->).
  unfold x3dh_outcome. by destruct (all_zero sh) eqn:E.
Qed.

Lemma x3dh_agree ia ea ib sb ob dk dev_a dev_b ext env c ra c' :
  keys32 [ia; ea; ib; sb] -> (forall o, ob = Some o -> length o = 32%nat) ->
  (forall d, dk = Some d -> length d = 2400%nat /\ mlkem_dk_ok d = true) ->
  x3dh_initiator_v3 ia ea (x25519_public ib) (x25519_public sb) (option_map x25519_public ob)
    (option_map mlkem_ek_of dk) dev_a dev_b ext env c = (Ok ra, c') ->
  exists rb, x3dh_responder_v3 ib sb ob (x25519_public ia) (x25519_public ea) dk (x_pq_ciphertext ra)
      dev_b dev_a ext = Ok rb /\
    x_shared_secret rb = x_shared_secret ra /\ x_dh_results rb = x_dh_results ra /\
    verify_shared_secret ra rb = true.
Proof.
  intros Hk Ho Hdk E. destruct (x3dh_initiator_run ia ea (x25519_public ib) (x25519_public sb) (option_map x25519_public ob)
    (option_map mlkem_ek_of dk) dev_a dev_b ext env c (mlkem_public_usable dk Hdk)) as (sh & ct & Es & _ & Ei).
  rewrite E in Ei. cbn [fst] in Ei. pose proof (x3dh_responder_run _ _ _ _ _ _ _ _ _ _ _ _ Hk Ho Hdk Es) as Er.
  unfold x3dh_outcome in Ei, Er. destruct (all_zero sh); [done|]. injection Ei as ->. eexists. split; [exact Er|].
  split; [done|]. split; [done|]. apply constant_time_eq_refl.
Qed.

(** C7: both sides of X3DH agree.  Given 32-byte secrets and the responder's
    public keys, with or without one-time and post-quantum prekeys, the initiator
    gets exactly the secret of the protocol definition [x3dh_secret], and the
    responder, given the initiator's public keys and its ciphertext, gets the
    same.  If that secret is all zeros, both end with [InvalidArgument];
    otherwise both complete, with that shared secret and the same
    Diffie-Hellman results, and [verify_shared_secret] confirms it. *)
Theorem x3dh_agreement ia ea ib sb ob dk dev_a dev_b ext env c :
  keys32 [ia; ea; ib; sb] -> (forall o, ob = Some o -> length o = 32%nat) ->
  (forall d, dk = Some d -> length d = 2400%nat /\ mlkem_dk_ok d = true) ->
  exists secret ct,
    x3dh_secret ia ea (x25519_public ib) (x25519_public sb) (option_map x25519_public ob) (option_map mlkem_ek_of dk)
      dev_a dev_b ext (map (e_os env) (seq (c_os c) 32)) = Some (secret, ct) /\ length secret = 32%nat /\
    let dhs := x3dh_dhs ia ea (x25519_public ib) (x25519_public sb) (option_map x25519_public ob) in
    let initiator := fst (x3dh_initiator_v3 ia ea (x25519_public ib) (x25519_public sb) (option_map x25519_public ob)
                            (option_map mlkem_ek_of dk) dev_a dev_b ext env c) in
    let responder := x3dh_responder_v3 ib sb ob (x25519_public ia) (x25519_public ea) dk ct dev_b dev_a ext in
    if all_zero secret
    then initiator = Err ProtocolError.InvalidArgument /\ responder = Err ProtocolError.InvalidArgument
    else initiator = Ok (mkX3dhResult secret dhs ct) /\ responder = Ok (mkX3dhResult secret dhs None) /\
      verify_shared_secret (mkX3dhResult secret dhs ct) (mkX3dhResult secret dhs None) = true.
Proof.
  intros Hk Ho Hdk. destruct (x3dh_initiator_run ia ea (x25519_public ib) (x25519_public sb) (option_map x25519_public ob)
    (option_map mlkem_ek_of dk) dev_a dev_b ext env c (mlkem_public_usable dk Hdk)) as (sh & ct & Es & Hl & Ei).
  exists sh, ct. split; [done|]. split; [done|]. pose proof (x3dh_responder_run _ _ _ _ _ _ _ _ _ _ _ _ Hk Ho Hdk Es) as Er.
  cbv zeta. rewrite Ei, Er. unfold x3dh_outcome. destruct (all_zero sh); [done|]. split; [done|]. split; [done|]. apply constant_time_eq_refl.
Qed.

Lemma as_keys_ok ks : Forall (fun k => length k = 32%nat) ks -> as_keys ks = Ok ks.
Proof.
  induction 1 as [|k ks Hk _ IH]; [done|]. cbn [as_keys]. unfold as_key.
  replace (len k =? 32) with true by (symmetry; apply Z.eqb_eq; unfold len; lia).
  cbn [res_bind]. by rewrite IH.
Qed.

(** Session keys.  From every shared secret the derivation yields five
    32-byte keys, the extra two last; it cannot fail. *)
Theorem session_keys_total ss :
  exists sk, X3dhSessionKeys_from ss = Ok sk /\ len (extra_keys sk) = 2 /\
    Forall (fun k => length k = 32%nat) (sending_key sk :: receiving_key sk :: auth_key sk :: extra_keys sk).
Proof.
  unfold X3dhSessionKeys_from.
  destruct (hkdf_derive_multiple_ok ss (bstr "SibnaX3DH_SessionKeys_v3") session_key_infos)
    as (ks & -> & Hl & Hf); [repeat constructor; vm_compute; discriminate|].
  cbn [crypto_res map_err res_bind]. destruct ks as [|k0 [|k1 [|k2 rest]]]; try done.
  pose proof Hf as Hf'. rewrite !Forall_cons in Hf'. destruct Hf' as (H0 & H1 & H2 & Hr).
  unfold as_key. unfold len. rewrite H0, H1, H2. cbn [res_bind Z.of_nat Z.eqb].
  rewrite (as_keys_ok rest Hr). cbn [res_bind]. eexists. split; [reflexivity|].
  simpl in Hl |- *. split; [lia | done].
Qed.

End X3dh.

Definition demo_dk : bytes := repeat x5a 2400.

Lemma x3dh_agreement_witness :
  let ek := Some (mlkem_ek_of (Primitives := toy) demo_dk) in
  exists secret ct,
    fst (x3dh_initiator_v3 (P := toy) (repeat x01 32) (repeat x02 32) (repeat x03 32) (repeat x04 32)
           (Some (repeat x05 32)) ek (repeat x06 16) (repeat x07 16) demo_key demo_env1 ctr0)
      = Ok (mkX3dhResult secret (x3dh_dhs (P := toy) (repeat x01 32) (repeat x02 32) (repeat x03 32) (repeat x04 32) (Some (repeat x05 32))) ct) /\
    x3dh_responder_v3 (P := toy) (repeat x03 32) (repeat x04 32) (Some (repeat x05 32)) (repeat x01 32) (repeat x02 32)
        (Some demo_dk) ct (repeat x07 16) (repeat x06 16) demo_key
      = Ok (mkX3dhResult secret (x3dh_dhs (P := toy) (repeat x01 32) (repeat x02 32) (repeat x03 32) (repeat x04 32) (Some (repeat x05 32))) None).
Proof.
  intros ek.
  destruct (x3dh_agreement (P := toy) (L := toy_laws) (repeat x01 32) (repeat x02 32) (repeat x03 32)
    (repeat x04 32) (Some (repeat x05 32)) (Some demo_dk) (repeat x06 16) (repeat x07 16) demo_key demo_env1 ctr0)
    as (secret & ct & Es & _ & H).
  - repeat constructor.
  - intros o Ho. injection Ho as <-. reflexivity.
  - intros d Hd. injection Hd as <-. split; [reflexivity | vm_compute; reflexivity].
  - assert (Hz : all_zero secret = false).
    { change (all_zero (fst (secret, ct)) = false). revert Es.
      match goal with |- ?x = Some ?y -> _ => intros Es; assert (Hs : option_map fst x = Some secret) by (rewrite Es; reflexivity) end.
      vm_compute in Hs. injection Hs as <-. vm_compute. reflexivity. }
    rewrite Hz in H. destruct H as (Hi & Hr & _). exists secret, ct. split; [exact Hi | exact Hr].
Defined.

Lemma session_keys_total_witness : exists sk, X3dhSessionKeys_from (P := toy) (repeat x42 32) = Ok sk.
Proof.
  destruct (session_keys_total (P := toy) (L := toy_laws) (repeat x42 32)) as (sk & E & _).
  exists sk. exact E.
Defined.
