(* ===== verification/Bundle.v ===== *)
(** * Prekey bundles and handshake outputs ([core/src/handshake/mod.rs])

    The signed bundle of public keys a device publishes, its byte format and
    its validation, and the value a finished handshake hands to the session.
    The default build, with the post-quantum prekey. *)

From S2P Require Import Prelude Effects Errors Primitives Compare Encryptor Message.
#[local] Open Scope Z_scope.
#[local] Open Scope sibna_scope.

(** ** [HandshakeOutput] *)

Record HandshakeOutput := mkHandshakeOutput {
  ho_shared_secret : bytes;
  local_ephemeral_key : bytes;
  local_ephemeral_public : bytes;
  ho_pq_ciphertext : option bytes;
  associated_data : bytes;
  ho_timestamp : Z
}.

Definition HandshakeOutput_new {E} (shared_secret key public : bytes) : IO E HandshakeOutput :=
  let* timestamp := read_secs_or_far in
  io_ret (mkHandshakeOutput shared_secret key public None [] timestamp).

Definition with_pq_ciphertext (o : HandshakeOutput) (ct : bytes) : HandshakeOutput :=
  mkHandshakeOutput (ho_shared_secret o) (local_ephemeral_key o) (local_ephemeral_public o)
    (Some ct) (associated_data o) (ho_timestamp o).

Definition with_associated_data (o : HandshakeOutput) (ad : bytes) : HandshakeOutput :=
  mkHandshakeOutput (ho_shared_secret o) (local_ephemeral_key o) (local_ephemeral_public o)
    (ho_pq_ciphertext o) ad (ho_timestamp o).

Definition HandshakeOutput_validate {P : Primitives} (o : HandshakeOutput) : PResult unit :=
  if all_zero (ho_shared_secret o) then Err ProtocolError.InvalidArgument
  else if negb (constant_time_eq (x25519_public (local_ephemeral_key o)) (local_ephemeral_public o))
  then Err ProtocolError.InvalidArgument
  else Ok tt.

(** ** [PreKeyBundle] *)

Record PreKeyBundle := mkPreKeyBundle {
  identity_key : bytes;
  signed_prekey : bytes;
  signature : bytes;
  onetime_prekey : option bytes;
  bundle_id : bytes;
  timestamp : Z;
  expiration : Z;
  device_id : Z;
  root_identity_key : bytes;
  device_signature : bytes;
  bundle_signature : bytes;
  pq_signed_prekey : option bytes;
  pq_signed_prekey_signature : option bytes
}.

Definition PreKeyBundle_new {E} (ik spk sg : bytes) (opk : option bytes) (dev : Z) (root dev_sig : bytes)
    : IO E PreKeyBundle :=
  let* now := read_secs_or_far in
  let* exp := io_res (or_panic (u_add U64_MAX now (30 * 86400))) in
  let* id := os_bytes 16 in
  io_ret (mkPreKeyBundle ik spk sg opk id now exp dev root dev_sig (zeros 64) None None).

Definition with_pq_prekey (b : PreKeyBundle) (pk sg : bytes) : PreKeyBundle :=
  mkPreKeyBundle (identity_key b) (signed_prekey b) (signature b) (onetime_prekey b) (bundle_id b)
    (timestamp b) (expiration b) (device_id b) (root_identity_key b) (device_signature b)
    (bundle_signature b) (Some pk) (Some sg).

Definition set_bundle_signature (sg : bytes) (b : PreKeyBundle) : PreKeyBundle :=
  mkPreKeyBundle (identity_key b) (signed_prekey b) (signature b) (onetime_prekey b) (bundle_id b)
    (timestamp b) (expiration b) (device_id b) (root_identity_key b) (device_signature b)
    sg (pq_signed_prekey b) (pq_signed_prekey_signature b).

(** [o.is_some() as u8]. *)
Definition is_some_u8 {A} (o : option A) : u8 := match o with Some _ => x01 | None => x00 end.

Definition opt_bytes (o : option bytes) : bytes := from_option id [] o.

Definition signing_bytes (b : PreKeyBundle) : bytes :=
  identity_key b ++ signed_prekey b ++ signature b
  ++ [is_some_u8 (onetime_prekey b)] ++ opt_bytes (onetime_prekey b)
  ++ bundle_id b ++ u64_le (timestamp b) ++ u64_le (expiration b) ++ u32_le (device_id b)
  ++ root_identity_key b ++ device_signature b
  ++ [is_some_u8 (pq_signed_prekey b)] ++ opt_bytes (pq_signed_prekey b)
  ++ opt_bytes (pq_signed_prekey_signature b).

(** [signer] is the caller's closure. *)
Definition sign_bundle (signer : bytes -> PResult bytes) : M PreKeyBundle ProtocolError.t unit :=
  let! b := get in
  let! sg := res (signer (signing_bytes b)) in
  modify (set_bundle_signature sg).

Section Validate.
Context {P : Primitives}.

(** [VerifyingKey::from_bytes(..)?.verify(msg, sig)] with the key already parsed. *)
Definition check_sig (key msg sg : bytes) : PResult unit :=
  if ed25519_verify key msg sg then Ok tt else Err ProtocolError.InvalidSignature.

Definition check_key (key : bytes) : PResult unit :=
  if ed25519_key_ok key then Ok tt else Err ProtocolError.InvalidKey.

Definition check_pq (b : PreKeyBundle) : PResult unit :=
  match pq_signed_prekey b with
  | None => Ok tt
  | Some pk =>
      if negb (len pk =? 1184) then Err ProtocolError.InvalidKeyLength
      else match pq_signed_prekey_signature b with
           | Some sg => check_sig (identity_key b) pk sg
           | None => Err ProtocolError.InvalidSignature
           end
  end.

Definition bundle_validate (b : PreKeyBundle) : IO ProtocolError.t unit :=
  if all_zero (identity_key b) then io_res (Err ProtocolError.InvalidKey)
  else if all_zero (signed_prekey b) then io_res (Err ProtocolError.InvalidKey)
  else
    let* _ := io_res (check_key (identity_key b)) in
    let* _ := io_res (check_sig (identity_key b) (signed_prekey b) (signature b)) in
    let* _ := io_res (check_sig (identity_key b) (signing_bytes b) (bundle_signature b)) in
    let* _ := io_res (check_key (root_identity_key b)) in
    let* _ := io_res (check_sig (root_identity_key b) (identity_key b ++ u32_le (device_id b))
                        (device_signature b)) in
    let* _ := io_res (check_pq b) in
    let* clock := read_secs in
    let* now := io_res (ok_or clock ProtocolError.InternalError) in
    if expiration b <? now then io_res (Err ProtocolError.Expired) else io_ret tt.

End Validate.

(** ** The byte format *)

Definition to_bytes (b : PreKeyBundle) : bytes := signing_bytes b ++ bundle_signature b.

(** [data[off..off + n]]. *)
Definition field (data : bytes) (off n : nat) : PResult bytes := or_panic (slice off (off + n) data).

(** [data[off]]. *)
Definition byte_at (data : bytes) (off : nat) : PResult u8 := or_panic (data !! off).

(** The one-time prekey at [off], when the flag says so, and the next offset. *)
Definition read_onetime (data : bytes) (off : nat) : PResult (option bytes * nat) :=
  let? flag := byte_at data off in
  if Byte.eqb flag x00 then Ok (None, off + 1)%nat
  else let? opk := field data (off + 1) 32 in Ok (Some opk, off + 33)%nat.

(** The post-quantum prekey at [off], required by this build. *)
Definition read_pq (data : bytes) (off : nat) : PResult (bytes * bytes) :=
  if Z.of_nat off <? len data then
    let? flag := byte_at data off in
    if negb (Byte.eqb flag x00) && (Z.of_nat off + 1 + 1184 + 64 <=? len data) then
      let? pk := field data (off + 1) 1184 in
      let? sg := field data (off + 1185) 64 in
      Ok (pk, sg)
    else Err ProtocolError.InvalidMessage
  else Err ProtocolError.InvalidMessage.

Definition from_bytes (input : bytes) : PResult PreKeyBundle :=
  if len input <? 325 then Err ProtocolError.InvalidMessage
  else
    let sig_start := (length input - 64)%nat in
    let? bsig := field input sig_start 64 in
    let? data := field input 0 sig_start in
    let? ik := field data 0 32 in
    let? spk := field data 32 32 in
    let? sg := field data 64 64 in
    let? (opk, off) := read_onetime data 128 in
    if len data <? Z.of_nat off + 16 + 8 + 8 + 64 then Err ProtocolError.InvalidMessage
    else
      let? id := field data off 16 in
      let? ts := field data (off + 16) 8 in
      let? exp := field data (off + 24) 8 in
      if len data <? Z.of_nat off + 32 + 4 + 32 + 64 then Err ProtocolError.InvalidMessage
      else
        let? dev := field data (off + 32) 4 in
        let? root := field data (off + 36) 32 in
        let? dsig := field data (off + 68) 64 in
        let? (pk, pqsig) := read_pq data (off + 132) in
        Ok (mkPreKeyBundle ik spk sg opk id (from_le ts) (from_le exp) (from_le dev) root dsig
              bsig (Some pk) (Some pqsig)).

(** ** Lemmas *)

Definition opt_len (n : nat) (o : option bytes) : Prop := forall x, o = Some x -> length x = n.

(** The field widths of the struct. *)
Record wf_bundle (b : PreKeyBundle) : Prop := {
  wf_ik : length (identity_key b) = 32%nat;
  wf_spk : length (signed_prekey b) = 32%nat;
  wf_sig : length (signature b) = 64%nat;
  wf_opk : opt_len 32 (onetime_prekey b);
  wf_id : length (bundle_id b) = 16%nat;
  wf_ts : is_u64 (timestamp b);
  wf_exp : is_u64 (expiration b);
  wf_dev : is_u32 (device_id b);
  wf_root : length (root_identity_key b) = 32%nat;
  wf_dsig : length (device_signature b) = 64%nat;
  wf_bsig : length (bundle_signature b) = 64%nat;
  wf_pqsig : opt_len 64 (pq_signed_prekey_signature b)
}.

(** The cursor of a reader: what is left of [data] from [off] on. *)
Definition at_cursor (data : bytes) (off : nat) (rest : bytes) : Prop :=
  exists pre, data = pre ++ rest /\ length pre = off.

Lemma cursor_field data off n x rest :
  at_cursor data off (x ++ rest) -> length x = n ->
  field data off n = Ok x /\ at_cursor data (off + n) rest.
Proof.
  intros (pre & -> & <-) <-. unfold field. split.
  - by rewrite (slice_mid _ _ pre x rest) by lia.
  - exists (pre ++ x). rewrite <- app_assoc, length_app. done.
Qed.

Lemma cursor_byte data off x rest :
  at_cursor data off ([x] ++ rest) ->
  byte_at data off = Ok x /\ at_cursor data (off + 1) rest.
Proof.
  intros (pre & -> & <-). unfold byte_at. split.
  - change ([x] ++ rest) with (x :: rest). by rewrite list_lookup_middle.
  - exists (pre ++ [x]). rewrite <- app_assoc, length_app. done.
Qed.

Lemma cursor_len data off rest : at_cursor data off rest -> len data = Z.of_nat off + len rest.
Proof. intros (pre & -> & <-). by rewrite len_app. Qed.

Lemma cursor_start data : at_cursor data 0 data.
Proof. by exists []. Qed.

Lemma read_onetime_ok data off o rest :
  at_cursor data off ([is_some_u8 o] ++ opt_bytes o ++ rest) -> opt_len 32 o ->
  exists off', read_onetime data off = Ok (o, off') /\ at_cursor data off' rest.
Proof.
  intros Hc Ho. destruct (cursor_byte _ _ _ _ Hc) as [Eb Hc1]. unfold read_onetime. rewrite Eb.
  destruct o as [x|]; simpl in *; [|by eauto].
  destruct (cursor_field _ _ 32 _ _ Hc1 (Ho x eq_refl)) as [-> Hc2]. simpl.
  exists (off + 33)%nat. split; [done|]. by replace (off + 33)%nat with (off + 1 + 32)%nat by lia.
Qed.

Lemma read_pq_ok data off pk sg rest :
  at_cursor data off ([x01] ++ pk ++ sg ++ rest) -> length pk = 1184%nat -> length sg = 64%nat ->
  read_pq data off = Ok (pk, sg).
Proof.
  intros Hc Hp Hs. pose proof (cursor_len _ _ _ Hc) as Hl. rewrite !len_app in Hl. unfold len in Hl.
  destruct (cursor_byte _ _ _ _ Hc) as [Eb Hc1]. destruct (cursor_field _ _ _ _ _ Hc1 Hp) as [Ep Hc2].
  destruct (cursor_field _ _ _ _ _ Hc2 Hs) as [Es _]. unfold read_pq. rewrite Eb, Ep.
  replace (off + 1185)%nat with (off + 1 + 1184)%nat by lia. rewrite Es. simpl in Hl. unfold len.
  destruct (Z.ltb_spec (Z.of_nat off) (Z.of_nat (length data))); [|lia]. cbn [res_bind negb andb Byte.eqb].
  destruct (Z.leb_spec (Z.of_nat off + 1 + 1184 + 64) (Z.of_nat (length data))); [done | lia].
Qed.

(** A bundle whose flag announces no post-quantum key is refused. *)
Lemma read_pq_absent data off rest :
  at_cursor data off ([x00] ++ rest) -> read_pq data off = Err ProtocolError.InvalidMessage.
Proof.
  intros Hc. pose proof (cursor_len _ _ _ Hc) as Hl. rewrite len_app in Hl. unfold len in Hl. simpl in Hl.
  destruct (cursor_byte _ _ _ _ Hc) as [Eb _]. unfold read_pq, len. rewrite Eb.
  by destruct (Z.ltb_spec (Z.of_nat off) (Z.of_nat (length data))).
Qed.

(** Read the next field at the cursor [Hc] and move on. *)
Ltac next_field Hc Hlen :=
  let E := fresh "E" in let Hn := fresh "Hn" in
  destruct (cursor_field _ _ _ _ _ Hc Hlen) as [E Hn];
  try rewrite <- Nat.add_assoc in Hn; cbn [Nat.add] in Hn; rewrite E; clear Hc E; rename Hn into Hc.

(** The tail of the payload, after the fields every build has. *)
Definition pq_part (b : PreKeyBundle) : bytes :=
  [is_some_u8 (pq_signed_prekey b)] ++ opt_bytes (pq_signed_prekey b)
  ++ opt_bytes (pq_signed_prekey_signature b).

Lemma signing_bytes_min b : wf_bundle b -> (262 <= length (signing_bytes b))%nat.
Proof.
  intros []. unfold signing_bytes. rewrite !length_app, !length_to_le. simpl. lia.
Qed.

(** Parsing an encoded bundle recovers every fixed field and reaches the
    post-quantum part. *)
Lemma from_to_bytes b : wf_bundle b ->
  exists off, at_cursor (signing_bytes b) off (pq_part b) /\
    from_bytes (to_bytes b) =
      let? (pk, pqsig) := read_pq (signing_bytes b) off in
      Ok (mkPreKeyBundle (identity_key b) (signed_prekey b) (signature b) (onetime_prekey b)
            (bundle_id b) (timestamp b) (expiration b) (device_id b) (root_identity_key b)
            (device_signature b) (bundle_signature b) (Some pk) (Some pqsig)).
Proof.
  intros Hw. pose proof (signing_bytes_min b Hw) as Hmin. destruct Hw.
  unfold from_bytes, to_bytes. rewrite len_app. rewrite length_app, wf_bsig0, Nat.add_sub.
  destruct (Z.ltb_spec (len (signing_bytes b) + len (bundle_signature b)) 325);
    [unfold len in *; lia|].
  assert (Hs : at_cursor (signing_bytes b ++ bundle_signature b) (length (signing_bytes b))
                 (bundle_signature b ++ [])) by (eexists; rewrite app_nil_r; eauto).
  destruct (cursor_field _ _ _ _ _ Hs wf_bsig0) as [-> _].
  destruct (cursor_field _ _ _ _ _ (cursor_start (signing_bytes b ++ bundle_signature b)) eq_refl)
    as [-> _]. cbn [res_bind].
  pose proof (cursor_start (signing_bytes b)) as Hc. unfold signing_bytes at 2 in Hc.
  next_field Hc wf_ik0. next_field Hc wf_spk0. next_field Hc wf_sig0. cbn [res_bind].
  destruct (read_onetime_ok _ _ _ _ Hc wf_opk0) as (off & -> & Hc'). cbn [res_bind].
  pose proof (cursor_len _ _ _ Hc') as Hl. unfold len in Hl. rewrite !length_app, !length_to_le in Hl.
  simpl in Hl. unfold len.
  destruct (Z.ltb_spec (Z.of_nat (length (signing_bytes b))) (Z.of_nat off + 16 + 8 + 8 + 64)); [lia|].
  next_field Hc' wf_id0. next_field Hc' (length_to_le 8 (timestamp b)).
  next_field Hc' (length_to_le 8 (expiration b)). cbn [res_bind].
  destruct (Z.ltb_spec (Z.of_nat (length (signing_bytes b))) (Z.of_nat off + 32 + 4 + 32 + 64)); [lia|].
  next_field Hc' (length_to_le 4 (device_id b)). next_field Hc' wf_root0. next_field Hc' wf_dsig0.
  cbn [res_bind].
  exists (off + 132)%nat. split; [exact Hc'|]. by rewrite !from_le_u64, from_le_u32.
Qed.

(** The parser's guards cover every index it uses. *)
Lemma field_in_range data off n :
  (off + n <= length data)%nat -> exists x, field data off n = Ok x /\ length x = n.
Proof.
  intros H. unfold field. rewrite slice_ok by lia. eexists. split; [done|].
  rewrite length_take, length_drop. lia.
Qed.

Lemma byte_in_range data off : (off < length data)%nat -> exists x, byte_at data off = Ok x.
Proof. intros H. unfold byte_at. destruct (lookup_lt_is_Some_2 data off H) as [x ->]. by exists x. Qed.

Lemma read_onetime_total data off :
  (off + 33 <= length data)%nat ->
  exists o off', read_onetime data off = Ok (o, off') /\ opt_len 32 o /\ (off' <= off + 33)%nat.
Proof.
  intros H. unfold read_onetime. destruct (byte_in_range data off) as [x ->]; [lia|]. cbn [res_bind].
  split_guard; [exists None, (off + 1)%nat; split; [done | split; [by intros ? [=] | lia]]|].
  destruct (field_in_range data (off + 1) 32) as (k & -> & Hk); [lia|]. cbn [res_bind].
  exists (Some k), (off + 33)%nat. split; [done|]. split; [by intros ? [= <-] | lia].
Qed.

Lemma read_pq_total data off :
  match read_pq data off with
  | Ok (pk, sg) => length pk = 1184%nat /\ length sg = 64%nat
  | Err e => e = ProtocolError.InvalidMessage
  | Panic => False
  end.
Proof.
  unfold read_pq, len. split_guard; [|done].
  destruct (byte_in_range data off) as [x ->]; [lia|]. cbn [res_bind].
  destruct (negb (Byte.eqb x x00)); cbn [andb]; [|done]. split_guard; [|done].
  destruct (field_in_range data (off + 1) 1184) as (pk & -> & Hp); [lia|].
  destruct (field_in_range data (off + 1185) 64) as (sg & -> & Hs); [lia|]. done.
Qed.

(** What the parser returns on any input: a well-formed bundle with a
    post-quantum prekey, or [InvalidMessage]. *)
Lemma from_bytes_total input :
  match from_bytes input with
  | Ok b => wf_bundle b /\ exists pk, pq_signed_prekey b = Some pk /\ length pk = 1184%nat
  | Err e => e = ProtocolError.InvalidMessage
  | Panic => False
  end.
Proof.
  unfold from_bytes. destruct (Z.ltb_spec (len input) 325) as [|H]; [done|]. unfold len in H.
  destruct (field_in_range input (length input - 64) 64) as (bs & -> & Hbs); [lia|].
  destruct (field_in_range input 0 (length input - 64)) as (d & -> & Hd); [lia|]. cbn [res_bind].
  destruct (field_in_range d 0 32) as (ik & -> & Hik); [lia|].
  destruct (field_in_range d 32 32) as (spk & -> & Hspk); [lia|].
  destruct (field_in_range d 64 64) as (sg & -> & Hsg); [lia|]. cbn [res_bind].
  destruct (read_onetime_total d 128) as (o & off & -> & Ho & Hoff); [lia|]. cbn [res_bind].
  unfold len. split_guard; [done|].
  destruct (field_in_range d off 16) as (i & -> & Hi); [lia|].
  destruct (field_in_range d (off + 16) 8) as (ts & -> & Hts); [lia|].
  destruct (field_in_range d (off + 24) 8) as (ex & -> & Hex); [lia|]. cbn [res_bind].
  split_guard; [done|].
  destruct (field_in_range d (off + 32) 4) as (dv & -> & Hdv); [lia|].
  destruct (field_in_range d (off + 36) 32) as (rt & -> & Hrt); [lia|].
  destruct (field_in_range d (off + 68) 64) as (ds & -> & Hds); [lia|]. cbn [res_bind].
  pose proof (read_pq_total d (off + 132)) as Hpq.
  destruct (read_pq d (off + 132)) as [[pk ps]|e|]; [|exact Hpq|done]. cbn [res_bind].
  destruct Hpq as [Hpk Hps]. split; [|by exists pk].
  split; simpl; try done; try (by apply from_le_is_u64); try (by apply from_le_is_u32).
  by intros ? [= <-].
Qed.

(** C11: the bundle format.  A well-formed bundle with a 1184-byte
    post-quantum prekey and its signature is parsed back unchanged; one without
    a post-quantum prekey is refused with [InvalidMessage] (no downgrade); and
    on arbitrary input the parser never indexes out of bounds and returns only
    [InvalidMessage] or a well-formed bundle that has the prekey. *)
Theorem bundle_wire_format b :
  wf_bundle b ->
  (forall pk sg, pq_signed_prekey b = Some pk -> pq_signed_prekey_signature b = Some sg ->
     length pk = 1184%nat -> from_bytes (to_bytes b) = Ok b) /\
  (pq_signed_prekey b = None -> from_bytes (to_bytes b) = Err ProtocolError.InvalidMessage) /\
  (forall input, match from_bytes input with
     | Ok b' => wf_bundle b' /\ exists pk, pq_signed_prekey b' = Some pk /\ length pk = 1184%nat
     | Err e => e = ProtocolError.InvalidMessage
     | Panic => False
     end).
Proof.
  intros Hw. destruct (from_to_bytes b Hw) as (off & Hc & ->). unfold pq_part in Hc.
  split; [|split; [|apply from_bytes_total]].
  - intros pk sg Hpk Hsg Hl. rewrite Hpk, Hsg in Hc. simpl in Hc.
    rewrite <- (app_nil_r sg) in Hc.
    rewrite (read_pq_ok _ _ pk sg [] Hc Hl); [|by apply (wf_pqsig b Hw)].
    cbn [res_bind]. rewrite <- Hpk, <- Hsg. by destruct b.
  - intros Hn. rewrite Hn in Hc. by rewrite (read_pq_absent _ _ _ Hc).
Qed.

Section Signed.
Context {P : Primitives} {L : PrimitiveLaws P}.

(** What a device does to publish: build the bundle from its seeds, add the
    post-quantum prekey, sign. *)
Definition publish (sk rk spk : bytes) (opk : option bytes) (dev : Z) (pq : bytes)
    : IO ProtocolError.t PreKeyBundle :=
  let* b := PreKeyBundle_new (ed25519_public sk) spk (ed25519_sign sk spk) opk dev (ed25519_public rk)
              (ed25519_sign rk (ed25519_public sk ++ u32_le dev)) in
  let* (_, b) := run_on (sign_bundle (fun m => Ok (ed25519_sign sk m)))
                   (with_pq_prekey b pq (ed25519_sign sk pq)) in
  io_ret b.

Lemma publish_ok sk rk spk opk dev pq env c lo hi :
  length sk = 32%nat -> length rk = 32%nat -> length spk = 32%nat -> opt_len 32 opk -> is_u32 dev ->
  clock_in env lo hi -> 0 <= lo -> hi <= U64_MAX - 30 * 86400 ->
  exists b c', publish sk rk spk opk dev pq env c = (Ok b, c') /\ wf_bundle b /\
    pq_signed_prekey b = Some pq /\ pq_signed_prekey_signature b = Some (ed25519_sign sk pq) /\
    lo + 30 * 86400 <= expiration b <= hi + 30 * 86400 /\
    forall env' c0, all_zero (ed25519_public sk) = false -> all_zero spk = false -> length pq = 1184%nat ->
      bundle_validate b env' c0 =
        io_bind read_secs (fun clock => io_bind (io_res (ok_or clock ProtocolError.InternalError))
          (fun now => if expiration b <? now then io_res (Err ProtocolError.Expired) else io_ret tt)) env' c0.
Proof.
  intros Hsk Hrk Hspk Hopk Hdev Hck Hlo Hhi. unfold publish, PreKeyBundle_new.
  destruct (Hck (c_clock c)) as (ns & Ens & Hns). unfold io_bind, io_res, read_secs_or_far. rewrite Ens.
  cbn [from_option]. rewrite u_add_ok by lia. cbn [or_panic]. unfold os_bytes, io_ret, run_on, sign_bundle.
  unfold bind, get, res, modify, with_pq_prekey, set_bundle_signature.
  cbn -[Z.mul NANOS signing_bytes]. eexists _, _. split; [reflexivity|].
  destruct (ed25519_public_ok sk Hsk) as [Kok Kl]. destruct (ed25519_public_ok rk Hrk) as [Rok Rl].
  split.
  { split; cbn -[Z.mul NANOS signing_bytes]; rewrite ?ed25519_sign_len, ?length_map, ?length_seq; try done;
      try (unfold in_u in *; lia). intros ? [= <-]. apply ed25519_sign_len. }
  split; [done|]. split; [done|]. split; [cbn -[Z.mul NANOS signing_bytes]; lia|].
  intros env' c0 Hz1 Hz2 Hpq. unfold bundle_validate, check_pq, check_key, check_sig.
  cbn [identity_key signed_prekey signature bundle_signature root_identity_key device_id device_signature
       pq_signed_prekey pq_signed_prekey_signature].
  rewrite Hz1, Hz2, Kok, Rok.
  match goal with
  | |- context [ed25519_verify _ (signing_bytes ?b1) (ed25519_sign _ (signing_bytes ?b2))] =>
      change (signing_bytes b1) with (signing_bytes b2)
  end.
  rewrite !ed25519_correct by done.
  unfold len. rewrite Hpq. reflexivity.
Qed.

(** What a published bundle carries. *)
Lemma publish_fields sk rk spk opk dev pq env c b c' :
  publish sk rk spk opk dev pq env c = (Ok b, c') ->
  identity_key b = ed25519_public sk /\ signed_prekey b = spk /\ onetime_prekey b = opk /\ device_id b = dev.
Proof.
  unfold publish, PreKeyBundle_new, io_bind, io_res, io_ret, run_on, sign_bundle, read_secs_or_far, os_bytes,
    bind, get, res, modify. destruct (or_panic (u_add U64_MAX _ _)) as [x|e|]; try done.
  intros Hb. by injection Hb as <- _.
Qed.

(** A bundle of the full form is at most 1606 bytes long. *)
Lemma to_bytes_len b : wf_bundle b -> opt_len 1184 (pq_signed_prekey b) -> len (to_bytes b) <= 1606.
Proof.
  intros [] Hpq. unfold to_bytes, signing_bytes, len. rewrite !length_app, !length_to_le. simpl.
  assert (H : forall n o, opt_len n o -> (length (opt_bytes o) <= n)%nat).
  { intros n [x|] Ho; simpl; [by rewrite (Ho x eq_refl) | lia]. }
  pose proof (H _ _ wf_opk0). pose proof (H _ _ wf_pqsig0). pose proof (H _ _ Hpq). lia.
Qed.

(** The published bundle survives the byte format and validates until it
    expires. *)
Lemma published_bundle_valid sk rk spk opk dev pq env c lo hi :
  length sk = 32%nat -> length rk = 32%nat -> length spk = 32%nat -> length pq = 1184%nat ->
  opt_len 32 opk -> is_u32 dev -> all_zero (ed25519_public sk) = false -> all_zero spk = false ->
  clock_in env lo hi -> 0 <= lo -> hi <= U64_MAX - 30 * 86400 ->
  exists b c', publish sk rk spk opk dev pq env c = (Ok b, c') /\
    from_bytes (to_bytes b) = Ok b /\
    lo + 30 * 86400 <= expiration b <= hi + 30 * 86400 /\
    forall env' c0 now, option_map (fun ns => ns / NANOS) (e_clock env' (c_clock c0)) = Some now ->
      fst (bundle_validate b env' c0) =
        if now <=? expiration b then Ok tt else Err ProtocolError.Expired.
Proof.
  intros Hsk Hrk Hspk Hpq Hopk Hdev Hz1 Hz2 Hck Hlo Hhi.
  destruct (publish_ok sk rk spk opk dev pq env c lo hi) as (b & c' & E & Hw & E1 & E2 & Hx & Hv); try done.
  exists b, c'. split; [done|]. split; [|split; [done|]].
  - destruct (from_to_bytes b Hw) as (off & Hc & ->). unfold pq_part in Hc. rewrite E1, E2 in Hc.
    simpl in Hc. rewrite <- (app_nil_r (ed25519_sign sk pq)) in Hc.
    rewrite (read_pq_ok _ _ _ _ _ Hc Hpq (ed25519_sign_len _ _)). cbn [res_bind].
    rewrite <- E1, <- E2. by destruct b.
  - intros env' c0 now Hn. rewrite Hv by done. unfold io_bind, read_secs, io_res. rewrite Hn. cbn [ok_or].
    rewrite Z.leb_antisym. by destruct (expiration b <? now).
Qed.

(** What validation establishes.  A bundle that validates carries a
    parsable identity key under which the signed prekey, the whole payload and,
    when present, the 1184-byte post-quantum prekey verify, a device binding
    that verifies under a parsable root key, and is not expired at the clock
    reading used. *)
Theorem bundle_validate_sound b env c c' :
  bundle_validate b env c = (Ok tt, c') ->
  let vk := identity_key b in
  ed25519_key_ok vk = true /\ all_zero vk = false /\ all_zero (signed_prekey b) = false /\
  ed25519_verify vk (signed_prekey b) (signature b) = true /\
  ed25519_verify vk (signing_bytes b) (bundle_signature b) = true /\
  ed25519_key_ok (root_identity_key b) = true /\
  ed25519_verify (root_identity_key b) (vk ++ u32_le (device_id b)) (device_signature b) = true /\
  (forall pk, pq_signed_prekey b = Some pk -> length pk = 1184%nat /\
     exists sg, pq_signed_prekey_signature b = Some sg /\ ed25519_verify vk pk sg = true) /\
  (exists now, option_map (fun ns => ns / NANOS) (e_clock env (c_clock c)) = Some now /\
     now <= expiration b).
Proof.
  unfold bundle_validate, check_key, check_sig. destruct (all_zero (identity_key b)) eqn:E1; [done|].
  destruct (all_zero (signed_prekey b)) eqn:E2; [done|]. unfold io_bind, io_res.
  destruct (ed25519_key_ok (identity_key b)) eqn:E3; [|done].
  destruct (ed25519_verify (identity_key b) (signed_prekey b) _) eqn:E4; [|done].
  destruct (ed25519_verify (identity_key b) (signing_bytes b) _) eqn:E5; [|done].
  destruct (ed25519_key_ok (root_identity_key b)) eqn:E6; [|done].
  destruct (ed25519_verify (root_identity_key b) _ _) eqn:E7; [|done].
  destruct (check_pq b) as [[]| |] eqn:E8; try done. unfold read_secs.
  destruct (option_map _ _) as [now|] eqn:E9; [|done]. cbn [ok_or]. split_guard; [done|]. intros _.
  do 7 (split; [done|]). split; [|exists now; split; [done | lia]].
  intros pk Hpk. revert E8. unfold check_pq. rewrite Hpk. split_guard; [|done].
  destruct (pq_signed_prekey_signature b) as [sg|]; [|done]. unfold check_sig.
  destruct (ed25519_verify (identity_key b) pk sg) eqn:E10; [|done]. intros _.
  apply Z.eqb_eq in Heqb0. unfold len in Heqb0. split; [lia | by exists sg].
Qed.

End Signed.

Definition demo_env : Env := mkEnv (fun _ => Some (1700000000 * NANOS)) (fun _ => 0) (fun _ => x07) 1.

Lemma demo_env_clock : clock_in demo_env 1700000000 1700000000.
Proof. intros i. exists (1700000000 * NANOS). split; [done|]. rewrite Z.div_mul by done. lia. Qed.

Definition demo_bundle : PreKeyBundle :=
  mkPreKeyBundle (repeat x01 32) (repeat x02 32) (repeat x03 64) (Some (repeat x04 32)) (repeat x05 16)
    1700000000 1702592000 1 (repeat x06 32) (repeat x07 64) (repeat x08 64)
    (Some (repeat x09 1184)) (Some (repeat x0a 64)).

Lemma demo_bundle_wf : wf_bundle demo_bundle.
Proof.
  split; try reflexivity; try (by intros ? [= <-]); apply (bool_decide_unpack _); vm_compute; exact I.
Qed.

Lemma bundle_wire_format_witness : from_bytes (to_bytes demo_bundle) = Ok demo_bundle.
Proof.
  apply (bundle_wire_format demo_bundle demo_bundle_wf) with (pk := repeat x09 1184) (sg := repeat x0a 64);
    reflexivity.
Defined.

Lemma bundle_validate_sound_witness :
  match publish (P := toy) (repeat x01 32) (repeat x02 32) (repeat x03 32) None 1 (repeat x04 1184)
          demo_env ctr0 with
  | (Ok b, c') => ed25519_verify (Primitives := toy) (identity_key b) (signing_bytes b) (bundle_signature b) = true
  | _ => False
  end.
Proof.
  assert (V : match publish (P := toy) (repeat x01 32) (repeat x02 32) (repeat x03 32) None 1
                      (repeat x04 1184) demo_env ctr0 with
              | (Ok b, _) => is_ok (fst (bundle_validate (P := toy) b demo_env ctr0))
              | _ => false
              end = true) by (vm_compute; reflexivity).
  destruct (publish (P := toy) _ _ _ _ _ _ demo_env ctr0) as [[b|e|] c']; [|discriminate..].
  destruct (bundle_validate (P := toy) b demo_env ctr0) as [r c1] eqn:E1.
  destruct r as [[]|e|]; [|discriminate..].
  apply (bundle_validate_sound (P := toy) b demo_env ctr0 c1 E1).
Defined.
