(* ===== verification/Safety.v ===== *)
(** * Safety numbers ([core/src/safety.rs])

    The fingerprint two users compare out of band, its decimal display and the
    verification QR code.  Text is a list of bytes: the only characters the
    code inspects are ASCII digits, and no byte of a longer UTF-8 character is
    one. *)

From S2P Require Import Prelude Effects Errors Primitives Compare Message Session Bundle.
#[local] Open Scope Z_scope.
#[local] Open Scope sibna_scope.

Definition SAFETY_VERSION : u8 := x01.

Record SafetyNumber := mkSafetyNumber { digits : bytes; fingerprint : bytes; sn_version : u8 }.

(** ** Display *)

Definition digit (v : Z) : u8 := z2b (48 + v mod 10).

(** [format!("{:05}", v)] for [v < 100000]. *)
Definition fmt05 (v : Z) : bytes :=
  [digit (v / 10000); digit (v / 1000); digit (v / 100); digit (v / 10); digit v].

(** The space before every third chunk. *)
Definition separator (i : nat) : bytes :=
  if (0 <? Z.of_nat i) && (Z.of_nat i mod 3 =? 0) then [x20] else [].

(** [for (i, chunk) in bytes.chunks(2).enumerate()]. *)
Fixpoint digits_loop (i : nat) (l : bytes) : bytes :=
  match l with
  | [] => []
  | [a] => separator i ++ fmt05 (Z.shiftl (b2z a) 8 mod 100000)
  | a :: b :: t =>
      separator i ++ fmt05 (Z.lor (Z.shiftl (b2z a) 8) (b2z b) mod 100000) ++ digits_loop (S i) t
  end.

Definition bytes_to_digits (l : bytes) : bytes := digits_loop 0 l.

Definition is_ascii_digit (b : u8) : bool := (48 <=? b2z b) && (b2z b <=? 57).

(** ** [SafetyNumber] *)

Section Number.
Context {P : Primitives}.

(** [result[..32]] of the hash, and its display. *)
Definition from_hash (h : bytes) : SafetyNumber :=
  mkSafetyNumber (bytes_to_digits (take 32 h)) (take 32 h) SAFETY_VERSION.

Definition sorted_keys (a b : bytes) : bytes * bytes :=
  if HandshakeRole.bytes_lt a b then (a, b) else (b, a).

Definition calculate (our_identity their_identity : bytes) : SafetyNumber :=
  let '(first, second) := sorted_keys our_identity their_identity in
  from_hash (sha512 ([SAFETY_VERSION] ++ bstr "SIBNA_SAFETY_NUMBER_V1" ++ first ++ second)).

Definition calculate_with_extra (our_identity their_identity extra : bytes) : SafetyNumber :=
  let '(first, second) := sorted_keys our_identity their_identity in
  from_hash (sha512 ([SAFETY_VERSION] ++ bstr "SIBNA_SAFETY_NUMBER_V1_EXTRA" ++ first ++ second ++ extra)).

Definition safety_number_from_bundles (ours theirs : PreKeyBundle) : SafetyNumber :=
  calculate (identity_key ours) (identity_key theirs).

End Number.

Definition qr_data (n : SafetyNumber) : bytes := [sn_version n] ++ bstr "SB1" ++ fingerprint n.

Definition digit_value (b : u8) : Z := b2z b - 48.

(** [chunk_str.parse::<u32>()] on five digits. *)
Definition value5 (d : list u8) : Z := foldl (fun acc b => acc * 10 + digit_value b) 0 d.

(** The loop over [chunks(5)]. *)
Fixpoint parse_loop (fuel : nat) (ds : bytes) : bytes :=
  match fuel with
  | O => []
  | S k =>
      match ds with
      | [] => []
      | _ =>
          let value := value5 (take 5 ds) in
          [z2b (Z.land (Z.shiftr value 8) 255); z2b (Z.land value 255)] ++ parse_loop k (drop 5 ds)
      end
  end.

(** Sixteen chunks at most ([if i >= 16 { break }]). *)
Definition parse (s : bytes) : option SafetyNumber :=
  let ds := List.filter is_ascii_digit s in
  if negb (len ds =? 80) then None
  else let fp := parse_loop 16 ds in
       Some (mkSafetyNumber (bytes_to_digits fp) fp SAFETY_VERSION).

Definition verify (a b : SafetyNumber) : bool := constant_time_eq (fingerprint a) (fingerprint b).

(** The number of equal digit positions; the code divides it by 80.0. *)
Definition matching_digits (a b : SafetyNumber) : Z :=
  len (List.filter (fun p => Byte.eqb (fst p) (snd p))
         (zip (List.filter is_ascii_digit (digits a)) (List.filter is_ascii_digit (digits b)))).

(** [Similar] carries the matching count, the numerator of the score. *)
Inductive ComparisonResult := Match | Similar (matches : Z) | Mismatch.

(** [similarity > 0.8]: the double nearest to 64/80 is the literal itself, so
    the test is [64 < matches]. *)
Definition compare_safety_numbers (a b : SafetyNumber) : ComparisonResult :=
  if verify a b then Match
  else if 64 <? matching_digits a b then Similar (matching_digits a b) else Mismatch.

(** ** [VerificationQrCode] *)

Record VerificationQrCode := mkQr {
  qr_version : u8; qr_identity_key : bytes; qr_device_id : bytes;
  safety_fingerprint : bytes; verified : bool; mac_key : bytes }.

Definition Qr_new (ik dev fp mk : bytes) : VerificationQrCode := mkQr x01 ik dev fp false mk.

Definition mark_verified (q : VerificationQrCode) : VerificationQrCode :=
  mkQr (qr_version q) (qr_identity_key q) (qr_device_id q) (safety_fingerprint q) true (mac_key q).

Section Qr.
Context {P : Primitives}.

Definition calculate_mac (data key : bytes) : bytes := hmac_sha256 key data.

Definition qr_payload (q : VerificationQrCode) : bytes :=
  [qr_version q] ++ bstr "SIBNA" ++ [if verified q then x01 else x00]
  ++ qr_identity_key q ++ qr_device_id q ++ safety_fingerprint q.

Definition qr_to_bytes (q : VerificationQrCode) : bytes :=
  qr_payload q ++ calculate_mac (qr_payload q) (mac_key q).

Definition qr_from_bytes (data key : bytes) : PResult VerificationQrCode :=
  if negb (len data =? 119) then Err ProtocolError.InvalidMessage
  else
    let? version := byte_at data 0 in
    if negb (Byte.eqb version x01) then Err ProtocolError.VersionMismatch
    else
      let? magic := field data 1 5 in
      if negb (bool_decide (magic = bstr "SIBNA")) then Err ProtocolError.InvalidMessage
      else
        let? flag := byte_at data 6 in
        let? ik := field data 7 32 in
        let? dev := field data 39 16 in
        let? fp := field data 55 32 in
        let? mac := field data 87 32 in
        let? body := field data 0 87 in
        if negb (constant_time_eq mac (calculate_mac body key)) then Err ProtocolError.AuthenticationFailed
        else Ok (mkQr version ik dev fp (negb (Byte.eqb flag x00)) key).

End Qr.

(** ** Lemmas *)

Lemma digit_val v : b2z (digit v) = 48 + v mod 10.
Proof. unfold digit. apply b2z_z2b_small. pose proof (Z.mod_pos_bound v 10). lia. Qed.

Lemma digit_is_digit v : is_ascii_digit (digit v) = true.
Proof.
  unfold is_ascii_digit. rewrite digit_val. pose proof (Z.mod_pos_bound v 10).
  apply andb_true_iff. rewrite !Z.leb_le. lia.
Qed.

Lemma value5_fmt05 v : 0 <= v < 100000 -> value5 (fmt05 v) = v.
Proof.
  intros H. unfold value5, fmt05, digit_value. cbn [foldl]. rewrite !digit_val.
  Z.div_mod_to_equations. lia.
Qed.

Lemma filter_separator i : List.filter is_ascii_digit (separator i) = [].
Proof. unfold separator. by split_guard. Qed.

Lemma filter_fmt05 v : List.filter is_ascii_digit (fmt05 v) = fmt05 v.
Proof. unfold fmt05. simpl. by rewrite !digit_is_digit. Qed.

(** The sixteen-bit value of a chunk, and the two bytes read back from it. *)
Lemma chunk_value a b :
  Z.lor (Z.shiftl (b2z a) 8) (b2z b) mod 100000 = b2z b + 256 * b2z a.
Proof.
  pose proof (b2z_range a). pose proof (b2z_range b).
  rewrite Z.lor_comm, lor_shiftl_8 by done. apply Z.mod_small. lia.
Qed.

Lemma chunk_bytes a b :
  let v := b2z b + 256 * b2z a in
  [z2b (Z.land (Z.shiftr v 8) 255); z2b (Z.land v 255)] = [a; b].
Proof.
  pose proof (b2z_range a). pose proof (b2z_range b). cbv zeta.
  rewrite !(Z.land_ones _ 8) by lia. change (2 ^ 8) with 256.
  rewrite Z.shiftr_div_pow2 by lia. change (2 ^ 8) with 256.
  assert (E1 : (b2z b + 256 * b2z a) / 256 = b2z a) by (Z.div_mod_to_equations; lia).
  assert (E2 : (b2z b + 256 * b2z a) mod 256 = b2z b) by (Z.div_mod_to_equations; lia).
  rewrite E1, E2, Z.mod_small, !z2b_b2z by done. done.
Qed.

Lemma parse_step k d ds : length d = 5%nat ->
  parse_loop (S k) (d ++ ds) =
    [z2b (Z.land (Z.shiftr (value5 d) 8) 255); z2b (Z.land (value5 d) 255)] ++ parse_loop k ds.
Proof.
  intros H. destruct d as [|d0 [|d1 [|d2 [|d3 [|d4 [|]]]]]]; try (simpl in H; lia). done.
Qed.

(** The digits of [n] chunks, spaces removed, read back the chunks. *)
Lemma digits_loop_parse n : forall i l, length l = (2 * n)%nat ->
  let ds := List.filter is_ascii_digit (digits_loop i l) in
  length ds = (5 * n)%nat /\ parse_loop n ds = l.
Proof.
  induction n as [|n IH]; intros i l Hl.
  - destruct l; [done | discriminate].
  - destruct l as [|a [|b l]]; try (simpl in Hl; lia). cbn [digits_loop].
    rewrite !List.filter_app, filter_separator, filter_fmt05, chunk_value. cbn [app].
    destruct (IH (S i) l) as [IHl IHp]; [simpl in Hl; lia|]. cbv zeta.
    set (ds := List.filter is_ascii_digit (digits_loop (S i) l)) in *.
    pose proof (b2z_range a). pose proof (b2z_range b).
    split; [rewrite length_app, IHl; unfold fmt05; simpl; lia|].
    rewrite parse_step, value5_fmt05, IHp, chunk_bytes by (done || lia). done.
Qed.

Lemma parse_display fp : length fp = 32%nat ->
  parse (bytes_to_digits fp) = Some (mkSafetyNumber (bytes_to_digits fp) fp SAFETY_VERSION).
Proof.
  intros Hl. destruct (digits_loop_parse 16 0 fp Hl) as [Hn Hp]. unfold parse, bytes_to_digits.
  unfold len. rewrite Hn. change (negb (Z.of_nat (5 * 16) =? 80)) with false. by rewrite Hp.
Qed.

Lemma parse_inv s n : parse s = Some n ->
  digits n = bytes_to_digits (fingerprint n) /\ length (fingerprint n) = 32%nat.
Proof.
  unfold parse. destruct (len (List.filter is_ascii_digit s) =? 80) eqn:E; cbn [negb]; [|done].
  apply Z.eqb_eq in E. unfold len in E. intros [= <-]. split; [done|]. cbn [fingerprint].
  revert E. generalize (List.filter is_ascii_digit s). intros ds E.
  assert (G : forall k ds, length ds = (5 * k)%nat -> length (parse_loop k ds) = (2 * k)%nat).
  { clear. induction k as [|k IH]; intros ds H; [done|]. destruct ds as [|d ds]; [simpl in H; lia|].
    cbn [parse_loop]. rewrite length_app, IH; [simpl; lia|]. rewrite length_drop, H. lia. }
  apply (G 16%nat). lia.
Qed.

Section SafetyProperties.
Context {P : Primitives} {L : PrimitiveLaws P}.

Lemma sorted_keys_comm a b : sorted_keys a b = sorted_keys b a.
Proof.
  unfold sorted_keys. destruct (decide (a = b)) as [->|Hne]; [done|].
  rewrite (bytes_lt_antisym a b Hne). by destruct (HandshakeRole.bytes_lt b a).
Qed.

Lemma from_hash_display h : (32 <= length h)%nat ->
  parse (digits (from_hash h)) = Some (from_hash h).
Proof. intros H. unfold from_hash. cbn [digits]. apply parse_display. rewrite length_take. lia. Qed.

(** C37: two users verify each other.  Whatever the keys and whichever side
    computes, both devices display the same safety number; a user who types the
    other's displayed text gets back exactly that number, and the comparison
    with the own number answers [Match].  The same holds with extra data. *)
Theorem safety_numbers_agree a b extra :
  calculate a b = calculate b a /\
  calculate_with_extra a b extra = calculate_with_extra b a extra /\
  parse (digits (calculate b a)) = Some (calculate a b) /\
  compare_safety_numbers (calculate a b) (calculate b a) = Match /\
  parse (digits (calculate_with_extra b a extra)) = Some (calculate_with_extra a b extra) /\
  compare_safety_numbers (calculate_with_extra a b extra) (calculate_with_extra b a extra) = Match.
Proof.
  unfold calculate, calculate_with_extra. rewrite !(sorted_keys_comm b a).
  destruct (sorted_keys a b) as [k1 k2]. unfold compare_safety_numbers, verify.
  rewrite !from_hash_display, !constant_time_eq_refl by (rewrite sha512_len; lia). done.
Qed.

(** What a comparison can answer.  [Match] is given exactly when the
    32-byte fingerprints are equal; a typed number that is accepted by the
    parser redisplays as the canonical text of its fingerprint, which parses to
    itself. *)
Theorem comparison_exact s n m :
  parse s = Some n ->
  (compare_safety_numbers m n = Match <-> fingerprint m = fingerprint n) /\
  parse (digits n) = Some n /\ length (fingerprint n) = 32%nat.
Proof.
  intros Hp. destruct (parse_inv s n Hp) as [Hd Hl]. split; [|split; [|done]].
  - unfold compare_safety_numbers, verify. rewrite <- constant_time_eq_true.
    destruct (constant_time_eq _ _); [done|]. by split_guard.
  - rewrite Hd, parse_display by done. revert Hp. unfold parse. split_guard; [|done].
    intros [= <-]. done.
Qed.

Definition wf_qr (q : VerificationQrCode) : Prop :=
  qr_version q = x01 /\ length (qr_identity_key q) = 32%nat /\ length (qr_device_id q) = 16%nat /\
  length (safety_fingerprint q) = 32%nat.

Lemma length_qr_payload q : wf_qr q -> length (qr_payload q) = 87%nat.
Proof. intros (_ & H1 & H2 & H3). unfold qr_payload. rewrite !length_app. simpl. lia. Qed.

Lemma qr_parse q : wf_qr q -> qr_from_bytes (qr_to_bytes q) (mac_key q) = Ok q.
Proof.
  intros Hw. pose proof (length_qr_payload q Hw) as Hp. destruct Hw as (Hv & H1 & H2 & H3).
  pose proof (hmac_len (mac_key q) (qr_payload q)) as Hm. unfold qr_from_bytes, qr_to_bytes.
  rewrite len_app. unfold len, calculate_mac. rewrite Hp, Hm. cbn [Z.of_nat Z.add Z.eqb negb].
  set (mac := hmac_sha256 (mac_key q) (qr_payload q)) in *.
  assert (Hc : at_cursor (qr_payload q ++ mac) 0 ([x01] ++ bstr "SIBNA" ++
    [if verified q then x01 else x00] ++ qr_identity_key q ++ qr_device_id q ++ safety_fingerprint q ++ mac ++ [])).
  { exists []. unfold qr_payload. rewrite Hv, app_nil_r. split; [|done]. simpl. by rewrite <- !app_assoc. }
  destruct (cursor_byte _ _ _ _ Hc) as [-> Hc1]. cbn [res_bind Nat.add] in *.
  next_field Hc1 (eq_refl : length (bstr "SIBNA") = 5%nat). cbn [res_bind negb].
  rewrite bool_decide_eq_true_2 by done. cbn [negb Byte.eqb].
  destruct (cursor_byte _ _ _ _ Hc1) as [-> Hc2]. cbn [res_bind Nat.add] in *.
  next_field Hc2 H1. next_field Hc2 H2. next_field Hc2 H3. next_field Hc2 Hm.
  pose proof (cursor_start (qr_payload q ++ mac)) as Hs. next_field Hs Hp. cbn [res_bind].
  change (hmac_sha256 (mac_key q) (qr_payload q)) with mac. rewrite constant_time_eq_refl.
  destruct q as [v ik dev fp [] mk]; simpl in *; by subst v.
Qed.

(** QR codes.  A code is read back unchanged under its MAC key; a scanned
    code is accepted only if it is 119 bytes long and carries the HMAC of its
    first 87 bytes under the reader's key; and no input makes the reader
    panic. *)
Theorem qr_code_authentic q :
  wf_qr q ->
  qr_from_bytes (qr_to_bytes q) (mac_key q) = Ok q /\
  (forall data key q', qr_from_bytes data key = Ok q' ->
     length data = 119%nat /\ drop 87 data = hmac_sha256 key (take 87 data) /\ mac_key q' = key) /\
  (forall data key, qr_from_bytes data key <> Panic).
Proof.
  intros Hw. split; [by apply qr_parse|].
  assert (G : forall data key, match qr_from_bytes data key with
    | Ok q' => length data = 119%nat /\ drop 87 data = hmac_sha256 key (take 87 data) /\ mac_key q' = key
    | Panic => False | Err _ => True end).
  { intros data key. unfold qr_from_bytes, len, byte_at, field.
    destruct (Z.eqb_spec (Z.of_nat (length data)) 119) as [Hl|]; cbn [negb]; [|done].
    destruct (lookup_lt_is_Some_2 data 0) as [v ->]; [lia|]. cbn [or_panic res_bind].
    split_guard; [|done]. rewrite !slice_ok by lia. cbn [or_panic res_bind]. split_guard; [|done].
    destruct (lookup_lt_is_Some_2 data 6) as [f ->]; [lia|]. cbn [or_panic res_bind].
    split_guard; [|done]. split; [lia|]. split; [|done].
    apply constant_time_eq_true in Heqb1. unfold calculate_mac in Heqb1.
    change (87 + 32 - 87)%nat with 32%nat in Heqb1. rewrite take_ge in Heqb1; [done|].
    rewrite length_drop. lia. }
  split; intros data key; [intros q' E|intros E]; specialize (G data key); by rewrite E in G.
Qed.

End SafetyProperties.

Lemma comparison_exact_witness :
  let s := repeat x31 80 in
  match parse s with
  | Some n => parse (digits n) = Some n
  | None => False
  end.
Proof.
  intros s. destruct (parse s) as [n|] eqn:E; [|vm_compute in E; discriminate].
  apply (comparison_exact s n n E).
Defined.

Lemma qr_code_authentic_witness :
  let q := Qr_new (repeat x42 32) (repeat x01 16) (repeat xab 32) (repeat x99 32) in
  qr_from_bytes (P := toy) (qr_to_bytes (P := toy) q) (mac_key q) = Ok q.
Proof. intros q. apply (qr_code_authentic (L := toy_laws) q). repeat split. Defined.

(** Five-digit groups above 65535 are accepted and wrap: two different texts
    parse to the same safety number. *)
Example typed_groups_alias :
  parse (bstr "65536" ++ repeat x30 75) = parse (repeat x30 80).
Proof. vm_compute. reflexivity. Qed.

(** A displayed number has 80 digits and five spaces. *)
Example display_has_85_characters :
  length (bytes_to_digits (repeat xab 32)) = 85%nat.
Proof. reflexivity. Qed.

Lemma safety_numbers_agree_witness :
  calculate (P := toy) (repeat x42 32) (repeat x24 32) = calculate (P := toy) (repeat x24 32) (repeat x42 32).
Proof. apply (safety_numbers_agree (P := toy) (L := toy_laws) (repeat x42 32) (repeat x24 32) []). Defined.
