(* ===== verification/KeyStore.v ===== *)
(** * The key store ([core/src/keystore/mod.rs])

    Identity keys, signed and one-time prekeys, pinned peer keys, the bundle a
    device publishes, and the sealed form of the store.  The default build, with
    the post-quantum prekey.  Files are outside the model: [save_to_disk] and
    [load_from_disk] move the sealed bytes. *)

From S2P Require Import Prelude Effects Errors Primitives Compare Random Kdf Handler Encryptor Message Session Bundle.
#[local] Open Scope Z_scope.
#[local] Open Scope sibna_scope.

(** ** [IdentityKeyPair] *)

Record IdentityKeyPair := mkIdentity {
  ik_ed_secret : option bytes;
  ik_ed_public : bytes;
  ik_x_secret : option bytes;
  ik_x_public : bytes;
  ik_created_at : Z
}.

(** [try_into::<[u8; 32]>().map_err(|_| InvalidKeyLength)]. *)
Definition key32 (k : bytes) : PResult bytes :=
  if len k =? 32 then Ok k else Err ProtocolError.InvalidKeyLength.

Section Identity.
Context {P : Primitives}.

Definition IdentityKeyPair_generate {E} : IO E IdentityKeyPair :=
  let* ed_seed := os_bytes 32 in
  let* x_secret := os_bytes 32 in
  let* created_at := read_secs_or_far in
  io_ret (mkIdentity (Some ed_seed) (ed25519_public ed_seed) (Some x_secret) (x25519_public x_secret)
            created_at).

Definition IdentityKeyPair_from_bytes (ed_pub x_pub seed : bytes) : IO ProtocolError.t IdentityKeyPair :=
  let* ed_public := io_res (key32 ed_pub) in
  let* x_public := io_res (key32 x_pub) in
  let* seed := io_res (key32 seed) in
  let* _ := io_res (map_err (fun _ => ProtocolError.InvalidKey) (validate_public_key x_public)) in
  let* ed_seed := io_res (ok_or (hkdf_sha256 None seed (bstr "SibnaIdentityKey_Ed25519_v1") 32)
                            ProtocolError.KeyDerivationFailed) in
  let* x_seed := io_res (ok_or (hkdf_sha256 None seed (bstr "SibnaIdentityKey_X25519_v1") 32)
                           ProtocolError.KeyDerivationFailed) in
  let* created_at := read_secs_or_far in
  io_ret (mkIdentity (Some ed_seed) ed_public (Some x_seed) x_public created_at).

Definition identity_sign (k : IdentityKeyPair) (data : bytes) : PResult bytes :=
  let? secret := ok_or (ik_ed_secret k) ProtocolError.InvalidState in
  Ok (ed25519_sign secret data).

Definition identity_verify (k : IdentityKeyPair) (data sg : bytes) : PResult bool :=
  let? _ := check_key (ik_ed_public k) in
  let? _ := check_sig (ik_ed_public k) data sg in
  Ok true.

Definition identity_fingerprint (k : IdentityKeyPair) : bytes :=
  sha256 (ik_ed_public k ++ ik_x_public k).

(** A secret, when present, belongs to the public key. *)
Definition secret_matches (public_of : bytes -> bytes) (secret : option bytes) (public : bytes) : bool :=
  match secret with Some s => constant_time_eq (public_of s) public | None => true end.

Definition identity_is_valid (k : IdentityKeyPair) : bool :=
  if constant_time_is_zero (ik_ed_public k) then false
  else if constant_time_is_zero (ik_x_public k) then false
  else if negb (secret_matches ed25519_public (ik_ed_secret k) (ik_ed_public k)) then false
  else if negb (is_ok (validate_public_key (ik_x_public k))) then false
  else secret_matches x25519_public (ik_x_secret k) (ik_x_public k).

End Identity.

(** ** Prekeys *)

Record SignedPreKey := mkSignedPreKey {
  spk_id : Z;
  spk_secret : option bytes;
  spk_public : bytes;
  spk_signature : bytes;
  spk_pq_secret : option bytes;
  spk_pq_public : option bytes;
  spk_created_at : Z
}.

Record OneTimePreKey := mkOneTimePreKey {
  otk_id : Z; otk_secret : option bytes; otk_public : bytes; otk_used : bool; otk_created_at : Z }.

Section Prekeys.
Context {P : Primitives}.

Definition SignedPreKey_generate (key_id : Z) (identity : IdentityKeyPair) : IO ProtocolError.t SignedPreKey :=
  let* secret := os_bytes 32 in
  let* sg := io_res (identity_sign identity (x25519_public secret)) in
  let* coins := os_bytes 64 in
  let* (pk, sk) := io_res (ok_or (mlkem_keygen coins)
                             (ProtocolError.InternalErrorDetailed "PQC Keygen failed")) in
  let* created_at := read_secs_or_far in
  io_ret (mkSignedPreKey key_id (Some secret) (x25519_public secret) sg (Some sk) (Some pk) created_at).

Definition SignedPreKey_verify (k : SignedPreKey) (identity : IdentityKeyPair) : PResult bool :=
  if len (spk_signature k) =? 64 then identity_verify identity (spk_public k) (spk_signature k)
  else Err ProtocolError.InvalidSignature.

Definition SignedPreKey_is_expired {E} (k : SignedPreKey) : IO E bool :=
  let* now := current_timestamp_or (spk_created_at k) in
  let* limit := io_res (or_panic (u_add U64_MAX (spk_created_at k) (7 * 86400))) in
  io_ret (limit <? now).

Definition OneTimePreKey_generate {E} (key_id : Z) : IO E OneTimePreKey :=
  let* secret := os_bytes 32 in
  let* created_at := read_secs_or_far in
  io_ret (mkOneTimePreKey key_id (Some secret) (x25519_public secret) false created_at).

End Prekeys.

Definition mark_used (k : OneTimePreKey) : OneTimePreKey :=
  mkOneTimePreKey (otk_id k) None (otk_public k) true (otk_created_at k).

Definition OneTimePreKey_is_expired {E} (k : OneTimePreKey) : IO E bool :=
  let* now := read_secs_or_far in
  let* limit := io_res (or_panic (u_add U64_MAX (otk_created_at k) (30 * 86400))) in
  io_ret (limit <? now).

(** ** Pinned peer keys *)

Record PinnedKey := mkPinnedKey {
  pin_identity_key : bytes; pinned_at : Z; pin_verified : bool; pin_safety_number : bytes }.

Definition PinnedKey_new {P : Primitives} {E} (identity_key our_identity : bytes) : IO E PinnedKey :=
  let (first, second) := if HandshakeRole.bytes_lt our_identity identity_key
                         then (our_identity, identity_key) else (identity_key, our_identity) in
  let* now := read_secs_or_far in
  io_ret (mkPinnedKey identity_key now false
            (take 32 (sha512 (bstr "SIBNA_SAFETY_NUMBER_V1" ++ first ++ second)))).

Inductive PinResult := NewPin | Consistent | KeyChanged (pinned_key new_key : bytes).

(** ** [KeyStore] *)

Record KeyStore := mkKeyStore {
  identity : option IdentityKeyPair;
  ks_signed_prekey : option SignedPreKey;
  onetime_prekeys : gmap Z OneTimePreKey;
  next_onetime_id : Z;
  ks_device_id : Z;
  ks_root_identity_key : option bytes;
  ks_device_signature : option bytes;
  peer_pins : gmap bytes PinnedKey;
  ks_crypto : option CryptoHandler
}.

(** The iteration order of a [HashMap] is unspecified: some enumeration of its
    entries. *)
Class HashOrder := { hash_order : gmap Z OneTimePreKey -> list (Z * OneTimePreKey) }.

Class HashOrderLaws (H : HashOrder) := {
  hash_order_perm m : hash_order m ≡ₚ map_to_list m
}.

Definition KeyStore_new : KeyStore := mkKeyStore None None ∅ 1 0 None None ∅ None.

Abbreviation KM := (M KeyStore ProtocolError.t).

Definition set_ks_identity i s := mkKeyStore i (ks_signed_prekey s) (onetime_prekeys s) (next_onetime_id s)
  (ks_device_id s) (ks_root_identity_key s) (ks_device_signature s) (peer_pins s) (ks_crypto s).
Definition set_ks_signed_prekey k s := mkKeyStore (identity s) k (onetime_prekeys s) (next_onetime_id s)
  (ks_device_id s) (ks_root_identity_key s) (ks_device_signature s) (peer_pins s) (ks_crypto s).
Definition set_onetime m n s := mkKeyStore (identity s) (ks_signed_prekey s) m n
  (ks_device_id s) (ks_root_identity_key s) (ks_device_signature s) (peer_pins s) (ks_crypto s).
Definition set_pins m s := mkKeyStore (identity s) (ks_signed_prekey s) (onetime_prekeys s)
  (next_onetime_id s) (ks_device_id s) (ks_root_identity_key s) (ks_device_signature s) m (ks_crypto s).

Definition set_device_link (dev : Z) (root sg : bytes) (s : KeyStore) : KeyStore :=
  mkKeyStore (identity s) (ks_signed_prekey s) (onetime_prekeys s) (next_onetime_id s) dev (Some root)
    (Some sg) (peer_pins s) (ks_crypto s).

Definition get_identity_keypair (s : KeyStore) : PResult IdentityKeyPair :=
  ok_or (identity s) ProtocolError.KeyNotFound.

Definition get_signed_prekey (s : KeyStore) : PResult SignedPreKey :=
  ok_or (ks_signed_prekey s) ProtocolError.KeyNotFound.

Definition get_signed_prekey_public (s : KeyStore) : PResult bytes :=
  ok_or (option_map spk_public (ks_signed_prekey s)) ProtocolError.KeyNotFound.

Definition get_signed_prekey_pq_public (s : KeyStore) : PResult bytes :=
  ok_or (k ← ks_signed_prekey s; spk_pq_public k) ProtocolError.KeyNotFound.

Definition get_signed_prekey_pq_secret (s : KeyStore) : PResult bytes :=
  ok_or (k ← ks_signed_prekey s; spk_pq_secret k) ProtocolError.KeyNotFound.

Definition get_signed_prekey_signature (s : KeyStore) : PResult bytes :=
  let? k := get_signed_prekey s in
  if len (spk_signature k) =? 64 then Ok (spk_signature k) else Err ProtocolError.InvalidSignature.

Definition get_onetime_prekey_by_id (id : Z) (s : KeyStore) : PResult bytes :=
  ok_or (k ← onetime_prekeys s !! id; otk_secret k) ProtocolError.KeyNotFound.

Definition mark_onetime_used (id : Z) (s : KeyStore) : KeyStore :=
  set_onetime (alter mark_used id (onetime_prekeys s)) (next_onetime_id s) s.

(** [!k.used && !k.is_expired()]: the clock is read only for an unused key. *)
Definition is_available {E} (k : OneTimePreKey) : IO E bool :=
  if otk_used k then io_ret false
  else let* expired := OneTimePreKey_is_expired k in io_ret (negb expired).

(** The first available entry in iteration order. *)
Fixpoint first_available (l : list (Z * OneTimePreKey)) : IO ProtocolError.t (Z * OneTimePreKey) :=
  match l with
  | [] => io_res (Err ProtocolError.KeyNotFound)
  | (id, k) :: l => let* ok := is_available k in if ok then io_ret (id, k) else first_available l
  end.

(** [iter().filter(..)]. *)
Fixpoint available_entries {E} (l : list (Z * OneTimePreKey)) : IO E (list (Z * OneTimePreKey)) :=
  match l with
  | [] => io_ret []
  | (id, k) :: l =>
      let* ok := is_available k in
      let* rest := available_entries l in
      io_ret (if ok then (id, k) :: rest else rest)
  end.

Section Store.
Context {P : Primitives} {H : HashOrder}.

Definition set_identity (i : IdentityKeyPair) : KM unit :=
  if negb (identity_is_valid i) then res (Err ProtocolError.InvalidKey)
  else modify (set_ks_identity (Some i)).

Definition generate_signed_prekey : KM unit :=
  let! s := get in
  let! i := res (get_identity_keypair s) in
  let! prekey := lift (SignedPreKey_generate 1 i) in
  modify (set_ks_signed_prekey (Some prekey)).

Definition rotate_signed_prekey : KM bytes :=
  let! _ := generate_signed_prekey in
  let! s := get in
  res (get_signed_prekey_public s).

(** [for _ in 0..count]. *)
Fixpoint generate_loop (count : nat) : KM (list Z) :=
  match count with
  | O => ret []
  | S count =>
      let! s := get in
      let id := next_onetime_id s in
      let! next := res (or_panic (u_add U32_MAX id 1)) in
      let! _ := modify (fun s => set_onetime (onetime_prekeys s) next s) in
      let! prekey := lift (OneTimePreKey_generate id) in
      let! _ := modify (fun s => set_onetime (<[id := prekey]> (onetime_prekeys s)) (next_onetime_id s) s) in
      let! ids := generate_loop count in
      ret (id :: ids)
  end.

Definition generate_onetime_prekeys (count : nat) : KM (list Z) :=
  let! s := get in
  let! _ := res (get_identity_keypair s) in
  generate_loop count.

Definition onetime_prekey_count {E} (s : KeyStore) : IO E Z :=
  let* l := available_entries (hash_order (onetime_prekeys s)) in io_ret (len l).

Definition replenish_onetime_prekeys (threshold target : Z) : KM Z :=
  let! s := get in
  let! current := lift (onetime_prekey_count s) in
  if threshold <=? current then ret 0
  else
    let needed := sat_sub target current in
    let! _ := generate_onetime_prekeys (Z.to_nat needed) in
    ret needed.

Definition get_onetime_prekey (s : KeyStore) : IO ProtocolError.t bytes :=
  let* (_, k) := first_available (hash_order (onetime_prekeys s)) in
  io_res (ok_or (otk_secret k) ProtocolError.KeyNotFound).

Definition get_onetime_prekey_public (s : KeyStore) : IO ProtocolError.t (Z * bytes) :=
  let* (id, k) := first_available (hash_order (onetime_prekeys s)) in io_ret (id, otk_public k).

(** [retain] on the one-time prekeys, then the signed prekey. *)
Definition prune_keys : KM unit :=
  let! s := get in
  let! kept := lift (available_entries (hash_order (onetime_prekeys s))) in
  let! _ := modify (set_onetime (list_to_map kept) (next_onetime_id s)) in
  let! expired := match ks_signed_prekey s with
                  | Some k => lift (SignedPreKey_is_expired k)
                  | None => ret false
                  end in
  if expired then modify (set_ks_signed_prekey None) else ret tt.

Definition is_healthy (s : KeyStore) : bool := bool_decide (is_Some (identity s)).

Record KeyStoreStats := mkKeyStoreStats {
  has_identity : bool; has_signed_prekey : bool; kst_onetime_count : Z; total_onetime_prekeys : Z }.

Definition keystore_stats {E} (s : KeyStore) : IO E KeyStoreStats :=
  let* n := onetime_prekey_count s in
  io_ret (mkKeyStoreStats (bool_decide (is_Some (identity s))) (bool_decide (is_Some (ks_signed_prekey s)))
            n (Z.of_nat (size (onetime_prekeys s)))).

(** [.ok().map(|(_, pub_key)| pub_key)]. *)
Definition available_onetime (s : KeyStore) : IO ProtocolError.t (option bytes) :=
  let* r := io_try (get_onetime_prekey_public s) in
  io_ret (match r with Ok (_, pk) => Some pk | _ => None end).

Definition get_prekey_bundle_data (s : KeyStore)
    : IO ProtocolError.t (bytes * bytes * bytes * option bytes) :=
  let* i := io_res (get_identity_keypair s) in
  let* spk := io_res (get_signed_prekey_public s) in
  let* sg := io_res (get_signed_prekey_signature s) in
  let* opk := available_onetime s in
  io_ret (ik_ed_public i, spk, sg, opk).

(** The device certificate: stored by [set_device_link], or signed with our own
    identity on the master device. *)
Definition device_certificate (i : IdentityKeyPair) (s : KeyStore) : PResult bytes :=
  match ks_device_signature s with
  | Some sg => Ok (if len sg =? 64 then sg else zeros 64)
  | None => identity_sign i (ik_ed_public i ++ u32_le (ks_device_id s))
  end.

Definition generate_prekey_bundle_bytes (s : KeyStore) : IO ProtocolError.t bytes :=
  let* i := io_res (get_identity_keypair s) in
  let* spk := io_res (get_signed_prekey_public s) in
  let* sg := io_res (get_signed_prekey_signature s) in
  let* opk := available_onetime s in
  let root := default (ik_ed_public i) (ks_root_identity_key s) in
  let* dev_sig := io_res (device_certificate i s) in
  let* b := PreKeyBundle_new (ik_ed_public i) spk sg opk (ks_device_id s) root dev_sig in
  let* b := match get_signed_prekey_pq_public s with
            | Ok pq => let* pq_sig := io_res (identity_sign i pq) in io_ret (with_pq_prekey b pq pq_sig)
            | _ => io_ret b
            end in
  let* (_, b) := run_on (sign_bundle (identity_sign i)) b in
  io_ret (to_bytes b).

(** *** Challenge and response *)

Definition generate_challenge : IO ProtocolError.t bytes :=
  io_map_err ProtocolError.from_crypto (fresh_bytes 32).

Definition verify_signed_challenge (challenge signed device_pub : bytes) : PResult bool :=
  let? _ := check_key device_pub in
  let? _ := check_sig device_pub challenge signed in
  Ok true.

(** *** Pinning *)

Definition pin_peer_key (peer_id new_key : bytes) : KM PinResult :=
  let! s := get in
  let our_identity := default (zeros 32) (option_map ik_ed_public (identity s)) in
  match peer_pins s !! peer_id with
  | None =>
      let! pin := lift (PinnedKey_new new_key our_identity) in
      let! _ := modify (fun s => set_pins (<[peer_id := pin]> (peer_pins s)) s) in
      ret NewPin
  | Some existing =>
      if constant_time_eq (pin_identity_key existing) new_key then ret Consistent
      else ret (KeyChanged (pin_identity_key existing) new_key)
  end.

Definition verify_or_pin_peer_key (peer_id new_key : bytes) : KM PinResult :=
  let! r := pin_peer_key peer_id new_key in
  match r with
  | KeyChanged _ _ => res (Err ProtocolError.KeyMismatch)
  | other => ret other
  end.

End Store.

Definition get_peer_pin (peer_id : bytes) (s : KeyStore) : option PinnedKey := peer_pins s !! peer_id.

Definition is_peer_verified (peer_id : bytes) (s : KeyStore) : bool :=
  match peer_pins s !! peer_id with Some pin => pin_verified pin | None => false end.

Definition verify_pin (p : PinnedKey) : PinnedKey :=
  mkPinnedKey (pin_identity_key p) (pinned_at p) true (pin_safety_number p).

Definition mark_peer_verified (peer_id : bytes) (s : KeyStore) : KeyStore :=
  set_pins (alter verify_pin peer_id (peer_pins s)) s.

Definition remove_peer_pin (peer_id : bytes) (s : KeyStore) : KeyStore :=
  set_pins (delete peer_id (peer_pins s)) s.

(** As a set: the order of the map is unspecified. *)
Definition pinned_peers (s : KeyStore) : gset bytes := dom (peer_pins s).

(** [Zeroize]: arrays become zeros, a [Vec] becomes empty. *)
Definition IdentityKeyPair_zeroize (k : IdentityKeyPair) : IdentityKeyPair :=
  mkIdentity (option_map (fun s => zeros (length s)) (ik_ed_secret k)) (zeros (length (ik_ed_public k)))
    (ik_x_secret k) (zeros (length (ik_x_public k))) (ik_created_at k).

Definition SignedPreKey_zeroize (k : SignedPreKey) : SignedPreKey :=
  mkSignedPreKey (spk_id k) (spk_secret k) (zeros (length (spk_public k))) [] (spk_pq_secret k) (spk_pq_public k)
    (spk_created_at k).

Definition OneTimePreKey_zeroize (k : OneTimePreKey) : OneTimePreKey :=
  mkOneTimePreKey (otk_id k) (otk_secret k) (zeros (length (otk_public k))) (otk_used k) (otk_created_at k).

Definition keystore_zeroize (s : KeyStore) : KeyStore :=
  mkKeyStore None None ∅ 0 (ks_device_id s) (ks_root_identity_key s) (ks_device_signature s) ∅ (ks_crypto s).

(** ** The sealed store

    What [serde] writes: the X25519 secrets of the identity and of the signed
    prekey are written as [None] ([dh_local_serde]), those of the one-time
    prekeys and the handler are [#[serde(skip)]]; everything else, the Ed25519
    secret and the post-quantum secret included, is kept.  The maps are kept as
    maps. *)

Definition strip_identity (k : IdentityKeyPair) : IdentityKeyPair :=
  mkIdentity (ik_ed_secret k) (ik_ed_public k) None (ik_x_public k) (ik_created_at k).

Definition strip_prekey (k : SignedPreKey) : SignedPreKey :=
  mkSignedPreKey (spk_id k) None (spk_public k) (spk_signature k) (spk_pq_secret k) (spk_pq_public k)
    (spk_created_at k).

Definition strip_onetime (k : OneTimePreKey) : OneTimePreKey :=
  mkOneTimePreKey (otk_id k) None (otk_public k) (otk_used k) (otk_created_at k).

Definition persistent (s : KeyStore) : KeyStore :=
  mkKeyStore (option_map strip_identity (identity s)) (option_map strip_prekey (ks_signed_prekey s))
    (strip_onetime <$> onetime_prekeys s) (next_onetime_id s) (ks_device_id s) (ks_root_identity_key s)
    (ks_device_signature s) (peer_pins s) None.

(** [bincode] on the persistent part; the decoder restores what was encoded. *)
Class StoreCodec := {
  store_encode : KeyStore -> option bytes;
  store_decode : bytes -> option KeyStore
}.

Class StoreCodecLaws (C : StoreCodec) := {
  store_codec_roundtrip s b : store_encode (persistent s) = Some b -> store_decode b = Some (persistent s)
}.

Section Sealed.
Context {P : Primitives} {C : StoreCodec}.

Definition to_encrypted_bytes (s : KeyStore) (key : bytes) : IO ProtocolError.t bytes :=
  let* plaintext := io_res (ok_or (store_encode (persistent s)) ProtocolError.SerializationError) in
  let* h := io_res (map_err (fun _ => ProtocolError.InternalError) (CryptoHandler_new key)) in
  io_map_err (fun _ => ProtocolError.StorageError) (handler_encrypt h plaintext (bstr "SibnaKeyStore_v3")).

Definition set_crypto (c : option CryptoHandler) (s : KeyStore) : KeyStore :=
  mkKeyStore (identity s) (ks_signed_prekey s) (onetime_prekeys s) (next_onetime_id s) (ks_device_id s)
    (ks_root_identity_key s) (ks_device_signature s) (peer_pins s) c.

Definition from_encrypted_bytes (data key : bytes) : PResult KeyStore :=
  let? h := map_err (fun _ => ProtocolError.InternalError) (CryptoHandler_new key) in
  let? plaintext := map_err (fun _ => ProtocolError.StorageError)
                      (handler_decrypt h data (bstr "SibnaKeyStore_v3")) in
  let? s := ok_or (store_decode plaintext) ProtocolError.DeserializationError in
  Ok (set_crypto None s).

End Sealed.

(** ** Histories of a store *)

Inductive ks_op :=
| OpSetIdentity (i : IdentityKeyPair) | OpDeviceLink (dev : Z) (root sg : bytes) | OpSignedPrekey
| OpRotate | OpOnetime (count : nat) | OpReplenish (threshold target : Z) | OpMarkUsed (id : Z) | OpPrune
| OpPin (peer key : bytes) | OpVerifyOrPin (peer key : bytes) | OpMarkVerified (peer : bytes)
| OpRemovePin (peer : bytes) | OpZeroize.

Section History.
Context {P : Primitives} {H : HashOrder}.

(** Forget the result, as a caller may. *)
Definition drop_result {A} (m : KM A) : KM unit := let! _ := m in ret tt.

Definition ks_run (o : ks_op) : KM unit :=
  match o with
  | OpSetIdentity i => set_identity i
  | OpDeviceLink dev root sg => modify (set_device_link dev root sg)
  | OpSignedPrekey => generate_signed_prekey
  | OpRotate => drop_result rotate_signed_prekey
  | OpOnetime n => drop_result (generate_onetime_prekeys n)
  | OpReplenish a b => drop_result (replenish_onetime_prekeys a b)
  | OpMarkUsed id => modify (mark_onetime_used id)
  | OpPrune => prune_keys
  | OpPin p k => drop_result (pin_peer_key p k)
  | OpVerifyOrPin p k => drop_result (verify_or_pin_peer_key p k)
  | OpMarkVerified p => modify (mark_peer_verified p)
  | OpRemovePin p => modify (remove_peer_pin p)
  | OpZeroize => modify keystore_zeroize
  end.

(** One call, whatever it returns, by an operation of [allowed]. *)
Definition ks_step (allowed : ks_op -> Prop) (env : Env) (st st' : KeyStore * Ctr) : Prop :=
  exists o, allowed o /\ (snd (fst (ks_run o env (fst st) (snd st))), snd (ks_run o env (fst st) (snd st))) = st'.

Lemma ks_step_invariant (I : KeyStore -> Prop) allowed env st st' :
  (forall o, allowed o -> preserves I (ks_run o)) ->
  rtc (ks_step allowed env) st st' -> I (fst st) -> I (fst st').
Proof.
  intros Hp Hr. induction Hr as [|x y z (o & Ho & <-) _ IH]; [done|].
  intros Hi. apply IH. by apply (Hp o Ho).
Qed.

(** *** Pins *)

(** The peer is pinned to [key]. *)
Definition pinned_to (p key : bytes) (s : KeyStore) : Prop :=
  exists pin, peer_pins s !! p = Some pin /\ pin_identity_key pin = key.

Lemma pinned_set_pins p key m s :
  pinned_to p key s -> (forall pin, peer_pins s !! p = Some pin ->
    exists pin', m !! p = Some pin' /\ pin_identity_key pin' = pin_identity_key pin) ->
  pinned_to p key (set_pins m s).
Proof. intros (pin & Hp & <-) Hm. destruct (Hm pin Hp) as (pin' & ? & ?). by exists pin'. Qed.

Lemma pin_peer_key_pinned p key p' key' : preserves (pinned_to p key) (pin_peer_key p' key').
Proof.
  unfold pin_peer_key. apply leads_get_bind. intros s Hs. destruct (peer_pins s !! p') as [e|] eqn:Ep.
  - destruct (constant_time_eq _ _); intros env s' c ->; done.
  - intros env s' c ->. unfold bind, lift, PinnedKey_new.
    destruct (HandshakeRole.bytes_lt _ _); unfold io_bind, read_secs_or_far, io_ret, modify, ret; cbn [fst snd];
      (apply pinned_set_pins; [done|]; intros pin Hpin; exists pin;
       rewrite lookup_insert_ne by congruence; done).
Qed.

Lemma generate_loop_frame (I : KeyStore -> Prop) n :
  (forall m k s, I s -> I (set_onetime m k s)) -> preserves I (generate_loop n).
Proof.
  intros Hf. induction n as [|n IH]; cbn [generate_loop]; [apply leads_ret|].
  repeat lead_step; try apply IH; try apply leads_lift; apply leads_modify; auto.
Qed.

(** An operation that does not touch a part of the store keeps what is said of it. *)
Lemma ks_run_pinned p key o : o <> OpRemovePin p -> o <> OpZeroize -> preserves (pinned_to p key) (ks_run o).
Proof.
  intros Ho Hz. destruct o; cbn [ks_run]; unfold drop_result.
  - unfold set_identity. lead_steps.
  - lead_steps.
  - unfold generate_signed_prekey. lead_steps.
  - unfold rotate_signed_prekey, generate_signed_prekey. lead_steps.
  - unfold generate_onetime_prekeys. repeat lead_step. apply generate_loop_frame. auto.
  - unfold replenish_onetime_prekeys, generate_onetime_prekeys. repeat lead_step.
    apply generate_loop_frame. auto.
  - lead_steps.
  - unfold prune_keys. lead_steps.
  - repeat lead_step. apply pin_peer_key_pinned.
  - unfold verify_or_pin_peer_key. repeat lead_step. apply pin_peer_key_pinned.
  - apply leads_modify. intros s Hs. apply pinned_set_pins; [done|]. intros pin Hp.
    destruct (decide (peer = p)) as [->|Hne].
    + exists (verify_pin pin). by rewrite lookup_alter_eq, Hp.
    + exists pin. by rewrite lookup_alter_ne.
  - apply leads_modify. intros s Hs. apply pinned_set_pins; [done|]. intros pin Hp. exists pin.
    by rewrite lookup_delete_ne by congruence.
  - done.
Qed.

(** A pinned peer: what the next contact is told. *)
Lemma pinned_contact p key key' s env c :
  pinned_to p key s ->
  fst (fst (pin_peer_key p key' env s c)) = Ok (if bool_decide (key' = key) then Consistent
                                                else KeyChanged key key') /\
  fst (fst (verify_or_pin_peer_key p key' env s c)) =
    (if bool_decide (key' = key) then Ok Consistent else Err ProtocolError.KeyMismatch).
Proof.
  intros (pin & Hp & <-). unfold verify_or_pin_peer_key, pin_peer_key, bind, get. rewrite Hp.
  rewrite constant_time_eq_decide. case_bool_decide as E1; case_bool_decide as E2; by subst.
Qed.

(** *** One-time prekeys *)

(** Ids are below the next one to be issued; a used key has no secret. *)
Definition onetime_inv (s : KeyStore) : Prop :=
  forall id k, onetime_prekeys s !! id = Some k ->
    id < next_onetime_id s /\ (otk_used k = true -> otk_secret k = None).

(** The id has been issued, and if its entry is still there it is used up. *)
Definition used_up (id : Z) (s : KeyStore) : Prop :=
  id < next_onetime_id s /\ forall k, onetime_prekeys s !! id = Some k -> otk_used k = true.

(** The invariant, and optionally an id that is used up. *)
Definition onetime_spent (o : option Z) (s : KeyStore) : Prop :=
  onetime_inv s /\ forall id, o = Some id -> used_up id s.

Lemma onetime_inv_sub m s :
  onetime_inv s -> m ⊆ onetime_prekeys s -> onetime_inv (set_onetime m (next_onetime_id s) s).
Proof. intros Hi Hm id k Hk. simpl in *. apply (Hi id k). by eapply lookup_weaken. Qed.

Lemma onetime_inv_issue s k :
  onetime_inv s -> otk_used k = false ->
  onetime_inv (set_onetime (<[next_onetime_id s := k]> (onetime_prekeys s)) (next_onetime_id s + 1) s).
Proof.
  intros Hi Hu id k' Hk. simpl in *. destruct (decide (id = next_onetime_id s)) as [->|Hne].
  - rewrite lookup_insert_eq in Hk. injection Hk as <-. split; [lia | congruence].
  - rewrite lookup_insert_ne in Hk by done. destruct (Hi id k' Hk). split; [lia | done].
Qed.

Lemma onetime_inv_mark s id : onetime_inv s -> onetime_inv (mark_onetime_used id s).
Proof.
  intros Hi id' k Hk. simpl in *. destruct (decide (id = id')) as [->|Hne].
  - rewrite lookup_alter_eq in Hk. destruct (onetime_prekeys s !! id') as [k'|] eqn:E; [|done].
    injection Hk as <-. split; [by apply (Hi id' k') | done].
  - rewrite lookup_alter_ne in Hk by done. by apply (Hi id' k).
Qed.

Lemma spent_issue id s k :
  onetime_spent id s -> otk_used k = false ->
  onetime_spent id (set_onetime (<[next_onetime_id s := k]> (onetime_prekeys s)) (next_onetime_id s + 1) s).
Proof.
  intros (Hi & Hs) Hk. split; [by apply onetime_inv_issue|]. intros i Hid.
  destruct (Hs i Hid) as [Hlt Hu]. simpl. split; simpl; [lia|].
  intros k'. rewrite lookup_insert_ne by lia. apply Hu.
Qed.

Lemma spent_sub id m s :
  onetime_spent id s -> m ⊆ onetime_prekeys s -> onetime_spent id (set_onetime m (next_onetime_id s) s).
Proof.
  intros (Hi & Hs) Hm. split; [by apply onetime_inv_sub|]. intros i Hid.
  destruct (Hs i Hid) as [Hlt Hu]. split; [done|]. intros k Hk. apply Hu. by eapply lookup_weaken.
Qed.

Lemma spent_mark id id' s : onetime_spent id s -> onetime_spent id (mark_onetime_used id' s).
Proof.
  intros (Hi & Hs). split; [by apply onetime_inv_mark|]. intros i Hid.
  destruct (Hs i Hid) as [Hlt Hu]. split; [done|]. intros k Hk. simpl in Hk.
  destruct (decide (id' = i)) as [->|Hne].
  - rewrite lookup_alter_eq in Hk. by destruct (onetime_prekeys s !! i); simplify_eq/=.
  - rewrite lookup_alter_ne in Hk by done. by apply Hu.
Qed.

Lemma generate_loop_spent id n : preserves (onetime_spent id) (generate_loop n).
Proof.
  induction n as [|n IH]; cbn [generate_loop]; [apply leads_ret|]. apply leads_get_bind.
  intros s Hs env s' c ->. unfold bind at 1, res at 1, u_add. split_guard; [|done]. cbn [or_panic].
  unfold bind at 1, modify at 1. unfold bind at 1, lift at 1, OneTimePreKey_generate, io_bind, os_bytes.
  unfold read_secs_or_far, io_ret. unfold bind at 1, modify at 1. cbn [onetime_prekeys next_onetime_id set_onetime].
  refine (leads_bind _ _ _ IH _ env _ _ _); [intros; apply leads_ret|].
  by apply (spent_issue id s _ Hs).
Qed.

(** [available_entries] only selects. *)
Lemma available_entries_sub {E} l env c r c' :
  available_entries (E := E) l env c = (Ok r, c') -> r `sublist_of` l.
Proof.
  revert c r c'. induction l as [|[id k] l IH]; intros c r c'; cbn [available_entries].
  { intros [-> _]%io_ret_ok_inv. constructor. }
  unfold io_bind at 1. destruct (is_available k env c) as [[b| |] c1]; try done.
  unfold io_bind. destruct (available_entries l env c1) as [[r'| |] c2] eqn:El; try done.
  intros [-> _]%io_ret_ok_inv. apply IH in El. destruct b; by constructor.
Qed.

Context {HL : HashOrderLaws H}.

Lemma pruned_sub s l : l `sublist_of` hash_order (onetime_prekeys s) ->
  (list_to_map l : gmap Z OneTimePreKey) ⊆ onetime_prekeys s.
Proof.
  intros Hl. apply map_subseteq_spec. intros id k Hk. apply elem_of_list_to_map_2 in Hk.
  apply elem_of_map_to_list. rewrite <- hash_order_perm. by eapply elem_of_sublist.
Qed.

Lemma prune_spent id : preserves (onetime_spent id) prune_keys.
Proof.
  unfold prune_keys. apply leads_get_bind. intros s Hs env s' c ->. unfold bind at 1, lift at 1.
  destruct (available_entries _ env c) as [[l|e|] c1] eqn:El; try done.
  apply available_entries_sub, pruned_sub in El. unfold bind at 1, modify at 1.
  match goal with |- onetime_spent id (snd (fst (?m env ?t ?c))) =>
    assert (Hm : preserves (onetime_spent id) m) by (lead_steps; done);
    apply (Hm env t c) end.
  by apply spent_sub.
Qed.

Lemma ks_run_spent id o : (o = OpZeroize -> id = None) -> preserves (onetime_spent id) (ks_run o).
Proof.
  intros Hz. destruct o; cbn [ks_run]; unfold drop_result.
  - unfold set_identity. lead_steps.
  - lead_steps.
  - unfold generate_signed_prekey. lead_steps.
  - unfold rotate_signed_prekey, generate_signed_prekey. lead_steps.
  - unfold generate_onetime_prekeys. repeat lead_step. apply generate_loop_spent.
  - unfold replenish_onetime_prekeys, generate_onetime_prekeys. repeat lead_step. apply generate_loop_spent.
  - apply leads_modify. intros s. apply spent_mark.
  - apply prune_spent.
  - unfold pin_peer_key. lead_steps.
  - unfold verify_or_pin_peer_key, pin_peer_key. lead_steps.
  - lead_steps.
  - lead_steps.
  - apply leads_modify. intros s _. rewrite (Hz eq_refl). split; [|done]. intros i k Hk. cbn in Hk. by rewrite lookup_empty in Hk.
Qed.

(** Trust on first use.  Once a peer has been pinned, no sequence of
    operations on the store other than removing that pin or erasing the whole
    store, with whatever arguments and results, changes the pinned key: a later contact with the same
    key is [Consistent], with any other key it is reported as changed and
    [verify_or_pin_peer_key] refuses it with [KeyMismatch]. *)
Theorem pin_is_kept p key s env c s' c' key' :
  peer_pins s !! p = None ->
  let st := pin_peer_key p key env s c in
  rtc (ks_step (fun o => o <> OpRemovePin p /\ o <> OpZeroize) env) (snd (fst st), snd st) (s', c') ->
  fst (fst st) = Ok NewPin /\
  fst (fst (pin_peer_key p key' env s' c')) =
    Ok (if bool_decide (key' = key) then Consistent else KeyChanged key key') /\
  fst (fst (verify_or_pin_peer_key p key' env s' c')) =
    (if bool_decide (key' = key) then Ok Consistent else Err ProtocolError.KeyMismatch).
Proof.
  intros Hn. cbv zeta. assert (Hp : fst (fst (pin_peer_key p key env s c)) = Ok NewPin /\
    pinned_to p key (snd (fst (pin_peer_key p key env s c)))).
  { unfold pin_peer_key, bind, get. rewrite Hn. unfold lift, PinnedKey_new.
    destruct (HandshakeRole.bytes_lt _ _); unfold io_bind, read_secs_or_far, io_ret, modify, ret; cbn [fst snd];
      (split; [done|]; eexists; split; [by apply lookup_insert_eq | done]). }
  destruct Hp as [Hr Hp]. intros Hs. split; [done|]. apply pinned_contact.
  apply (ks_step_invariant (pinned_to p key) _ _ _ _ (fun o Ho => ks_run_pinned p key o (proj1 Ho) (proj2 Ho)) Hs Hp).
Qed.

(** C22: a one-time prekey serves once.  In any store reached from a new one by
    operations of any kind, once a key has been marked used its secret is gone
    and stays gone: no later sequence of operations, issuing and pruning keys
    included, makes [get_onetime_prekey_by_id] return a secret for that id again,
    unless the whole store is erased ([zeroize]), which starts the ids anew. *)
Theorem onetime_served_once env s c id s' c' :
  rtc (ks_step (fun _ => True) env) (KeyStore_new, ctr0) (s, c) ->
  is_Some (onetime_prekeys s !! id) ->
  rtc (ks_step (fun o => o <> OpZeroize) env) (mark_onetime_used id s, c) (s', c') ->
  get_onetime_prekey_by_id id s' = Err ProtocolError.KeyNotFound.
Proof.
  intros H1 [k Hk] H2.
  assert (Hi : onetime_spent None s).
  { apply (ks_step_invariant (onetime_spent None) _ _ _ _ (fun o _ => ks_run_spent None o (fun _ => eq_refl)) H1).
    split; [|done]. intros ? ? E. simpl in E. by rewrite lookup_empty in E. }
  assert (Hm : onetime_spent (Some id) (mark_onetime_used id s)).
  { split; [by apply onetime_inv_mark, Hi|]. intros i [= <-]. split; [by apply (proj1 Hi id k)|].
    intros k' Hk'. simpl in Hk'. rewrite lookup_alter_eq, Hk in Hk'. by injection Hk' as <-. }
  destruct (ks_step_invariant (onetime_spent (Some id)) _ _ _ _ (fun o Ho => ks_run_spent _ o (fun E => False_ind _ (Ho E))) H2 Hm)
    as [Hinv Hu]. simpl in *. destruct (Hu id eq_refl) as [_ Hid].
  unfold get_onetime_prekey_by_id. destruct (onetime_prekeys s' !! id) as [k'|] eqn:E; [|done].
  simpl. by rewrite (proj2 (Hinv id k' E) (Hid k' eq_refl)).
Qed.

End History.

(** ** Publishing *)

Section Publish.
Context {P : Primitives} {L : PrimitiveLaws P} {H : HashOrder} {HL : HashOrderLaws H}.

(** The entries are as the code made them. *)
Definition entries_ok (s : KeyStore) : Prop :=
  map_Forall (fun _ k => length (otk_public k) = 32%nat /\ otk_created_at k <= U64_MAX - 30 * 86400)
    (onetime_prekeys s).

Lemma is_available_run {E} k env c :
  otk_created_at k <= U64_MAX - 30 * 86400 -> exists b c', is_available (E := E) k env c = (Ok b, c').
Proof.
  intros Hk. unfold is_available. destruct (otk_used k); [unfold io_ret; eauto|].
  unfold OneTimePreKey_is_expired, io_bind, read_secs_or_far, io_res. rewrite u_add_ok by lia.
  cbn [or_panic]. unfold io_ret. eauto.
Qed.

Lemma first_available_run l env : forall c,
  Forall (fun x => otk_created_at x.2 <= U64_MAX - 30 * 86400) l ->
  exists c', first_available l env c = (Err ProtocolError.KeyNotFound, c') \/
    exists x, x ∈ l /\ first_available l env c = (Ok x, c').
Proof.
  induction l as [|[id k] l IH]; intros c Hf; cbn [first_available].
  { exists c. by left. }
  inversion_clear Hf. destruct (is_available_run (E := ProtocolError.t) k env c) as (b & c1 & Eb); [done|].
  rewrite (io_bind_ok _ _ _ _ _ _ Eb). destruct b.
  - exists c1. right. exists (id, k). split; [left | done].
  - destruct (IH c1) as (c' & [E|(x & Hx & E)]); [done | |]; exists c'; [by left|].
    right. exists x. split; [by right | done].
Qed.

Lemma available_onetime_run s env c :
  entries_ok s -> exists opk c', available_onetime s env c = (Ok opk, c') /\ opt_len 32 opk.
Proof.
  intros Hs. assert (Hin : forall x, x ∈ hash_order (onetime_prekeys s) ->
      length (otk_public x.2) = 32%nat /\ otk_created_at x.2 <= U64_MAX - 30 * 86400).
  { intros [id k] Hx. rewrite hash_order_perm in Hx. apply elem_of_map_to_list in Hx. by apply (Hs id k). }
  unfold available_onetime, io_bind at 1, io_try, get_onetime_prekey_public, io_bind at 1.
  destruct (first_available_run (hash_order (onetime_prekeys s)) env c) as (c' & [->|(x & Hx & ->)]).
  - apply Forall_forall. intros x Hx. by apply Hin.
  - exists None, c'. split; [done | by intros ? [=]].
  - destruct x as [id k]. exists (Some (otk_public k)), c'. split; [done|].
    intros ? [= <-]. by apply (Hin (id, k)).
Qed.

(** A store ready to publish: a valid identity with its secret, a signed
    prekey of that identity, no device link. *)
Record publishable (seed pq : bytes) (i : IdentityKeyPair) (k : SignedPreKey) (s : KeyStore) : Prop := {
  pb_identity : identity s = Some i;
  pb_secret : ik_ed_secret i = Some seed;
  pb_seed : length seed = 32%nat;
  pb_valid : identity_is_valid i = true;
  pb_prekey : ks_signed_prekey s = Some k;
  pb_signature : spk_signature k = ed25519_sign seed (spk_public k);
  pb_public : length (spk_public k) = 32%nat;
  pb_nonzero : all_zero (spk_public k) = false;
  pb_pq : spk_pq_public k = Some pq;
  pb_pq_len : length pq = 1184%nat;
  pb_root : ks_root_identity_key s = None;
  pb_dev_sig : ks_device_signature s = None;
  pb_dev : is_u32 (ks_device_id s);
  pb_entries : entries_ok s
}.

Lemma identity_valid_ed i seed : identity_is_valid i = true -> ik_ed_secret i = Some seed ->
  ik_ed_public i = ed25519_public seed /\ all_zero (ik_ed_public i) = false.
Proof.
  unfold identity_is_valid. rewrite !constant_time_is_zero_all. intros Hv Hs. rewrite Hs in Hv. simpl in Hv.
  destruct (all_zero (ik_ed_public i)); [done|]. destruct (all_zero (ik_x_public i)); [done|].
  destruct (constant_time_eq (ed25519_public seed) (ik_ed_public i)) eqn:E; [|done].
  by apply constant_time_eq_true in E.
Qed.

(** The bytes of the store are those of [publish]. *)
Lemma store_publishes seed pq i k s env c :
  publishable seed pq i k s ->
  exists opk c1, opt_len 32 opk /\
    forall b c', publish seed seed (spk_public k) opk (ks_device_id s) pq env c1 = (Ok b, c') ->
      generate_prekey_bundle_bytes s env c = (Ok (to_bytes b), c').
Proof.
  intros []. destruct (identity_valid_ed i seed) as [Hed _]; [done | done |].
  destruct (available_onetime_run s env c pb_entries0) as (opk & c1 & Eo & Hopk).
  exists opk, c1. split; [done|]. intros b c' Hb.
  unfold generate_prekey_bundle_bytes, get_identity_keypair, get_signed_prekey_public,
    get_signed_prekey_signature, get_signed_prekey, get_signed_prekey_pq_public, device_certificate.
  rewrite pb_identity0, pb_prekey0, pb_root0, pb_dev_sig0. cbn [ok_or option_map res_bind]. unfold io_bind at 1, io_res at 1.
  unfold io_bind at 1, io_res at 1. unfold io_bind at 1, io_res at 1.
  replace (len (spk_signature k) =? 64) with true
    by (rewrite pb_signature0; unfold len; by rewrite ed25519_sign_len).
  rewrite (io_bind_ok _ _ _ _ _ _ Eo). cbn [default from_option]. unfold identity_sign. rewrite pb_secret0.
  cbn [ok_or res_bind]. unfold io_bind at 1, io_res at 1. simpl. rewrite pb_pq0.
  revert Hb. unfold publish. rewrite Hed, pb_signature0. unfold io_bind.
  destruct (PreKeyBundle_new _ _ _ _ _ _ _ env c1) as [[b0|e|] c2]; try done. cbn [ok_or]. unfold io_res, io_ret.
  destruct (run_on _ _ env c2) as [[[u b1]|e|] c3]; try done.
  intros Hb. by injection Hb as <- <-.
Qed.

(** What setting up the prekeys leaves alone. *)
Definition same_keys (s s' : KeyStore) : Prop :=
  identity s' = identity s /\ ks_signed_prekey s' = ks_signed_prekey s /\
  ks_root_identity_key s' = ks_root_identity_key s /\ ks_device_signature s' = ks_device_signature s /\
  ks_device_id s' = ks_device_id s.

Lemma generate_loop_ok n env lo hi : forall s c,
  clock_in env lo hi -> hi <= U64_MAX - 30 * 86400 -> entries_ok s ->
  next_onetime_id s + Z.of_nat n <= U32_MAX ->
  exists ids s' c', generate_loop n env s c = (Ok ids, s', c') /\ length ids = n /\
    entries_ok s' /\ same_keys s s'.
Proof.
  induction n as [|n IH]; intros s c Hc Hhi Hs Hn; cbn [generate_loop].
  { exists [], s, c. unfold ret, same_keys. done. }
  destruct (Hc (c_clock c)) as (ns & Ens & Hns). unfold bind at 1, get at 1. cbv iota beta.
  unfold bind at 1, res at 1. rewrite u_add_ok by lia. cbn [or_panic]. unfold bind at 1, modify at 1. cbv iota beta.
  unfold bind at 1, lift at 1, OneTimePreKey_generate, io_bind, os_bytes, read_secs_or_far, io_ret.
  cbn [c_clock]. rewrite Ens. cbn [from_option]. unfold bind at 1, modify at 1. cbv iota beta.
  set (s1 := set_onetime _ (next_onetime_id (set_onetime _ _ s)) _). set (c1 := mkCtr _ _ _).
  destruct (IH s1 c1) as (ids & s' & c' & E & Hl & He & Hk); [done | done | | simpl; lia |].
  { apply map_Forall_insert_2; [|done]. cbn [otk_public otk_created_at]. split; [|lia].
    apply x25519_public_len. by rewrite length_map, length_seq. }
  rewrite (bind_ok _ _ _ _ _ _ _ _ E). unfold ret. eexists _, _, _. split; [reflexivity|].
  split; [by simpl; rewrite Hl|]. split; [done|]. exact Hk.
Qed.

(** Setting up a device: identity, signed prekey, one-time prekeys. *)
Definition setup (i : IdentityKeyPair) (n : nat) : KM unit :=
  let! _ := set_identity i in
  let! _ := generate_signed_prekey in
  let! _ := generate_onetime_prekeys n in
  ret tt.

Lemma setup_publishable i seed n env c lo hi :
  identity_is_valid i = true -> ik_ed_secret i = Some seed -> length seed = 32%nat ->
  all_zero (x25519_public (map (e_os env) (seq (c_os c) 32))) = false ->
  clock_in env lo hi -> hi <= U64_MAX - 30 * 86400 -> Z.of_nat n < U32_MAX ->
  exists s c' pq k, setup i n env KeyStore_new c = (Ok tt, s, c') /\ publishable seed pq i k s.
Proof.
  intros Hv Hs Hl Hz Hc Hhi Hn. unfold setup, set_identity. rewrite Hv. cbn [negb].
  unfold bind at 1, modify at 1. cbv iota beta. unfold bind at 1, generate_signed_prekey at 1.
  unfold bind at 1, get at 1. cbv iota beta. unfold bind at 1, res at 1, get_identity_keypair at 1.
  cbn [identity set_ks_identity ok_or]. unfold bind at 1, lift at 1, SignedPreKey_generate, identity_sign.
  rewrite Hs. cbn [ok_or res_bind]. unfold io_bind at 1, os_bytes at 1. unfold io_bind at 1, io_res at 1.
  unfold io_bind at 1, os_bytes at 1. unfold io_bind at 1, io_res at 1.
  destruct (mlkem_keygen_ok (map (e_os env) (seq (c_os c + 32) 64))) as (dk & Ek & Hdk & Hdl).
  cbn [c_os]. rewrite Ek. cbn [ok_or].
  unfold io_bind at 1, read_secs_or_far, io_ret, modify at 1. cbv iota beta. cbn [c_clock].
  set (k := mkSignedPreKey _ _ _ _ _ _ _). set (s1 := set_ks_signed_prekey (Some k) _).
  set (c1 := mkCtr _ _ _). unfold generate_onetime_prekeys. unfold bind at 1. unfold bind at 1, get at 1. cbv iota beta.
  unfold bind at 1, res at 1. cbn [get_identity_keypair identity s1 set_ks_signed_prekey set_ks_identity ok_or].
  destruct (generate_loop_ok n env lo hi s1 c1) as (ids & s' & c' & E & _ & He & H1 & H2 & H3 & H4 & H5);
    [done | done | apply map_Forall_empty | simpl; lia |].
  rewrite E. unfold ret. eexists s', c', (mlkem_ek_of dk), k. split; [done|].
  split; try done; rewrite ?H1, ?H2, ?H3, ?H4, ?H5; try done.
  - apply x25519_public_len. by rewrite length_map, length_seq.
  - by apply mlkem_ek_of_ok.
Qed.

(** C23: a new device can be contacted.  Setting up a store with a valid
    identity whose Ed25519 seed is there, a signed prekey and any number of
    one-time prekeys below 2^32 succeeds, unless the drawn prekey is the
    all-zero one; and the bytes it then publishes parse to a bundle with that
    identity key which validates at every clock reading up to its expiration,
    thirty days after publication, and is [Expired] from then on. *)
Theorem new_device_publishes i seed n env c lo hi :
  identity_is_valid i = true -> ik_ed_secret i = Some seed -> length seed = 32%nat ->
  all_zero (x25519_public (map (e_os env) (seq (c_os c) 32))) = false ->
  clock_in env lo hi -> 0 <= lo -> hi <= U64_MAX - 30 * 86400 -> Z.of_nat n < U32_MAX ->
  exists s c1 data b c2, setup i n env KeyStore_new c = (Ok tt, s, c1) /\
    generate_prekey_bundle_bytes s env c1 = (Ok data, c2) /\ from_bytes data = Ok b /\
    identity_key b = ik_ed_public i /\ lo + 30 * 86400 <= expiration b <= hi + 30 * 86400 /\
    forall env' c0 now, option_map (fun ns => ns / NANOS) (e_clock env' (c_clock c0)) = Some now ->
      fst (bundle_validate b env' c0) =
        if now <=? expiration b then Ok tt else Err ProtocolError.Expired.
Proof.
  intros Hv Hs Hl Hz Hc Hlo Hhi Hn.
  destruct (setup_publishable i seed n env c lo hi) as (s & c1 & pq & k & E & Hp); try done.
  destruct (identity_valid_ed i seed Hv Hs) as [Hed Hnz].
  destruct (store_publishes seed pq i k s env c1 Hp) as (opk & c1' & Hopk & Hbytes). destruct Hp.
  destruct (published_bundle_valid seed seed (spk_public k) opk (ks_device_id s) pq env c1' lo hi)
    as (b & c2 & Eb & Hr & Hx & Hval); try done; [by rewrite <- Hed|].
  exists s, c1, (to_bytes b), b, c2. split; [done|]. split; [by apply Hbytes|]. split; [done|].
  split; [|done]. rewrite Hed. revert Eb. unfold publish, PreKeyBundle_new, io_bind, io_res, io_ret, run_on, sign_bundle.
  unfold read_secs_or_far, os_bytes, bind, get, res, modify.
  destruct (or_panic (u_add U64_MAX _ _)) as [x|e|]; try done. intros Eb. by injection Eb as <- _.
Qed.

(** The sealed store.  A store whose encoding is at most 100 MiB, sealed
    under a key the handler accepts, opens under the same key to exactly its
    persistent part: the Ed25519 secret, the public keys, pins and counters are
    back, but no Diffie-Hellman secret is: neither the identity nor the signed
    prekey has one, and no one-time prekey can be fetched by id. *)
Theorem sealed_store_roundtrip {C : StoreCodec} {CL : StoreCodecLaws C} s key h plain env c :
  CryptoHandler_new key = Ok h -> store_encode (persistent s) = Some plain ->
  len plain <= MAX_PLAINTEXT_LENGTH -> rng_healthy env ->
  exists data c', to_encrypted_bytes s key env c = (Ok data, c') /\
    len data = len plain + 28 /\ from_encrypted_bytes data key = Ok (persistent s) /\
    (forall i, identity (persistent s) = Some i -> ik_x_secret i = None) /\
    (forall k, ks_signed_prekey (persistent s) = Some k -> spk_secret k = None) /\
    (forall id, get_onetime_prekey_by_id id (persistent s) = Err ProtocolError.KeyNotFound) /\
    peer_pins (persistent s) = peer_pins s /\
    option_map ik_ed_secret (identity (persistent s)) = option_map ik_ed_secret (identity s).
Proof.
  intros Hh Hp Hl Hr. unfold to_encrypted_bytes, io_bind, io_res. rewrite Hp, Hh. cbn [ok_or map_err].
  destruct (handler_encrypt_ok h plain (bstr "SibnaKeyStore_v3") env c Hr Hl) as (nonce & ct & c' & E & Hn & Ea & Hc);
    [vm_compute; discriminate|].
  unfold io_map_err. rewrite E. eexists _, _. split; [reflexivity|]. split; [unfold len; rewrite length_app; lia|]. split.
  { unfold from_encrypted_bytes. rewrite Hh. cbn [map_err res_bind].
    rewrite (handler_decrypt_ok h nonce ct plain _ Hn Ea Hc Hl). cbn [map_err res_bind].
    by rewrite (store_codec_roundtrip s plain Hp). }
  split; [intros i Hi; simpl in Hi; destruct (identity s); by simplify_eq/=|].
  split; [intros k Hk; simpl in Hk; destruct (ks_signed_prekey s); by simplify_eq/=|].
  split; [|split; [done|by simpl; destruct (identity s)]].
  intros id. unfold get_onetime_prekey_by_id. simpl. rewrite lookup_fmap.
  by destruct (onetime_prekeys s !! id).
Qed.

End Publish.

(** ** Witnesses *)

#[local] Instance listed_order : HashOrder := {| hash_order := map_to_list |}.
#[local] Instance listed_order_laws : HashOrderLaws listed_order.
Proof. by split. Qed.

Definition demo_seed : bytes := repeat x11 32.
Definition demo_identity : IdentityKeyPair :=
  mkIdentity (Some demo_seed) demo_seed (Some (repeat x22 32)) (repeat x22 32) 1700000000.

Lemma new_device_publishes_witness :
  exists s c1 data b c2, setup (P := toy) demo_identity 2 demo_env KeyStore_new ctr0 = (Ok tt, s, c1) /\
    generate_prekey_bundle_bytes (P := toy) (H := listed_order) s demo_env c1 = (Ok data, c2) /\
    from_bytes data = Ok b /\ identity_key b = demo_seed.
Proof.
  destruct (new_device_publishes (P := toy) (L := toy_laws) (H := listed_order) (HL := listed_order_laws)
    demo_identity demo_seed 2 demo_env ctr0 1700000000 1700000000)
    as (s & c1 & data & b & c2 & E1 & E2 & E3 & E4 & _);
    [vm_compute; reflexivity | reflexivity | reflexivity | vm_compute; reflexivity | exact demo_env_clock
    | discriminate | vm_compute; discriminate | reflexivity |].
  exists s, c1, data, b, c2. split; [exact E1|]. split; [exact E2|]. split; [exact E3 | exact E4].
Defined.

Lemma pin_is_kept_witness :
  let st := pin_peer_key (P := toy) (bstr "bob") demo_seed demo_env KeyStore_new ctr0 in
  fst (fst (verify_or_pin_peer_key (P := toy) (bstr "bob") (repeat x33 32) demo_env (snd (fst st)) (snd st)))
  = Err ProtocolError.KeyMismatch.
Proof.
  destruct (pin_is_kept (P := toy) (H := listed_order) (bstr "bob") demo_seed KeyStore_new demo_env ctr0
    (snd (fst (pin_peer_key (P := toy) (bstr "bob") demo_seed demo_env KeyStore_new ctr0)))
    (snd (pin_peer_key (P := toy) (bstr "bob") demo_seed demo_env KeyStore_new ctr0)) (repeat x33 32)
    eq_refl (rtc_refl _ _)) as (_ & _ & E). exact E.
Defined.

Definition demo_stocked : KeyStore * Ctr :=
  let st := ks_run (P := toy) (H := listed_order) (OpOnetime 1) demo_env
              (snd (fst (ks_run (P := toy) (H := listed_order) (OpSetIdentity demo_identity) demo_env KeyStore_new ctr0)))
              (snd (ks_run (P := toy) (H := listed_order) (OpSetIdentity demo_identity) demo_env KeyStore_new ctr0)) in
  (snd (fst st), snd st).

(** Issue another key after the first was used. *)
Definition demo_restocked : KeyStore * Ctr :=
  let st := ks_run (P := toy) (H := listed_order) (OpOnetime 1) demo_env (mark_onetime_used 1 (fst demo_stocked)) (snd demo_stocked) in
  (snd (fst st), snd st).

Lemma onetime_served_once_witness :
  is_ok (get_onetime_prekey_by_id 1 (fst demo_stocked)) = true /\ is_ok (get_onetime_prekey_by_id 2 (fst demo_restocked)) = true /\
  get_onetime_prekey_by_id 1 (fst demo_restocked) = Err ProtocolError.KeyNotFound.
Proof.
  split; [vm_compute; reflexivity|]. split; [vm_compute; reflexivity|].
  apply (onetime_served_once (P := toy) (H := listed_order) (HL := listed_order_laws) demo_env
    (fst demo_stocked) (snd demo_stocked) 1 _ (snd demo_restocked)).
  - eapply rtc_l; [exists (OpSetIdentity demo_identity); split; [exact I | reflexivity]|].
    eapply rtc_l; [exists (OpOnetime 1); split; [exact I | reflexivity]|]. apply rtc_refl.
  - vm_compute. eexists. reflexivity.
  - apply rtc_once. exists (OpOnetime 1). split; [discriminate | reflexivity].
Defined.

(** Erasing the store starts the ids at 0: a used id is issued again. *)
Example zeroize_reissues_ids :
  let erased := ks_run (P := toy) (H := listed_order) OpZeroize demo_env (mark_onetime_used 1 (fst demo_stocked)) (snd demo_stocked) in
  let owned := ks_run (P := toy) (H := listed_order) (OpSetIdentity demo_identity) demo_env (snd (fst erased)) (snd erased) in
  let again := ks_run (P := toy) (H := listed_order) (OpOnetime 2) demo_env (snd (fst owned)) (snd owned) in
  get_onetime_prekey_by_id 1 (snd (fst erased)) = Err ProtocolError.KeyNotFound /\
  is_ok (get_onetime_prekey_by_id 1 (snd (fst again))) = true.
Proof. vm_compute. by split. Qed.

(** A codec that knows one store. *)
#[export] Instance identity_eq_dec : EqDecision IdentityKeyPair.
Proof. solve_decision. Defined.
#[export] Instance signed_prekey_eq_dec : EqDecision SignedPreKey.
Proof. solve_decision. Defined.
#[export] Instance onetime_eq_dec : EqDecision OneTimePreKey.
Proof. solve_decision. Defined.
#[export] Instance pinned_eq_dec : EqDecision PinnedKey.
Proof. solve_decision. Defined.
#[export] Instance handler_eq_dec : EqDecision CryptoHandler.
Proof. solve_decision. Defined.
#[export] Instance keystore_eq_dec : EqDecision KeyStore.
Proof. solve_decision. Defined.

Definition one_store (s0 : KeyStore) : StoreCodec := {|
  store_encode := fun s => if decide (s = persistent s0) then Some (bstr "store") else None;
  store_decode := fun b => if decide (b = bstr "store") then Some (persistent s0) else None |}.

Lemma one_store_laws s0 : StoreCodecLaws (one_store s0).
Proof.
  split. intros s b. simpl. destruct (decide (persistent s = persistent s0)) as [->|]; [|done].
  intros E. injection E as <-. done.
Qed.

Lemma sealed_store_roundtrip_witness :
  exists data c', to_encrypted_bytes (P := toy) (C := one_store KeyStore_new) KeyStore_new demo_key demo_env1 ctr0
      = (Ok data, c') /\
    from_encrypted_bytes (P := toy) (C := one_store KeyStore_new) data demo_key = Ok (persistent KeyStore_new).
Proof.
  destruct (sealed_store_roundtrip (P := toy) (L := toy_laws) (C := one_store KeyStore_new)
    (CL := one_store_laws KeyStore_new) KeyStore_new demo_key (mkCryptoHandler demo_key) (bstr "store")
    demo_env1 ctr0) as (data & c' & E1 & _ & E2 & _).
  - vm_compute. reflexivity.
  - vm_compute. reflexivity.
  - vm_compute. discriminate.
  - exact demo_env1_healthy.
  - exists data, c'. split; [exact E1 | exact E2].
Defined.
