(* ===== verification/Builder.v ===== *)
(** * Running a handshake ([core/src/handshake/builder.rs])

    [HandshakeBuilder] collects the inputs, [X3dhHandshake::perform] runs the
    key agreement on the keys of a key store. *)

From S2P Require Import Prelude Effects Errors Primitives Compare Random Padding Kdf Handler Encryptor Message RatchetState Session X3dh Bundle KeyStore.
#[local] Open Scope Z_scope.
#[local] Open Scope sibna_scope.

(** ** [X3dhHandshake] *)

Record X3dhHandshake := mkHandshake {
  hs_config : Config;
  hs_keystore : KeyStore;
  hs_random : SecureRandom;
  hs_role : HandshakeRole.t;
  hs_peer_identity_key : option bytes;
  hs_peer_signed_prekey : option bytes;
  hs_peer_onetime_prekey : option bytes;
  hs_peer_ephemeral_key : option bytes;
  hs_our_onetime_prekey_id : option Z;
  hs_peer_pq_pk : option bytes;
  hs_our_pq_sk : option bytes;
  hs_peer_pq_ct : option bytes;
  hs_prologue : option bytes;
  hs_associated_data : option bytes;
  hs_our_device_id : bytes;
  hs_peer_device_id : bytes
}.

Definition set_hs_random (r : SecureRandom) (h : X3dhHandshake) : X3dhHandshake :=
  mkHandshake (hs_config h) (hs_keystore h) r (hs_role h) (hs_peer_identity_key h) (hs_peer_signed_prekey h)
    (hs_peer_onetime_prekey h) (hs_peer_ephemeral_key h) (hs_our_onetime_prekey_id h) (hs_peer_pq_pk h)
    (hs_our_pq_sk h) (hs_peer_pq_ct h) (hs_prologue h) (hs_associated_data h) (hs_our_device_id h)
    (hs_peer_device_id h).

(** [Zeroize]: arrays become zeros, a [Vec] becomes empty. *)
Definition handshake_zeroize (h : X3dhHandshake) : X3dhHandshake :=
  let wipe := option_map (fun k : bytes => zeros (length k)) in
  let clear := option_map (fun _ : bytes => []) in
  mkHandshake (hs_config h) (hs_keystore h) (hs_random h) (hs_role h) (wipe (hs_peer_identity_key h))
    (wipe (hs_peer_signed_prekey h)) (wipe (hs_peer_onetime_prekey h)) (hs_peer_ephemeral_key h)
    (hs_our_onetime_prekey_id h) (hs_peer_pq_pk h) (hs_our_pq_sk h) (hs_peer_pq_ct h) (clear (hs_prologue h))
    (clear (hs_associated_data h)) (hs_our_device_id h) (hs_peer_device_id h).

(** ** [HandshakeBuilder] *)

Record HandshakeBuilder := mkBuilder {
  hb_config : Config;
  hb_keystore : option KeyStore;
  hb_random : option SecureRandom;
  hb_role : option HandshakeRole.t;
  hb_peer_identity_key : option bytes;
  hb_peer_signed_prekey : option bytes;
  hb_peer_onetime_prekey : option bytes;
  hb_peer_ephemeral_key : option bytes;
  hb_our_onetime_prekey_id : option Z;
  hb_peer_pq_pk : option bytes;
  hb_our_pq_sk : option bytes;
  hb_peer_pq_ct : option bytes;
  hb_prologue : option bytes;
  hb_associated_data : option bytes;
  hb_our_device_id : bytes;
  hb_peer_device_id : bytes
}.

Definition HandshakeBuilder_new : HandshakeBuilder :=
  mkBuilder Config_default None None None None None None None None None None None None None (zeros 16) (zeros 16).

Definition with_config v b := mkBuilder v (hb_keystore b) (hb_random b) (hb_role b) (hb_peer_identity_key b)
  (hb_peer_signed_prekey b) (hb_peer_onetime_prekey b) (hb_peer_ephemeral_key b) (hb_our_onetime_prekey_id b)
  (hb_peer_pq_pk b) (hb_our_pq_sk b) (hb_peer_pq_ct b) (hb_prologue b) (hb_associated_data b)
  (hb_our_device_id b) (hb_peer_device_id b).
Definition with_keystore v b := mkBuilder (hb_config b) (Some v) (hb_random b) (hb_role b) (hb_peer_identity_key b)
  (hb_peer_signed_prekey b) (hb_peer_onetime_prekey b) (hb_peer_ephemeral_key b) (hb_our_onetime_prekey_id b)
  (hb_peer_pq_pk b) (hb_our_pq_sk b) (hb_peer_pq_ct b) (hb_prologue b) (hb_associated_data b)
  (hb_our_device_id b) (hb_peer_device_id b).
Definition with_random v b := mkBuilder (hb_config b) (hb_keystore b) (Some v) (hb_role b) (hb_peer_identity_key b)
  (hb_peer_signed_prekey b) (hb_peer_onetime_prekey b) (hb_peer_ephemeral_key b) (hb_our_onetime_prekey_id b)
  (hb_peer_pq_pk b) (hb_our_pq_sk b) (hb_peer_pq_ct b) (hb_prologue b) (hb_associated_data b)
  (hb_our_device_id b) (hb_peer_device_id b).
Definition with_role v b := mkBuilder (hb_config b) (hb_keystore b) (hb_random b) (Some v) (hb_peer_identity_key b)
  (hb_peer_signed_prekey b) (hb_peer_onetime_prekey b) (hb_peer_ephemeral_key b) (hb_our_onetime_prekey_id b)
  (hb_peer_pq_pk b) (hb_our_pq_sk b) (hb_peer_pq_ct b) (hb_prologue b) (hb_associated_data b)
  (hb_our_device_id b) (hb_peer_device_id b).
Definition with_our_onetime_prekey_id v b := mkBuilder (hb_config b) (hb_keystore b) (hb_random b) (hb_role b)
  (hb_peer_identity_key b) (hb_peer_signed_prekey b) (hb_peer_onetime_prekey b) (hb_peer_ephemeral_key b) (Some v)
  (hb_peer_pq_pk b) (hb_our_pq_sk b) (hb_peer_pq_ct b) (hb_prologue b) (hb_associated_data b)
  (hb_our_device_id b) (hb_peer_device_id b).
Definition with_prologue v b := mkBuilder (hb_config b) (hb_keystore b) (hb_random b) (hb_role b)
  (hb_peer_identity_key b) (hb_peer_signed_prekey b) (hb_peer_onetime_prekey b) (hb_peer_ephemeral_key b)
  (hb_our_onetime_prekey_id b) (hb_peer_pq_pk b) (hb_our_pq_sk b) (hb_peer_pq_ct b) (Some v)
  (hb_associated_data b) (hb_our_device_id b) (hb_peer_device_id b).
Definition with_builder_associated_data v b := mkBuilder (hb_config b) (hb_keystore b) (hb_random b) (hb_role b)
  (hb_peer_identity_key b) (hb_peer_signed_prekey b) (hb_peer_onetime_prekey b) (hb_peer_ephemeral_key b)
  (hb_our_onetime_prekey_id b) (hb_peer_pq_pk b) (hb_our_pq_sk b) (hb_peer_pq_ct b) (hb_prologue b)
  (Some v) (hb_our_device_id b) (hb_peer_device_id b).
Definition with_our_device_id v b := mkBuilder (hb_config b) (hb_keystore b) (hb_random b) (hb_role b)
  (hb_peer_identity_key b) (hb_peer_signed_prekey b) (hb_peer_onetime_prekey b) (hb_peer_ephemeral_key b)
  (hb_our_onetime_prekey_id b) (hb_peer_pq_pk b) (hb_our_pq_sk b) (hb_peer_pq_ct b) (hb_prologue b)
  (hb_associated_data b) v (hb_peer_device_id b).
Definition with_peer_device_id v b := mkBuilder (hb_config b) (hb_keystore b) (hb_random b) (hb_role b)
  (hb_peer_identity_key b) (hb_peer_signed_prekey b) (hb_peer_onetime_prekey b) (hb_peer_ephemeral_key b)
  (hb_our_onetime_prekey_id b) (hb_peer_pq_pk b) (hb_our_pq_sk b) (hb_peer_pq_ct b) (hb_prologue b)
  (hb_associated_data b) (hb_our_device_id b) v.

Definition with_peer_identity_key (k : bytes) (b : HandshakeBuilder) : PResult HandshakeBuilder :=
  if negb (len k =? 32) then Err ProtocolError.InvalidKeyLength
  else Ok (mkBuilder (hb_config b) (hb_keystore b) (hb_random b) (hb_role b) (Some k)
    (hb_peer_signed_prekey b) (hb_peer_onetime_prekey b) (hb_peer_ephemeral_key b) (hb_our_onetime_prekey_id b)
    (hb_peer_pq_pk b) (hb_our_pq_sk b) (hb_peer_pq_ct b) (hb_prologue b) (hb_associated_data b)
    (hb_our_device_id b) (hb_peer_device_id b)).
Definition with_peer_signed_prekey (k : bytes) (b : HandshakeBuilder) : PResult HandshakeBuilder :=
  if negb (len k =? 32) then Err ProtocolError.InvalidKeyLength
  else Ok (mkBuilder (hb_config b) (hb_keystore b) (hb_random b) (hb_role b) (hb_peer_identity_key b)
    (Some k) (hb_peer_onetime_prekey b) (hb_peer_ephemeral_key b) (hb_our_onetime_prekey_id b)
    (hb_peer_pq_pk b) (hb_our_pq_sk b) (hb_peer_pq_ct b) (hb_prologue b) (hb_associated_data b)
    (hb_our_device_id b) (hb_peer_device_id b)).
Definition with_peer_onetime_prekey (k : bytes) (b : HandshakeBuilder) : PResult HandshakeBuilder :=
  if negb (len k =? 32) then Err ProtocolError.InvalidKeyLength
  else Ok (mkBuilder (hb_config b) (hb_keystore b) (hb_random b) (hb_role b) (hb_peer_identity_key b)
    (hb_peer_signed_prekey b) (Some k) (hb_peer_ephemeral_key b) (hb_our_onetime_prekey_id b)
    (hb_peer_pq_pk b) (hb_our_pq_sk b) (hb_peer_pq_ct b) (hb_prologue b) (hb_associated_data b)
    (hb_our_device_id b) (hb_peer_device_id b)).
Definition with_peer_ephemeral_key (k : bytes) (b : HandshakeBuilder) : PResult HandshakeBuilder :=
  if negb (len k =? 32) then Err ProtocolError.InvalidKeyLength
  else Ok (mkBuilder (hb_config b) (hb_keystore b) (hb_random b) (hb_role b) (hb_peer_identity_key b)
    (hb_peer_signed_prekey b) (hb_peer_onetime_prekey b) (Some k) (hb_our_onetime_prekey_id b)
    (hb_peer_pq_pk b) (hb_our_pq_sk b) (hb_peer_pq_ct b) (hb_prologue b) (hb_associated_data b)
    (hb_our_device_id b) (hb_peer_device_id b)).
Definition with_peer_pq_pk (k : bytes) (b : HandshakeBuilder) : PResult HandshakeBuilder :=
  if negb (len k =? 1184) then Err ProtocolError.InvalidKeyLength
  else Ok (mkBuilder (hb_config b) (hb_keystore b) (hb_random b) (hb_role b) (hb_peer_identity_key b)
    (hb_peer_signed_prekey b) (hb_peer_onetime_prekey b) (hb_peer_ephemeral_key b) (hb_our_onetime_prekey_id b)
    (Some k) (hb_our_pq_sk b) (hb_peer_pq_ct b) (hb_prologue b) (hb_associated_data b)
    (hb_our_device_id b) (hb_peer_device_id b)).
Definition with_our_pq_sk (k : bytes) (b : HandshakeBuilder) : PResult HandshakeBuilder :=
  if negb (len k =? 2400) then Err ProtocolError.InvalidKeyLength
  else Ok (mkBuilder (hb_config b) (hb_keystore b) (hb_random b) (hb_role b) (hb_peer_identity_key b)
    (hb_peer_signed_prekey b) (hb_peer_onetime_prekey b) (hb_peer_ephemeral_key b) (hb_our_onetime_prekey_id b)
    (hb_peer_pq_pk b) (Some k) (hb_peer_pq_ct b) (hb_prologue b) (hb_associated_data b)
    (hb_our_device_id b) (hb_peer_device_id b)).
Definition with_peer_pq_ct (k : bytes) (b : HandshakeBuilder) : PResult HandshakeBuilder :=
  if negb (len k =? 1088) then Err ProtocolError.InvalidKeyLength
  else Ok (mkBuilder (hb_config b) (hb_keystore b) (hb_random b) (hb_role b) (hb_peer_identity_key b)
    (hb_peer_signed_prekey b) (hb_peer_onetime_prekey b) (hb_peer_ephemeral_key b) (hb_our_onetime_prekey_id b)
    (hb_peer_pq_pk b) (hb_our_pq_sk b) (Some k) (hb_prologue b) (hb_associated_data b)
    (hb_our_device_id b) (hb_peer_device_id b)).

Section Perform.
Context {P : Primitives}.

Definition build (b : HandshakeBuilder) : IO ProtocolError.t X3dhHandshake :=
  let* role := io_res (ok_or (hb_role b) ProtocolError.InvalidState) in
  let* keystore := io_res (ok_or (hb_keystore b) ProtocolError.InvalidState) in
  let* random := match hb_random b with
                 | Some r => io_ret r
                 | None => io_map_err (fun _ => HandshakeError.to_protocol HandshakeError.InvalidState)
                             SecureRandom_new
                 end in
  io_ret (mkHandshake (hb_config b) keystore random role (hb_peer_identity_key b) (hb_peer_signed_prekey b)
    (hb_peer_onetime_prekey b) (hb_peer_ephemeral_key b) (hb_our_onetime_prekey_id b) (hb_peer_pq_pk b)
    (hb_our_pq_sk b) (hb_peer_pq_ct b) (hb_prologue b) (hb_associated_data b) (hb_our_device_id b)
    (hb_peer_device_id b)).

Definition build_associated_data (h : X3dhHandshake) (our_key peer_key : bytes) : bytes :=
  our_key ++ peer_key ++ default [] (hs_prologue h).

Abbreviation HM := (M X3dhHandshake ProtocolError.t).

(** The default transcript hash of this flow. *)
Definition no_transcript : bytes := zeros 32.

Definition perform_initiator : HM HandshakeOutput :=
  let! h := get in
  let! our_identity := res (get_identity_keypair (hs_keystore h)) in
  let! peer_ik := res (ok_or (hs_peer_identity_key h) ProtocolError.InvalidState) in
  let! peer_spk := res (ok_or (hs_peer_signed_prekey h) ProtocolError.InvalidState) in
  if require_safety_numbers (hs_config h) && bool_decide (hs_peer_pq_pk h = None)
  then res (Err ProtocolError.HandshakeFailed)
  else
  let! ephemeral := zoom hs_random set_hs_random (fill_bytes 32) in
  let! secret := res (ok_or (ik_x_secret our_identity) ProtocolError.KeyNotFound) in
  let! result := lift (x3dh_initiator_v3 secret ephemeral peer_ik peer_spk (hs_peer_onetime_prekey h)
                         (hs_peer_pq_pk h) (hs_our_device_id h) (hs_peer_device_id h) no_transcript) in
  let ad := build_associated_data h (ik_x_public our_identity) peer_ik in
  let! output := lift (HandshakeOutput_new (x_shared_secret result) ephemeral (x25519_public ephemeral)) in
  let output := with_associated_data output ad in
  let output := match x_pq_ciphertext result with
                | Some ct => with_pq_ciphertext output ct
                | None => output
                end in
  let! _ := res (HandshakeOutput_validate output) in
  ret output.

(** [std::mem::replace(&mut ephemeral, StaticSecret::from([0u8; 32]))] is the
    second argument of [HandshakeOutput::new] and runs before the third,
    [PublicKey::from(&ephemeral)], which therefore reads the zero secret. *)
Definition perform_responder : HM HandshakeOutput :=
  let! h := get in
  let! our_identity := res (get_identity_keypair (hs_keystore h)) in
  let! our_signed_prekey := res (get_signed_prekey (hs_keystore h)) in
  let! peer_ik := res (ok_or (hs_peer_identity_key h) ProtocolError.InvalidState) in
  let! peer_ek := res (ok_or (hs_peer_ephemeral_key h) ProtocolError.InvalidState) in
  if require_safety_numbers (hs_config h) && bool_decide (hs_our_pq_sk h = None)
  then res (Err ProtocolError.HandshakeFailed)
  else
  let! our_opk := match hs_our_onetime_prekey_id h with
                  | Some id => let! k := res (get_onetime_prekey_by_id id (hs_keystore h)) in ret (Some k)
                  | None => ret None
                  end in
  let! secret := res (ok_or (ik_x_secret our_identity) ProtocolError.KeyNotFound) in
  let! spk := res (ok_or (spk_secret our_signed_prekey) ProtocolError.KeyNotFound) in
  let! result := res (x3dh_responder_v3 secret spk our_opk peer_ik peer_ek (hs_our_pq_sk h) (hs_peer_pq_ct h)
                        (hs_our_device_id h) (hs_peer_device_id h) no_transcript) in
  let ad := build_associated_data h (ik_x_public our_identity) peer_ik in
  let! ephemeral := lift (os_bytes 32) in
  let! output := lift (HandshakeOutput_new (x_shared_secret result) ephemeral (x25519_public (zeros 32))) in
  let output := with_associated_data output ad in
  let! _ := res (HandshakeOutput_validate output) in
  ret output.

Definition perform : HM HandshakeOutput :=
  let! h := get in
  match hs_role h with
  | HandshakeRole.Initiator => perform_initiator
  | HandshakeRole.Responder => perform_responder
  end.

End Perform.

(** ** Properties *)

Section BuilderProperties.
Context {P : Primitives} {L : PrimitiveLaws P}.

(** An initiator's handshake against a responder with secrets [ib], [sb], [ob]
    and [dk]. *)
Record facing (ia ib sb : bytes) (ob dk : option bytes) (i : IdentityKeyPair) (h : X3dhHandshake) : Prop := {
  fc_role : hs_role h = HandshakeRole.Initiator;
  fc_identity : identity (hs_keystore h) = Some i;
  fc_secret : ik_x_secret i = Some ia;
  fc_public : ik_x_public i = x25519_public ia;
  fc_peer_ik : hs_peer_identity_key h = Some (x25519_public ib);
  fc_peer_spk : hs_peer_signed_prekey h = Some (x25519_public sb);
  fc_peer_opk : hs_peer_onetime_prekey h = option_map x25519_public ob;
  fc_peer_pq : hs_peer_pq_pk h = option_map mlkem_ek_of dk;
  fc_strict : require_safety_numbers (hs_config h) = true -> is_Some dk;
  fc_keys : keys32 [ia; ib; sb];
  fc_opk : forall o, ob = Some o -> length o = 32%nat;
  fc_dk : forall d, dk = Some d -> length d = 2400%nat /\ mlkem_dk_ok d = true
}.

Lemma validate_fresh_output ss eph ct ad t :
  all_zero ss = false ->
  HandshakeOutput_validate (mkHandshakeOutput ss eph (x25519_public eph) ct ad t) = Ok tt.
Proof.
  intros Hz. unfold HandshakeOutput_validate. cbn [ho_shared_secret local_ephemeral_key local_ephemeral_public].
  by rewrite Hz, constant_time_eq_refl.
Qed.

Lemma initiator_agrees h i ia ib sb ob dk env c :
  facing ia ib sb ob dk i h ->
  match fst (fst (perform env h c)) with
  | Ok out =>
      local_ephemeral_public out = x25519_public (local_ephemeral_key out) /\
      associated_data out = ik_x_public i ++ x25519_public ib ++ default [] (hs_prologue h) /\
      exists rb, x3dh_responder_v3 ib sb ob (ik_x_public i) (local_ephemeral_public out) dk
          (ho_pq_ciphertext out) (hs_peer_device_id h) (hs_our_device_id h) no_transcript = Ok rb /\
        x_shared_secret rb = ho_shared_secret out
  | Err e => e = ProtocolError.InvalidArgument
  | Panic => False
  end.
Proof.
  intros []. unfold perform, bind at 1, get at 1. rewrite fc_role0. unfold perform_initiator.
  unfold bind at 1, get at 1. unfold bind at 1, res at 1, get_identity_keypair. rewrite fc_identity0. cbn [ok_or].
  unfold bind at 1, res at 1. rewrite fc_peer_ik0. cbn [ok_or]. unfold bind at 1, res at 1. rewrite fc_peer_spk0. cbn [ok_or].
  replace (require_safety_numbers (hs_config h) && bool_decide (hs_peer_pq_pk h = None)) with false.
  2:{ symmetry. apply andb_false_iff. destruct (require_safety_numbers (hs_config h)); [right|by left].
      destruct (fc_strict0 eq_refl) as [d ->]. rewrite fc_peer_pq0. done. }
  unfold bind at 1, zoom at 1.
  destruct (fill_bytes_ok (E := ProtocolError.t) 32 env (hs_random h) c) as (eph & r' & c1 & -> & Heph); [lia|].
  unfold bind at 1, res at 1. rewrite fc_secret0. cbn [ok_or]. unfold bind at 1, lift at 1.
  rewrite fc_peer_opk0, fc_peer_pq0.
  pose proof (x3dh_initiator_total ia eph (x25519_public ib) (x25519_public sb) (option_map x25519_public ob)
    (option_map mlkem_ek_of dk) (hs_our_device_id h) (hs_peer_device_id h) no_transcript env c1
    (mlkem_public_usable dk fc_dk0)) as Ht.
  destruct (x3dh_initiator_v3 _ _ _ _ _ _ _ _ _ env c1) as [[ra|e|] c2] eqn:Ex; cbn [fst] in *; try done.
  destruct Ht as [_ Hz]. unfold keys32 in fc_keys0. rewrite !Forall_cons in fc_keys0.
  destruct fc_keys0 as (Hia & Hib & Hsb & _).
  destruct (x3dh_agree ia eph ib sb ob dk (hs_our_device_id h) (hs_peer_device_id h) no_transcript env c1 ra c2)
    as (rb & Er & Hs & _); [by repeat constructor | done | done | done |].
  unfold bind at 1, lift at 1, HandshakeOutput_new, io_bind, read_secs_or_far, io_ret.
  unfold bind, res, ret. rewrite fc_public0.
  destruct (x_pq_ciphertext ra) as [ct|] eqn:Ec; unfold with_pq_ciphertext, with_associated_data;
    cbn [ho_shared_secret local_ephemeral_key local_ephemeral_public ho_pq_ciphertext associated_data ho_timestamp];
    rewrite validate_fresh_output by done;
    cbn [fst ho_shared_secret local_ephemeral_key local_ephemeral_public ho_pq_ciphertext associated_data];
    (split; [done|]; split; [done|]; exists rb; done).
Qed.

(** The initiator's handshake.  Run on a key store with an identity and
    the responder's public keys, [perform] fails only when the derived secret
    is all zeros; otherwise its output carries a key pair that belongs together,
    associated data binding both identities, and exactly the secret the
    responder's key agreement computes from the initiator's identity key, the
    ephemeral key and the ciphertext of the output. *)
Theorem initiator_handshake_agrees h i ia ib sb ob dk env c :
  facing ia ib sb ob dk i h ->
  match fst (fst (perform env h c)) with
  | Ok out =>
      local_ephemeral_public out = x25519_public (local_ephemeral_key out) /\
      associated_data out = ik_x_public i ++ x25519_public ib ++ default [] (hs_prologue h) /\
      exists rb, x3dh_responder_v3 ib sb ob (ik_x_public i) (local_ephemeral_public out) dk
          (ho_pq_ciphertext out) (hs_peer_device_id h) (hs_our_device_id h) no_transcript = Ok rb /\
        x_shared_secret rb = ho_shared_secret out
  | Err e => e = ProtocolError.InvalidArgument
  | Panic => False
  end.
Proof. apply initiator_agrees. Qed.

(** A responder's handshake cannot complete.  Whatever the builder was
    given, [perform] in the responder role never returns an output unless the
    key pair of the all-zero secret happens to have the public key of the
    ephemeral secret just drawn: the output is built with the public key of the
    zeroed secret, and its own validation refuses it. *)
Theorem responder_never_completes h env c :
  hs_role h = HandshakeRole.Responder ->
  (forall n, x25519_public (map (e_os env) (seq n 32)) <> x25519_public (zeros 32)) ->
  is_ok (fst (fst (perform env h c))) = false.
Proof.
  intros Hr Hne. unfold perform, bind at 1, get at 1. rewrite Hr.
  destruct (perform_responder env h c) as [[[out|e|] h'] c'] eqn:E; [exfalso|done|done].
  unfold perform_responder in E. do 5 (apply bind_ok_inv in E as (? & ? & ? & _ & E)).
  split_guard_in E; [done|]. do 4 (apply bind_ok_inv in E as (? & ? & ? & _ & E)).
  apply bind_ok_inv in E as (eph & s1 & c1 & E1 & E). unfold lift, os_bytes in E1.
  injection E1 as <- <- <-. apply bind_ok_inv in E as (o & s2 & c2 & E2 & E).
  unfold lift, HandshakeOutput_new, io_bind, read_secs_or_far, io_ret in E2. injection E2 as <- <- <-.
  apply bind_ok_inv in E as (u & s3 & c3 & E3 & _). unfold res, HandshakeOutput_validate, with_associated_data in E3.
  cbn [ho_shared_secret local_ephemeral_key local_ephemeral_public] in E3.
  destruct (all_zero _); [done|].
  destruct (constant_time_eq _ _) eqn:Ec; [|done]. apply constant_time_eq_true in Ec. by apply Hne in Ec.
Qed.

End BuilderProperties.

(** ** Witnesses *)

Definition demo_own : bytes := repeat x22 32.
Definition demo_peer : bytes := repeat x33 32.

(** A store with the keys of both roles. *)
Definition demo_hs_store : KeyStore :=
  mkKeyStore (Some (mkIdentity (Some demo_own) demo_own (Some demo_own) demo_own 1700000000))
    (Some (mkSignedPreKey 1 (Some demo_key) demo_key [] None None 1700000000)) ∅ 1 0 None None ∅ None.

Definition demo_hs (role : HandshakeRole.t) : X3dhHandshake :=
  mkHandshake Config_default demo_hs_store (mkSecureRandom (zeros 64) 0 1000000) role (Some demo_peer) (Some demo_key)
    None (Some (repeat x44 32)) None (Some (mlkem_ek_of (Primitives := toy) demo_dk)) (Some demo_dk)
    (Some (repeat x01 1088)) None None (repeat x06 16) (repeat x07 16).

Lemma initiator_handshake_agrees_witness :
  match fst (fst (perform (P := toy) demo_env1 (demo_hs HandshakeRole.Initiator) ctr0)) with
  | Ok out => exists rb, x3dh_responder_v3 (P := toy) demo_peer demo_key None demo_own (local_ephemeral_public out)
        (Some demo_dk) (ho_pq_ciphertext out) (repeat x07 16) (repeat x06 16) no_transcript = Ok rb /\
      x_shared_secret rb = ho_shared_secret out
  | _ => False
  end.
Proof.
  pose proof (initiator_handshake_agrees (P := toy) (L := toy_laws) (demo_hs HandshakeRole.Initiator)
    (mkIdentity (Some demo_own) demo_own (Some demo_own) demo_own 1700000000)
    demo_own demo_peer demo_key None (Some demo_dk) demo_env1 ctr0) as Ht.
  assert (Ek : is_ok (fst (fst (perform (P := toy) demo_env1 (demo_hs HandshakeRole.Initiator) ctr0))) = true)
    by (vm_compute; reflexivity).
  destruct (fst (fst (perform (P := toy) _ _ _))) as [out|e|]; [|discriminate..].
  destruct Ht as (_ & _ & rb & E & Hs).
  - split; [reflexivity | reflexivity | reflexivity | reflexivity | reflexivity | reflexivity | reflexivity
           | reflexivity | intros _; eexists; reflexivity | repeat constructor | discriminate |].
    intros d Hd. injection Hd as <-. split; [reflexivity | vm_compute; reflexivity].
  - exists rb. split; [exact E | exact Hs].
Defined.

(** The responder has every input it needs, and its output is refused. *)
Lemma responder_never_completes_witness :
  fst (fst (perform (P := toy) demo_env1 (demo_hs HandshakeRole.Responder) ctr0)) = Err ProtocolError.InvalidArgument /\
  is_ok (fst (fst (perform (P := toy) demo_env1 (demo_hs HandshakeRole.Responder) ctr0))) = false.
Proof.
  split; [vm_compute; reflexivity|].
  apply (responder_never_completes (P := toy) (demo_hs HandshakeRole.Responder) demo_env1 ctr0); [reflexivity|].
  intros n. cbn [x25519_public toy demo_env1 e_os seq map]. discriminate.
Defined.
