(* ===== verification/Context.v ===== *)
(** * The secure context ([core/src/lib.rs])

    [SecureContext] ties the components together: the key store, the table of
    sessions, the groups, the rate limiter.  A session lives behind an [Arc]: the
    table holds locations, [arcs] what is stored there, and a [SessionHandle]
    shares the location.  The locks are not modelled: every method takes and
    releases them in turn, and one call runs at a time.  [save_to_disk]
    and [load_from_disk] are in [Storage]; the salt file, whose outcome [new]
    ignores, is not modelled. *)

From S2P Require Import Prelude Effects Errors Primitives Compare Random Validation Padding Kdf Handler Encryptor Chain Message RatchetState Session SessionInvariant SessionReceive SessionSend RateLimit Group X3dh Bundle Safety KeyStore Builder.
#[local] Open Scope Z_scope.
#[local] Open Scope sibna_scope.

(** ** [SessionManager] *)

Record SessionManager := mkSessionManager {
  sessions : gmap bytes nat;
  sm_config : Config
}.

Definition SessionManager_new (config : Config) : SessionManager := mkSessionManager ∅ config.

Definition insert_session (peer : bytes) (loc : nat) (m : SessionManager) : SessionManager :=
  mkSessionManager (<[peer := loc]> (sessions m)) (sm_config m).

Definition get_session (id : bytes) (m : SessionManager) : PResult nat :=
  ok_or (sessions m !! id) ProtocolError.SessionNotFound.

Definition remove_session (id : bytes) (m : SessionManager) : bool * SessionManager :=
  (bool_decide (is_Some (sessions m !! id)), mkSessionManager (delete id (sessions m)) (sm_config m)).

(** In the order of the map's buckets, which is unspecified: as a set. *)
Definition list_sessions (m : SessionManager) : gset bytes := dom (sessions m).

Definition session_count (m : SessionManager) : Z := Z.of_nat (size (sessions m)).

Definition manager_is_healthy (m : SessionManager) : bool :=
  negb (session_count m =? 0) || (session_count m =? 0).

Record SessionHandle := mkSessionHandle { sh_peer_id : bytes; sh_session : nat }.

(** ** [SecureContext] *)

Record SecureContext := mkContext {
  ctx_keystore : KeyStore;
  ctx_sessions : SessionManager;
  arcs : list DoubleRatchetSession;
  ctx_groups : GroupManager;
  ctx_config : Config;
  ctx_random : SecureRandom;
  storage_key : bytes;
  storage_salt : bytes;
  ctx_device_id : bytes;
  rate_limiter : RateLimiter;
  sequence_number : Z;
  ctx_created_at : Z
}.

Definition set_keystore v s := mkContext v (ctx_sessions s) (arcs s) (ctx_groups s) (ctx_config s)
  (ctx_random s) (storage_key s) (storage_salt s) (ctx_device_id s) (rate_limiter s) (sequence_number s)
  (ctx_created_at s).
Definition set_sessions v s := mkContext (ctx_keystore s) v (arcs s) (ctx_groups s) (ctx_config s)
  (ctx_random s) (storage_key s) (storage_salt s) (ctx_device_id s) (rate_limiter s) (sequence_number s)
  (ctx_created_at s).
Definition set_arcs v s := mkContext (ctx_keystore s) (ctx_sessions s) v (ctx_groups s) (ctx_config s)
  (ctx_random s) (storage_key s) (storage_salt s) (ctx_device_id s) (rate_limiter s) (sequence_number s)
  (ctx_created_at s).
Definition set_groups v s := mkContext (ctx_keystore s) (ctx_sessions s) (arcs s) v (ctx_config s)
  (ctx_random s) (storage_key s) (storage_salt s) (ctx_device_id s) (rate_limiter s) (sequence_number s)
  (ctx_created_at s).
Definition set_limiter v s := mkContext (ctx_keystore s) (ctx_sessions s) (arcs s) (ctx_groups s) (ctx_config s)
  (ctx_random s) (storage_key s) (storage_salt s) (ctx_device_id s) v (sequence_number s) (ctx_created_at s).

Abbreviation CM := (M SecureContext ProtocolError.t).

Section Context.
Context {P : Primitives}.

(** [argon2::Params::DEFAULT_M_COST], [DEFAULT_T_COST], [DEFAULT_P_COST]. *)
Definition storage_kdf (password salt : bytes) : PResult bytes :=
  ok_or (argon2id password salt (19 * 1024) 2 1) ProtocolError.KeyDerivationFailed.

(** The storage key and its salt; [None] when [generate_key] ran out of [fuel]. *)
Definition new_storage_key (fuel : nat) (password : option bytes)
    : M (option SecureRandom) ProtocolError.t (option (bytes * bytes)) :=
  match password with
  | Some password =>
      let! salt := random_vec 32 in
      let! key := res (storage_kdf password salt) in
      ret (Some (key, salt))
  | None =>
      let! key := lift (io_map_err ProtocolError.from_crypto (generate_key fuel)) in
      ret (option_map (fun key => (key, zeros 32)) key)
  end.

(** The state is the thread's generator, from which the salt is drawn. *)
Definition SecureContext_new (fuel : nat) (config : Config) (password : option bytes)
    : M (option SecureRandom) ProtocolError.t (option SecureContext) :=
  let! _ := match password with
            | Some p => res (map_err (fun _ => ProtocolError.WeakPassword) (validate_password p))
            | None => ret tt
            end in
  let! keys := new_storage_key fuel password in
  match keys with
  | None => ret None
  | Some (key, salt) =>
      let! rng := lift (io_map_err ProtocolError.from_crypto SecureRandom_new) in
      let! (device_id, rng) := lift (run_on (fill_bytes 16) rng) in
      let! limiter := lift RateLimiter_new in
      let! created_at := lift read_instant in
      ret (Some (mkContext KeyStore_new (SessionManager_new config) [] (GroupManager_new key) config rng
                   key salt device_id limiter 0 created_at))
  end.

(** *** Gates *)

Definition client (id : bytes) : string := String.string_of_list_byte (hex_encode id).

Definition rate_gate (operation : string) (id : bytes) : CM unit :=
  let! s := get in
  if enable_rate_limiting (ctx_config s)
  then zoom rate_limiter set_limiter
         (m_map_err (fun _ => ProtocolError.RateLimitExceeded) (check operation (client id)))
  else ret tt.

Definition trust_gate (peer : bytes) : CM unit :=
  let! s := get in
  if require_safety_numbers (ctx_config s) && negb (is_peer_verified peer (ctx_keystore s))
  then res (Err ProtocolError.VerificationRequired) else ret tt.

(** [Arc::new(RwLock::new(session))]. *)
Definition new_arc (x : DoubleRatchetSession) : CM nat :=
  let! s := get in
  let! _ := modify (set_arcs (arcs s ++ [x])) in
  ret (length (arcs s)).

(** A method call on a session behind its lock.  A location always exists
    ([sessions_live]). *)
Definition with_arc {A} (loc : nat) (m : M DoubleRatchetSession ProtocolError.t A) : CM A := fun env s c =>
  match arcs s !! loc with
  | Some x => let '(r, x', c') := m env x c in (r, set_arcs (<[loc := x']> (arcs s)) s, c')
  | None => (Panic, s, c)
  end.

(** *** Sessions *)

(** [SessionManager::create_session]. *)
Definition manager_create_session (peer : bytes) (config : Config) : CM SessionHandle :=
  let! x := lift (session_new config) in
  let! loc := new_arc x in
  let! _ := modify (fun s => set_sessions (insert_session peer loc (ctx_sessions s)) s) in
  ret (mkSessionHandle peer loc).

Definition ctx_create_session (peer : bytes) : CM SessionHandle :=
  let! _ := rate_gate "create_session" peer in
  let! _ := trust_gate peer in
  let! s := get in
  manager_create_session peer (ctx_config s).

(** *** Identity *)

Definition load_identity (ed_pub x_pub seed : bytes) : CM unit :=
  if negb (len ed_pub =? 32) || negb (len x_pub =? 32) || negb (len seed =? 32)
  then res (Err ProtocolError.InvalidKeyLength)
  else
    let! keypair := lift (io_map_err (fun _ => ProtocolError.InvalidKey)
                            (IdentityKeyPair_from_bytes ed_pub x_pub seed)) in
    zoom ctx_keystore set_keystore (set_identity keypair).

Definition ctx_set_device_link (dev : Z) (root sg : bytes) : CM unit :=
  modify (fun s => set_keystore (set_device_link dev root sg (ctx_keystore s)) s).

Definition generate_identity : CM IdentityKeyPair :=
  let! keypair := lift IdentityKeyPair_generate in
  let! _ := zoom ctx_keystore set_keystore (set_identity keypair) in
  ret keypair.

Definition get_identity (s : SecureContext) : PResult IdentityKeyPair := get_identity_keypair (ctx_keystore s).

Definition get_identity_public (s : SecureContext) : PResult bytes :=
  let? i := get_identity s in Ok (ik_ed_public i).

Definition ctx_generate_signed_prekey : CM unit := zoom ctx_keystore set_keystore generate_signed_prekey.

(** *** The handshake *)

(** The signature an initiator demands on the peer's signed prekey. *)
Definition verify_peer_prekey (role : HandshakeRole.t) (peer_ik peer_spk spk_sig : option bytes) : PResult unit :=
  if HandshakeRole.is_initiator role then
    match peer_ik, peer_spk with
    | Some ik, Some spk =>
        if negb (len ik =? 32) || negb (len spk =? 32) then Err ProtocolError.InvalidKeyLength
        else
          let signed_payload := bstr "SibnaSignedPreKey_v3" ++ spk in
          let? _ := check_key ik in
          match spk_sig with
          | Some sg => check_sig ik signed_payload sg
          | None => Err ProtocolError.HandshakeFailed
          end
    | _, _ => Ok tt
    end
  else Ok tt.

(** [if let Some(x) = o { builder = builder.with(x)?; }]. *)
Definition when_some {A B} (o : option A) (f : A -> B -> PResult B) (b : B) : PResult B :=
  match o with Some a => f a b | None => Ok b end.

Definition handshake_builder (s : SecureContext) (role : HandshakeRole.t)
    (peer_ik peer_spk peer_opk peer_dev prologue : option bytes) : PResult HandshakeBuilder :=
  let b := with_our_device_id (ctx_device_id s) (with_role role (with_random (ctx_random s)
             (with_keystore (ctx_keystore s) (with_config (ctx_config s) HandshakeBuilder_new)))) in
  let? b := when_some peer_ik with_peer_identity_key b in
  let? b := when_some peer_spk with_peer_signed_prekey b in
  let? b := when_some peer_opk with_peer_onetime_prekey b in
  let? b := when_some prologue (fun p b => Ok (with_prologue p b)) b in
  when_some peer_dev (fun d b => Ok (with_peer_device_id d b)) b.

Definition pin_peer (peer : bytes) (peer_ik : option bytes) : CM unit :=
  match peer_ik with
  | Some ik =>
      if len ik =? 32
      then let! _ := zoom ctx_keystore set_keystore (verify_or_pin_peer_key peer ik) in ret tt
      else ret tt
  | None => ret tt
  end.

Definition perform_handshake (peer : bytes) (role : HandshakeRole.t)
    (peer_ik peer_spk spk_sig peer_opk peer_dev prologue : option bytes) : CM bytes :=
  let! _ := rate_gate "handshake" peer in
  let! _ := trust_gate peer in
  let! s := get in
  let! _ := res (verify_peer_prekey role peer_ik peer_spk spk_sig) in
  let! b := res (handshake_builder s role peer_ik peer_spk peer_opk peer_dev prologue) in
  let! handshake := lift (build b) in
  let! (output, _) := lift (run_on perform handshake) in
  let! _ := pin_peer peer peer_ik in
  let! remote_dh := res (let? k := ok_or (if HandshakeRole.is_initiator role then peer_spk else peer_opk)
                                     ProtocolError.InvalidState in key32 k) in
  let! x := lift (from_shared_secret (ho_shared_secret output) (local_ephemeral_key output) remote_dh
                    (ctx_config s) role) in
  let! loc := new_arc x in
  let! _ := modify (fun s => set_sessions (insert_session peer loc (ctx_sessions s)) s) in
  ret peer.

(** *** Messages *)

Definition ctx_encrypt_message (id plaintext : bytes) (ad : option bytes) : CM bytes :=
  let! _ := rate_gate "encrypt" id in
  let! s := get in
  if max_message_size (ctx_config s) <? len plaintext then res (Err ProtocolError.InvalidArgument)
  else
  let! _ := trust_gate id in
  let! padded := lift (pad_message plaintext (message_padding (ctx_config s))) in
  let! s := get in
  let! loc := res (get_session id (ctx_sessions s)) in
  with_arc loc (session_encrypt padded (default [] ad)).

Definition generate_cover_message (id : bytes) : CM bytes := ctx_encrypt_message id [] None.

Definition ctx_decrypt_message (id ciphertext : bytes) (ad : option bytes) : CM bytes :=
  let! _ := rate_gate "decrypt" id in
  let! s := get in
  let! loc := res (get_session id (ctx_sessions s)) in
  let! padded := with_arc loc (session_decrypt ciphertext (default [] ad)) in
  res (unpad_message padded).

(** *** Verification of peers *)

Definition get_safety_number (peer : bytes) (s : SecureContext) : PResult SafetyNumber :=
  let? i := get_identity s in
  let? pin := ok_or (get_peer_pin peer (ctx_keystore s)) ProtocolError.KeyNotFound in
  Ok (calculate (ik_ed_public i) (pin_identity_key pin)).

Definition get_fingerprint (peer : bytes) (s : SecureContext) : PResult bytes :=
  let? n := get_safety_number peer s in Ok (fingerprint n).

Definition verify_peer (peer : bytes) : CM unit :=
  let! s := get in
  match get_peer_pin peer (ctx_keystore s) with
  | None => res (Err ProtocolError.KeyNotFound)
  | Some _ => modify (fun s => set_keystore (mark_peer_verified peer (ctx_keystore s)) s)
  end.

(** *** Groups *)

Definition group_gate : CM unit :=
  let! s := get in
  if enable_group_messaging (ctx_config s) then ret tt else res (Err ProtocolError.InvalidState).

(** [groups.get_group_mut(id).ok_or(InvalidState)?.m()]. *)
Definition on_group {A} (gid : bytes) (m : M GroupSession ProtocolError.t A) : M GroupManager ProtocolError.t A :=
  let! gm := get in
  let! g := res (ok_or (get_group gid gm) ProtocolError.InvalidState) in
  zoom (fun _ => g) (fun g gm => mkGroupManager (<[gid := g]> (groups gm)) (master_key gm) (max_groups gm)) m.

Definition with_group {A} (gid : bytes) (m : M GroupSession ProtocolError.t A) : CM A :=
  let! _ := group_gate in zoom ctx_groups set_groups (on_group gid m).

Definition ctx_create_group (gid : bytes) : CM unit :=
  let! _ := group_gate in
  let! _ := zoom ctx_groups set_groups (create_group gid) in
  ret tt.

Definition encrypt_group_message (gid plaintext : bytes) : CM GroupMessage :=
  with_group gid (group_encrypt plaintext).

Definition decrypt_group_message (m : GroupMessage) (pk : bytes) : CM bytes :=
  with_group (gm_group_id m) (group_decrypt m pk).

Definition add_group_member (gid pk : bytes) : CM unit := with_group gid (add_member pk).

Definition remove_group_member (gid pk : bytes) : CM unit := with_group gid (remove_member pk).

Definition list_groups (s : SecureContext) : gset bytes := dom (groups (ctx_groups s)).

Definition delete_session (id : bytes) : CM bool :=
  let! s := get in
  let (b, m) := remove_session id (ctx_sessions s) in
  let! _ := modify (set_sessions m) in
  ret b.

Definition ctx_leave_group (gid : bytes) : CM unit :=
  modify (fun s => set_groups (leave_group gid (ctx_groups s)) s).

Record ContextStats := mkContextStats { cs_session_count : Z; cs_group_count : Z; cs_age_secs : Z }.

Definition ctx_stats (s : SecureContext) : IO ProtocolError.t ContextStats :=
  let* now := read_instant in
  io_ret (mkContextStats (session_count (ctx_sessions s)) (group_count (ctx_groups s))
            (sat_sub now (ctx_created_at s) / NANOS)).

Definition ctx_is_healthy (s : SecureContext) : bool :=
  if negb (is_healthy (ctx_keystore s)) then false
  else if negb (manager_is_healthy (ctx_sessions s)) then false
  else true.

Definition ctx_zeroize (s : SecureContext) : SecureContext :=
  mkContext (ctx_keystore s) (ctx_sessions s) (arcs s) (ctx_groups s) (ctx_config s) (ctx_random s)
    (zeros (length (storage_key s))) (storage_salt s) (ctx_device_id s) (rate_limiter s) (sequence_number s)
    (ctx_created_at s).

End Context.

(** ** Histories of a context *)

Inductive ctx_op :=
| CCreateSession (peer : bytes) | CLoadIdentity (ed x seed : bytes) | CDeviceLink (dev : Z) (root sg : bytes)
| CGenerateIdentity | CSignedPrekey
| CHandshake (peer : bytes) (role : HandshakeRole.t) (ik spk sg opk dev prologue : option bytes)
| CEncrypt (id pt : bytes) (ad : option bytes) | CDecrypt (id ct : bytes) (ad : option bytes)
| CVerifyPeer (peer : bytes) | CCreateGroup (gid : bytes) | CEncryptGroup (gid pt : bytes)
| CDecryptGroup (m : GroupMessage) (pk : bytes) | CAddMember (gid pk : bytes) | CRemoveMember (gid pk : bytes)
| CDeleteSession (id : bytes) | CLeaveGroup (gid : bytes).

Section ContextHistory.
Context {P : Primitives}.

Definition forget {A} (m : CM A) : CM unit := let! _ := m in ret tt.

Definition ctx_run (o : ctx_op) : CM unit :=
  match o with
  | CCreateSession p => forget (ctx_create_session p)
  | CLoadIdentity a b c => load_identity a b c
  | CDeviceLink d r g => ctx_set_device_link d r g
  | CGenerateIdentity => forget generate_identity
  | CSignedPrekey => ctx_generate_signed_prekey
  | CHandshake p r a b c d e f => forget (perform_handshake p r a b c d e f)
  | CEncrypt i m ad => forget (ctx_encrypt_message i m ad)
  | CDecrypt i m ad => forget (ctx_decrypt_message i m ad)
  | CVerifyPeer p => verify_peer p
  | CCreateGroup g => ctx_create_group g
  | CEncryptGroup g m => forget (encrypt_group_message g m)
  | CDecryptGroup m k => forget (decrypt_group_message m k)
  | CAddMember g k => add_group_member g k
  | CRemoveMember g k => remove_group_member g k
  | CDeleteSession i => forget (delete_session i)
  | CLeaveGroup g => ctx_leave_group g
  end.

(** One call, whatever its result. *)
Definition ctx_step (env : Env) (st st' : SecureContext * Ctr) : Prop :=
  exists o, st' = (snd (fst (ctx_run o env st.1 st.2)), snd (ctx_run o env st.1 st.2)).

(** *** Invariants of histories *)

Section Frame.
Context (I : SecureContext -> Prop).
Hypothesis (Ilim : forall r s, I s -> I (set_limiter r s)) (Iarc : forall l s, I s -> I (set_arcs l s))
  (Igrp : forall g s, I s -> I (set_groups g s)).

Lemma leads_any {S E A} (m : M S E A) : preserves (fun _ => True) m.
Proof. by intros env s c _. Qed.

Lemma rate_gate_frame op id : preserves I (rate_gate op id).
Proof.
  unfold rate_gate. lead_steps. apply (leads_zoom I (fun _ => True)); eauto using leads_any.
Qed.

Lemma trust_gate_frame id : preserves I (trust_gate id).
Proof. unfold trust_gate. lead_steps. Qed.

Lemma with_arc_frame {A} loc (m : M DoubleRatchetSession ProtocolError.t A) : preserves I (with_arc loc m).
Proof.
  intros env s c Hs. unfold with_arc. destruct (arcs s !! loc); [|done].
  destruct (m env _ c) as [[r x] c']. by apply Iarc.
Qed.

Lemma group_gate_frame : preserves I group_gate.
Proof. unfold group_gate. lead_steps. Qed.

Lemma with_group_frame {A} gid (m : M GroupSession ProtocolError.t A) : preserves I (with_group gid m).
Proof.
  unfold with_group. apply leads_bind; [apply group_gate_frame|]. intros _.
  apply (leads_zoom I (fun _ => True)); eauto using leads_any.
Qed.

Lemma decrypt_frame id ct ad : preserves I (ctx_decrypt_message id ct ad).
Proof.
  unfold ctx_decrypt_message. apply leads_bind; [apply rate_gate_frame|]. intros _. lead_steps. apply with_arc_frame.
Qed.

End Frame.

Lemma rate_then_trust {A} op p (k : unit -> CM A) env s c :
  require_safety_numbers (ctx_config s) = true -> is_peer_verified p (ctx_keystore s) = false ->
  is_ok (fst (fst ((let! _ := rate_gate op p in let! u := trust_gate p in k u) env s c))) = false /\
  exists r, snd (fst ((let! _ := rate_gate op p in let! u := trust_gate p in k u) env s c)) = set_limiter r s.
Proof.
  intros Hs Hv. unfold rate_gate, bind, get. destruct (enable_rate_limiting _).
  - unfold zoom. destruct (m_map_err _ _ env _ c) as [[[u|e|] r] c1]; cbn [fst snd]; [|eauto..].
    unfold trust_gate, bind, get. cbn [ctx_config ctx_keystore set_limiter]. rewrite Hs, Hv. cbn. eauto.
  - unfold ret, trust_gate, bind, get. rewrite Hs, Hv. cbn. split; [done|]. exists (rate_limiter s). by destruct s.
Qed.

(** *** No dangling entries *)

(** Every entry of the table is a location in use, so [with_arc] finds it. *)
Definition table_ok (s : SecureContext) : Prop :=
  map_Forall (fun _ loc => (loc < length (arcs s))%nat) (sessions (ctx_sessions s)).

Lemma with_arc_table {A} loc (m : M DoubleRatchetSession ProtocolError.t A) : preserves table_ok (with_arc loc m).
Proof.
  intros env s c Hs. unfold with_arc. destruct (arcs s !! loc); [|done].
  destruct (m env _ c) as [[r x] c']. unfold table_ok. cbn [fst snd arcs ctx_sessions set_arcs]. by rewrite length_insert.
Qed.

Lemma install_table {A} x peer (f : nat -> A) :
  preserves table_ok (let! loc := new_arc x in
    let! _ := modify (fun s => set_sessions (insert_session peer loc (ctx_sessions s)) s) in ret (f loc)).
Proof.
  intros env s c Hs. unfold new_arc, bind, get, modify, ret, table_ok.
  cbn [fst snd arcs ctx_sessions set_arcs set_sessions sessions insert_session]. rewrite length_app. simpl.
  apply map_Forall_insert_2; [lia|]. eapply map_Forall_impl; [exact Hs|]. simpl. lia.
Qed.

(** *** Strict mode *)

(** A strict context that knows no peer. *)
Definition locked (s : SecureContext) : Prop :=
  require_safety_numbers (ctx_config s) = true /\ peer_pins (ctx_keystore s) = ∅.

Lemma locked_unverified s p : locked s -> is_peer_verified p (ctx_keystore s) = false.
Proof. intros [_ Hp]. unfold is_peer_verified. by rewrite Hp, lookup_empty. Qed.

Lemma locked_rate_then_trust {A} op p (k : unit -> CM A) :
  preserves locked (let! _ := rate_gate op p in let! u := trust_gate p in k u).
Proof.
  intros env s c Hl. destruct (rate_then_trust op p k env s c) as [_ [r ->]]; [apply Hl | by apply locked_unverified |].
  exact Hl.
Qed.

(** What the context calls on its store leaves the pins alone. *)
Lemma set_identity_pins i : preserves (fun s => peer_pins s = ∅) (set_identity i).
Proof. unfold set_identity. lead_steps. Qed.

Lemma signed_prekey_pins : preserves (fun s => peer_pins s = ∅) generate_signed_prekey.
Proof. unfold generate_signed_prekey. lead_steps. Qed.

Lemma store_locked {A} (m : KM A) :
  preserves (fun s => peer_pins s = ∅) m -> preserves locked (zoom ctx_keystore set_keystore m).
Proof. intros Hm. apply (leads_zoom locked _ _ _ _ Hm); [by intros ? []|]. intros t s Ht [? _]. by split. Qed.

Lemma forget_leads {A} (I : SecureContext -> Prop) (m : CM A) : preserves I m -> preserves I (forget m).
Proof. intros Hm. unfold forget. apply leads_bind; [done|]. intros ?. apply leads_ret. Qed.

Lemma encrypt_refused id pt ad env s c : locked s ->
  is_ok (fst (fst (ctx_encrypt_message id pt ad env s c))) = false /\
  locked (snd (fst (ctx_encrypt_message id pt ad env s c))).
Proof.
  intros Hl.
  assert (exists r s' c', ctx_encrypt_message id pt ad env s c = (r, s', c') /\ is_ok r = false /\ locked s')
    as (r & s' & c' & -> & ?); [|done].
  unfold ctx_encrypt_message, bind at 1.
  pose proof (rate_gate_frame locked (fun _ _ H => H) "encrypt" id env s c Hl) as Hg.
  destruct (rate_gate "encrypt" id env s c) as [[[u|e|] s1] c1]; cbn [fst snd] in Hg; [|eauto 6..].
  unfold bind at 1, get at 1. destruct (_ <? _); [unfold res; eauto 6|].
  unfold bind at 1, trust_gate, bind at 1, get at 1. rewrite (locked_unverified s1 id Hg), (proj1 Hg).
  unfold res. eauto 6.
Qed.

Lemma ctx_run_locked o : preserves locked (ctx_run o).
Proof.
  destruct o; cbn [ctx_run]; try (apply forget_leads).
  - apply locked_rate_then_trust.
  - unfold load_identity. lead_steps. apply store_locked, set_identity_pins.
  - apply leads_modify. by intros ? [].
  - unfold generate_identity. apply leads_bind; [apply leads_lift|]. intros ?.
    apply leads_bind; [apply store_locked, set_identity_pins|]. intros ?. apply leads_ret.
  - apply store_locked, signed_prekey_pins.
  - apply locked_rate_then_trust.
  - intros env s c Hl. by apply encrypt_refused.
  - by apply decrypt_frame.
  - intros env s c Hl. unfold verify_peer, bind, get, get_peer_pin. by rewrite (proj2 Hl), lookup_empty.
  - unfold ctx_create_group. apply leads_bind; [apply group_gate_frame|]. intros _.
    apply leads_bind; [|intros ?; apply leads_ret].
    apply (leads_zoom locked (fun _ => True)); [apply leads_any | done | done].
  - by apply with_group_frame.
  - by apply with_group_frame.
  - by apply with_group_frame.
  - by apply with_group_frame.
  - unfold delete_session. apply leads_bind; [apply leads_get|]. intros s0. simpl.
    apply leads_bind; [|intros ?; apply leads_ret]. by apply leads_modify.
  - by apply leads_modify.
Qed.

Lemma ctx_steps_invariant (I : SecureContext -> Prop) env st st' :
  (forall o, preserves I (ctx_run o)) -> rtc (ctx_step env) st st' -> I st.1 -> I st'.1.
Proof.
  intros Hr Hs. induction Hs as [|st1 st2 st3 [o ->] _ IH]; [done|]. intros Hi. apply IH. by apply Hr.
Qed.

Lemma SecureContext_new_inv fuel cfg pw env t c s t' c' :
  SecureContext_new fuel cfg pw env t c = (Ok (Some s), t', c') ->
  ctx_keystore s = KeyStore_new /\ ctx_config s = cfg /\ ctx_sessions s = SessionManager_new cfg.
Proof.
  unfold SecureContext_new. intros E. inv_bind E. inv_bind E. destruct a0 as [[key salt]|]; [|done].
  inv_bind E. apply bind_ok_inv in E as ([d r] & sd & cd & _ & E). inv_bind E. inv_bind E.
  apply ret_ok_inv in E as (E & _ & _). by injection E as ->.
Qed.

Lemma store_table {A} (m : KM A) : preserves table_ok (zoom ctx_keystore set_keystore m).
Proof. apply (leads_zoom table_ok (fun _ => True)); [apply leads_any | done | done]. Qed.

Lemma pin_peer_table p k : preserves table_ok (pin_peer p k).
Proof. unfold pin_peer. lead_steps. apply store_table. Qed.

Lemma handshake_table peer role ik spk sg opk dev pro :
  preserves table_ok (perform_handshake peer role ik spk sg opk dev pro).
Proof.
  unfold perform_handshake. apply leads_bind; [by apply rate_gate_frame|]. intros _.
  apply leads_bind; [apply trust_gate_frame|]. intros _. do 4 (apply leads_bind; [eauto with sibna|]; intros ?).
  apply leads_bind; [eauto with sibna|]. intros [o h]. apply leads_bind; [apply pin_peer_table|]. intros _.
  do 2 (apply leads_bind; [eauto with sibna|]; intros ?). apply (install_table _ peer (fun _ => peer)).
Qed.

Lemma create_session_table peer : preserves table_ok (ctx_create_session peer).
Proof.
  unfold ctx_create_session. apply leads_bind; [by apply rate_gate_frame|]. intros _.
  apply leads_bind; [apply trust_gate_frame|]. intros _. do 2 (apply leads_bind; [eauto with sibna|]; intros ?).
  apply (install_table _ peer (mkSessionHandle peer)).
Qed.

Lemma encrypt_table id pt ad : preserves table_ok (ctx_encrypt_message id pt ad).
Proof.
  unfold ctx_encrypt_message. apply leads_bind; [by apply rate_gate_frame|]. intros _.
  lead_steps; first [apply trust_gate_frame | apply with_arc_table].
Qed.

Lemma decrypt_table id ct ad : preserves table_ok (ctx_decrypt_message id ct ad).
Proof.
  unfold ctx_decrypt_message. apply leads_bind; [by apply rate_gate_frame|]. intros _. lead_steps. apply with_arc_table.
Qed.

Lemma ctx_run_table o : preserves table_ok (ctx_run o).
Proof.
  destruct o; cbn [ctx_run]; try (apply forget_leads); try (by apply with_group_frame).
  - apply create_session_table.
  - unfold load_identity. lead_steps. apply store_table.
  - by apply leads_modify.
  - unfold generate_identity. apply leads_bind; [apply leads_lift|]. intros ?.
    apply leads_bind; [apply store_table|]. intros ?. apply leads_ret.
  - apply store_table.
  - apply handshake_table.
  - apply encrypt_table.
  - apply decrypt_table.
  - unfold verify_peer. lead_steps.
  - unfold ctx_create_group. apply leads_bind; [apply group_gate_frame|]. intros _.
    apply leads_bind; [|intros ?; apply leads_ret].
    apply (leads_zoom table_ok (fun _ => True)); [apply leads_any | done | done].
  - intros env s c Hs. apply (map_Forall_delete _ (sessions (ctx_sessions s)) id Hs).
  - by apply leads_modify.
Qed.

(** In every history of a new context, a session that is found is there. *)
Lemma sessions_live fuel cfg pw env t c s0 t' c0 s c1 id loc :
  SecureContext_new fuel cfg pw env t c = (Ok (Some s0), t', c0) -> rtc (ctx_step env) (s0, c0) (s, c1) ->
  get_session id (ctx_sessions s) = Ok loc -> is_Some (arcs s !! loc).
Proof.
  intros E Hs Hg. apply SecureContext_new_inv in E as (_ & _ & Ec).
  assert (Ht : table_ok s).
  { apply (ctx_steps_invariant table_ok env (s0, c0) (s, c1) ctx_run_table Hs). unfold table_ok. simpl.
    rewrite Ec. apply map_Forall_empty. }
  unfold get_session in Hg. destruct (sessions (ctx_sessions s) !! id) as [l|] eqn:El; [|done].
  injection Hg as ->. apply lookup_lt_is_Some_2, (Ht id loc El).
Qed.

(** C15: strict mode has no way in.  Start from a new context whose
    configuration requires safety numbers (the default) and make any calls of
    its interface (short of reaching into the store with [keystore()]), with any
    results: no peer can be verified, because
    [verify_peer] needs a pinned key, a key is pinned only by a handshake, and
    the handshake is refused for a peer that is not verified.  So [create_session],
    [perform_handshake] and [encrypt_message] never succeed. *)
Theorem strict_mode_locked fuel cfg pw env t c s0 t' c0 s c1 :
  require_safety_numbers cfg = true ->
  SecureContext_new fuel cfg pw env t c = (Ok (Some s0), t', c0) ->
  rtc (ctx_step env) (s0, c0) (s, c1) ->
  forall peer, fst (fst (verify_peer peer env s c1)) = Err ProtocolError.KeyNotFound /\
    is_ok (fst (fst (ctx_create_session peer env s c1))) = false /\
    (forall role ik spk sg opk dev pro,
       is_ok (fst (fst (perform_handshake peer role ik spk sg opk dev pro env s c1))) = false) /\
    (forall pt ad, is_ok (fst (fst (ctx_encrypt_message peer pt ad env s c1))) = false).
Proof.
  intros Hr E Hs peer. apply SecureContext_new_inv in E as (Ek & Ec & _).
  assert (Hl : locked s).
  { apply (ctx_steps_invariant locked env (s0, c0) (s, c1) ctx_run_locked Hs). unfold locked. simpl.
    by rewrite Ek, Ec. }
  split; [|split; [|split]].
  - unfold verify_peer, bind, get, get_peer_pin. by rewrite (proj2 Hl), lookup_empty.
  - apply rate_then_trust; [apply Hl | by apply locked_unverified].
  - intros. apply rate_then_trust; [apply Hl | by apply locked_unverified].
  - intros. by apply encrypt_refused.
Qed.

End ContextHistory.

(** ** The handshake of a context *)

Section ContextHandshake.
Context {P : Primitives}.

(** The handshake a context runs: no ephemeral key of the peer and no
    post-quantum key is ever given to the builder. *)
Definition context_hs (s : SecureContext) (role : HandshakeRole.t) (ik spk opk dev pro : option bytes)
    : X3dhHandshake :=
  mkHandshake (ctx_config s) (ctx_keystore s) (ctx_random s) role ik spk opk None None None None None pro None
    (ctx_device_id s) (default (zeros 16) dev).

Definition all32 (o : option bytes) : Prop := forall k, o = Some k -> length k = 32%nat.

Lemma handshake_builder_run s role ik spk opk dev pro b env c :
  handshake_builder s role ik spk opk dev pro = Ok b ->
  build b env c = (Ok (context_hs s role ik spk opk dev pro), c) /\ all32 ik /\ all32 spk /\ all32 opk.
Proof.
  unfold handshake_builder, when_some, with_peer_identity_key, with_peer_signed_prekey, with_peer_onetime_prekey.
  assert (Hl : forall k : bytes, (len k =? 32) = true -> all32 (Some k)).
  { intros k Hk. apply Z.eqb_eq in Hk. unfold len in Hk. intros k' [= <-]. lia. }
  destruct ik as [k1|]; [destruct (len k1 =? 32) eqn:E1; [|done]|];
    (destruct spk as [k2|]; [destruct (len k2 =? 32) eqn:E2; [|done]|]);
    (destruct opk as [k3|]; [destruct (len k3 =? 32) eqn:E3; [|done]|]);
    destruct pro, dev; cbn; intros [= <-]; (split; [done|]); split_and!; try done; auto.
Qed.

(** Only the initiator's half of [perform] can succeed in it. *)
Lemma context_perform s role ik spk opk dev pro env c out h c' :
  run_on perform (context_hs s role ik spk opk dev pro) env c = (Ok (out, h), c') ->
  role = HandshakeRole.Initiator /\ is_Some ik /\ is_Some spk /\
  require_safety_numbers (ctx_config s) = false /\ all_zero (ho_shared_secret out) = false /\
  local_ephemeral_public out = x25519_public (local_ephemeral_key out).
Proof.
  unfold run_on. destruct (perform env _ c) as [[[o|e|] h'] c1] eqn:E; try done. intros [= <- <- <-].
  unfold perform, bind at 1, get at 1 in E. cbn [hs_role context_hs] in E. destruct role.
  - unfold perform_initiator in E. unfold bind at 1, get at 1 in E. inv_bind E. cbn [context_hs hs_peer_identity_key
      hs_peer_signed_prekey hs_config hs_peer_pq_pk] in E.
    inv_bind E. inv_bind E. unfold res in E1, E2. destruct ik as [k|]; [|done]. destruct spk as [k'|]; [|done].
    destruct (require_safety_numbers (ctx_config s)); [done|]. cbn [andb] in E.
    inv_bind E. inv_bind E. inv_bind E. apply bind_ok_inv in E as (o1 & sa & ca & Eo & E).
    unfold lift, HandshakeOutput_new, io_bind, read_secs_or_far, io_ret in Eo. injection Eo as <- <- <-.
    apply bind_ok_inv in E as (u & sb & cb & Ev & E). apply ret_ok_inv in E as (Eout & _ & _).
    rewrite <- Eout in Ev. unfold res, HandshakeOutput_validate in Ev.
    destruct (all_zero (ho_shared_secret o)) eqn:Hz; [done|]. destruct (constant_time_eq _ _) eqn:Hc; [|done].
    by apply constant_time_eq_true in Hc.
  - unfold perform_responder in E. unfold bind at 1, get at 1 in E. inv_bind E. inv_bind E. inv_bind E. inv_bind E.
    done.
Qed.

Lemma rate_gate_state op id env s c : exists r, snd (fst (rate_gate op id env s c)) = set_limiter r s.
Proof.
  unfold rate_gate, bind, get. destruct (enable_rate_limiting _).
  - unfold zoom. destruct (m_map_err _ _ env _ c) as [[r l] c']. by exists l.
  - exists (rate_limiter s). by destruct s.
Qed.

Lemma trust_gate_state p env s c u s' c' : trust_gate p env s c = (Ok u, s', c') -> s' = s /\ c' = c.
Proof. unfold trust_gate, bind, get. by destruct (_ && _); intros [=]. Qed.

(** A contact that is let through leaves the key pinned. *)
Lemma verify_or_pin_ok p k env s c r s' c' :
  verify_or_pin_peer_key p k env s c = (Ok r, s', c') ->
  (exists pin, peer_pins s' !! p = Some pin /\ pin_identity_key pin = k) /\
  (forall pin, peer_pins s !! p = Some pin -> pin_identity_key pin = k) /\ identity s' = identity s.
Proof.
  unfold verify_or_pin_peer_key, bind, pin_peer_key, bind, get.
  destruct (peer_pins s !! p) as [pin|] eqn:Ep.
  - destruct (constant_time_eq _ _) eqn:Ec; unfold ret; [|done]. intros [= _ <- _].
    apply constant_time_eq_true in Ec as <-. by split; [eauto|split; [by intros ? [= <-]|]].
  - unfold lift, PinnedKey_new. destruct (HandshakeRole.bytes_lt _ _);
      unfold io_bind, read_secs_or_far, io_ret, modify, ret; intros [= _ <- _];
      (split; [eexists; split; [apply lookup_insert_eq | done]|done]).
Qed.

(** A handshake that succeeded, step by step. *)
Lemma perform_handshake_inv peer role ik spk sg opk dev pro env s c out s' c' :
  perform_handshake peer role ik spk sg opk dev pro env s c = (Ok out, s', c') ->
  exists r ho h x c1 c2 c3 c4 t1, role = HandshakeRole.Initiator /\ out = peer /\
    verify_peer_prekey role ik spk sg = Ok tt /\ all32 ik /\ all32 spk /\ all32 opk /\
    run_on perform (context_hs (set_limiter r s) role ik spk opk dev pro) env c1 = (Ok (ho, h), c2) /\
    pin_peer peer ik env (set_limiter r s) c2 = (Ok tt, t1, c3) /\
    (exists k, spk = Some k /\ from_shared_secret (ho_shared_secret ho) (local_ephemeral_key ho) k
       (ctx_config s) role env c3 = (Ok x, c4)) /\
    s' = set_sessions (insert_session peer (length (arcs t1)) (ctx_sessions t1)) (set_arcs (arcs t1 ++ [x]) t1).
Proof.
  unfold perform_handshake. intros E. destruct (rate_gate_state "handshake" peer env s c) as [r Hr].
  apply bind_ok_inv in E as (u1 & s1 & c1 & E1 & E). rewrite E1 in Hr. cbn [fst snd] in Hr. subst s1.
  apply bind_ok_inv in E as (u2 & s2 & c2 & E2 & E). apply trust_gate_state in E2 as [-> ->].
  unfold bind at 1, get at 1 in E. apply bind_ok_inv in E as ([] & s3 & c3 & E3 & E). unfold res in E3.
  injection E3 as Ev <- <-. apply bind_ok_inv in E as (b & s4 & c4 & E4 & E). unfold res in E4. injection E4 as Eb <- <-.
  destruct (handshake_builder_run _ _ _ _ _ _ _ b env c1 Eb) as (Ebd & H1 & H2 & H3).
  unfold bind at 1, lift at 1 in E. rewrite Ebd in E.
  apply bind_ok_inv in E as ([ho h] & s5 & c5 & E5 & E). unfold lift in E5.
  destruct (run_on _ _ env c1) as [r5 c5'] eqn:Erun. injection E5 as -> <- <-.
  pose proof (context_perform _ _ _ _ _ _ _ _ _ _ _ _ Erun) as (-> & _ & [k ->] & _).
  apply bind_ok_inv in E as ([] & t1 & c6 & E6 & E). cbn [HandshakeRole.is_initiator ok_or res_bind] in E.
  unfold bind at 1, res at 1, key32 in E. specialize (H2 k eq_refl) as Hk.
  replace (len k =? 32) with true in E by (symmetry; apply Z.eqb_eq; unfold len; lia).
  apply bind_ok_inv in E as (x & s7 & c7 & E7 & E). unfold lift in E7.
  destruct (from_shared_secret _ _ _ _ _ env c6) as [r7 c7'] eqn:Efs. injection E7 as -> <- <-.
  unfold new_arc, bind, get, modify, ret in E. injection E as <- <- <-.
  exists r, ho, h, x, c1, c5', c6, c7', t1. split_and!; try done. by exists k.
Qed.

Lemma pin_peer_inv peer k env s c t c' :
  pin_peer peer (Some k) env s c = (Ok tt, t, c') -> length k = 32%nat ->
  exists ks, t = set_keystore ks s /\ identity ks = identity (ctx_keystore s) /\
    (exists pin, peer_pins ks !! peer = Some pin /\ pin_identity_key pin = k) /\
    (forall pin, peer_pins (ctx_keystore s) !! peer = Some pin -> pin_identity_key pin = k).
Proof.
  intros E Hk. unfold pin_peer in E. replace (len k =? 32) with true in E by (symmetry; apply Z.eqb_eq; unfold len; lia).
  apply bind_ok_inv in E as (r & s1 & c1 & E & E2). apply ret_ok_inv in E2 as (_ & -> & _). unfold zoom in E.
  destruct (verify_or_pin_peer_key peer k env (ctx_keystore s) c) as [[r' ks] c2] eqn:Ev.
  injection E as -> <- <-. apply verify_or_pin_ok in Ev as (? & ? & ?). by exists ks.
Qed.

Lemma verify_peer_prekey_ok k spk sg :
  verify_peer_prekey HandshakeRole.Initiator (Some k) (Some spk) sg = Ok tt ->
  exists g, sg = Some g /\ ed25519_verify k (bstr "SibnaSignedPreKey_v3" ++ spk) g = true.
Proof.
  unfold verify_peer_prekey. cbn [HandshakeRole.is_initiator]. destruct (_ || _); [done|].
  unfold check_key, check_sig. destruct (ed25519_key_ok k); [|done]. cbn [res_bind].
  destruct sg as [g|]; [|done]. destruct (ed25519_verify _ _ g) eqn:E; [|done]. by exists g.
Qed.

(** C14: a context's handshake is authenticated.  When [perform_handshake]
    returns, the context is not strict, it was the initiator, and it was given
    the peer's identity key, signed prekey and a signature by that identity key
    over the prefixed prekey which verifies (the signature is never optional,
    also where the documentation of the parameter allows [None]); the identity
    key is the one pinned for the peer, before (if there was a pin) and after;
    and the peer's entry is a new session, shared with no other, that can send
    and whose remote ratchet key is the verified prekey.  In particular the
    responder's side never returns a session. *)
Theorem handshake_authenticated peer role ik spk sg opk dev pro env s c out s' c' :
  perform_handshake peer role ik spk sg opk dev pro env s c = (Ok out, s', c') ->
  require_safety_numbers (ctx_config s) = false /\ role = HandshakeRole.Initiator /\ out = peer /\
  exists k p g x, ik = Some k /\ spk = Some p /\ sg = Some g /\
    ed25519_verify k (bstr "SibnaSignedPreKey_v3" ++ p) g = true /\
    (exists pin, peer_pins (ctx_keystore s') !! peer = Some pin /\ pin_identity_key pin = k) /\
    (forall pin, peer_pins (ctx_keystore s) !! peer = Some pin -> pin_identity_key pin = k) /\
    sessions (ctx_sessions s') = <[peer := length (arcs s)]> (sessions (ctx_sessions s)) /\
    arcs s' = arcs s ++ [x] /\ is_Some (sending_chain (state x)) /\ dh_remote (state x) = Some p.
Proof.
  intros E. apply perform_handshake_inv in E as (r & ho & h & x & c1 & c2 & c3 & c4 & t1 & -> & -> & Ev & H1 & _ & _ & Er & Ep & (p & -> & Ef) & ->).
  pose proof (context_perform _ _ _ _ _ _ _ _ _ _ _ _ Er) as (_ & [k ->] & _ & Hs & Hz & _).
  apply verify_peer_prekey_ok in Ev as (g & -> & Hg).
  apply pin_peer_inv in Ep as (ks & -> & _ & Hp1 & Hp2); [|by apply H1].
  split; [done|]. split; [done|]. split; [done|]. exists k, p, g, x.
  pose proof (from_shared_secret_state _ _ _ _ _ _ _ _ _ Ef) as (_ & _ & _ & _ & _ & Hr & _).
  split_and!; try done.
  revert Ef. unfold from_shared_secret. rewrite Hz. unfold io_bind at 1, io_res at 1.
  destruct (hkdf_sha256 _ _ _ _); cbn [ok_or]; [|done]. cbn [HandshakeRole.is_initiator]. unfold io_bind at 1.
  unfold io_bind at 1. destruct (ChainKey_new _ env c3) as [[ck|e|] c5]; try done. unfold io_ret at 1.
  unfold io_bind at 1, read_secs. unfold io_bind at 1, io_res at 1. destruct (ok_or _ _); try done.
  unfold io_bind at 1. destruct (generate_session_id env _) as [[id|e|] c6]; try done. intros [= <- _]. by eexists.
Qed.

End ContextHandshake.

(** ** Messages between contexts *)

Section ContextMessages.
Context {P : Primitives} {L : PrimitiveLaws P}.

(** The rate limiter lets the call pass. *)
Definition gate_open (op : string) (id : bytes) (env : Env) (s : SecureContext) (c : Ctr) : Prop :=
  is_ok (fst (fst (rate_gate op id env s c))) = true.

Lemma gate_open_run op id env s c : gate_open op id env s c ->
  exists r c', rate_gate op id env s c = (Ok tt, set_limiter r s, c').
Proof.
  unfold gate_open. destruct (rate_gate_state op id env s c) as [r Hr].
  destruct (rate_gate op id env s c) as [[[[]|e|] s'] c']; try done. intros _. cbn in Hr. subst. eauto.
Qed.

(** The context's session for a peer. *)
Definition session_at (id : bytes) (loc : nat) (x : DoubleRatchetSession) (s : SecureContext) : Prop :=
  sessions (ctx_sessions s) !! id = Some loc /\ arcs s !! loc = Some x /\
  enable_header_encryption (config x) = false.

(** A context that pads its messages and may write to the peer. *)
Definition may_send (id : bytes) (s : SecureContext) : Prop :=
  PaddingMode.is_enabled (message_padding (ctx_config s)) = true /\
  bad_custom (message_padding (ctx_config s)) = false /\
  PaddingMode.block_size (message_padding (ctx_config s)) <= 65536 /\
  (require_safety_numbers (ctx_config s) = true -> is_peer_verified id (ctx_keystore s) = true).

(** A plaintext that fits, padding included. *)
Definition fits (pt : bytes) (s : SecureContext) : Prop :=
  len pt <= max_message_size (ctx_config s) /\ len pt + 11 + MAX_PADDING_BYTES <= limits.MAX_MESSAGE_SIZE.

Lemma with_arc_run {A} loc x (m : M DoubleRatchetSession ProtocolError.t A) env s c r x' c' :
  arcs s !! loc = Some x -> m env x c = (r, x', c') ->
  with_arc loc m env s c = (r, set_arcs (<[loc := x']> (arcs s)) s, c').
Proof. intros Hx Hm. unfold with_arc. by rewrite Hx, Hm. Qed.

Lemma session_encrypt_run x pt ad env c r st c' :
  encrypt (config x) pt ad env (state x) c = (r, st, c') ->
  session_encrypt pt ad env x c = (r, set_state st x, c').
Proof. intros E. unfold session_encrypt, bind, get, zoom. by rewrite E. Qed.

Lemma session_decrypt_run x data ad env c r st c' :
  decrypt (config x) data ad env (state x) c = (r, st, c') ->
  session_decrypt data ad env x c = (r, set_state st x, c').
Proof. intros E. unfold session_decrypt, bind, get, zoom. by rewrite E. Qed.

Section OneMessage.
Context (k sk : bytes) (env1 env2 : Env) (lo hi rlo rhi : Z).
Hypothesis (Hclock : sane_clock env1 lo hi) (Hrng : rng_healthy env1) (Hshort : hi <= lo + 300).
Hypothesis (Hclock2 : sane_clock env2 rlo rhi) (Hskew : hi <= rlo + 30) (Hage : rhi <= lo + 86400).
Hypothesis (Hsk : length sk = 32%nat) (Hnz : all_zero (x25519_public sk) = false).

Lemma ctx_encrypt_sends id loc x n pt ad s c :
  session_at id loc x s -> may_send id s -> fits pt s -> gate_open "encrypt" id env1 s c ->
  send_rep hi k sk n (state x) -> usable k n -> len (default [] ad) <= limits.MAX_AD_LEN - 56 ->
  exists data padded r x' c', ctx_encrypt_message id pt ad env1 s c =
      (Ok data, set_arcs (<[loc := x']> (arcs s)) (set_limiter r s), c') /\
    unpad_message padded = Ok pt /\
    genuine k (x25519_public sk) (previous_counter (state x)) n rlo rhi padded (default [] ad) data /\
    config x' = config x /\
    (messages_sent (state x) + 1 < U64_MAX -> send_rep hi k sk (S n) (state x')).
Proof.
  intros (Hs & Hx & Hh) (Hp1 & Hp2 & Hp3 & Ht) [Hf1 Hf2] Hg Hsend Hu Had. unfold ctx_encrypt_message.
  apply gate_open_run in Hg as (r & c1 & E1). rewrite (bind_ok _ _ _ _ _ _ _ _ E1).
  unfold bind at 1, get at 1. cbn [ctx_config set_limiter].
  destruct (Z.ltb_spec (max_message_size (ctx_config s)) (len pt)); [lia|].
  unfold trust_gate, bind at 1. unfold bind at 1, get at 1. cbn [ctx_config ctx_keystore set_limiter].
  replace (require_safety_numbers (ctx_config s) && negb (is_peer_verified id (ctx_keystore s))) with false
    by (destruct (require_safety_numbers (ctx_config s)); [by rewrite Ht|done]).
  unfold ret at 1. destruct (pad_message_ok pt (message_padding (ctx_config s)) env1 c1 Hrng Hp1 Hp2 Hp3)
    as (padded & c2 & E2 & Hup & Hlp).
  rewrite (bind_ok _ _ _ _ _ _ _ _ (lift_ok _ _ _ _ _ _ E2)). unfold bind at 1, get at 1.
  unfold bind at 1, res at 1, get_session. cbn [ctx_sessions set_limiter]. rewrite Hs. cbn [ok_or].
  destruct (encrypt_sends (config x) env1 lo hi rlo rhi Hh Hclock Hrng Hshort Hskew Hage k sk n (state x) c2 padded
    (default [] ad)) as (data & st & c3 & E3 & Hgen & F1 & F2 & F3 & F4); [done | done | done | done | lia | done |].
  rewrite (with_arc_run loc x _ env1 (set_limiter r s) c2 _ _ _ Hx (session_encrypt_run _ _ _ _ _ _ _ _ E3)).
  exists data, padded, r, (set_state st x), c3. split; [done|]. split; [done|]. split; [done|].
  split; [done|]. intros Hm. eapply send_rep_next; try done. simpl. lia.
Qed.

Lemma ctx_decrypt_delivers id loc x room w pcl n padded pt ad data s c :
  session_at id loc x s -> gate_open "decrypt" id env2 s c ->
  recv_rep k (x25519_public sk) room (state x) w -> messages_received (state x) < U64_MAX -> usable k n ->
  genuine k (x25519_public sk) pcl n rlo rhi padded (default [] ad) data -> unpad_message padded = Ok pt ->
  exists r x' c', ctx_decrypt_message id data ad env2 s c =
      (verdict (Window.deliver room w n) pt, set_arcs (<[loc := x']> (arcs s)) (set_limiter r s), c') /\
    config x' = config x /\
    recv_rep k (x25519_public sk) room (state x') (Window.after w (Window.deliver room w n)) /\
    messages_received (state x') <= messages_received (state x) + 1.
Proof.
  intros (Hs & Hx & Hh) Hg Hrep Hmr Hu Hgen Hup. unfold ctx_decrypt_message.
  apply gate_open_run in Hg as (r & c1 & E1). rewrite (bind_ok _ _ _ _ _ _ _ _ E1).
  unfold bind at 1, get at 1. unfold bind at 1, res at 1, get_session. cbn [ctx_sessions set_limiter].
  rewrite Hs. cbn [ok_or].
  destruct (decrypt_deliver (config x) k (x25519_public sk) room rlo rhi env2 Hh Hclock2 (x25519_public_len _ Hsk) Hnz
    w pcl n padded (default [] ad) data (state x) c1 Hrep Hmr Hgen Hu) as (st & c2 & E2 & Hrep' & Hmr' & _).
  unfold bind at 1. rewrite (with_arc_run loc x _ env2 (set_limiter r s) c1 _ _ _ Hx (session_decrypt_run _ _ _ _ _ _ _ _ E2)).
  exists r, (set_state st x), c2. split; [|done].
  destruct (Window.deliver room w n); cbn [verdict]; [|done..]. unfold res. by rewrite Hup.
Qed.

End OneMessage.
(** C12: a message between two contexts.  Take two contexts whose sessions, with
    plain headers, are paired: the sender's has sent [n] messages on a chain,
    the receiver's has seen the window [w] of it.  The sender may write to the
    peer and pads its messages, both rate limiters agree, the plaintext is
    within the configured maximum and, with up to 65546 bytes of padding, within
    10 MiB, and the associated data has at most 200 bytes; the sender's DH key
    is not all zeros, the message key is not weak and within the length of the
    chain; sending takes at most 300 seconds, by a clock at most 30 seconds
    ahead of the receiver's, and the message arrives within a day.  Then
    [encrypt_message] succeeds, for the empty plaintext of cover traffic too,
    and [decrypt_message] on its bytes returns that plaintext or refuses it
    exactly as the window does (replay, too far ahead).  Afterwards the sessions
    are paired again, the sender's one message further. *)
Theorem context_message_delivered k sk env1 env2 lo hi rlo rhi ida loca xa n A c1 idb locb xb room w B c2 pt ad :
  sane_clock env1 lo hi -> rng_healthy env1 -> hi <= lo + 300 ->
  sane_clock env2 rlo rhi -> hi <= rlo + 30 -> rhi <= lo + 86400 ->
  length sk = 32%nat -> all_zero (x25519_public sk) = false -> usable k n ->
  session_at ida loca xa A -> may_send ida A -> fits pt A -> gate_open "encrypt" ida env1 A c1 ->
  send_rep hi k sk n (state xa) -> messages_sent (state xa) + 1 < U64_MAX ->
  len (default [] ad) <= limits.MAX_AD_LEN - 56 ->
  session_at idb locb xb B -> gate_open "decrypt" idb env2 B c2 ->
  recv_rep k (x25519_public sk) room (state xb) w -> messages_received (state xb) < U64_MAX ->
  exists data A' c1' B' c2' xa' xb',
    ctx_encrypt_message ida pt ad env1 A c1 = (Ok data, A', c1') /\
    ctx_decrypt_message idb data ad env2 B c2 = (verdict (Window.deliver room w n) pt, B', c2') /\
    session_at ida loca xa' A' /\ send_rep hi k sk (S n) (state xa') /\
    session_at idb locb xb' B' /\
    recv_rep k (x25519_public sk) room (state xb') (Window.after w (Window.deliver room w n)).
Proof.
  intros Hc Hr Hsh Hc2 Hskew Hage Hsk Hnz Hu Ha Hm Hf Hg Hs Hms Had Hb Hg2 Hrep Hmr.
  destruct (ctx_encrypt_sends k sk env1 lo hi rlo rhi Hc Hr Hsh Hskew Hage Hsk Hnz ida loca xa n pt ad A c1)
    as (data & padded & r & xa' & c1' & E1 & Hup & Hgen & Hcfg & Hs'); try done.
  destruct (ctx_decrypt_delivers k sk env2 rlo rhi Hc2 Hsk Hnz idb locb xb room w (previous_counter (state xa)) n padded pt ad
    data B c2) as (r2 & xb' & c2' & E2 & Hcfg2 & Hrep' & _); try done.
  destruct Ha as (Ha1 & Ha2 & Ha3), Hb as (Hb1 & Hb2 & Hb3).
  eexists data, _, c1', _, c2', xa', xb'. split; [exact E1|]. split; [exact E2|].
  unfold session_at. cbn [ctx_sessions arcs set_arcs set_limiter]. rewrite Hcfg, Hcfg2.
  rewrite !list_lookup_insert_eq by (by eapply lookup_lt_Some). split; [done|]. split; [by apply Hs'|]. done.
Qed.

(** C13: the handshake pairs the sessions.  When a context's handshake with a
    peer returns, under a clock that moves at most a day and a healthy random
    source, a responder that holds the 32-byte secrets of the keys it was given,
    and runs its own key agreement on the initiator's identity and ratchet keys,
    gets the secret [ss] the new session is built on: the context's session is
    ready to send message 0 of the chain of [ss], and every session the
    responder opens on [ss], with a sensible skip limit, is ready to receive it.
    *)
Theorem handshake_pairs_sessions peer ia ib sb ob i sg dev pro env lo hi s c out s' c' :
  clock_in env lo hi -> rng_healthy env -> hi <= lo + 86400 ->
  identity (ctx_keystore s) = Some i -> ik_x_secret i = Some ia -> ik_x_public i = x25519_public ia ->
  keys32 [ia; ib; sb] -> all32 ob ->
  perform_handshake peer HandshakeRole.Initiator (Some (x25519_public ib)) (Some (x25519_public sb)) sg
    (option_map x25519_public ob) dev pro env s c = (Ok out, s', c') ->
  exists eph x rb,
    sessions (ctx_sessions s') !! peer = Some (length (arcs s)) /\ arcs s' !! length (arcs s) = Some x /\
    x3dh_responder_v3 ib sb ob (ik_x_public i) (x25519_public eph) None None (default (zeros 16) dev)
      (ctx_device_id s) no_transcript = Ok rb /\
    send_rep hi (session_chain (x_shared_secret rb)) eph 0 (state x) /\
    forall cfg ldh env2 lo2 hi2 c2 b c2', clock_in env2 lo2 hi2 -> rng_healthy env2 ->
      0 <= max_skipped_messages cfg <= U64_MAX - DEFAULT_MAX_MESSAGES ->
      from_shared_secret (x_shared_secret rb) ldh (x25519_public eph) cfg HandshakeRole.Responder env2 c2 = (Ok b, c2') ->
      recv_rep (session_chain (x_shared_secret rb)) (x25519_public eph) (max_skipped_messages cfg) (state b) Window.init.
Proof.
  intros Hc Hr Hday Hi Hx Hpub Hk Hob E.
  apply perform_handshake_inv in E as (r & ho & h & x & c1 & c2 & c3 & c4 & t1 & _ & -> & _ & H1 & _ & _ & Er & Ep & (p & Hp & Ef) & ->).
  injection Hp as <-. pose proof (context_perform _ _ _ _ _ _ _ _ _ _ _ _ Er) as (_ & _ & _ & Hns & Hz & Heph).
  apply pin_peer_inv in Ep as (ks & -> & _); [|by apply H1].
  set (hs := context_hs _ _ _ _ _ _ _) in Er. unfold run_on in Er.
  assert (Hf : facing ia ib sb ob None i hs).
  { split; try done. intros Hc1. cbn in Hc1, Hns. congruence. }
  pose proof (initiator_agrees hs i ia ib sb ob None env c1 Hf) as Ha.
  destruct (perform env hs c1) as [[[o|e|] h'] c1'] eqn:Epf; try done. injection Er as <- <- <-. cbn [fst] in Ha.
  destruct Ha as (_ & _ & rb & Erb & Hss).
  destruct (from_shared_secret_ok (ho_shared_secret o) (local_ephemeral_key o) (x25519_public sb) (ctx_config s)
    HandshakeRole.Initiator env c3 lo hi Hz Hc Hr) as (t & now & id & c5 & Ht & Efs).
  rewrite Efs in Ef. injection Ef as <- _. cbn [HandshakeRole.is_initiator] in *.
  exists (local_ephemeral_key o). eexists. exists rb. cbn [ctx_sessions arcs set_sessions set_arcs set_keystore set_limiter
    insert_session sessions]. rewrite lookup_insert_eq, list_lookup_middle by done.
  split; [done|]. split; [done|]. split.
  { revert Erb. rewrite Heph. subst hs. cbn [hs_peer_device_id hs_our_device_id context_hs ctx_device_id set_limiter].
    exact (fun E => E). }
  rewrite Hss. split; [apply established_send; lia|].
  intros cfg ldh env2 lo2 hi2 c6 b c6' Hc2 Hr2 Hm Eb.
  destruct (from_shared_secret_ok (ho_shared_secret o) ldh (x25519_public (local_ephemeral_key o)) cfg
    HandshakeRole.Responder env2 c6 lo2 hi2 Hz Hc2 Hr2) as (t2 & now2 & id2 & c7 & _ & Eb').
  rewrite Eb' in Eb. injection Eb as <- _. by apply established_recv.
Qed.

End ContextMessages.

(** ** Witnesses *)

(** The default configuration: even with an identity, nothing opens. *)
Lemma strict_mode_locked_witness :
  exists s0 t' c0 s c1,
    SecureContext_new (P := toy) 1 Config_default (Some (bstr "SecurePass1")) demo_env1 None ctr0 = (Ok (Some s0), t', c0) /\
    rtc (ctx_step (P := toy) demo_env1) (s0, c0) (s, c1) /\ is_Some (identity (ctx_keystore s)) /\
    is_ok (fst (fst (ctx_encrypt_message (P := toy) (bstr "bob") (bstr "hi") None demo_env1 s c1))) = false.
Proof.
  destruct (SecureContext_new (P := toy) 1 Config_default (Some (bstr "SecurePass1")) demo_env1 None ctr0)
    as [[[[s0|]|e|] t'] c0] eqn:E; [|vm_compute in E; discriminate..].
  assert (Hs : rtc (ctx_step (P := toy) demo_env1) (s0, c0)
    (snd (fst (ctx_run (P := toy) CGenerateIdentity demo_env1 s0 c0)), snd (ctx_run (P := toy) CGenerateIdentity demo_env1 s0 c0))).
  { eapply rtc_once. exists CGenerateIdentity. reflexivity. }
  exists s0, t', c0. do 2 eexists. split; [reflexivity|]. split; [exact Hs|]. split.
  - vm_compute in E. injection E as <- <- <-. vm_compute. eexists. reflexivity.
  - apply (strict_mode_locked (P := toy) 1 Config_default (Some (bstr "SecurePass1")) demo_env1 None ctr0 s0 t' c0 _ _
      eq_refl E Hs (bstr "bob")).
Defined.

Definition demo_lax : Config :=
  mkConfig true true 2000 86400 30 1024 true 256 None true (10 * 1024 * 1024) 3600 true
    (30 * 86400) PaddingMode.Small "https://relay.sibna.dev" None false false.

Definition demo_limits : RateLimiter := mkRateLimiter default_limits ∅ true 100 (mkGlobalCounter 0 0).

(** A context with an identity and a given session table. *)
Definition demo_ctx (table : gmap bytes nat) (heap : list DoubleRatchetSession) : SecureContext :=
  mkContext demo_hs_store (mkSessionManager table demo_lax) heap (GroupManager_new demo_key) demo_lax
    (mkSecureRandom (zeros 64) 0 1000000) demo_key (zeros 32) (repeat x06 16) demo_limits 0 0.

Definition demo_spk_sig : bytes :=
  ed25519_sign (Primitives := toy) demo_peer (bstr "SibnaSignedPreKey_v3" ++ demo_key).

Definition demo_handshake : PResult bytes * SecureContext * Ctr :=
  perform_handshake (P := toy) (bstr "bob") HandshakeRole.Initiator (Some demo_peer) (Some demo_key)
    (Some demo_spk_sig) None None None demo_env1 (demo_ctx ∅ []) ctr0.

Lemma demo_handshake_ok : demo_handshake = (Ok (bstr "bob"), snd (fst demo_handshake), snd demo_handshake).
Proof.
  assert (E : fst (fst demo_handshake) = Ok (bstr "bob")) by (vm_compute; reflexivity).
  destruct demo_handshake as [[r s] c]. cbn [fst snd] in *. by rewrite E.
Qed.

Lemma handshake_authenticated_witness :
  exists pin, peer_pins (ctx_keystore (snd (fst demo_handshake))) !! bstr "bob" = Some pin /\
    pin_identity_key pin = demo_peer.
Proof.
  destruct (handshake_authenticated (P := toy) _ _ _ _ _ _ _ _ _ _ _ _ _ _ demo_handshake_ok)
    as (_ & _ & _ & k & p & g & x & Ek & _ & _ & _ & Hpin & _).
  injection Ek as <-. exact Hpin.
Defined.

Lemma handshake_pairs_sessions_witness :
  exists eph x rb, arcs (snd (fst demo_handshake)) !! 0%nat = Some x /\
    x3dh_responder_v3 (P := toy) demo_peer demo_key None demo_own eph None None (zeros 16) (repeat x06 16)
      no_transcript = Ok rb /\
    send_rep (P := toy) 1700000000 (session_chain (P := toy) (x_shared_secret rb)) eph 0 (state x).
Proof.
  edestruct (handshake_pairs_sessions (P := toy) (L := toy_laws) (bstr "bob") demo_own demo_peer demo_key None
    (mkIdentity (Some demo_own) demo_own (Some demo_own) demo_own 1700000000) (Some demo_spk_sig) None None
    demo_env1 1700000000 1700000000 (demo_ctx ∅ []) ctr0) as (eph & x & rb & _ & Hx & Hr & Hs & _);
    [exact (proj1 demo_clock) | exact demo_env1_healthy | lia | reflexivity | reflexivity | reflexivity
    | repeat constructor | discriminate | exact demo_handshake_ok |].
  exists eph, x, rb. split; [exact Hx|]. split; [exact Hr | exact Hs].
Defined.

Definition demo_side (role : HandshakeRole.t) (mine theirs : bytes) : DoubleRatchetSession :=
  match from_shared_secret (P := toy) demo_key mine theirs demo_lax role demo_env1 ctr0 with
  | (Ok x, _) => x
  | _ => mkSession (mkState [] None None None [] None None ∅ 0 0 0 0 0 0 0) demo_lax [] None 0
  end.

Lemma context_message_delivered_witness :
  exists data, fst (fst (ctx_encrypt_message (P := toy) (bstr "bob") [] None demo_env1
      (demo_ctx {[bstr "bob" := 0%nat]} [demo_side HandshakeRole.Initiator demo_sk1 demo_sk2]) ctr0)) = Ok data /\
    fst (fst (ctx_decrypt_message (P := toy) (bstr "alice") data None demo_env1
      (demo_ctx {[bstr "alice" := 0%nat]} [demo_side HandshakeRole.Responder demo_sk2 demo_sk1]) ctr0)) = Ok [].
Proof.
  edestruct (context_message_delivered (P := toy) (L := toy_laws) (session_chain (P := toy) demo_key) demo_sk1
    demo_env1 demo_env1 1700000000 1700000000 1700000000 1700000000 (bstr "bob") 0
    (demo_side HandshakeRole.Initiator demo_sk1 demo_sk2) 0
    (demo_ctx {[bstr "bob" := 0%nat]} [demo_side HandshakeRole.Initiator demo_sk1 demo_sk2]) ctr0 (bstr "alice") 0
    (demo_side HandshakeRole.Responder demo_sk2 demo_sk1) 2000 Window.init
    (demo_ctx {[bstr "alice" := 0%nat]} [demo_side HandshakeRole.Responder demo_sk2 demo_sk1]) ctr0 [] None)
    as (data & A' & c1 & B' & c2 & xa & xb & E1 & E2 & _);
    [exact demo_clock | exact demo_env1_healthy | lia | exact demo_clock | lia | lia | reflexivity | reflexivity
    | apply demo_usable; lia | | | | | | | | | | | |].
  - split; [reflexivity|]. split; [reflexivity | vm_compute; reflexivity].
  - split; [reflexivity|]. split; [reflexivity|]. split; [vm_compute; discriminate | discriminate].
  - split; vm_compute; discriminate.
  - vm_compute. reflexivity.
  - apply (established_send (P := toy) demo_key demo_sk1 demo_sk2 demo_lax 1700000000 1700000000
      (session_id (demo_side HandshakeRole.Initiator demo_sk1 demo_sk2)) 1700000000). lia.
  - vm_compute. reflexivity.
  - vm_compute. discriminate.
  - split; [reflexivity|]. split; [reflexivity | vm_compute; reflexivity].
  - vm_compute. reflexivity.
  - apply (established_recv (P := toy) (L := toy_laws) demo_key demo_sk2 demo_sk1 demo_lax 1700000000 1700000000
      (session_id (demo_side HandshakeRole.Responder demo_sk2 demo_sk1))). vm_compute. split; discriminate.
  - vm_compute. reflexivity.
  - exists data. rewrite E1, E2. split; reflexivity.
Defined.
