(* ===== verification/P2pHandshake.v ===== *)
(** * The peer-to-peer handshake ([core/src/p2p/handshake.rs])

    Two peers run X3DH directly over a framed stream: Hello, Bundle, Envelope,
    Ok.  Each side is a process ([Process]) on a framed stream whose codec limits
    the frames; [bincode] is a parameter ([Codec]).  The default build, with the post-quantum prekey. *)

From S2P Require Import Prelude Effects Errors Primitives Codec Process Compare Random Kdf Handler Encryptor Chain Message RatchetState Session SessionReceive SessionSend X3dh Bundle KeyStore.
#[local] Open Scope Z_scope.
#[local] Open Scope sibna_scope.

(** [P2pError] of [p2p/mod.rs].  Of a formatted text the fixed part is kept. *)
Module P2pError.
Inductive t : Type :=
| Io
| Framing
| Handshake (text : string)
| Crypto (text : string)
| TooManyPeers
| Timeout
| InvalidMessage
| Disconnected.
End P2pError.

Abbreviation P2pResult := (Res P2pError.t).

(** A text that is only the display of another error. *)
Definition no_text : string := EmptyString.

(** [impl From<ProtocolError> for P2pError]. *)
Definition p2p_from_protocol (e : ProtocolError.t) : P2pError.t := P2pError.Crypto (ProtocolError.display e).

Record P2pHandshakeConfig := mkP2pHandshakeConfig {
  timeout_secs : Z;
  max_frame_bytes : Z;
  expected_peer_identity : option bytes
}.

Definition P2pHandshakeConfig_default : P2pHandshakeConfig :=
  mkP2pHandshakeConfig 30 (10 * 1024 * 1024) None.

Record StealthBundle := mkStealthBundle {
  responder_ed25519_pub : bytes;
  responder_x25519_pub : bytes;
  responder_device_id : bytes;
  bundle_bytes : bytes
}.

Record StealthEnvelope := mkStealthEnvelope {
  initiator_ed25519_pub : bytes;
  initiator_x25519_pub : bytes;
  initiator_device_id : bytes;
  signed_prekey_used : bytes;
  onetime_prekey_used : option bytes;
  se_pq_ciphertext : option bytes
}.

Module P2pMsg.
Inductive t : Type :=
| Hello (version : u8) (ephemeral_pub initiator_device_id : bytes)
| Bundle (ephemeral_pub encrypted_bundle : bytes)
| Envelope (encrypted_envelope : bytes)
| Ok (encrypted_ok : bytes)
| Error (reason : string).
End P2pMsg.

Definition P2P_PROTOCOL_VERSION : u8 := x04.

(** The three types that cross the wire. *)
Class P2pCodec := {
  #[global] msg_codec :: Codec P2pMsg.t;
  #[global] bundle_codec :: Codec StealthBundle;
  #[global] envelope_codec :: Codec StealthEnvelope
}.

Section Handshake.
Context {P : Primitives} {C : P2pCodec}.

Definition encode_msg (m : P2pMsg.t) : P2pResult bytes := ok_or (encode m) P2pError.Framing.

Definition decode_msg (b : bytes) : P2pResult P2pMsg.t := ok_or (decode b) P2pError.InvalidMessage.

Definition derive_handshake_key (our_ephemeral peer_ephemeral_pub : bytes) : P2pResult CryptoHandler :=
  let shared := x25519_dh our_ephemeral peer_ephemeral_pub in
  let? key := map_err (fun _ => P2pError.Crypto no_text) (simple_sha256 shared (bstr "SibnaHandshake_v4")) in
  map_err (fun _ => P2pError.Crypto no_text) (CryptoHandler_new key).

Definition build_transcript (initiator_identity initiator_ephemeral responder_identity
    responder_signed_prekey : bytes) (responder_onetime_prekey : option bytes)
    (initiator_device_id responder_device_id : bytes) : bytes :=
  blake3 (initiator_identity ++ initiator_ephemeral ++ responder_identity ++ responder_signed_prekey
          ++ from_option id [] responder_onetime_prekey ++ initiator_device_id ++ responder_device_id).

Abbreviation P2pAct := (Act FrameEv FrameAns P2pError.t).

(** [stream.send(encode_msg(..)?).await] under the timeout. *)
Definition send_msg (stream : FramedStream) (m : P2pMsg.t) : P2pAct unit :=
  let~ frame := act_res (encode_msg m) in
  let~ _ := act_res (if frame_fits stream frame then Ok tt else Err P2pError.Io) in
  let~ r := ask (SendFrame frame) in
  match r with
  | InTime true => act_ret tt
  | InTime false => act_res (Err P2pError.Io)
  | Elapsed => act_res (Err P2pError.Timeout)
  end.

(** [decode_msg(&stream.next().await..?)?] under the timeout. *)
Definition next_msg (stream : FramedStream) : P2pAct P2pMsg.t :=
  let~ r := ask NextFrame in
  match r with
  | InTime next =>
      match decode_frame stream next with
      | Frame b => act_res (decode_msg b)
      | StreamEnd => act_res (Err P2pError.Disconnected)
      | StreamError => act_res (Err P2pError.Framing)
      end
  | Elapsed => act_res (Err P2pError.Timeout)
  end.

Definition fail {A} (e : P2pError.t) : P2pAct A := act_res (Err e).

(** Step 2 of the initiator: the peer's ephemeral key and the sealed bundle. *)
Definition expect_bundle (m : P2pMsg.t) : P2pResult (bytes * bytes) :=
  match m with
  | P2pMsg.Bundle ephemeral_pub encrypted_bundle =>
      let? _ := map_err (fun _ => P2pError.Handshake "invalid responder ephemeral key")
                  (validate_public_key ephemeral_pub) in
      Ok (ephemeral_pub, encrypted_bundle)
  | P2pMsg.Error reason => Err (P2pError.Handshake reason)
  | _ => Err P2pError.InvalidMessage
  end.

Definition expect_ok (m : P2pMsg.t) : P2pResult bytes :=
  match m with
  | P2pMsg.Ok encrypted_ok => Ok encrypted_ok
  | P2pMsg.Error reason => Err (P2pError.Handshake reason)
  | _ => Err P2pError.InvalidMessage
  end.

(** The check against the configured identity. *)
Definition check_expected (cfg : P2pHandshakeConfig) (got : bytes) : P2pResult unit :=
  match expected_peer_identity cfg with
  | Some expected => if bool_decide (got = expected) then Ok tt
                     else Err (P2pError.Handshake "peer identity mismatch")
  | None => Err (P2pError.Handshake "no expected_peer_identity configured")
  end.

(** From the sealed bundle to the bundle the initiator uses. *)
Definition open_bundle (cfg : P2pHandshakeConfig) (handler : CryptoHandler) (encrypted_bundle : bytes)
    : IO P2pError.t (StealthBundle * PreKeyBundle) :=
  let* payload := io_res (map_err (fun _ => P2pError.Handshake "failed to decrypt bundle")
                            (handler_decrypt handler encrypted_bundle (bstr "handshake_bundle"))) in
  let* stealth := io_res (ok_or (decode payload) (P2pError.Handshake "malformed stealth bundle")) in
  let* bundle := io_res (map_err (fun _ => P2pError.Handshake "malformed internal bundle")
                           (from_bytes (bundle_bytes stealth))) in
  let* _ := io_map_err (fun _ => P2pError.Handshake "bundle validation") (bundle_validate bundle) in
  let* _ := io_res (check_expected cfg (responder_ed25519_pub stealth)) in
  io_ret (stealth, bundle).

(** Steps 3 and 4 of the initiator, with the bundle it accepted. *)
Definition initiator_finish (stream : FramedStream) (identity : IdentityKeyPair) (protocol_config : Config) (our_device_id : bytes)
    (alice_ephemeral : bytes) (handler : CryptoHandler) (stealth : StealthBundle) (bundle : PreKeyBundle)
    : P2pAct (DoubleRatchetSession * bytes) :=
  let transcript_hash :=
    build_transcript (ik_ed_public identity) (x25519_public alice_ephemeral) (responder_ed25519_pub stealth)
      (signed_prekey bundle) (onetime_prekey bundle) our_device_id (responder_device_id stealth) in
  let~ our_identity_x := act_res (ok_or (ik_x_secret identity)
                                    (P2pError.Crypto "identity X25519 secret not available")) in
  let~ x3dh_result := act_io (io_map_err (fun _ => P2pError.Handshake "x3dh_initiator")
    (x3dh_initiator_v3 our_identity_x alice_ephemeral (responder_x25519_pub stealth) (signed_prekey bundle)
       (onetime_prekey bundle) (pq_signed_prekey bundle) our_device_id (responder_device_id stealth)
       transcript_hash)) in
  let envelope := mkStealthEnvelope (ik_ed_public identity) (ik_x_public identity) our_device_id
                    (signed_prekey bundle) (onetime_prekey bundle) (x_pq_ciphertext x3dh_result) in
  let~ payload := act_res (ok_or (encode envelope) P2pError.Framing) in
  let~ encrypted_envelope := act_io (io_map_err (fun _ => P2pError.Crypto "failed to encrypt envelope")
                               (handler_encrypt handler payload (bstr "handshake_envelope"))) in
  let~ _ := send_msg stream (P2pMsg.Envelope encrypted_envelope) in
  let~ m := next_msg stream in
  let~ encrypted_ok := act_res (expect_ok m) in
  let~ _ := act_res (map_err (fun _ => P2pError.Handshake "failed to decrypt ok signal")
                       (handler_decrypt handler encrypted_ok (bstr "handshake_ok"))) in
  let~ session := act_io (io_map_err (fun _ => P2pError.Crypto "ratchet init")
    (from_shared_secret (x_shared_secret x3dh_result) alice_ephemeral (signed_prekey bundle) protocol_config
       HandshakeRole.Initiator)) in
  act_ret (session, responder_ed25519_pub stealth).

Definition initiator_handshake (stream : FramedStream) (identity : IdentityKeyPair) (protocol_config : Config)
    (cfg : P2pHandshakeConfig) (our_device_id : bytes) : P2pAct (DoubleRatchetSession * bytes) :=
  let~ alice_ephemeral := act_io (os_bytes 32) in
  let alice_ephemeral_pub := x25519_public alice_ephemeral in
  let~ _ := send_msg stream (P2pMsg.Hello P2P_PROTOCOL_VERSION alice_ephemeral_pub our_device_id) in
  let~ m := next_msg stream in
  let~ (bob_ephemeral_pub, encrypted_bundle) := act_res (expect_bundle m) in
  let~ handler := act_res (derive_handshake_key alice_ephemeral bob_ephemeral_pub) in
  let~ (stealth, bundle) := act_io (open_bundle cfg handler encrypted_bundle) in
  initiator_finish stream identity protocol_config our_device_id alice_ephemeral handler stealth bundle.

Definition expect_hello (m : P2pMsg.t) : P2pResult (bytes * bytes) :=
  match m with
  | P2pMsg.Hello version ephemeral_pub initiator_device_id =>
      if negb (Byte.eqb version P2P_PROTOCOL_VERSION) then Err (P2pError.Handshake "version mismatch")
      else
        let? _ := map_err (fun _ => P2pError.Handshake "invalid initiator ephemeral")
                    (validate_public_key ephemeral_pub) in
        Ok (ephemeral_pub, initiator_device_id)
  | _ => Err P2pError.InvalidMessage
  end.

Definition expect_envelope (m : P2pMsg.t) : P2pResult bytes :=
  match m with
  | P2pMsg.Envelope encrypted_envelope => Ok encrypted_envelope
  | P2pMsg.Error reason => Err (P2pError.Handshake reason)
  | _ => Err P2pError.InvalidMessage
  end.

Definition open_envelope (handler : CryptoHandler) (encrypted_envelope : bytes) : P2pResult StealthEnvelope :=
  let? payload := map_err (fun _ => P2pError.Handshake "failed to decrypt envelope")
                    (handler_decrypt handler encrypted_envelope (bstr "handshake_envelope")) in
  ok_or (decode payload) (P2pError.Handshake "malformed stealth envelope").

(** Steps 3 and 4 of the responder. *)
Definition responder_finish (stream : FramedStream) (identity : IdentityKeyPair) (bundle : PreKeyBundle) (spk_secret : bytes)
    (opk_secret pq_sk : option bytes) (protocol_config : Config) (our_device_id : bytes)
    (handler : CryptoHandler) (alice_ephemeral_pub initiator_device_id : bytes)
    : P2pAct (DoubleRatchetSession * bytes) :=
  let~ m := next_msg stream in
  let~ encrypted_envelope := act_res (expect_envelope m) in
  let~ envelope := act_res (open_envelope handler encrypted_envelope) in
  let transcript_hash :=
    build_transcript (initiator_ed25519_pub envelope) alice_ephemeral_pub (ik_ed_public identity)
      (signed_prekey bundle) (onetime_prekey bundle) initiator_device_id our_device_id in
  let~ our_identity_x := act_res (ok_or (ik_x_secret identity)
                                    (P2pError.Crypto "identity X25519 secret not available")) in
  let~ x3dh_result := act_res (map_err (fun _ => P2pError.Handshake "x3dh_responder")
    (x3dh_responder_v3 our_identity_x spk_secret opk_secret (initiator_x25519_pub envelope) alice_ephemeral_pub
       pq_sk (se_pq_ciphertext envelope) our_device_id initiator_device_id transcript_hash)) in
  let~ encrypted_ok := act_io (io_map_err (fun _ => P2pError.Crypto "failed to encrypt ok signal")
                         (handler_encrypt handler (bstr "OK") (bstr "handshake_ok"))) in
  let~ _ := send_msg stream (P2pMsg.Ok encrypted_ok) in
  let~ session := act_io (io_map_err (fun _ => P2pError.Crypto "ratchet init")
    (from_shared_secret (x_shared_secret x3dh_result) spk_secret alice_ephemeral_pub protocol_config
       HandshakeRole.Responder)) in
  act_ret (session, initiator_ed25519_pub envelope).

Definition responder_handshake (stream : FramedStream) (identity : IdentityKeyPair) (bundle : PreKeyBundle) (spk_secret : bytes)
    (opk_secret pq_sk : option bytes) (protocol_config : Config) (our_device_id : bytes)
    : P2pAct (DoubleRatchetSession * bytes) :=
  let~ m := next_msg stream in
  let~ (alice_ephemeral_pub, initiator_device_id) := act_res (expect_hello m) in
  let~ bob_ephemeral := act_io (os_bytes 32) in
  let bob_ephemeral_pub := x25519_public bob_ephemeral in
  let~ handler := act_res (derive_handshake_key bob_ephemeral alice_ephemeral_pub) in
  let stealth := mkStealthBundle (ik_ed_public identity) (ik_x_public identity) our_device_id (to_bytes bundle) in
  let~ payload := act_res (ok_or (encode stealth) P2pError.Framing) in
  let~ encrypted_bundle := act_io (io_map_err (fun _ => P2pError.Crypto "failed to encrypt bundle")
                             (handler_encrypt handler payload (bstr "handshake_bundle"))) in
  let~ _ := send_msg stream (P2pMsg.Bundle bob_ephemeral_pub encrypted_bundle) in
  responder_finish stream identity bundle spk_secret opk_secret pq_sk protocol_config our_device_id handler
    alice_ephemeral_pub initiator_device_id.

End Handshake.

(** ** What the codecs promise *)

Definition wf_msg (m : P2pMsg.t) : Prop :=
  match m with
  | P2pMsg.Hello _ eph dev => length eph = 32%nat /\ length dev = 16%nat
  | P2pMsg.Bundle eph b => length eph = 32%nat /\ len b <= U64_MAX
  | P2pMsg.Envelope b | P2pMsg.Ok b => len b <= U64_MAX
  | P2pMsg.Error r => Z.of_nat (String.length r) <= U64_MAX
  end.

Record wf_stealth (s : StealthBundle) : Prop := {
  ws_ed : length (responder_ed25519_pub s) = 32%nat;
  ws_x : length (responder_x25519_pub s) = 32%nat;
  ws_dev : length (responder_device_id s) = 16%nat;
  ws_bytes : len (bundle_bytes s) <= U64_MAX
}.

Record wf_envelope (e : StealthEnvelope) : Prop := {
  we_ed : length (initiator_ed25519_pub e) = 32%nat;
  we_x : length (initiator_x25519_pub e) = 32%nat;
  we_dev : length (initiator_device_id e) = 16%nat;
  we_spk : length (signed_prekey_used e) = 32%nat;
  we_opk : opt_len 32 (onetime_prekey_used e);
  we_ct : forall ct, se_pq_ciphertext e = Some ct -> len ct <= U64_MAX
}.

(** The variable part of a message. *)
Definition msg_payload (m : P2pMsg.t) : Z :=
  match m with
  | P2pMsg.Hello _ _ _ => 0
  | P2pMsg.Bundle _ b | P2pMsg.Envelope b | P2pMsg.Ok b => len b
  | P2pMsg.Error r => Z.of_nat (String.length r)
  end.

(** Values of the types survive the wire; messages and the two sealed payloads
    take their fixed fields and length prefixes on top of their variable part. *)
Class P2pCodecLaws (C : P2pCodec) := {
  #[global] msg_laws :: CodecLaws msg_codec wf_msg;
  #[global] stealth_laws :: CodecLaws bundle_codec wf_stealth;
  #[global] envelope_laws :: CodecLaws envelope_codec wf_envelope;
  msg_size m b : wf_msg m -> encode m = Some b -> len b <= 64 + msg_payload m;
  stealth_size s b : wf_stealth s -> encode s = Some b -> len b = 88 + len (bundle_bytes s);
  envelope_size e b : wf_envelope e -> encode e = Some b ->
    len b <= 200 + len (from_option id [] (se_pq_ciphertext e))
}.

(** ** Both sides complete *)

Section Completion.
Context {P : Primitives} {L : PrimitiveLaws P} {C : P2pCodec} {CL : P2pCodecLaws C}.

Abbreviation side := (Proc FrameEv FrameAns P2pError.t (DoubleRatchetSession * bytes)).

(** A frame limit that lets the whole handshake through. *)
Definition roomy (stream : FramedStream) : Prop := 4096 <= fs_max_frame_length stream.

Lemma roomy_fits stream b : roomy stream -> len b <= 4096 -> frame_fits stream b = true.
Proof. unfold roomy, frame_fits. intros. apply Z.leb_le. lia. Qed.

Lemma small_msg_fits stream m f : roomy stream -> wf_msg m -> msg_payload m <= 4000 -> encode m = Some f ->
  frame_fits stream f = true.
Proof. intros Hs Hw Hp E. apply roomy_fits; [done|]. pose proof (msg_size m f Hw E). lia. Qed.

Section Moves.
Context {A B : Type} (Q : Duo P2pError.t A B -> Prop) (env : Env) (c : Ctr) (stream : FramedStream).
Implicit Types (p : Proc FrameEv FrameAns P2pError.t A) (q : Proc FrameEv FrameAns P2pError.t B).

Lemma left_sends m f (k : unit -> Act FrameEv FrameAns P2pError.t A) q inr inl n :
  encode m = Some f -> frame_fits stream f = true -> reaches n (mkDuo (k tt env c) q (inr ++ [f]) inl) Q ->
  reaches (S n) (mkDuo (act_bind (send_msg stream m) k env c) q inr inl) Q.
Proof. intros E Hf H. unfold act_bind, send_msg, act_bind, encode_msg. rewrite E. cbn [ok_or act_res proc_bind]. rewrite Hf. by apply run_left. Qed.

Lemma right_sends m f (k : unit -> Act FrameEv FrameAns P2pError.t B) p inr inl n :
  encode m = Some f -> frame_fits stream f = true -> reaches n (mkDuo p (k tt env c) inr (inl ++ [f])) Q ->
  reaches (S n) (mkDuo p (act_bind (send_msg stream m) k env c) inr inl) Q.
Proof. intros E Hf H. unfold act_bind, send_msg, act_bind, encode_msg. rewrite E. cbn [ok_or act_res proc_bind]. rewrite Hf. by apply run_right. Qed.

Lemma left_receives m f (k : P2pMsg.t -> Act FrameEv FrameAns P2pError.t A) q inr inl n :
  decode f = Some m -> frame_fits stream f = true -> reaches n (mkDuo (k m env c) q inr inl) Q ->
  reaches (S n) (mkDuo (act_bind (next_msg stream) k env c) q inr (f :: inl)) Q.
Proof.
  intros E Hf H. unfold act_bind, next_msg, act_bind. apply recv_left. unfold act_res, decode_msg.
  cbn [proc_bind decode_frame]. rewrite Hf. cbn [proc_bind]. by rewrite E.
Qed.

Lemma right_receives m f (k : P2pMsg.t -> Act FrameEv FrameAns P2pError.t B) p inr inl n :
  decode f = Some m -> frame_fits stream f = true -> reaches n (mkDuo p (k m env c) inr inl) Q ->
  reaches (S n) (mkDuo p (act_bind (next_msg stream) k env c) (f :: inr) inl) Q.
Proof.
  intros E Hf H. unfold act_bind, next_msg, act_bind. apply recv_right. unfold act_res, decode_msg.
  cbn [proc_bind decode_frame]. rewrite Hf. cbn [proc_bind]. by rewrite E.
Qed.

End Moves.

(** What the initiator needs of its side. *)
Record initiator_side (ia : bytes) (ida : IdentityKeyPair) (cfg : P2pHandshakeConfig) (dev expected : bytes)
    (env : Env) (lo hi : Z) : Prop := {
  is_secret : ik_x_secret ida = Some ia;
  is_public : ik_x_public ida = x25519_public ia;
  is_len : length ia = 32%nat;
  is_ed_len : length (ik_ed_public ida) = 32%nat;
  is_dev_len : length dev = 16%nat;
  is_expected : expected_peer_identity cfg = Some expected;
  is_rng : rng_healthy env;
  is_clock : clock_in env lo hi;
  is_window : hi <= lo + 86400
}.

(** What the responder answers with: whatever Ed25519 key it claims, its own
    X25519 identity and a bundle whose prekeys it has the secrets of. *)
Record responder_side (ib sb : bytes) (ob dk : option bytes) (idb : IdentityKeyPair) (b : PreKeyBundle)
    (dev : bytes) (env : Env) (lo hi : Z) : Prop := {
  rs_secret : ik_x_secret idb = Some ib;
  rs_public : ik_x_public idb = x25519_public ib;
  rs_keys : keys32 [ib; sb];
  rs_opk_len : forall o, ob = Some o -> length o = 32%nat;
  rs_dk : forall d, dk = Some d -> length d = 2400%nat /\ mlkem_dk_ok d = true;
  rs_ed_len : length (ik_ed_public idb) = 32%nat;
  rs_dev_len : length dev = 16%nat;
  rs_bundle : from_bytes (to_bytes b) = Ok b;
  rs_bundle_len : len (to_bytes b) <= 2000;
  rs_spk : signed_prekey b = x25519_public sb;
  rs_opk : onetime_prekey b = option_map x25519_public ob;
  rs_pq : pq_signed_prekey b = option_map mlkem_ek_of dk;
  rs_rng : rng_healthy env;
  rs_clock : clock_in env lo hi
}.

(** The ephemeral secret a side draws first. *)
Definition drawn (env : Env) (c : Ctr) : bytes := map (e_os env) (seq (c_os c) 32).

Lemma drawn_len env c : length (drawn env c) = 32%nat.
Proof. unfold drawn. by rewrite length_map, length_seq. Qed.

(** The degenerate draws are excluded: low-order public keys, a weak handshake
    key, an all-zero X3DH secret. *)
Record good_draws (ia ib sb : bytes) (ob dk : option bytes) (ida idb : IdentityKeyPair)
    (deva devb : bytes) (env1 : Env) (ea eb : bytes) : Prop := {
  gd_a : validate_public_key (x25519_public ea) = Ok tt;
  gd_b : validate_public_key (x25519_public eb) = Ok tt;
  gd_key : is_ok (derive_handshake_key ea (x25519_public eb)) = true;
  gd_x3dh c : is_ok (fst (x3dh_initiator_v3 ia ea (x25519_public ib) (x25519_public sb)
    (option_map x25519_public ob) (option_map mlkem_ek_of dk) deva devb
    (build_transcript (ik_ed_public ida) (x25519_public ea) (ik_ed_public idb) (x25519_public sb)
       (option_map x25519_public ob) deva devb) env1 c)) = true
}.

Lemma handshake_key_agrees ea eb :
  length ea = 32%nat -> length eb = 32%nat ->
  derive_handshake_key ea (x25519_public eb) = derive_handshake_key eb (x25519_public ea).
Proof. intros Ha Hb. unfold derive_handshake_key. by rewrite x25519_comm. Qed.

Lemma io_map_err_ok {E F A} (f : E -> F) (m : IO E A) env c a c' :
  m env c = (Ok a, c') -> io_map_err f m env c = (Ok a, c').
Proof. intros H. unfold io_map_err. by rewrite H. Qed.

Lemma opt_len_public ob : (forall o, ob = Some o -> length o = 32%nat) -> opt_len 32 (option_map x25519_public ob).
Proof. intros Ho x Hx. destruct ob as [o|]; [|done]. injection Hx as <-. apply x25519_public_len. auto. Qed.

(** The ciphertext of an initiator's result is small. *)
Lemma initiator_ciphertext ia ea ib sb ob pk deva devb ext env c r c' :
  x3dh_initiator_v3 ia ea ib sb ob pk deva devb ext env c = (Ok r, c') ->
  len (from_option id [] (x_pq_ciphertext r)) <= 1088.
Proof.
  unfold x3dh_initiator_v3, io_bind, io_res. destruct (bind_transcript ext _); try done.
  match goal with |- context [match ?m env c with _ => _ end] => destruct (m env c) as [[[ss ct]|e|] c1] end; try done.
  destruct (X3dhResult_validate _) as [[]| |] eqn:Ev; try done. intros [-> _]%io_ret_ok_inv. cbn.
  unfold X3dhResult_validate in Ev. cbn [x_shared_secret x_dh_results x_pq_ciphertext] in Ev.
  destruct (all_zero ss); [done|]. destruct (_ || _); [done|].
  destruct ct as [ct|]; cbn; [|vm_compute; discriminate]. destruct (Z.eqb_spec (len ct) 1088); [lia | done].
Qed.

Lemma open_sealed_bundle cfg h s b payload ct env c :
  decode payload = Some s -> handler_decrypt h ct (bstr "handshake_bundle") = Ok payload ->
  from_bytes (bundle_bytes s) = Ok b -> (exists c', bundle_validate b env c = (Ok tt, c')) ->
  expected_peer_identity cfg = Some (responder_ed25519_pub s) ->
  exists c', open_bundle cfg h ct env c = (Ok (s, b), c').
Proof.
  intros Hd Hs Hb (c' & Hv) He. unfold open_bundle, io_bind, io_res, io_map_err, io_ret, check_expected.
  rewrite Hs. cbn [map_err]. rewrite Hd. cbn [ok_or]. rewrite Hb. cbn [map_err]. rewrite Hv. cbn [map_err].
  rewrite He. rewrite bool_decide_eq_true_2 by done. eauto.
Qed.

Lemma seal_ok {F} (f : CryptoError.t -> F) h pt ad env c :
  rng_healthy env -> len pt <= 5000 -> len ad <= MAX_INFO_LENGTH ->
  exists ct c', io_map_err f (handler_encrypt h pt ad) env c = (Ok ct, c') /\
    handler_decrypt h ct ad = Ok pt /\ len ct <= U64_MAX /\ len ct <= len pt + 28.
Proof.
  intros Hr Hp Ha. assert (Hm : len pt <= MAX_PLAINTEXT_LENGTH) by (unfold MAX_PLAINTEXT_LENGTH; lia).
  destruct (handler_encrypt_ok h pt ad env c Hr Hm Ha) as (nonce & ct & c' & E & Hn & Ea & Hl).
  exists (nonce ++ ct), c'. unfold io_map_err. rewrite E. split; [done|].
  split; [by apply handler_decrypt_ok|]. rewrite len_app. unfold len in *. unfold U64_MAX. lia.
Qed.

(** Both sides have returned, with each other's claimed identity and with
    sessions on the same chain. *)
Definition paired (pub_a pub_b ea : bytes) (hi max : Z)
    (d : Duo P2pError.t (DoubleRatchetSession * bytes) (DoubleRatchetSession * bytes)) : Prop :=
  exists sa sb ca cb ss,
    d = mkDuo (Done (Ok (sa, pub_b)) ca) (Done (Ok (sb, pub_a)) cb) [] [] /\
    send_rep hi (session_chain ss) ea 0 (state sa) /\
    recv_rep (session_chain ss) (x25519_public ea) max (state sb) Window.init.

(** The second half, from the accepted bundle on. *)
Lemma finish_completes st1 st2 ia ib sb ob dk ida idb b cfg deva devb pcfg1 pcfg2 env1 env2 lo1 hi1 lo2 hi2 ea eb h s c3 c4 :
  roomy st1 -> roomy st2 ->
  initiator_side ia ida cfg deva (ik_ed_public idb) env1 lo1 hi1 ->
  responder_side ib sb ob dk idb b devb env2 lo2 hi2 ->
  good_draws ia ib sb ob dk ida idb deva devb env1 ea eb -> length ea = 32%nat ->
  s = mkStealthBundle (ik_ed_public idb) (ik_x_public idb) devb (to_bytes b) ->
  0 <= max_skipped_messages pcfg2 <= U64_MAX - DEFAULT_MAX_MESSAGES ->
  reaches 4
    (duo (initiator_finish st1 ida pcfg1 deva ea h s b env1 c4)
         (responder_finish st2 idb b sb ob dk pcfg2 devb h (x25519_public ea) deva env2 c3))
    (paired (ik_ed_public ida) (ik_ed_public idb) ea hi1 (max_skipped_messages pcfg2)).
Proof.
  intros Hst1 Hst2 [] [] [] Hea -> Hm. unfold keys32 in rs_keys0. rewrite !Forall_cons in rs_keys0.
  destruct rs_keys0 as (Hib & Hsb & _). unfold duo, initiator_finish.
  cbn [responder_ed25519_pub responder_x25519_pub responder_device_id].
  rewrite rs_spk0, rs_opk0, rs_pq0, is_secret0, rs_public0, is_public0. cbn [ok_or]. rewrite act_res_ok.
  set (th := build_transcript _ _ _ _ _ _ _). pose proof (gd_x3dh0 c4) as Hx. fold th in Hx.
  pose proof (x3dh_initiator_total ia ea (x25519_public ib) (x25519_public sb) (option_map x25519_public ob)
    (option_map mlkem_ek_of dk) deva devb th env1 c4 (mlkem_public_usable dk rs_dk0)) as Ht.
  destruct (x3dh_initiator_v3 _ _ _ _ _ _ _ _ _ env1 c4) as [[ra|e|] c5] eqn:Ex; try done. cbn [fst] in Ht.
  destruct Ht as [Hsl Hz].
  destruct (x3dh_agree ia ea ib sb ob dk deva devb th env1 c4 ra c5) as (rb & Er & Hss & _ & _);
    [by repeat constructor | done | done | done |].
  rewrite (act_io_ok _ _ _ _ _ _ (io_map_err_ok _ _ _ _ _ _ Ex)).
  set (envl := mkStealthEnvelope _ _ _ _ _ _).
  assert (We : wf_envelope envl).
  { split; try done; cbn; [by apply x25519_public_len | by apply x25519_public_len | |].
    - by apply opt_len_public.
    - intros ct Hct. unfold U64_MAX. pose proof (initiator_ciphertext _ _ _ _ _ _ _ _ _ _ _ _ _ Ex) as Hl. rewrite Hct in Hl. cbn in Hl. lia. }
  destruct (codec_roundtrip envl We) as (pe & Ene & Dee). rewrite Ene. cbn [ok_or]. rewrite act_res_ok.
  assert (Lpe : len pe <= 1288).
  { pose proof (envelope_size _ _ We Ene) as Hl. cbn in Hl.
    pose proof (initiator_ciphertext _ _ _ _ _ _ _ _ _ _ _ _ _ Ex). lia. }
  edestruct (seal_ok (fun _ => P2pError.Crypto "failed to encrypt envelope") h pe (bstr "handshake_envelope") env1)
    as (cte & c6 & Ese & Dse & Lse & Sse); [done | | vm_compute; discriminate |].
  { lia. }
  rewrite (act_io_ok _ _ _ _ _ _ Ese).
  destruct (codec_roundtrip (P2pMsg.Envelope cte)) as (f3 & En3 & De3); [done|].
  assert (F3 : forall st, roomy st -> frame_fits st f3 = true)
    by (intros st Hst; apply (small_msg_fits st (P2pMsg.Envelope cte)); cbn; (done || lia)).
  eapply left_sends; [exact En3 | by apply F3|]. cbn [app]. unfold responder_finish. eapply right_receives; [exact De3 | by apply F3|].
  cbn [expect_envelope]. rewrite act_res_ok. unfold open_envelope. rewrite Dse. cbn [map_err res_bind].
  rewrite Dee. cbn [ok_or]. rewrite act_res_ok. rewrite rs_secret0. cbn [ok_or]. rewrite act_res_ok.
  subst envl. cbn [initiator_ed25519_pub initiator_x25519_pub se_pq_ciphertext]. rewrite rs_spk0, rs_opk0.
  fold th. rewrite Er. cbn [map_err]. rewrite act_res_ok.
  edestruct (seal_ok (fun _ => P2pError.Crypto "failed to encrypt ok signal") h (bstr "OK") (bstr "handshake_ok") env2)
    as (cto & c7 & Eso & Dso & Lso & Sso); [done | vm_compute; discriminate | vm_compute; discriminate |].
  rewrite (act_io_ok _ _ _ _ _ _ Eso).
  destruct (codec_roundtrip (P2pMsg.Ok cto)) as (f4 & En4 & De4); [done|].
  assert (F4 : forall st, roomy st -> frame_fits st f4 = true).
  { intros st Hst. apply (small_msg_fits st (P2pMsg.Ok cto)); cbn; try done. etrans; [exact Sso|]. vm_compute. discriminate. }
  eapply right_sends; [exact En4 | by apply F4|]. cbn [app]. eapply left_receives; [exact De4 | by apply F4|].
  cbn [expect_ok]. rewrite act_res_ok, Dso. cbn [map_err]. rewrite act_res_ok.
  rewrite Hss.
  destruct (from_shared_secret_ok (x_shared_secret ra) ea (x25519_public sb) pcfg1 HandshakeRole.Initiator env1 c6 lo1 hi1)
    as (t1 & n1 & id1 & c8 & Ht1 & Ef1); try done.
  destruct (from_shared_secret_ok (x_shared_secret ra) sb (x25519_public ea) pcfg2 HandshakeRole.Responder env2 c7 lo2 hi2)
    as (t2 & n2 & id2 & c9 & Ht2 & Ef2); try done.
  rewrite (act_io_ok _ _ _ _ _ _ (io_map_err_ok _ _ _ _ _ _ Ef1)), (act_io_ok _ _ _ _ _ _ (io_map_err_ok _ _ _ _ _ _ Ef2)).
  apply reaches_now. eexists _, _, _, _, (x_shared_secret ra). split; [reflexivity|].
  split; [apply established_send; lia | by apply established_recv].
Qed.

(** Eight moves bring the pair to its end, whoever the responder claims to be:
    the initiator holds a sending session, the responder the receiving session
    of the same chain. *)
Lemma pair_completes st1 st2 ia ib sb ob dk ida idb b cfg deva devb pcfg1 pcfg2 env1 env2 lo1 hi1 lo2 hi2 c1 c2 :
  let ea := drawn env1 c1 in
  let eb := drawn env2 c2 in
  roomy st1 -> roomy st2 ->
  initiator_side ia ida cfg deva (ik_ed_public idb) env1 lo1 hi1 ->
  responder_side ib sb ob dk idb b devb env2 lo2 hi2 ->
  good_draws ia ib sb ob dk ida idb deva devb env1 ea eb ->
  (forall c, exists c', bundle_validate b env1 c = (Ok tt, c')) ->
  0 <= max_skipped_messages pcfg2 <= U64_MAX - DEFAULT_MAX_MESSAGES ->
  reaches 8
    (duo (initiator_handshake st1 ida pcfg1 cfg deva env1 c1) (responder_handshake st2 idb b sb ob dk pcfg2 devb env2 c2))
    (paired (ik_ed_public ida) (ik_ed_public idb) ea hi1 (max_skipped_messages pcfg2)).
Proof.
  intros ea eb Hst1 Hst2 Hi Hr Hg Hv Hm. pose proof Hi as []. pose proof Hr as []. pose proof Hg as [].
  pose proof (Forall_inv rs_keys0) as Hib.
  pose proof (drawn_len env1 c1) as Hea. pose proof (drawn_len env2 c2) as Heb. fold ea in Hea. fold eb in Heb.
  destruct (is_ok_inv _ gd_key0) as (h & Eh).
  unfold duo, initiator_handshake. rewrite (act_io_ok (os_bytes 32) _ env1 c1 ea _ eq_refl).
  destruct (codec_roundtrip (P2pMsg.Hello P2P_PROTOCOL_VERSION (x25519_public ea) deva)) as (f1 & En1 & De1);
    [split; [by apply x25519_public_len | done]|].
  assert (F1 : forall st, roomy st -> frame_fits st f1 = true).
  { intros st Hst. apply (small_msg_fits st (P2pMsg.Hello P2P_PROTOCOL_VERSION (x25519_public ea) deva)); cbn; try done.
    split; [by apply x25519_public_len | done]. }
  eapply left_sends; [exact En1 | by apply F1|]. cbn [app].
  unfold responder_handshake. eapply right_receives; [exact De1 | by apply F1|].
  cbn [expect_hello]. rewrite gd_a0. change (negb (Byte.eqb P2P_PROTOCOL_VERSION P2P_PROTOCOL_VERSION)) with false.
  cbn [map_err res_bind]. rewrite act_res_ok. rewrite (act_io_ok (os_bytes 32) _ env2 c2 eb _ eq_refl).
  rewrite <- (handshake_key_agrees ea eb Hea Heb), Eh. rewrite act_res_ok.
  set (stealth := mkStealthBundle _ _ _ _).
  assert (Ws : wf_stealth stealth)
    by (split; try done; cbn; [rewrite rs_public0; by apply x25519_public_len | unfold U64_MAX; lia]).
  destruct (codec_roundtrip stealth Ws) as (pb & Enb & Deb).
  rewrite Enb. cbn [ok_or]. rewrite act_res_ok.
  assert (Lpb : len pb <= 2088) by (rewrite (stealth_size _ _ Ws Enb); cbn; lia).
  edestruct (seal_ok (fun _ => P2pError.Crypto "failed to encrypt bundle") h pb (bstr "handshake_bundle") env2)
    as (ctb & c3 & Esb & Dsb & Lsb & Ssb); [done | lia | vm_compute; discriminate |].
  rewrite (act_io_ok _ _ _ _ _ _ Esb).
  destruct (codec_roundtrip (P2pMsg.Bundle (x25519_public eb) ctb)) as (f2 & En2 & De2);
    [split; [by apply x25519_public_len | done]|].
  assert (F2 : forall st, roomy st -> frame_fits st f2 = true).
  { intros st Hst. apply (small_msg_fits st (P2pMsg.Bundle (x25519_public eb) ctb)); cbn; try done; [|lia].
    split; [by apply x25519_public_len | done]. }
  eapply right_sends; [exact En2 | by apply F2|]. cbn [app]. eapply left_receives; [exact De2 | by apply F2|].
  cbn [expect_bundle]. rewrite gd_b0. cbn [map_err res_bind]. rewrite act_res_ok, Eh, act_res_ok.
  edestruct (open_sealed_bundle cfg h stealth b pb ctb env1) as (c4 & Eo); try done.
  rewrite (act_io_ok _ _ _ _ _ _ Eo).
  by apply (finish_completes st1 st2 ia ib sb ob dk ida idb b cfg deva devb pcfg1 pcfg2 env1 env2 lo1 hi1 lo2 hi2 ea eb).
Qed.

(** Whoever holds the secrets of a published bundle can respond with it, and it
    is accepted for thirty days. *)
Lemma published_responder m ib sb dk idb dev b envp cp cp' lo hi env lo2 hi2 :
  publish m m (x25519_public sb) None 0 (mlkem_ek_of dk) envp cp = (Ok b, cp') ->
  length m = 32%nat -> all_zero (ed25519_public m) = false -> all_zero (x25519_public sb) = false ->
  clock_in envp lo hi -> 0 <= lo -> hi <= U64_MAX - 30 * 86400 ->
  ik_x_secret idb = Some ib -> ik_x_public idb = x25519_public ib -> keys32 [ib; sb] ->
  length dk = 2400%nat -> mlkem_dk_ok dk = true ->
  length (ik_ed_public idb) = 32%nat -> length dev = 16%nat -> rng_healthy env -> clock_in env lo2 hi2 ->
  responder_side ib sb None (Some dk) idb b dev env lo2 hi2 /\
  forall env' lo' hi' c0, clock_in env' lo' hi' -> hi' <= lo + 30 * 86400 ->
    exists c1, bundle_validate b env' c0 = (Ok tt, c1).
Proof.
  intros Hp Hm Hz1 Hz2 Hc Hlo Hhi Hs Hpub Hk Hdl Hdk Hed Hdev Hr Hc2.
  destruct (publish_fields _ _ _ _ _ _ _ _ _ _ Hp) as (_ & F2 & F3 & _). pose proof Hk as Hk'.
  unfold keys32 in Hk'. rewrite !Forall_cons in Hk'. destruct Hk' as (_ & Hsb & _).
  destruct (publish_ok m m (x25519_public sb) None 0 (mlkem_ek_of dk) envp cp lo hi)
    as (b' & c3 & Eb & Hw & F4 & F5 & Hx & Hv); try done; [by apply x25519_public_len|].
  rewrite Hp in Eb. injection Eb as <- <-. destruct (mlkem_ek_of_ok dk Hdk) as [_ Hel].
  split.
  - split; try done; [by intros d [= <-] | | etrans; [apply to_bytes_len; [done|]|lia]; rewrite F4; by intros ? [= <-]].
    destruct (from_to_bytes _ Hw) as (off & Hcur & ->). unfold pq_part in Hcur. rewrite F4, F5 in Hcur.
    simpl in Hcur. rewrite <- (app_nil_r (ed25519_sign m _)) in Hcur.
    rewrite (read_pq_ok _ _ _ _ _ Hcur Hel (ed25519_sign_len _ _)). cbn [res_bind].
    rewrite <- F4, <- F5. by destruct b.
  - intros env' lo' hi' c0 Hc' Hh. rewrite Hv by done.
    destruct (clock_in_secs env' lo' hi' (c_clock c0) Hc') as (t & Et & Ht).
    unfold io_bind, read_secs, io_res, io_ret. rewrite Et. cbn [ok_or].
    destruct (Z.ltb_spec (expiration b) t); [lia | eauto].
Qed.

(** C38: an Ed25519 identity is only claimed.  The initiator expects the key
    [vk].  A responder without [vk]'s secret, who publishes a bundle under a
    signing key [m] of its own and merely writes [vk] into the sealed part, is
    accepted: the handshake completes, the initiator reports the peer [vk], and
    its session is paired with the impostor's.  In the same way the initiator's
    Ed25519 key is whatever it says: nothing is assumed of it but its length.
    The bundle is less than thirty days old, the frame limits of both streams are
    at least 4096 bytes, and the degenerate draws (a low-order ephemeral key, a
    weak handshake key, an all-zero X3DH secret) are excluded. *)
Theorem impostor_is_accepted vk m ia ib sb dk ida b cfg deva devb pcfg1 pcfg2 envp cp cp' lo hi
    env1 env2 lo1 hi1 lo2 hi2 c1 c2 t st1 st2 :
  let impostor := mkIdentity None vk (Some ib) (x25519_public ib) t in
  roomy st1 -> roomy st2 ->
  length vk = 32%nat -> length m = 32%nat -> keys32 [ib; sb] -> length dk = 2400%nat -> mlkem_dk_ok dk = true ->
  all_zero (ed25519_public m) = false -> all_zero (x25519_public sb) = false -> length devb = 16%nat ->
  clock_in envp lo hi -> 0 <= lo -> hi <= U64_MAX - 30 * 86400 ->
  publish m m (x25519_public sb) None 0 (mlkem_ek_of dk) envp cp = (Ok b, cp') ->
  initiator_side ia ida cfg deva vk env1 lo1 hi1 -> hi1 <= lo + 30 * 86400 ->
  rng_healthy env2 -> clock_in env2 lo2 hi2 ->
  good_draws ia ib sb None (Some dk) ida impostor deva devb env1 (drawn env1 c1) (drawn env2 c2) ->
  0 <= max_skipped_messages pcfg2 <= U64_MAX - DEFAULT_MAX_MESSAGES ->
  identity_key b = ed25519_public m /\
  reaches 8
    (duo (initiator_handshake st1 ida pcfg1 cfg deva env1 c1)
         (responder_handshake st2 impostor b sb None (Some dk) pcfg2 devb env2 c2))
    (paired (ik_ed_public ida) vk (drawn env1 c1) hi1 (max_skipped_messages pcfg2)).
Proof.
  intros imp Hst1 Hst2 Hvk Hm Hk Hdl Hdk Hz1 Hz2 Hdev Hc Hlo Hhi Hp Hi H30 Hr Hc2 Hg Hmax.
  split; [by destruct (publish_fields _ _ _ _ _ _ _ _ _ _ Hp)|].
  destruct (published_responder m ib sb dk imp devb b envp cp cp' lo hi env2 lo2 hi2) as [Hrs Hv]; try done.
  apply (pair_completes st1 st2 ia ib sb None (Some dk) ida imp b cfg deva devb pcfg1 pcfg2 env1 env2 lo1 hi1 lo2 hi2 c1 c2);
    try done. intros c. destruct Hi. by eapply Hv.
Qed.

End Completion.

(** ** A codec for the witnesses

    The documented layout of [bincode]'s legacy configuration. *)
Module LegacyP2p.
Import Legacy.

Definition put_msg (m : P2pMsg.t) : bytes :=
  match m with
  | P2pMsg.Hello v eph dev => u32_le 0 ++ [v] ++ eph ++ dev
  | P2pMsg.Bundle eph b => u32_le 1 ++ eph ++ put_vec b
  | P2pMsg.Envelope b => u32_le 2 ++ put_vec b
  | P2pMsg.Ok b => u32_le 3 ++ put_vec b
  | P2pMsg.Error r => u32_le 4 ++ put_vec (String.list_byte_of_string r)
  end.

Definition get_msg : Get P2pMsg.t :=
  bind (array 4) (fun tag =>
    if from_le tag =? 0 then
      bind (array 1) (fun v => bind (array 32) (fun eph => bind (array 16) (fun dev =>
        ret (P2pMsg.Hello (default x00 (v !! 0%nat)) eph dev))))
    else if from_le tag =? 1 then
      bind (array 32) (fun eph => bind vec (fun b => ret (P2pMsg.Bundle eph b)))
    else if from_le tag =? 2 then bind vec (fun b => ret (P2pMsg.Envelope b))
    else if from_le tag =? 3 then bind vec (fun b => ret (P2pMsg.Ok b))
    else if from_le tag =? 4 then bind vec (fun b => ret (P2pMsg.Error (String.string_of_list_byte b)))
    else fun _ => None).

Definition put_stealth (s : StealthBundle) : bytes :=
  responder_ed25519_pub s ++ responder_x25519_pub s ++ responder_device_id s ++ put_vec (bundle_bytes s).

Definition get_stealth : Get StealthBundle :=
  bind (array 32) (fun ed => bind (array 32) (fun x => bind (array 16) (fun dev => bind vec (fun b =>
    ret (mkStealthBundle ed x dev b))))).

Definition put_envelope (e : StealthEnvelope) : bytes :=
  initiator_ed25519_pub e ++ initiator_x25519_pub e ++ initiator_device_id e ++ signed_prekey_used e
  ++ put_opt id (onetime_prekey_used e) ++ put_opt put_vec (se_pq_ciphertext e).

Definition get_envelope : Get StealthEnvelope :=
  bind (array 32) (fun ed => bind (array 32) (fun x => bind (array 16) (fun dev => bind (array 32) (fun spk =>
    bind (opt (array 32)) (fun opk => bind (opt vec) (fun ct => ret (mkStealthEnvelope ed x dev spk opk ct))))))).

#[export] Instance codec : P2pCodec := {|
  msg_codec := {| encode m := Some (put_msg m); decode b := option_map fst (get_msg b) |};
  bundle_codec := {| encode s := Some (put_stealth s); decode b := option_map fst (get_stealth b) |};
  envelope_codec := {| encode e := Some (put_envelope e); decode b := option_map fst (get_envelope b) |}
|}.

Lemma length_string_bytes r : length (String.list_byte_of_string r) = String.length r.
Proof. unfold String.list_byte_of_string. induction r; simpl in *; by rewrite ?IHr. Qed.

(** A reader that ends in [ret]. *)
Lemma reads_last {A B} (g : Get A) (f : A -> B) p a : reads g p a -> reads (bind g (fun a => ret (f a))) p (f a).
Proof. intros Hg rest. unfold bind. by rewrite Hg. Qed.

Lemma reads_decodes {A} (g : Get A) p a : reads g p a -> option_map fst (g p) = Some a.
Proof. intros H. specialize (H []). rewrite app_nil_r in H. by rewrite H. Qed.

Lemma reads_msg m : wf_msg m -> reads get_msg (put_msg m) m.
Proof.
  intros Hw. unfold get_msg. destruct m as [v eph dev|eph b|b|b|r]; cbn [put_msg wf_msg] in *;
    (eapply reads_bind; [apply reads_array, length_to_le|]); rewrite from_le_u32 by (vm_compute; split; discriminate).
  - destruct Hw. cbn [Z.eqb]. apply reads_bind with (a := [v]); [by apply reads_array|].
    eapply reads_bind; [by apply reads_array|]. change v with (default x00 ([v] !! 0%nat)) at 2.
    apply reads_last. by apply reads_array.
  - destruct Hw. cbn. eapply reads_bind; [by apply reads_array|]. apply reads_last. by apply reads_vec.
  - cbn. apply reads_last. by apply reads_vec.
  - cbn. apply reads_last. by apply reads_vec.
  - cbn. rewrite <- (String.string_of_list_byte_of_string r) at 2.
    apply (reads_last vec (fun b => P2pMsg.Error (String.string_of_list_byte b))).
    apply reads_vec. unfold len. by rewrite length_string_bytes.
Qed.

Lemma reads_stealth s : wf_stealth s -> reads get_stealth (put_stealth s) s.
Proof.
  intros []. destruct s. unfold get_stealth, put_stealth. cbn in *.
  do 3 (eapply reads_bind; [by apply reads_array|]). apply (reads_last vec). by apply reads_vec.
Qed.

Lemma reads_envelope e : wf_envelope e -> reads get_envelope (put_envelope e) e.
Proof.
  intros []. destruct e. unfold get_envelope, put_envelope. cbn in *.
  do 4 (eapply reads_bind; [by apply reads_array|]).
  eapply reads_bind; [apply reads_opt; intros a Ha; by apply reads_array, we_opk0|].
  apply (reads_last (opt vec)). apply reads_opt. intros a Ha. apply reads_vec. auto.
Qed.

Ltac decoded :=
  repeat match goal with
  | H : bind _ _ _ = Some _ |- _ => unfold bind in H
  | H : match ?m with _ => _ end = Some _ |- _ => destruct m as [[? ?]|] eqn:?; [|done]
  | H : ret _ _ = Some _ |- _ => injection H as <- <-
  | H : array _ _ = Some _ |- _ => apply array_length in H
  | H : vec _ = Some _ |- _ => apply vec_bound in H
  end.

Lemma get_msg_wf b m rest : get_msg b = Some (m, rest) -> wf_msg m.
Proof.
  unfold get_msg, bind at 1. destruct (array 4 b) as [[tag b1]|]; [|done].
  repeat case_match; try done; intros Hx; decoded; try done.
  cbn. rewrite <- length_string_bytes, String.list_byte_of_string_of_list_byte. done.
Qed.

Lemma get_stealth_wf b s rest : get_stealth b = Some (s, rest) -> wf_stealth s.
Proof. unfold get_stealth. intros H. decoded. by split. Qed.

Lemma get_envelope_wf b e rest : get_envelope b = Some (e, rest) -> wf_envelope e.
Proof.
  unfold get_envelope. intros H. decoded. split; try done; cbn.
  - intros x Hx. edestruct (opt_inv (array 32)) as (b' & r' & E); [eassumption | exact Hx|]. by apply array_length in E.
  - intros x Hx. edestruct (opt_inv vec) as (b' & r' & E); [eassumption | exact Hx|]. by apply vec_bound in E.
Qed.

Lemma decode_inv {A} (g : Get A) b a : option_map fst (g b) = Some a -> exists rest, g b = Some (a, rest).
Proof. destruct (g b) as [[a' rest]|]; [|done]. intros [= <-]. eauto. Qed.

Lemma len_put_vec b : len (put_vec b) = 8 + len b.
Proof. unfold put_vec. rewrite len_app. unfold len at 1. by rewrite length_to_le. Qed.

#[export] Instance codec_laws : P2pCodecLaws codec.
Proof.
  split; [split|split|split|..].
  - intros m Hm. eexists. split; [done|]. by apply reads_decodes, reads_msg.
  - intros b m (rest & H)%decode_inv. by eapply get_msg_wf.
  - intros m Hm. eexists. split; [done|]. by apply reads_decodes, reads_stealth.
  - intros b m (rest & H)%decode_inv. by eapply get_stealth_wf.
  - intros m Hm. eexists. split; [done|]. by apply reads_decodes, reads_envelope.
  - intros b m (rest & H)%decode_inv. by eapply get_envelope_wf.
  - intros m b Hw E. injection E as <-. unfold put_msg. destruct m; cbn [wf_msg msg_payload] in *;
      rewrite !len_app, ?len_put_vec; unfold len; rewrite ?length_string_bytes; cbn [length]; rewrite length_to_le; lia.
  - intros s b [] E. injection E as <-. unfold put_stealth. rewrite !len_app, len_put_vec. unfold len. lia.
  - intros e b [] E. injection E as <-. unfold put_envelope. rewrite !len_app. unfold put_opt.
    assert (len (put_opt id (onetime_prekey_used e)) <= 33).
    { unfold put_opt. destruct (onetime_prekey_used e) as [o|]; [|vm_compute; discriminate].
      unfold len. simpl. rewrite (we_opk0 o eq_refl). lia. }
    assert (len (put_opt put_vec (se_pq_ciphertext e)) <= 9 + len (from_option id [] (se_pq_ciphertext e))).
    { unfold put_opt. destruct (se_pq_ciphertext e) as [o|]; [|vm_compute; discriminate].
      rewrite len_app, len_put_vec. unfold len. simpl. lia. }
    unfold put_opt, len in *. lia.
Qed.

End LegacyP2p.

(** ** Witnesses *)

Definition demo_env2 : Env := mkEnv (fun _ => Some (1700000000 * NANOS)) (fun _ => 0) (fun _ => x02) 8.

Lemma demo_env2_healthy : rng_healthy demo_env2.
Proof. intros p. exists 20%nat. split; [lia | discriminate]. Qed.

Lemma demo_env2_clock : clock_in demo_env2 1700000000 1700000000.
Proof. intros i. exists (1700000000 * NANOS). split; [done|]. rewrite Z.div_mul by done. lia. Qed.

Definition demo_alice : IdentityKeyPair :=
  mkIdentity (Some (repeat x11 32)) (repeat x11 32) (Some (repeat x22 32)) (repeat x22 32) 1700000000.

(** The victim's key [x99..] is expected; the impostor signs with [x31..]. *)
Definition demo_victim : bytes := repeat x99 32.

Definition demo_forged : PreKeyBundle * Ctr :=
  match publish (P := toy) (repeat x31 32) (repeat x31 32) (repeat x33 32) None 0
          (mlkem_ek_of (Primitives := toy) demo_dk) demo_env2 ctr0 with
  | (Ok b, c) => (b, c)
  | (_, c) => (demo_bundle, c)
  end.

Lemma impostor_is_accepted_witness :
  identity_key (fst demo_forged) = repeat x31 32 /\
  reaches 8
    (duo (initiator_handshake (P := toy) (C := LegacyP2p.codec) (wrap_stream 10485760) demo_alice Config_default
            (mkP2pHandshakeConfig 30 10485760 (Some demo_victim)) (repeat x06 16) demo_env1 ctr0)
         (responder_handshake (P := toy) (C := LegacyP2p.codec) (wrap_stream 10485760)
            (mkIdentity None demo_victim (Some (repeat x32 32)) (repeat x32 32) 0) (fst demo_forged) (repeat x33 32) None
            (Some demo_dk) Config_default (repeat x07 16) demo_env2 ctr0))
    (paired (P := toy) (repeat x11 32) demo_victim (drawn demo_env1 ctr0) 1700000000
       (max_skipped_messages Config_default)).
Proof.
  apply (impostor_is_accepted (P := toy) (L := toy_laws) (C := LegacyP2p.codec) (CL := LegacyP2p.codec_laws)
    demo_victim (repeat x31 32) (repeat x22 32) (repeat x32 32) (repeat x33 32) demo_dk demo_alice (fst demo_forged)
    (mkP2pHandshakeConfig 30 10485760 (Some demo_victim)) (repeat x06 16) (repeat x07 16) Config_default Config_default
    demo_env2 ctr0 (snd demo_forged) 1700000000 1700000000 demo_env1 demo_env2 1700000000 1700000000
    1700000000 1700000000 ctr0 ctr0 0 (wrap_stream 10485760) (wrap_stream 10485760)).
  - vm_compute. discriminate.
  - vm_compute. discriminate.
  - reflexivity.
  - reflexivity.
  - repeat constructor.
  - vm_compute. reflexivity.
  - vm_compute. reflexivity.
  - reflexivity.
  - reflexivity.
  - reflexivity.
  - exact demo_env2_clock.
  - lia.
  - vm_compute. discriminate.
  - vm_compute. reflexivity.
  - split; [reflexivity | reflexivity | reflexivity | reflexivity | reflexivity | reflexivity
           | exact demo_env1_healthy | exact (proj1 demo_clock) | lia].
  - lia.
  - exact demo_env2_healthy.
  - exact demo_env2_clock.
  - split; intros; vm_compute; reflexivity.
  - vm_compute. split; discriminate.
Defined.
