(* ===== verification/P2pNode.v ===== *)
(** * P2P nodes and connected peers ([core/src/p2p/node.rs], [peer.rs], [mod.rs])

    A node publishes a bundle, answers and opens connections; a connected peer
    carries one session.  Sockets, NAT traversal and mDNS are outside the
    model: their outcomes are arguments. *)

From S2P Require Import Prelude Effects Errors Primitives Codec Process Compare Random Validation Kdf Handler Encryptor Chain Message RatchetState Session SessionInvariant SessionReceive SessionSend X3dh Bundle KeyStore Context P2pHandshake.
#[local] Open Scope Z_scope.
#[local] Open Scope sibna_scope.

Record P2pConfig := mkP2pConfig {
  bind_addr : string;
  handshake_timeout_secs : Z;
  max_peers : Z;
  p2p_max_message_size : Z;
  enable_mdns : bool;
  node_name : option string;
  proxy : option string;
  p2p_expected_peer : option bytes
}.

Definition P2pConfig_default : P2pConfig :=
  mkP2pConfig "0.0.0.0:0" 30 256 (10 * 1024 * 1024) false None None None.

Record P2pNode := mkP2pNode {
  nd_ctx : SecureContext;
  nd_identity : bytes;
  nd_bundle : PreKeyBundle;
  nd_spk_secret : bytes;
  nd_pq_sk : option bytes;
  nd_hs_cfg : P2pHandshakeConfig;
  nd_config : P2pConfig
}.

Record Peer := mkPeer {
  peer_id_bytes : bytes;
  peer_stream : FramedStream;
  peer_session : DoubleRatchetSession;
  peer_addr : string
}.

Section Node.
Context {P : Primitives} {C : P2pCodec}.

Definition crypto_err {A} (what : string) (r : PResult A) : P2pResult A :=
  map_err (fun _ => P2pError.Crypto what) r.

(** [net] is the outcome of the network setup that ends [new]: binding the
    listener, mapping a port, registering with mDNS. *)
Definition P2pNode_new (config : P2pConfig) (ctx : SecureContext) (net : P2pResult unit)
    : IO P2pError.t P2pNode :=
  let* identity := io_res (crypto_err "get_identity" (get_identity ctx)) in
  let* spk := io_map_err (fun _ => P2pError.Crypto "gen spk") (SignedPreKey_generate 1 identity) in
  let* secret := io_res (ok_or (spk_secret spk) (P2pError.Crypto "spk secret not available")) in
  let* spk_sig := io_res (if len (spk_signature spk) =? 64 then Ok (spk_signature spk)
                          else Err (P2pError.Crypto "bad spk signature length")) in
  let* device_sig := io_res (crypto_err "sign device"
                               (identity_sign identity (ik_ed_public identity ++ u32_le 0))) in
  let* bundle := PreKeyBundle_new (ik_ed_public identity) (spk_public spk) spk_sig None 0
                   (ik_ed_public identity) device_sig in
  let* bundle := match spk_pq_public spk with
                 | Some pk =>
                     let* pq_sig := io_res (crypto_err "sign pq prekey" (identity_sign identity pk)) in
                     io_ret (with_pq_prekey bundle pk pq_sig)
                 | None => io_ret bundle
                 end in
  let* (_, bundle) := io_map_err (fun _ => P2pError.Crypto "bundle signing failed")
    (run_on (sign_bundle (fun data => map_err (fun _ => ProtocolError.InternalError) (identity_sign identity data)))
       bundle) in
  let* _ := io_res net in
  io_ret (mkP2pNode ctx (ik_ed_public identity) bundle secret (spk_pq_secret spk)
    (mkP2pHandshakeConfig (handshake_timeout_secs config) (p2p_max_message_size config) (p2p_expected_peer config))
    config).

Definition export_bundle (n : P2pNode) : bytes := to_bytes (nd_bundle n).

Definition import_bundle (data : bytes) : IO P2pError.t PreKeyBundle :=
  let* bundle := io_res (map_err (fun _ => P2pError.InvalidMessage) (from_bytes data)) in
  let* _ := io_map_err (fun _ => P2pError.Handshake "bundle invalid") (bundle_validate bundle) in
  io_ret bundle.

(** [dialed] is the outcome of opening the stream ([Transport]), [addr_parses] whether
    [addr.parse::<SocketAddr>()] succeeds. *)
Definition node_connect (n : P2pNode) (addr : string) (dialed : P2pResult unit) (addr_parses : bool)
    : Act FrameEv FrameAns P2pError.t Peer :=
  let~ _ := act_res dialed in
  let stream := wrap_stream (max_frame_bytes (nd_hs_cfg n)) in
  let~ _ := act_res (if addr_parses then Ok tt else Err P2pError.Io) in
  let~ identity := act_res (crypto_err "get_identity" (get_identity (nd_ctx n))) in
  let~ (session, id) := initiator_handshake stream identity (ctx_config (nd_ctx n)) (nd_hs_cfg n)
                          (ctx_device_id (nd_ctx n)) in
  act_ret (mkPeer id stream session addr).

Definition node_accept (n : P2pNode) (accepted : P2pResult string) : Act FrameEv FrameAns P2pError.t Peer :=
  let~ remote_addr := act_res accepted in
  let stream := wrap_stream (max_frame_bytes (nd_hs_cfg n)) in
  let~ identity := act_res (crypto_err "get_identity" (get_identity (nd_ctx n))) in
  let~ (session, id) := responder_handshake stream identity (nd_bundle n) (nd_spk_secret n) None (nd_pq_sk n)
                          (ctx_config (nd_ctx n)) (ctx_device_id (nd_ctx n)) in
  act_ret (mkPeer id stream session remote_addr).

(** ** [Peer] *)

Definition set_peer_session (x : DoubleRatchetSession) (p : Peer) : Peer :=
  mkPeer (peer_id_bytes p) (peer_stream p) x (peer_addr p).

Definition peer_id_hex (p : Peer) : bytes := hex_encode (take 8 (peer_id_bytes p)).

(** Returns the frame put on the stream: the codec takes it if it is not too
    long, and [wrote] is the outcome of the write that follows. *)
Definition send_message (plaintext : bytes) (wrote : bool) : M Peer P2pError.t bytes :=
  let! ciphertext := m_map_err (fun _ => P2pError.Crypto "encrypt")
    (zoom peer_session set_peer_session (session_encrypt plaintext (bstr "p2p-message"))) in
  let! p := get in
  if frame_fits (peer_stream p) ciphertext && wrote then ret ciphertext else res (Err P2pError.Io).

(** [next] is what comes in on the stream, before the codec's decoder. *)
Definition recv_message (next : Incoming) : M Peer P2pError.t bytes :=
  let! p := get in
  match decode_frame (peer_stream p) next with
  | StreamEnd => res (Err P2pError.Disconnected)
  | StreamError => res (Err P2pError.Framing)
  | Frame ciphertext =>
      m_map_err (fun _ => P2pError.Crypto "decrypt")
        (zoom peer_session set_peer_session (session_decrypt ciphertext (bstr "p2p-message")))
  end.

End Node.

(** ** Properties *)

Section NodeProperties.
Context {P : Primitives} {L : PrimitiveLaws P} {C : P2pCodec} {CL : P2pCodecLaws C}.

(** A context with a complete identity. *)
Record identified (seed ix : bytes) (i : IdentityKeyPair) (s : SecureContext) : Prop := {
  id_stored : identity (ctx_keystore s) = Some i;
  id_ed : ik_ed_secret i = Some seed;
  id_x : ik_x_secret i = Some ix;
  id_seed : length seed = 32%nat;
  id_xlen : length ix = 32%nat;
  id_ed_pub : ik_ed_public i = ed25519_public seed;
  id_x_pub : ik_x_public i = x25519_public ix;
  id_nonzero : all_zero (ed25519_public seed) = false;
  id_dev : length (ctx_device_id s) = 16%nat
}.

(** A new node holds the secrets of the bundle it publishes. *)
Lemma node_new_run seed ix i config ctx env c lo hi :
  identified seed ix i ctx -> clock_in env lo hi -> 0 <= lo -> hi <= U64_MAX - 30 * 86400 ->
  exists n c1 c' dk, P2pNode_new config ctx (Ok tt) env c = (Ok n, c') /\
    nd_ctx n = ctx /\ nd_spk_secret n = drawn env c /\ nd_pq_sk n = Some dk /\
    length dk = 2400%nat /\ mlkem_dk_ok dk = true /\
    nd_hs_cfg n = mkP2pHandshakeConfig (handshake_timeout_secs config) (p2p_max_message_size config)
      (p2p_expected_peer config) /\
    publish seed seed (x25519_public (drawn env c)) None 0 (mlkem_ek_of dk) env c1 = (Ok (nd_bundle n), c').
Proof.
  intros [] Hc Hlo Hhi. unfold P2pNode_new, get_identity, get_identity_keypair. rewrite id_stored0.
  cbn [ok_or crypto_err map_err]. unfold io_bind at 1, io_res at 1.
  unfold SignedPreKey_generate, identity_sign. rewrite id_ed0. cbn [ok_or res_bind].
  unfold io_bind at 1, io_map_err at 1. unfold io_bind at 1, os_bytes at 1. unfold io_bind at 1, io_res at 1.
  unfold io_bind at 1, os_bytes at 1. unfold io_bind at 1, io_res at 1. cbn [c_os].
  destruct (mlkem_keygen_ok (map (e_os env) (seq (c_os c + 32) 64))) as (dk & -> & Hdk & Hdl). cbn [ok_or].
  unfold io_bind at 1, read_secs_or_far at 1, io_ret at 1. cbn [map_err spk_secret spk_signature spk_public spk_pq_public spk_pq_secret].
  unfold io_bind at 1, io_res at 1. cbn [ok_or]. unfold len. rewrite ed25519_sign_len.
  change (Z.of_nat 64 =? 64) with true. cbv iota. unfold io_bind at 1, io_res at 1. unfold io_bind at 1, io_res at 1.
  cbn [crypto_err map_err]. rewrite id_ed_pub0. fold (drawn env c).
  set (c1 := mkCtr _ _ _).
  destruct (publish_ok seed seed (x25519_public (drawn env c)) None 0 (mlkem_ek_of dk) env c1 lo hi)
    as (b & c' & Eb & _); try done; [apply x25519_public_len, drawn_len|].
  exists (mkP2pNode ctx (ed25519_public seed) b (drawn env c) (Some dk)
    (mkP2pHandshakeConfig (handshake_timeout_secs config) (p2p_max_message_size config) (p2p_expected_peer config))
    config), c1, c', dk. split; [|done].
  revert Eb. unfold publish, PreKeyBundle_new.
  unfold io_bind, io_res, io_ret, io_map_err, run_on, sign_bundle, read_secs_or_far, os_bytes, bind, get, res, modify.
  destruct (u_add U64_MAX _ _); cbn [or_panic map_err]; [|done]. intros Hb. by injection Hb as <- <-.
Qed.

(** A node that answers is a responder of the handshake, and its bundle is
    accepted for thirty days. *)
Lemma node_responds seed ix i config ctx env c lo hi n c' :
  identified seed ix i ctx -> clock_in env lo hi -> 0 <= lo -> hi <= U64_MAX - 30 * 86400 ->
  rng_healthy env -> P2pNode_new config ctx (Ok tt) env c = (Ok n, c') ->
  all_zero (x25519_public (nd_spk_secret n)) = false ->
  nd_ctx n = ctx /\ max_frame_bytes (nd_hs_cfg n) = p2p_max_message_size config /\
  responder_side ix (nd_spk_secret n) None (nd_pq_sk n) i (nd_bundle n) (ctx_device_id ctx) env lo hi /\
  (forall env' lo' hi' c0, clock_in env' lo' hi' -> hi' <= lo + 30 * 86400 ->
     exists c1, bundle_validate (nd_bundle n) env' c0 = (Ok tt, c1)).
Proof.
  intros Hid Hc Hlo Hhi Hr En Hz.
  destruct (node_new_run seed ix i config ctx env c lo hi Hid Hc Hlo Hhi)
    as (n' & c1 & c2 & dk & En' & Hctx & Hspk & Hpq & Hdl & Hdk & Hcfg & Hp).
  rewrite En in En'. injection En' as <- <-. destruct Hid. split; [done|]. split; [by rewrite Hcfg|]. rewrite Hspk in Hz |- *. rewrite Hpq.
  apply (published_responder seed ix (drawn env c) dk i (ctx_device_id ctx) (nd_bundle n) env c1 c' lo hi env lo hi);
    try done.
  - unfold keys32. rewrite !Forall_cons. split; [done|]. split; [apply drawn_len | constructor].
  - rewrite id_ed_pub0. by apply ed25519_public_ok.
Qed.

(** Connected peers, each holding the other's claimed identity, with sessions
    on the same chain. *)
Definition connected (pub_a pub_b ea : bytes) (hi max max_a max_b : Z) (d : Duo P2pError.t Peer Peer) : Prop :=
  exists pa pb ca cb ss,
    d = mkDuo (Done (Ok pa) ca) (Done (Ok pb) cb) [] [] /\
    peer_id_bytes pa = pub_b /\ peer_id_bytes pb = pub_a /\
    peer_stream pa = wrap_stream max_a /\ peer_stream pb = wrap_stream max_b /\
    send_rep hi (session_chain ss) ea 0 (state (peer_session pa)) /\
    recv_rep (session_chain ss) (x25519_public ea) max (state (peer_session pb)) Window.init.

(** The last step of both sides. *)
Definition as_peer (stream : FramedStream) (addr : string) (env : Env) (r : DoubleRatchetSession * bytes) (c : Ctr)
    : Proc FrameEv FrameAns P2pError.t Peer :=
  (let '(session, id) := r in act_ret (mkPeer id stream session addr)) env c.

Lemma node_connect_run seed ix i n addr env c :
  identified seed ix i (nd_ctx n) ->
  node_connect n addr (Ok tt) true env c =
  let stream := wrap_stream (max_frame_bytes (nd_hs_cfg n)) in
  proc_bind (initiator_handshake stream i (ctx_config (nd_ctx n)) (nd_hs_cfg n) (ctx_device_id (nd_ctx n)) env c)
    (as_peer stream addr env).
Proof.
  intros []. unfold node_connect, get_identity, get_identity_keypair. rewrite id_stored0. done.
Qed.

Lemma node_accept_run seed ix i n addr env c :
  identified seed ix i (nd_ctx n) ->
  node_accept n (Ok addr) env c =
  let stream := wrap_stream (max_frame_bytes (nd_hs_cfg n)) in
  proc_bind (responder_handshake stream i (nd_bundle n) (nd_spk_secret n) None (nd_pq_sk n) (ctx_config (nd_ctx n))
    (ctx_device_id (nd_ctx n)) env c) (as_peer stream addr env).
Proof.
  intros []. unfold node_accept, get_identity, get_identity_keypair. rewrite id_stored0. done.
Qed.

(** C16: a connection between two honest nodes completes.  Node [na] dials node
    [nb], whose key it expects, within the thirty days of [nb]'s bundle.  However
    the two sides and the channels are scheduled, no run gets stuck or is longer
    than eight moves, and every run can be continued to the same end: both sides
    return a peer, identified by the other's Ed25519 key, and the initiator's
    session is ready to send the first message of the chain the responder's
    session is ready to receive.  The frame limits of both nodes are at least
    4096 bytes (the default is 10 MiB), and stay those of the peers' streams;
    clocks and random sources are in order, the responder's skip limit is no
    absurd number, nothing on the way is lost or times out.  Excluded are the
    degenerate draws: a low-order ephemeral key or signed prekey, a weak
    handshake key or an all-zero X3DH secret. *)
Theorem p2p_connection_completes seeda ia ida ctxa seedb ib idb ctxb na nb cfgb addr addr'
    env1 env2 lo1 hi1 lo2 hi2 c0 c1 c2 c2' m d :
  identified seeda ia ida ctxa -> identified seedb ib idb ctxb ->
  nd_ctx na = ctxa -> 4096 <= max_frame_bytes (nd_hs_cfg na) -> 4096 <= p2p_max_message_size cfgb -> expected_peer_identity (nd_hs_cfg na) = Some (ik_ed_public idb) ->
  clock_in env1 lo1 hi1 -> hi1 <= lo1 + 86400 -> rng_healthy env1 ->
  clock_in env2 lo2 hi2 -> 0 <= lo2 -> hi2 <= U64_MAX - 30 * 86400 -> rng_healthy env2 ->
  hi1 <= lo2 + 30 * 86400 ->
  P2pNode_new cfgb ctxb (Ok tt) env2 c0 = (Ok nb, c2) ->
  all_zero (x25519_public (nd_spk_secret nb)) = false ->
  good_draws ia ib (nd_spk_secret nb) None (nd_pq_sk nb) ida idb (ctx_device_id ctxa) (ctx_device_id ctxb) env1
    (drawn env1 c1) (drawn env2 c2') ->
  0 <= max_skipped_messages (ctx_config ctxb) <= U64_MAX - DEFAULT_MAX_MESSAGES ->
  nsteps duo_step m
    (duo (node_connect na addr (Ok tt) true env1 c1) (node_accept nb (Ok addr') env2 c2')) d ->
  exists k, (m + k = 8)%nat /\
    reaches k d (connected (ik_ed_public ida) (ik_ed_public idb) (drawn env1 c1) hi1
                   (max_skipped_messages (ctx_config ctxb)) (max_frame_bytes (nd_hs_cfg na)) (p2p_max_message_size cfgb)).
Proof.
  intros Ha Hb Hna Hfa Hfb Hexp Hc1 Hday Hr1 Hc2 Hlo2 Hhi2 Hr2 H30 En Hz Hg Hm Hd.
  destruct (node_responds _ _ _ _ _ _ _ _ _ _ _ Hb Hc2 Hlo2 Hhi2 Hr2 En Hz) as (Hnb & Hlim & Hrs & Hval).
  destruct (pair_completes (wrap_stream (max_frame_bytes (nd_hs_cfg na))) (wrap_stream (max_frame_bytes (nd_hs_cfg nb))) ia ib (nd_spk_secret nb) None (nd_pq_sk nb) ida idb (nd_bundle nb) (nd_hs_cfg na)
    (ctx_device_id ctxa) (ctx_device_id ctxb) (ctx_config ctxa) (ctx_config ctxb) env1 env2 lo1 hi1 lo2 hi2 c1 c2')
    as (y & Hy & sa & sb & ca & cb & ss & -> & Hsend & Hrecv); try done.
  { unfold roomy. cbn. by rewrite Hlim. }
  { destruct Ha. split; try done. rewrite id_ed_pub0. by apply ed25519_public_ok. }
  { intros c. by eapply Hval. }
  apply (duo_bind (as_peer (wrap_stream (max_frame_bytes (nd_hs_cfg na))) addr env1)
    (as_peer (wrap_stream (max_frame_bytes (nd_hs_cfg nb))) addr' env2)) in Hy.
  cbn [left right to_right to_left duo proc_bind] in Hy. unfold duo in Hd.
  rewrite (node_connect_run seeda ia ida), (node_accept_run seedb ib idb), Hna, Hnb in Hd by congruence.
  destruct (duo_uniform 8 _ _ m d Hy (duo_done _ _ _ _ _ _) Hd) as (k & Hk & Hend).
  exists k. split; [lia|]. eexists. split; [exact Hend|]. eexists _, _, ca, cb, ss. rewrite Hlim. by split.
Qed.

(** C17: messages between connected peers.  The sender's session is at message
    [n] of a chain, the receiver's has seen the window [w] of it; both sessions
    use plain headers, the sender's DH key is not all zeros, the message key is
    not weak and within the length of the chain, the sender's clock moves at
    most 300 seconds, is at most 30 seconds ahead of the receiver's, and the
    frame arrives within a day.  For every plaintext of 1 byte to the session's
    message limit the frame is 108 bytes longer.  If that is within the frame
    limit of the sender's stream, [send_message] puts it on the stream, and if
    it is within the receiver's, [recv_message] on that frame returns the
    plaintext or refuses it exactly as the window does; afterwards the two are
    paired again, the sender one message further.  A frame beyond the sender's
    limit (with the default of 10 MiB, that of a plaintext of the last 108
    sizes) is refused with [Io] and one beyond the receiver's with [Framing],
    the receiver's session unchanged; and a refused frame or a failed write
    still uses up the sender's message key. *)
Theorem p2p_message_delivered k sk env1 env2 lo hi rlo rhi pa n c1 pb room w c2 pt :
  sane_clock env1 lo hi -> rng_healthy env1 -> hi <= lo + 300 ->
  sane_clock env2 rlo rhi -> hi <= rlo + 30 -> rhi <= lo + 86400 ->
  length sk = 32%nat -> all_zero (x25519_public sk) = false -> usable k n ->
  enable_header_encryption (config (peer_session pa)) = false ->
  enable_header_encryption (config (peer_session pb)) = false ->
  send_rep hi k sk n (state (peer_session pa)) -> messages_sent (state (peer_session pa)) + 1 < U64_MAX ->
  1 <= len pt <= limits.MAX_MESSAGE_SIZE ->
  recv_rep k (x25519_public sk) room (state (peer_session pb)) w ->
  messages_received (state (peer_session pb)) < U64_MAX ->
  exists frame pa' c1' pb' c2', len frame = len pt + 108 /\
    (forall wrote, send_message pt wrote env1 pa c1 =
       (if (len pt + 108 <=? fs_max_frame_length (peer_stream pa)) && wrote then Ok frame else Err P2pError.Io, pa', c1')) /\
    send_rep hi k sk (S n) (state (peer_session pa')) /\
    (if len pt + 108 <=? fs_max_frame_length (peer_stream pb) then
       recv_message (Frame frame) env2 pb c2 =
         (map_err (fun _ => P2pError.Crypto "decrypt") (verdict (Window.deliver room w n) pt), pb', c2') /\
       recv_rep k (x25519_public sk) room (state (peer_session pb')) (Window.after w (Window.deliver room w n))
     else recv_message (Frame frame) env2 pb c2 = (Err P2pError.Framing, pb, c2)).
Proof.
  intros Hc Hr Hsh Hc2 Hskew Hage Hsk Hnz Hu Hh Hh2 Hs Hms Hpt Hrep Hmr.
  destruct (encrypt_sends (config (peer_session pa)) env1 lo hi rlo rhi Hh Hc Hr Hsh Hskew Hage k sk n
    (state (peer_session pa)) c1 pt (bstr "p2p-message")) as (data & st & c3 & E3 & Hgen & F1 & F2 & F3 & F4);
    try done.
  destruct (decrypt_deliver (config (peer_session pb)) k (x25519_public sk) room rlo rhi env2 Hh2 Hc2
    (x25519_public_len _ Hsk) Hnz w (previous_counter (state (peer_session pa))) n pt (bstr "p2p-message") data
    (state (peer_session pb)) c2 Hrep Hmr Hgen Hu) as (st2 & c4 & E4 & Hrep' & _).
  pose proof (genuine_len _ _ _ _ _ _ _ _ _ (x25519_public_len _ Hsk) Hgen) as Hlen.
  eexists data, (set_peer_session (set_state st (peer_session pa)) pa), c3,
    (set_peer_session (set_state st2 (peer_session pb)) pb), c4. split; [done|]. split; [|split].
  - intros wrote. unfold send_message, bind at 1, m_map_err, zoom. rewrite (session_encrypt_run _ _ _ _ _ _ _ _ E3). cbn [map_err].
    unfold bind, get, frame_fits. rewrite Hlen. cbn [peer_stream set_peer_session]. by destruct (_ && wrote).
  - eapply send_rep_next; try done. simpl. lia.
  - unfold recv_message, bind, get, decode_frame, frame_fits. rewrite Hlen. destruct (_ <=? _); [|done].
    unfold m_map_err, zoom. rewrite (session_decrypt_run _ _ _ _ _ _ _ _ E4). by split.
Qed.

End NodeProperties.

(** ** Witnesses *)

Definition demo_ida : IdentityKeyPair :=
  mkIdentity (Some (repeat x11 32)) (repeat x11 32) (Some (repeat x22 32)) (repeat x22 32) 1700000000.
Definition demo_idb : IdentityKeyPair :=
  mkIdentity (Some (repeat x12 32)) (repeat x12 32) (Some (repeat x23 32)) (repeat x23 32) 1700000000.

Definition demo_p2p_ctx (i : IdentityKeyPair) : SecureContext :=
  set_keystore (mkKeyStore (Some i) None ∅ 1 0 None None ∅ None) (demo_ctx ∅ []).

Definition demo_config (expected : option bytes) : P2pConfig :=
  mkP2pConfig "0.0.0.0:0" 30 256 (10 * 1024 * 1024) false None None expected.

(** The node a context brings up. *)
Definition demo_node (expected : option bytes) (i : IdentityKeyPair) (env : Env) : P2pNode * Ctr :=
  match P2pNode_new (P := toy) (demo_config expected) (demo_p2p_ctx i) (Ok tt) env ctr0 with
  | (Ok n, c) => (n, c)
  | (_, c) => (mkP2pNode (demo_p2p_ctx i) [] demo_bundle [] None P2pHandshakeConfig_default P2pConfig_default, c)
  end.

Lemma demo_identified i seed ix :
  i = mkIdentity (Some seed) seed (Some ix) ix 1700000000 -> length seed = 32%nat -> length ix = 32%nat ->
  all_zero seed = false -> identified (P := toy) seed ix i (demo_p2p_ctx i).
Proof. intros -> H1 H2 H3. split; try reflexivity; assumption. Qed.

Definition demo_na : P2pNode := fst (demo_node (Some (repeat x12 32)) demo_ida demo_env1).
Definition demo_nb : P2pNode := fst (demo_node None demo_idb demo_env2).

Lemma demo_good_draws :
  good_draws (P := toy) (repeat x22 32) (repeat x23 32) (nd_spk_secret demo_nb) None (nd_pq_sk demo_nb) demo_ida demo_idb
    (repeat x06 16) (repeat x06 16) demo_env1 (drawn demo_env1 ctr0) (drawn demo_env2 ctr0).
Proof. split; intros; vm_compute; reflexivity. Qed.

Lemma p2p_connection_completes_witness :
  exists k, (0 + k = 8)%nat /\
  reaches k
    (duo (node_connect (P := toy) (C := LegacyP2p.codec) demo_na "10.0.0.2:4000" (Ok tt) true demo_env1 ctr0)
         (node_accept (P := toy) (C := LegacyP2p.codec) demo_nb (Ok "10.0.0.1:4000"%string) demo_env2 ctr0))
    (connected (P := toy) (repeat x11 32) (repeat x12 32) (drawn demo_env1 ctr0) 1700000000 2000 10485760 10485760).
Proof.
  apply (p2p_connection_completes (P := toy) (L := toy_laws) (C := LegacyP2p.codec) (CL := LegacyP2p.codec_laws)
    (repeat x11 32) (repeat x22 32) demo_ida (demo_p2p_ctx demo_ida)
    (repeat x12 32) (repeat x23 32) demo_idb (demo_p2p_ctx demo_idb) demo_na demo_nb (demo_config None) "10.0.0.2:4000" "10.0.0.1:4000"
    demo_env1 demo_env2 1700000000 1700000000 1700000000 1700000000 ctr0 ctr0
    (snd (demo_node None demo_idb demo_env2)) ctr0 0).
  - apply demo_identified; reflexivity.
  - apply demo_identified; reflexivity.
  - vm_compute. reflexivity.
  - vm_compute. discriminate.
  - vm_compute. discriminate.
  - vm_compute. reflexivity.
  - exact (proj1 demo_clock).
  - lia.
  - exact demo_env1_healthy.
  - exact demo_env2_clock.
  - lia.
  - vm_compute. discriminate.
  - exact demo_env2_healthy.
  - lia.
  - vm_compute. reflexivity.
  - vm_compute. reflexivity.
  - exact demo_good_draws.
  - vm_compute. split; discriminate.
  - apply nsteps_O.
Defined.

Definition demo_end (role : HandshakeRole.t) (own other : bytes) (limit : Z) : Peer :=
  mkPeer [] (wrap_stream limit) (demo_side role own other) "10.0.0.2:4000".

(** The two bytes make a frame of 110: it passes at the sender, whose limit is
    110, and at a receiver with the default limit, not at one with 109. *)
Lemma p2p_message_delivered_witness :
  exists frame, fst (fst (send_message (P := toy) (bstr "hi") true demo_env1
      (demo_end HandshakeRole.Initiator demo_sk1 demo_sk2 110) ctr0)) = Ok frame /\
    fst (fst (recv_message (P := toy) (Frame frame) demo_env1
      (demo_end HandshakeRole.Responder demo_sk2 demo_sk1 10485760) ctr0)) = Ok (bstr "hi") /\
    fst (fst (recv_message (P := toy) (Frame frame) demo_env1
      (demo_end HandshakeRole.Responder demo_sk2 demo_sk1 109) ctr0)) = Err P2pError.Framing.
Proof.
  edestruct (p2p_message_delivered (P := toy) (L := toy_laws) (session_chain (P := toy) demo_key) demo_sk1
    demo_env1 demo_env1 1700000000 1700000000 1700000000 1700000000
    (demo_end HandshakeRole.Initiator demo_sk1 demo_sk2 110) 0 ctr0
    (demo_end HandshakeRole.Responder demo_sk2 demo_sk1 10485760) 2000 Window.init ctr0 (bstr "hi"))
    as (frame & pa & c1 & pb & c2 & El & E1 & _ & E2 & _);
    [exact demo_clock | exact demo_env1_healthy | lia | exact demo_clock | lia | lia | reflexivity | reflexivity
    | apply demo_usable; lia | reflexivity | reflexivity | | | | | |].
  - apply (established_send (P := toy) demo_key demo_sk1 demo_sk2 demo_lax 1700000000 1700000000
      (session_id (demo_side HandshakeRole.Initiator demo_sk1 demo_sk2)) 1700000000). lia.
  - vm_compute. reflexivity.
  - vm_compute. split; discriminate.
  - apply (established_recv (P := toy) (L := toy_laws) demo_key demo_sk2 demo_sk1 demo_lax 1700000000 1700000000
      (session_id (demo_side HandshakeRole.Responder demo_sk2 demo_sk1))). vm_compute. split; discriminate.
  - vm_compute. reflexivity.
  - exists frame. rewrite (E1 true), E2. split; [reflexivity|]. split; [reflexivity|].
    unfold recv_message, bind, get, decode_frame, frame_fits. rewrite El. reflexivity.
Defined.

(** A frame beyond the sender's limit is not sent, and its key is gone. *)
Example long_frame_uses_a_key :
  let pa := demo_end HandshakeRole.Initiator demo_sk1 demo_sk2 109 in
  let r := send_message (P := toy) (bstr "hi") true demo_env1 pa ctr0 in
  fst (fst r) = Err P2pError.Io /\
  option_map ck_index (sending_chain (state (peer_session pa))) = Some 0 /\
  option_map ck_index (sending_chain (state (peer_session (snd (fst r))))) = Some 1.
Proof. vm_compute. repeat split. Qed.
