(* ===== verification/Transport.v ===== *)
(** * Outgoing connections ([core/src/p2p/transport.rs])

    Dialling directly or through a SOCKS5 proxy, and the parser of addresses.
    The TCP stream is a process environment: dial, write, read exactly [n]
    bytes. *)

From S2P Require Import Prelude Effects Process Text P2pHandshake.
#[local] Open Scope Z_scope.
#[local] Open Scope sibna_scope.

Inductive TcpEv := Dial (addr : bytes) | WriteAll (b : bytes) | ReadExact (n : nat).

Definition TcpAns (e : TcpEv) : Type :=
  match e with Dial _ => bool | WriteAll _ => bool | ReadExact _ => option bytes end.

Abbreviation TcpAct := (Act TcpEv TcpAns P2pError.t).

Definition io_ok {A} (b : A) (ok : bool) : TcpAct A := act_res (if ok then Ok b else Err P2pError.Io).

Definition dial (addr : bytes) : TcpAct unit := let~ ok := ask (Dial addr) in io_ok tt ok.
Definition write_all (b : bytes) : TcpAct unit := let~ ok := ask (WriteAll b) in io_ok tt ok.
Definition read_exact (n : nat) : TcpAct bytes :=
  let~ r := ask (ReadExact n) in act_res (ok_or r P2pError.Io).

Definition connect (addr : bytes) (max_message_size : Z) : TcpAct FramedStream :=
  let~ _ := dial addr in act_ret (wrap_stream max_message_size).

Definition socks5_error_message (code : u8) : string :=
  match b2z code with
  | 1 => "general failure"
  | 2 => "connection not allowed by ruleset"
  | 3 => "network unreachable"
  | 4 => "host unreachable"
  | 5 => "connection refused"
  | 6 => "TTL expired"
  | 7 => "command not supported"
  | 8 => "address type not supported"
  | _ => "unknown error"
  end.

(** [a[i]] of a fixed-size buffer. *)
Definition at_index (b : bytes) (i : nat) : TcpAct u8 := act_res (or_panic (b !! i)).

Definition handshake_err {A} (text : string) : TcpAct A := act_res (Err (P2pError.Handshake text)).

Definition socks5_greeting : bytes := [x05; x01; x00].

(** [host.len() as u8], then the port in network order. *)
Definition socks5_request (host : bytes) (port : Z) : bytes :=
  [x05; x01; x00; x03] ++ [z2b (len host)] ++ host ++ [z2b (Z.shiftr port 8)] ++ [z2b (Z.land port 255)].

(** BND.ADDR and BND.PORT of the reply, by address type. *)
Definition read_bound (atyp : u8) : TcpAct bytes :=
  match b2z atyp with
  | 1 => read_exact 6
  | 4 => read_exact 18
  | 3 => let~ len_buf := read_exact 1 in
         let~ l := at_index len_buf 0 in
         read_exact (Z.to_nat (b2z l + 2))
  | _ => handshake_err "SOCKS5: unknown address type in reply"
  end.

Definition connect_via_socks5 (proxy_addr target_host : bytes) (target_port max_message_size : Z)
    : TcpAct FramedStream :=
  let~ _ := dial proxy_addr in
  let~ _ := write_all socks5_greeting in
  let~ greeting_reply := read_exact 2 in
  let~ version := at_index greeting_reply 0 in
  if negb (Byte.eqb version x05) then handshake_err "SOCKS5: unexpected protocol version from proxy"
  else
  let~ method := at_index greeting_reply 1 in
  if Byte.eqb method xff then handshake_err "SOCKS5: proxy rejected all authentication methods"
  else if 255 <? len target_host then handshake_err "SOCKS5: hostname too long (max 255 bytes)"
  else
  let~ _ := write_all (socks5_request target_host target_port) in
  let~ reply_header := read_exact 4 in
  let~ version := at_index reply_header 0 in
  if negb (Byte.eqb version x05) then handshake_err "SOCKS5: unexpected version in CONNECT reply"
  else
  let~ code := at_index reply_header 1 in
  if negb (Byte.eqb code x00)
  then handshake_err ("SOCKS5: proxy refused connection — " ++ socks5_error_message code)
  else
  let~ atyp := at_index reply_header 3 in
  let~ _ := read_bound atyp in
  act_ret (wrap_stream max_message_size).

Definition parse_u16 (s : bytes) : P2pResult Z :=
  ok_or (parse_uint 65535 s) (P2pError.Handshake "invalid port in address").

Definition parse_host_port (addr : bytes) : P2pResult (bytes * Z) :=
  match find_byte x5d addr with
  | Some bracket_end =>
      let? host := str_slice 1 bracket_end addr in
      let? rest := str_slice (bracket_end + 1) (length addr) addr in
      let port_str := default [] (strip_prefix x3a rest) in
      let? port := parse_u16 port_str in
      Ok (host, port)
  | None =>
      let port_str := match rfind_byte x3a addr with Some i => drop (S i) addr | None => addr end in
      let? host := match rfind_byte x3a addr with
                   | Some i => Ok (take i addr)
                   | None => Err (P2pError.Handshake "missing host in address")
                   end in
      let? port := parse_u16 port_str in
      Ok (host, port)
  end.

Definition connect_with_optional_proxy (addr : bytes) (proxy : option bytes) (require_anonymity : bool)
    (max_message_size : Z) : TcpAct FramedStream :=
  match proxy with
  | Some proxy_addr =>
      let~ (host, port) := act_res (parse_host_port addr) in
      connect_via_socks5 proxy_addr host port max_message_size
  | None => if require_anonymity then act_res (Err P2pError.Io) else connect addr max_message_size
  end.

(** ** A peer that has sent a byte string

    Runs a process against the bytes the other end delivers: the outcome, what
    was written and what is left unread.  A read beyond the end fails. *)
Fixpoint run_tcp {A} (p : Proc TcpEv TcpAns P2pError.t A) (input : bytes) : P2pResult A * bytes * bytes :=
  match p with
  | Done r _ => (r, [], input)
  | Ask e k =>
      match e return (TcpAns e -> _) -> _ with
      | Dial _ => fun run => run true input
      | WriteAll b => fun run => let '(r, out, rest) := run true input in (r, b ++ out, rest)
      | ReadExact n => fun run =>
          if (n <=? length input)%nat then run (Some (take n input)) (drop n input) else run None []
      end (fun a => run_tcp (k a))
  end.

(** ** Where a connection goes *)

(** Every address the process dials, whatever it is answered, satisfies [ok]. *)
Inductive dials_only {A} (ok : bytes -> Prop) : Proc TcpEv TcpAns P2pError.t A -> Prop :=
| dials_done r c : dials_only ok (Done r c)
| dials_ask e k : (forall a, e = Dial a -> ok a) -> (forall x, dials_only ok (k x)) -> dials_only ok (Ask e k).

Section Dials.
Context (ok : bytes -> Prop).

Lemma dials_bind {A B} (m : TcpAct A) (f : A -> TcpAct B) env c :
  dials_only ok (m env c) -> (forall a env c, dials_only ok (f a env c)) -> dials_only ok (act_bind m f env c).
Proof.
  intros Hm Hf. unfold act_bind. induction Hm as [r c'|e k He _ IH]; cbn [proc_bind].
  - destruct r; [apply Hf | constructor..].
  - by constructor.
Qed.

Lemma dials_res {A} (r : P2pResult A) env c : dials_only ok (act_res r env c).
Proof. constructor. Qed.

Lemma dials_ret {A} (a : A) env c : dials_only ok (act_ret a env c : Proc TcpEv TcpAns P2pError.t A).
Proof. constructor. Qed.

Lemma dials_write b env c : dials_only ok (write_all b env c).
Proof. constructor; [done|]. intros x. destruct x; constructor. Qed.

Lemma dials_read n env c : dials_only ok (read_exact n env c).
Proof. constructor; [done|]. intros x. destruct x; constructor. Qed.

Lemma dials_dial a env c : ok a -> dials_only ok (dial a env c).
Proof. intros H. constructor; [by intros ? [= <-]|]. intros x. destruct x; constructor. Qed.

End Dials.

#[local] Hint Resolve dials_res dials_ret dials_write dials_read dials_dial : core.

Ltac dials :=
  cbv beta;
  lazymatch goal with
  | |- forall _, _ => intros; dials
  | |- dials_only _ (act_bind _ _ _ _) => apply dials_bind; dials
  | |- dials_only _ ((match ?b with _ => _ end) _ _) => destruct b; dials
  | |- _ => unfold at_index, handshake_err; auto
  end.

(** No connection bypasses the proxy.  With a proxy configured, whatever
    the network answers, the only address ever dialled is the proxy's (the
    target's name goes into the SOCKS5 request, unresolved); when anonymity is
    required and there is no proxy, the call returns an error without asking
    the network for anything. *)
Theorem proxy_is_never_bypassed addr proxy anon max env c :
  (forall p, proxy = Some p -> dials_only (eq p) (connect_with_optional_proxy addr proxy anon max env c)) /\
  (proxy = None -> anon = true ->
   connect_with_optional_proxy addr proxy anon max env c = Done (Err P2pError.Io) c).
Proof.
  split; [|by intros -> ->]. intros p ->. unfold connect_with_optional_proxy, connect_via_socks5, read_bound. dials.
Qed.

(** ** The SOCKS5 exchange *)

(** The bound address of a reply, as its type says. *)
Definition bound_form (atyp : u8) (bound : bytes) : Prop :=
  match b2z atyp with
  | 1 => length bound = 6%nat
  | 4 => length bound = 18%nat
  | 3 => exists l name, bound = l :: name /\ length name = Z.to_nat (b2z l + 2)
  | _ => False
  end.

Lemma run_read {A} n (k : bytes -> TcpAct A) env c p input :
  length p = n -> run_tcp (act_bind (read_exact n) k env c) (p ++ input) = run_tcp (k p env c) input.
Proof.
  intros <-. cbn [run_tcp act_bind read_exact ask proc_bind act_res].
  rewrite (proj2 (Nat.leb_le _ _)) by (rewrite length_app; lia).
  by rewrite take_app_length, drop_app_length.
Qed.

Lemma run_read_short {A} n (k : bytes -> TcpAct A) env c input :
  (length input < n)%nat -> run_tcp (act_bind (read_exact n) k env c) input = (Err P2pError.Io, [], []).
Proof.
  intros H. cbn [run_tcp act_bind read_exact ask proc_bind act_res].
  by rewrite (proj2 (Nat.leb_gt _ _)) by lia.
Qed.

Lemma run_write {A} b (k : unit -> TcpAct A) env c input :
  run_tcp (act_bind (write_all b) k env c) input =
  let '(r, out, rest) := run_tcp (k tt env c) input in (r, b ++ out, rest).
Proof. done. Qed.

Lemma run_dial {A} a (k : unit -> TcpAct A) env c input :
  run_tcp (act_bind (dial a) k env c) input = run_tcp (k tt env c) input.
Proof. done. Qed.

Lemma run_index {A} b i x (k : u8 -> TcpAct A) env c input :
  b !! i = Some x -> run_tcp (act_bind (at_index b i) k env c) input = run_tcp (k x env c) input.
Proof. intros H. unfold act_bind, at_index. by rewrite H. Qed.

Lemma run_bound {A} atyp bound (k : bytes -> TcpAct A) env c input :
  bound_form atyp bound -> exists b, run_tcp (act_bind (read_bound atyp) k env c) (bound ++ input) =
    run_tcp (k b env c) input.
Proof.
  unfold bound_form, read_bound. intros H. destruct (b2z atyp) as [|p|p] eqn:E; [done| |done].
  destruct p as [[p|p|]|[p|[p|p|]|]|]; try done; [|exists bound; by apply run_read..].
  destruct H as (l & name & -> & Hl). exists name.
  unfold act_bind, at_index, read_exact, act_bind, ask, act_res.
  cbn [proc_bind run_tcp app length Nat.leb firstn skipn ok_or or_panic lookup list_lookup].
  rewrite drop_0. rewrite (proj2 (Nat.leb_le _ _)) by (rewrite length_app; lia).
  rewrite <- Hl, take_app_length, drop_app_length. done.
Qed.

(** What is read when the bound address is: its form. *)
Lemma run_bound_ok {A} atyp (k : bytes -> TcpAct A) env c input a out rest :
  run_tcp (act_bind (read_bound atyp) k env c) input = (Ok a, out, rest) ->
  exists bound input' b, input = bound ++ input' /\ bound_form atyp bound /\
    run_tcp (k b env c) input' = (Ok a, out, rest).
Proof.
  unfold bound_form, read_bound. intros H. destruct (b2z atyp) as [|p|p] eqn:E; [done| |done].
  assert (Hread : forall n, run_tcp (act_bind (read_exact n) k env c) input = (Ok a, out, rest) ->
    exists bound input' b, input = bound ++ input' /\ length bound = n /\ run_tcp (k b env c) input' = (Ok a, out, rest)).
  { intros n Hr. destruct (le_lt_dec n (length input)); [|by rewrite run_read_short in Hr].
    exists (take n input), (drop n input), (take n input). split; [by rewrite take_drop|].
    split; [rewrite length_take; lia|]. rewrite <- (take_drop n input) in Hr.
    rewrite run_read in Hr; [done | rewrite length_take; lia]. }
  destruct p as [[p|p|]|[p|[p|p|]|]|]; try done; auto.
  unfold act_bind, at_index, read_exact, act_bind, ask, act_res in H. cbn [proc_bind run_tcp] in H.
  destruct input as [|l input]; [done|].
  cbn [proc_bind run_tcp length Nat.leb firstn skipn ok_or or_panic lookup list_lookup] in H.
  rewrite drop_0 in H. set (n := Z.to_nat (b2z l + 2)) in *. destruct (Nat.leb_spec n (length input)); [|done].
  exists (l :: take n input), (drop n input), (take n input). split; [simpl; by rewrite take_drop|].
  split; [|done]. exists l, (take n input). split; [done|]. rewrite length_take. lia.
Qed.

(** The client's run, on a proxy that sends at least both headers. *)
Lemma socks5_run proxy host port max env c b0 b1 r0 r1 r2 r3 input :
  run_tcp (connect_via_socks5 proxy host port max env c) (b0 :: b1 :: r0 :: r1 :: r2 :: r3 :: input) =
  let fail text := Err (P2pError.Handshake text) in
  if negb (Byte.eqb b0 x05)
  then (fail "SOCKS5: unexpected protocol version from proxy"%string, socks5_greeting, r0 :: r1 :: r2 :: r3 :: input)
  else if Byte.eqb b1 xff
  then (fail "SOCKS5: proxy rejected all authentication methods"%string, socks5_greeting, r0 :: r1 :: r2 :: r3 :: input)
  else if 255 <? len host
  then (fail "SOCKS5: hostname too long (max 255 bytes)"%string, socks5_greeting, r0 :: r1 :: r2 :: r3 :: input)
  else
  let sent := socks5_greeting ++ socks5_request host port in
  if negb (Byte.eqb r0 x05) then (fail "SOCKS5: unexpected version in CONNECT reply"%string, sent, input)
  else if negb (Byte.eqb r1 x00)
  then (fail ("SOCKS5: proxy refused connection — " ++ socks5_error_message r1)%string, sent, input)
  else let '(r, out, rest) := run_tcp (act_bind (read_bound r3) (fun _ => act_ret (wrap_stream max)) env c) input in
       (r, sent ++ out, rest).
Proof.
  unfold connect_via_socks5. rewrite run_dial, run_write, (run_read 2 _ _ _ [b0; b1] (r0 :: r1 :: r2 :: r3 :: input) eq_refl).
  erewrite run_index by reflexivity. destruct (Byte.eqb b0 x05); [|done]. cbn [negb].
  erewrite run_index by reflexivity. destruct (Byte.eqb b1 xff); [done|].
  destruct (255 <? len host); [done|]. rewrite run_write.
  rewrite (run_read 4 _ _ _ [r0; r1; r2; r3] input eq_refl).
  erewrite run_index by reflexivity. destruct (Byte.eqb r0 x05); [|cbn [negb]; cbn -[socks5_request]; by rewrite app_nil_r]. cbn [negb].
  erewrite run_index by reflexivity. destruct (Byte.eqb r1 x00); [|cbn [negb]; cbn -[socks5_request]; by rewrite app_nil_r]. cbn [negb].
  erewrite run_index by reflexivity. destruct (run_tcp _ input) as [[r out] rest]. by rewrite app_assoc.
Qed.

(** A proxy that hangs up earlier. *)
Lemma socks5_short proxy host port max env c input :
  (length input < 6)%nat -> is_err (fst (fst (run_tcp (connect_via_socks5 proxy host port max env c) input))) = true.
Proof.
  intros H. unfold connect_via_socks5. rewrite run_dial, run_write.
  destruct input as [|b0 [|b1 input]]; [done|done|]. rewrite (run_read 2 _ _ _ [b0; b1] input eq_refl).
  erewrite run_index by reflexivity. destruct (Byte.eqb b0 x05); [|done]. cbn [negb].
  erewrite run_index by reflexivity. destruct (Byte.eqb b1 xff); [done|].
  destruct (255 <? len host); [done|]. rewrite run_write, run_read_short by (simpl in H; lia). done.
Qed.

Lemma read_bound_no_panic {A} atyp (a : A) env c input :
  fst (fst (run_tcp (act_bind (read_bound atyp) (fun _ => act_ret a) env c) input)) <> Panic.
Proof.
  assert (Hr : forall n, fst (fst (run_tcp (act_bind (read_exact n) (fun _ => act_ret a) env c) input)) <> Panic).
  { intros n. unfold act_bind, read_exact, act_bind, ask. cbn [proc_bind run_tcp]. by destruct (_ <=? _)%nat. }
  unfold read_bound. destruct (b2z atyp) as [|p|p]; [done| |done].
  destruct p as [[p|p|]|[p|[p|p|]|]|]; try done.
  unfold act_bind, at_index, read_exact, act_bind, ask, act_res. cbn [proc_bind run_tcp].
  destruct input as [|l input]; [done|]. cbn [length Nat.leb firstn skipn ok_or proc_bind or_panic lookup list_lookup run_tcp].
  by destruct (_ <=? _)%nat.
Qed.

(** C34: the SOCKS5 client, against any bytes the proxy sends.  The connection is
    made exactly when the host fits its length byte and the bytes start with a
    version-5 method other than [0xFF], a version-5 success reply, and the bound
    address its type announces; then the client has written the greeting and
    the request, and everything behind the reply is left for the framed stream:
    not a byte of the tunnel is swallowed.  No proxy makes the client panic. *)
Theorem socks5_tunnel proxy host port max input env c :
  let run := run_tcp (connect_via_socks5 proxy host port max env c) input in
  (forall fs out rest, run = (Ok fs, out, rest) <->
     exists method rsv atyp bound, len host <= 255 /\ method <> xff /\ bound_form atyp bound /\
       input = [x05; method] ++ [x05; x00; rsv; atyp] ++ bound ++ rest /\
       fs = wrap_stream max /\ out = socks5_greeting ++ socks5_request host port) /\
  fst (fst run) <> Panic.
Proof.
  intros run. subst run. destruct (le_lt_dec 6 (length input)) as [Hl|Hl].
  2:{ pose proof (socks5_short proxy host port max env c input Hl) as He.
      destruct (run_tcp _ input) as [[r out] rest]. split; [|by destruct r].
      intros fs out' rest'. split; [intros [= -> -> ->]; done|].
      intros (? & ? & ? & ? & _ & _ & _ & -> & _). simpl in Hl. lia. }
  destruct input as [|b0 [|b1 [|r0 [|r1 [|r2 [|r3 input]]]]]]; try (simpl in Hl; lia). clear Hl. rewrite socks5_run. cbv zeta.
  pose proof (read_bound_no_panic r3 (wrap_stream max) env c input) as Hnp. split.
  - intros fs out rest. split.
    + destruct (Byte.eqb b0 x05) eqn:E0; [|done]. destruct (Byte.eqb b1 xff) eqn:E1; [done|].
      destruct (Z.ltb_spec 255 (len host)); [done|]. destruct (Byte.eqb r0 x05) eqn:E2; [|done].
      destruct (Byte.eqb r1 x00) eqn:E3; [|done]. cbn [negb]. apply byte_eqb_eq in E0, E2, E3. subst.
      destruct (run_tcp _ input) as [[r out'] rest'] eqn:Er. intros H1. injection H1 as -> <- ->.
      apply run_bound_ok in Er as (bound & input' & b & -> & Hb & Er). injection Er as <- <- ->.
      exists b1, r2, r3, bound. rewrite app_nil_r. split; [done|]. split; [by intros ->|]. done.
    + intros (method & rsv & atyp & bound & Hh & Hm & Hb & Hi & -> & ->). injection Hi as -> -> -> -> -> -> ->.
      destruct (Byte.eqb method xff) eqn:E1; [by apply byte_eqb_eq in E1|].
      destruct (Z.ltb_spec 255 (len host)); [lia|]. change (Byte.eqb x05 x05) with true.
      change (Byte.eqb x00 x00) with true. cbn [negb].
      destruct (run_bound atyp bound (fun _ => act_ret (wrap_stream max)) env c rest Hb) as (b & ->).
      cbn [act_ret run_tcp]. by rewrite app_nil_r.
  - destruct (negb _); [done|]. destruct (Byte.eqb b1 xff); [done|]. destruct (255 <? len host); [done|].
    destruct (negb _); [done|]. destruct (negb _); [done|]. by destruct (run_tcp _ input) as [[r out] rest].
Qed.

(** ** Addresses *)

(** Addresses.  [host:port] and [[host]:port] parse back to the host and
    the port they were written from, for every host without a closing bracket
    and every 16-bit port; and the parser panics when a closing bracket comes
    first: [addr[1..0]] is not a range. *)
Theorem parse_host_port_roundtrip host port :
  0 <= port <= 65535 -> ~ In x5d host ->
  parse_host_port (host ++ [x3a] ++ show_u16 port) = Ok (host, port) /\
  (is_ascii host -> parse_host_port ([x5b] ++ host ++ [x5d; x3a] ++ show_u16 port) = Ok (host, port)) /\
  (forall rest, parse_host_port (x5d :: rest) = Panic).
Proof.
  intros Hp Hh.
  assert (Hd : forall b, In b (show_u16 port) -> 48 <= b2z b <= 57) 
    by (intros b Hb; apply (show_digits_ascii 5 port b); [lia | done]).
  assert (Hbr : ~ In x5d (show_u16 port)) by (intros [_ H]%Hd; by apply H).
  assert (Hco : ~ In x3a (show_u16 port)) by (intros [_ H]%Hd; by apply H).
  split; [|split].
  - unfold parse_host_port. rewrite (proj2 (find_byte_none x5d _)).
    2:{ rewrite !in_app_iff. intros [H|[[H|[]]|H]]; done. }
    cbn [app]. rewrite rfind_byte_app by done. rewrite take_app_length. cbn [res_bind].
    replace (drop (S (length host)) (host ++ x3a :: show_u16 port)) with (show_u16 port).
    2:{ change (host ++ x3a :: show_u16 port) with (host ++ [x3a] ++ show_u16 port). rewrite app_assoc.
        replace (S (length host)) with (length (host ++ [x3a])) by (rewrite length_app; simpl; lia).
        by rewrite drop_app_length. }
    unfold parse_u16. by rewrite parse_show_u16.
  - intros Ha. set (s := [x5b] ++ host ++ [x5d; x3a] ++ show_u16 port).
    assert (Hs : is_ascii s).
    { apply Forall_app. split; [repeat constructor|]. apply Forall_app. split; [done|].
      apply Forall_app. split; [repeat constructor|]. apply List.Forall_forall. intros b Hb%Hd. lia. }
    unfold parse_host_port. subst s.
    assert (Ef : find_byte x5d ([x5b] ++ host ++ [x5d; x3a] ++ show_u16 port) = Some (S (length host))).
    { apply (find_byte_app x5d (x5b :: host) (x3a :: show_u16 port)). intros [H|H]; [done | by apply Hh]. }
    rewrite Ef. rewrite !str_slice_ascii; try done; try (rewrite !length_app; simpl; lia); [|lia].
    cbn [res_bind]. cbn [app].
    replace (take (S (length host) - 1) (drop 1 (x5b :: host ++ x5d :: x3a :: show_u16 port))) with host.
    2:{ cbn [skipn]. rewrite drop_0, Nat.sub_succ, Nat.sub_0_r. by rewrite take_app_length. }
    replace (drop (S (length host) + 1) (x5b :: host ++ x5d :: x3a :: show_u16 port)) with (x3a :: show_u16 port).
    2:{ change (x5b :: host ++ x5d :: x3a :: show_u16 port) with ((x5b :: host) ++ [x5d] ++ x3a :: show_u16 port).
        rewrite app_assoc. replace (S (length host) + 1)%nat with (length ((x5b :: host) ++ [x5d]))
          by (rewrite length_app; simpl; lia). by rewrite drop_app_length. }
    rewrite take_ge by (simpl; rewrite !length_app; simpl; lia). cbn [strip_prefix].
    rewrite (proj2 (byte_eqb_eq x3a x3a) eq_refl). change (default [] (Some (show_u16 port))) with (show_u16 port).
    unfold parse_u16. by rewrite parse_show_u16.
  - done.
Qed.

Lemma parse_host_port_roundtrip_witness :
  parse_host_port (bstr "relay:443") = Ok (bstr "relay", 443) /\ parse_host_port (bstr "[::1]:80") = Ok (bstr "::1", 80).
Proof.
  split.
  - destruct (parse_host_port_roundtrip (bstr "relay") 443) as (H & _); [lia | vm_compute; intuition discriminate | exact H].
  - destruct (parse_host_port_roundtrip (bstr "::1") 80) as (_ & H & _); [lia | vm_compute; intuition discriminate |].
    apply H. repeat constructor.
Defined.
