(* ===== verification/Server.v ===== *)
(** * The relay server: state, database and requests

    What the handlers of [server/src] share: the database of [db.rs], the
    application state and the helpers of [main.rs], the tokens of [auth.rs].
    Every database operation may fail; which ones do is a parameter of the
    state.  [redb], [jsonwebtoken] and the data format of [serde_json] are
    parameters with their documented behaviour. *)

From S2P Require Import Prelude Effects Errors Primitives Codec Text Session RateLimit.
#[local] Open Scope Z_scope.
#[local] Open Scope sibna_scope.

(** ** Hexadecimal *)

Definition hex_value (b : u8) : option Z :=
  let v := b2z b in
  if (48 <=? v) && (v <=? 57) then Some (v - 48)
  else if (97 <=? v) && (v <=? 102) then Some (v - 87)
  else if (65 <=? v) && (v <=? 70) then Some (v - 55)
  else None.

(** [hex::decode]: digits of either case, an even number of them. *)
Fixpoint hex_decode (s : bytes) : option bytes :=
  match s with
  | [] => Some []
  | [_] => None
  | a :: b :: t =>
      match hex_value a, hex_value b, hex_decode t with
      | Some x, Some y, Some r => Some (z2b (16 * x + y) :: r)
      | _, _, _ => None
      end
  end.

Lemma hex_value_digit n : 0 <= n < 16 -> hex_value (hex_digit n) = Some n.
Proof.
  intros Hn. unfold hex_digit, hex_value. destruct (Z.ltb_spec n 10); rewrite b2z_z2b_small by lia.
  - destruct (Z.leb_spec 48 (48 + n)); [|lia]. destruct (Z.leb_spec (48 + n) 57); [|lia]. cbn [andb]. f_equal. lia.
  - destruct (Z.leb_spec 48 (87 + n)); [|lia]. destruct (Z.leb_spec (87 + n) 57); [lia|].
    destruct (Z.leb_spec 97 (87 + n)); [|lia]. destruct (Z.leb_spec (87 + n) 102); [|lia]. cbn [andb]. f_equal. lia.
Qed.

Lemma hex_decode_encode l : hex_decode (hex_encode l) = Some l.
Proof.
  induction l as [|b l IH]; [done|]. cbn [hex_encode flat_map app]. fold (hex_encode l). cbn [hex_decode].
  pose proof (b2z_range b). pose proof (Z.div_mod (b2z b) 16). pose proof (Z.mod_pos_bound (b2z b) 16).
  rewrite !hex_value_digit by (try split; try apply Z.div_pos; try apply Z.div_lt_upper_bound; lia).
  fold (hex_encode l) in *. rewrite IH. do 2 f_equal. rewrite <- (z2b_b2z b) at 3. f_equal. lia.
Qed.

Lemma length_hex_encode l : length (hex_encode l) = (2 * length l)%nat.
Proof. induction l as [|b l IH]; [done|]. cbn [hex_encode flat_map app length]. fold (hex_encode l). lia. Qed.

Lemma hex_digit_range n : 0 <= n < 16 -> 48 <= b2z (hex_digit n) <= 57 \/ 97 <= b2z (hex_digit n) <= 102.
Proof. intros Hn. unfold hex_digit. destruct (Z.ltb_spec n 10); rewrite b2z_z2b_small by lia; lia. Qed.

Lemma hex_encode_chars l b : In b (hex_encode l) -> 48 <= b2z b <= 57 \/ 97 <= b2z b <= 102.
Proof.
  unfold hex_encode. rewrite in_flat_map. intros (x & _ & [<-|[<-|[]]]); apply hex_digit_range;
    pose proof (b2z_range x); pose proof (Z.mod_pos_bound (b2z x) 16);
    [split; [apply Z.div_pos | apply Z.div_lt_upper_bound]; lia | lia].
Qed.

Lemma hex_encode_ascii l : is_ascii (hex_encode l).
Proof. apply List.Forall_forall. intros b Hb%hex_encode_chars. lia. Qed.

Lemma hex_encode_not_in l c : ~ (48 <= b2z c <= 57) -> ~ (97 <= b2z c <= 102) -> ~ In c (hex_encode l).
Proof. intros H1 H2 H. apply hex_encode_chars in H. tauto. Qed.

(** ** The database ([db.rs])

    A table is a finite map; redb iterates it in the order of its keys. *)

Module TableKind.
Inductive t := Prekeys | Dedup | Queue | Challenges.
End TableKind.

Abbreviation Table := (gmap bytes bytes).

Record DbState := mkDbState {
  tree_prekeys : Table;
  tree_dedup : Table;
  tree_queue : Table;
  tree_challenges : Table
}.

Definition open_db_empty : DbState := mkDbState ∅ ∅ ∅ ∅.

Definition tree (k : TableKind.t) (d : DbState) : Table :=
  match k with
  | TableKind.Prekeys => tree_prekeys d
  | TableKind.Dedup => tree_dedup d
  | TableKind.Queue => tree_queue d
  | TableKind.Challenges => tree_challenges d
  end.

Definition set_tree (k : TableKind.t) (t : Table) (d : DbState) : DbState :=
  match k with
  | TableKind.Prekeys => mkDbState t (tree_dedup d) (tree_queue d) (tree_challenges d)
  | TableKind.Dedup => mkDbState (tree_prekeys d) t (tree_queue d) (tree_challenges d)
  | TableKind.Queue => mkDbState (tree_prekeys d) (tree_dedup d) t (tree_challenges d)
  | TableKind.Challenges => mkDbState (tree_prekeys d) (tree_dedup d) (tree_queue d) t
  end.

Definition key_le (x y : bytes * bytes) : Prop := HandshakeRole.bytes_lt y.1 x.1 = false.
#[export] Instance key_le_dec x y : Decision (key_le x y).
Proof. unfold key_le. apply _. Defined.

(** All entries, by key. *)
Definition entries (t : Table) : list (bytes * bytes) := merge_sort key_le (map_to_list t).

Fixpoint starts_with (p k : bytes) : bool :=
  match p, k with
  | [], _ => true
  | x :: p, y :: k => Byte.eqb x y && starts_with p k
  | _ :: _, [] => false
  end.

Fixpoint take_while {A} (f : A -> bool) (l : list A) : list A :=
  match l with [] => [] | x :: l => if f x then x :: take_while f l else [] end.

(** The range [prefix..], up to the first key without the prefix. *)
Definition prefix_range (p : bytes) (t : Table) : list (bytes * bytes) :=
  take_while (fun e => starts_with p e.1)
    (List.filter (fun e => negb (HandshakeRole.bytes_lt e.1 p)) (entries t)).

(** ** The application *)

(** The channel of a WebSocket connection: what was put into it, in order, and
    whether its receiver still exists. *)
Record Channel := mkChannel { ch_open : bool; ch_sent : list bytes }.

(** A database fault: which of the entries of a scan can still be read. *)
Definition Fault : Type := nat -> bool.

Record Server := mkServer {
  db : DbState;
  faults : nat -> option Fault;
  db_ops : nat;
  limiter : RateLimiter;
  clients : gmap bytes nat;
  channels : list Channel;
  jwt_secret : bytes;
  log_enabled : bool
}.

Definition set_db d s := mkServer d (faults s) (db_ops s) (limiter s) (clients s) (channels s) (jwt_secret s) (log_enabled s).
Definition set_db_ops n s := mkServer (db s) (faults s) n (limiter s) (clients s) (channels s) (jwt_secret s) (log_enabled s).
Definition set_limiter l s := mkServer (db s) (faults s) (db_ops s) l (clients s) (channels s) (jwt_secret s) (log_enabled s).
Definition set_clients m s := mkServer (db s) (faults s) (db_ops s) (limiter s) m (channels s) (jwt_secret s) (log_enabled s).
Definition set_channels l s := mkServer (db s) (faults s) (db_ops s) (limiter s) (clients s) l (jwt_secret s) (log_enabled s).

Section Handlers.
Context {E : Type}.
Abbreviation SM := (M Server E).

(** The fault, if any, of the next operation. *)
Definition next_fault : SM (option Fault) :=
  let! s := get in
  let! _ := put (set_db_ops (S (db_ops s)) s) in
  ret (faults s (db_ops s)).

(** [RedbTree::insert]: true when it was committed. *)
Definition db_insert (k : TableKind.t) (key value : bytes) : SM bool :=
  let! f := next_fault in
  match f with
  | Some _ => ret false
  | None => let! _ := modify (fun s => set_db (set_tree k (<[key := value]> (tree k (db s))) (db s)) s) in ret true
  end.

(** [RedbTree::get]; [None] is the error. *)
Definition db_get (k : TableKind.t) (key : bytes) : SM (option (option bytes)) :=
  let! f := next_fault in
  match f with
  | Some _ => ret None
  | None => let! s := get in ret (Some (tree k (db s) !! key))
  end.

(** [RedbTree::remove]. *)
Definition db_remove (k : TableKind.t) (key : bytes) : SM (option (option bytes)) :=
  let! f := next_fault in
  match f with
  | Some _ => ret None
  | None =>
      let! s := get in
      let! _ := put (set_db (set_tree k (delete key (tree k (db s))) (db s)) s) in
      ret (Some (tree k (db s) !! key))
  end.

(** The entries a fault leaves readable. *)
Fixpoint readable {A} (f : Fault) (i : nat) (l : list A) : list A :=
  match l with [] => [] | x :: l => if f i then x :: readable f (S i) l else readable f (S i) l end.

Fixpoint readable_prefix {A} (f : Fault) (i : nat) (l : list A) : list A :=
  match l with [] => [] | x :: l => if f i then x :: readable_prefix f (S i) l else [] end.

Definition db_scan_prefix (k : TableKind.t) (p : bytes) : SM (list (bytes * bytes)) :=
  let! f := next_fault in
  let! s := get in
  ret (match f with
       | None => prefix_range p (tree k (db s))
       | Some f => readable_prefix f 0 (prefix_range p (tree k (db s)))
       end).

Definition db_iter (k : TableKind.t) : SM (list (bytes * bytes)) :=
  let! f := next_fault in
  let! s := get in
  ret (match f with None => entries (tree k (db s)) | Some f => readable f 0 (entries (tree k (db s))) end).

(** [for key in keys { tree.remove(key).ok(); }]. *)
Fixpoint db_remove_all (k : TableKind.t) (keys : list bytes) : SM unit :=
  match keys with [] => ret tt | key :: keys => let! _ := db_remove k key in db_remove_all k keys end.

(** [Utc::now().timestamp()]: panics before the epoch. *)
Definition utc_now : SM Z :=
  let! t := lift read_secs in res (or_panic t).

(** The arguments of [info!] and [warn!] are evaluated when the event is enabled. *)
Definition log_with (arg : Res E bytes) : SM unit :=
  let! s := get in
  if log_enabled s then let! _ := res arg in ret tt else ret tt.

(** [tx.send(data)]: whether the receiver still exists. *)
Definition channel_send (ch : nat) (data : bytes) : SM bool :=
  let! s := get in
  match channels s !! ch with
  | Some (mkChannel true sent) =>
      let! _ := put (set_channels (<[ch := mkChannel true (sent ++ [data])]> (channels s)) s) in ret true
  | _ => ret false
  end.

End Handlers.

(** ** Messages ([ws.rs])

    The sealed envelopes and the call signals the relay carries. *)

Record SealedEnvelope := mkSealedEnvelope {
  recipient_id : bytes;
  payload_hex : bytes;
  compressed : bool;
  message_id : bytes;
  env_timestamp : Z;
  signature_hex : bytes
}.

(** What [json["envelope"]] is in a stored document: an envelope, some other
    value, or [null] when it is absent. *)
Inductive JsonEnvelope :=
| JEnvelope (e : SealedEnvelope)
| JOther (raw : bytes)
| JNull.

(** ** Replies *)

Inductive Body :=
| NoBody
| Text (s : string)
| ErrorBody (error : string)
| HealthBody (status version : string) (transports : list string) (auth : string)
| RateBody (e : RateLimitError.t)
| ChallengeBody (challenge_hex : bytes) (expires_in : Z)
| TokenBody (token : bytes) (expires_in : Z)
| InvalidBundle (e : ProtocolError.t)
| BundlesBody (bundles_hex : list bytes)
| InboxBody (messages : list JsonEnvelope) (count : Z).

Record Reply := mkReply { status : Z; body : Body }.

Module StatusCode.
Definition OK : Z := 200.
Definition ACCEPTED : Z := 202.
Definition BAD_REQUEST : Z := 400.
Definition UNAUTHORIZED : Z := 401.
Definition FORBIDDEN : Z := 403.
Definition NOT_FOUND : Z := 404.
Definition CONFLICT : Z := 409.
Definition TOO_MANY_REQUESTS : Z := 429.
Definition INTERNAL_SERVER_ERROR : Z := 500.
End StatusCode.

(** A handler: an early [return] is the error of the monad. *)
Abbreviation HandlerM := (M Server Reply).

Definition early {A} (code : Z) (b : Body) : HandlerM A := res (Err (mkReply code b)).

(** What the client gets; [None] when the handler panicked. *)
Definition reply_of (r : Res Reply Reply) : option Reply :=
  match r with Ok r => Some r | Err r => Some r | Panic => None end.

(** ** Rate limiting ([main.rs]) *)

Definition generate_rate_key (ip identity : bytes) : string :=
  String.string_of_list_byte (ip ++ [x7c] ++ identity).

Definition enforce_rate_limit (operation : string) (ip identity : bytes) : HandlerM unit :=
  let! r := m_try (zoom limiter set_limiter (check operation (generate_rate_key ip identity))) in
  match r with
  | Ok _ => ret tt
  | Err e =>
      let! _ := log_with (str_slice 0 (Nat.min (length identity) 16) identity) in
      early StatusCode.TOO_MANY_REQUESTS (RateBody e)
  | Panic => res Panic
  end.

(** The limits [run_server] installs. *)
Definition server_limiter {E} : IO E RateLimiter :=
  let* r := RateLimiter_new in
  let prekey_limit := mkOperationLimit 500 5000 100000 1000000 (NANOS / 10) 100 in
  let ip_unauth_limit := mkOperationLimit 50 200 5000 20000 (NANOS / 2) 50 in
  let r := set_global_rps 5000 (set_global_enabled true r) in
  let add op l r := set_limits (<[op := l]> (limits r)) r in
  io_ret (add "message_send"%string prekey_limit (add "auth_prove"%string prekey_limit
    (add "auth_challenge"%string prekey_limit (add "prekey_fetch"%string prekey_limit
    (add "prekey_upload"%string prekey_limit (add "ip_unauth"%string ip_unauth_limit r)))))).

(** ** Starting ([run_server]) *)

(** [v.to_lowercase() == "production"]; no letter outside ASCII has one of
    these as its lower case. *)
Definition ascii_lower (b : u8) : u8 := if (65 <=? b2z b) && (b2z b <=? 90) then z2b (b2z b + 32) else b.
Definition is_production (sibna_env : option bytes) : bool :=
  match sibna_env with Some v => bool_decide (map ascii_lower v = bstr "production") | None => false end.

(** The secret of the tokens, from [SIBNA_JWT_SECRET]. *)
Definition choose_secret (production : bool) (secret : option bytes) : IO string bytes :=
  match secret with
  | Some secret =>
      if 32 <=? len secret then io_ret secret
      else if production then io_res (Err "SIBNA_JWT_SECRET too short — refusing to start in production"%string)
      else io_ret secret
  | None =>
      if production then io_res (Err "SIBNA_JWT_SECRET not set — refusing to start in production"%string)
      else let* b := os_bytes 32 in io_ret (hex_encode b)
  end.

(** The state the routes share, over an opened database. *)
Definition startup (sibna_env secret : option bytes) (d : DbState) (fs : nat -> option Fault) (logging : bool)
    : IO string Server :=
  let* secret := choose_secret (is_production sibna_env) secret in
  let* l := server_limiter in
  io_ret (mkServer d fs 0 l ∅ [] secret logging).

(** The middleware before the routes of [/v1/auth] and [/v1/prekeys]. *)
Definition ip_rate_limit (ip : bytes) (next : HandlerM Reply) : HandlerM Reply :=
  let! _ := enforce_rate_limit "ip_unauth" ip (bstr "ip_only") in next.

(** ** Tokens *)

Record Claims := mkClaims { sub : bytes; iat : Z; exp : Z; device : bytes }.

(** [jsonwebtoken] with HS256 and the default validation. *)
Class Jwt := {
  jwt_encode : bytes -> Claims -> option bytes;
  jwt_decode : bytes -> Z -> bytes -> option Claims
}.

(** A token issued under a secret is valid under it until its expiry and the
    default leeway of 60 seconds. *)
Class JwtLaws (J : Jwt) := {
  jwt_encode_ok secret c : exists t, jwt_encode secret c = Some t;
  jwt_roundtrip secret c t now : jwt_encode secret c = Some t ->
    jwt_decode secret now t = if exp c <? now - 60 then None else Some c
}.

Section Tokens.
Context {J : Jwt}.

Definition validate_jwt {E} (token secret : bytes) : M Server E (option Claims) :=
  let! now := utc_now in ret (jwt_decode secret now token).

(** The [AuthUser] extractor on the value of the Authorization header;
    [header.to_str()] fails on a byte outside visible ASCII. *)
Definition visible (b : u8) : bool := ((32 <=? b2z b) && (b2z b <? 127)) || (b2z b =? 9).

Definition auth_user (header : option bytes) : HandlerM Claims :=
  match header with
  | None => early StatusCode.UNAUTHORIZED (Text "Missing Authorization header")
  | Some h =>
      if negb (forallb visible h) then early StatusCode.UNAUTHORIZED (Text "Invalid Authorization header")
      else if starts_with (bstr "Bearer ") h then
        let! s := get in
        let! claims := validate_jwt (drop 7 h) (jwt_secret s) in
        match claims with
        | Some c => ret c
        | None => early StatusCode.UNAUTHORIZED (Text "Invalid or expired token")
        end
      else early StatusCode.UNAUTHORIZED (Text "Invalid Token Format")
  end.

End Tokens.

(** ** Lemmas *)

(** What a database operation leaves, when it ran without a fault or failed. *)
Section DbLemmas.
Context {E : Type}.
Implicit Types (s : Server).

Lemma next_fault_run env s c :
  next_fault (E := E) env s c = (Ok (faults s (db_ops s)), set_db_ops (S (db_ops s)) s, c).
Proof. done. Qed.

Lemma db_get_run k key env s c :
  db_get (E := E) k key env s c =
  (Ok (match faults s (db_ops s) with Some _ => None | None => Some (tree k (db s) !! key) end),
   set_db_ops (S (db_ops s)) s, c).
Proof. unfold db_get, bind. rewrite next_fault_run. by destruct (faults s (db_ops s)). Qed.

Lemma db_insert_run k key v env s c :
  db_insert (E := E) k key v env s c =
  (Ok (match faults s (db_ops s) with Some _ => false | None => true end),
   match faults s (db_ops s) with
   | Some _ => set_db_ops (S (db_ops s)) s
   | None => set_db (set_tree k (<[key := v]> (tree k (db s))) (db s)) (set_db_ops (S (db_ops s)) s)
   end, c).
Proof. unfold db_insert, bind. rewrite next_fault_run. by destruct (faults s (db_ops s)). Qed.

Lemma db_remove_run k key env s c :
  db_remove (E := E) k key env s c =
  (Ok (match faults s (db_ops s) with Some _ => None | None => Some (tree k (db s) !! key) end),
   match faults s (db_ops s) with
   | Some _ => set_db_ops (S (db_ops s)) s
   | None => set_db (set_tree k (delete key (tree k (db s))) (db s)) (set_db_ops (S (db_ops s)) s)
   end, c).
Proof. unfold db_remove, bind. rewrite next_fault_run. by destruct (faults s (db_ops s)). Qed.

Lemma db_scan_run k p env s c :
  db_scan_prefix (E := E) k p env s c =
  (Ok (match faults s (db_ops s) with
       | None => prefix_range p (tree k (db s))
       | Some f => readable_prefix f 0 (prefix_range p (tree k (db s)))
       end), set_db_ops (S (db_ops s)) s, c).
Proof. unfold db_scan_prefix, bind. rewrite next_fault_run. by destruct (faults s (db_ops s)). Qed.

(** No operation fails. *)
Definition fault_free s : Prop := forall n, faults s n = None.

Lemma tree_set_tree k t d : tree k (set_tree k t d) = t.
Proof. by destruct k. Qed.

Lemma tree_set_other k k' t d : k <> k' -> tree k (set_tree k' t d) = tree k d.
Proof. by destruct k, k'. Qed.

(** Removing keys, without faults. *)
Lemma db_remove_all_run k keys env : forall s c, fault_free s ->
  exists s', db_remove_all (E := E) k keys env s c = (Ok tt, s', c) /\
    (forall x, tree k (db s') !! x = if decide (x ∈ keys) then None else tree k (db s) !! x) /\
    (forall k', k' <> k -> tree k' (db s') = tree k' (db s)) /\
    s' = set_db (db s') (set_db_ops (db_ops s') s).
Proof.
  induction keys as [|key keys IH]; intros s c Hf.
  { exists s. split; [done|]. split; [done|]. split; [done|]. by destruct s. }
  cbn [db_remove_all]. unfold bind at 1. rewrite db_remove_run, (Hf (db_ops s)).
  destruct (IH (set_db (set_tree k (delete key (tree k (db s))) (db s)) (set_db_ops (S (db_ops s)) s)) c Hf)
    as (s' & -> & Hx & Ho & Hs).
  exists s'. split; [done|]. split; [|split].
  - intros x. rewrite Hx. cbn [db set_db]. rewrite tree_set_tree. destruct (decide (x ∈ keys)) as [Hi|Hi].
    + destruct (decide (x ∈ key :: keys)) as [|Hn]; [done|]. destruct Hn. by right.
    + destruct (decide (x = key)) as [->|Hne].
      * rewrite lookup_delete_eq. destruct (decide (key ∈ key :: keys)) as [|Hn]; [done|]. destruct Hn. left.
      * rewrite lookup_delete_ne by done. destruct (decide (x ∈ key :: keys)) as [Hc|]; [|done].
        by apply elem_of_cons in Hc as [?|?].
  - intros k' Hk. rewrite (Ho k' Hk). cbn [db set_db]. by rewrite tree_set_other.
  - rewrite Hs at 1. by destruct s.
Qed.

Lemma utc_now_run lo hi env s c : clock_in env lo hi ->
  exists t, utc_now (E := E) env s c = (Ok t, s, mkCtr (S (c_clock c)) (c_instant c) (c_os c)) /\ lo <= t <= hi /\
    option_map (fun ns => ns / NANOS) (e_clock env (c_clock c)) = Some t.
Proof.
  intros Hc. destruct (clock_in_secs env lo hi (c_clock c) Hc) as (t & Et & Ht).
  exists t. unfold utc_now, bind, lift, read_secs, res. rewrite Et. done.
Qed.

Lemma utc_now_inv env s c t s' c' : utc_now (E := E) env s c = (Ok t, s', c') ->
  s' = s /\ option_map (fun ns => ns / NANOS) (e_clock env (c_clock c)) = Some t.
Proof.
  unfold utc_now, bind, lift, read_secs, res.
  destruct (option_map _ _) as [t'|]; cbn [or_panic]; [|done]. by intros [= <- <- <-].
Qed.

End DbLemmas.

(** Rate limiting changes only the limiter. *)
Lemma enforce_frame op ip id env s c : exists l, snd (fst (enforce_rate_limit op ip id env s c)) = set_limiter l s.
Proof.
  unfold enforce_rate_limit, bind at 1, m_try, zoom.
  destruct (check op _ env (limiter s) c) as [[r l] c1]. exists l.
  destruct r; try done. unfold bind, log_with, bind, get, early, res, ret. destruct (log_enabled _); [|done].
  by destruct (str_slice _ _ _).
Qed.

Lemma enforce_ok op ip id env s c u s' c' :
  enforce_rate_limit op ip id env s c = (Ok u, s', c') -> exists l, s' = set_limiter l s.
Proof. intros H. destruct (enforce_frame op ip id env s c) as [l Hl]. rewrite H in Hl. by exists l. Qed.

(** The limiter lets the request through. *)
Definition admits (op : string) (ip id : bytes) (env : Env) (s : Server) (c : Ctr) : Prop :=
  is_ok (fst (fst (check op (generate_rate_key ip id) env (limiter s) c))) = true.

Lemma admits_run op ip id env s c : admits op ip id env s c ->
  exists l c', enforce_rate_limit op ip id env s c = (Ok tt, set_limiter l s, c').
Proof.
  unfold admits, enforce_rate_limit, bind, m_try, zoom.
  destruct (check op _ env (limiter s) c) as [[[u|e|] l] c1]; try done. intros _. by exists l, c1.
Qed.

(** An operation without a limit is always refused. *)
Lemma unknown_operation op ip id env s c :
  limits (limiter s) !! op = None -> is_ok (fst (fst (enforce_rate_limit op ip id env s c))) = false.
Proof.
  intros H. unfold enforce_rate_limit, bind at 1, m_try, zoom, check. unfold bind at 1, lift, read_instant.
  unfold bind at 1, get. cbn [limits limiter]. destruct (global_enabled (limiter s)).
  - destruct (global_tick _ _ _) as [g ok]. unfold bind at 1, bind at 1, modify, ret at 1. rewrite H. unfold res.
    unfold bind, log_with, bind, get, early, res, ret. destruct (log_enabled _); [|done]. by destruct (str_slice _ _ _).
  - unfold bind at 1, ret at 1. rewrite H. unfold res.
    unfold bind, log_with, bind, get, early, res, ret. destruct (log_enabled _); [|done]. by destruct (str_slice _ _ _).
Qed.

(** In production the secret has at least 32 characters. *)
Lemma startup_production sibna_env secret d fs logging env c s c' :
  is_production sibna_env = true -> startup sibna_env secret d fs logging env c = (Ok s, c') ->
  secret = Some (jwt_secret s) /\ 32 <= len (jwt_secret s) /\ clients s = ∅ /\ channels s = [].
Proof.
  intros Hp. unfold startup, choose_secret, io_bind, server_limiter, io_bind. rewrite Hp. destruct secret as [k|]; [|done].
  destruct (Z.leb_spec 32 (len k)); [|done]. unfold io_ret at 1. destruct (RateLimiter_new env c) as [[r|e|] c1]; try done.
  by intros [= <- _].
Qed.

(** ** Scanning a prefix *)

Section Scan.
Import HandshakeRole.

Lemma bytes_le_trans a : forall b c, bytes_lt b a = false -> bytes_lt c b = false -> bytes_lt c a = false.
Proof.
  induction a as [|x a IH]; intros [|y b] [|z c]; cbn [bytes_lt]; try done.
  destruct (Z.ltb_spec (b2z y) (b2z x)); [done|]. destruct (Z.ltb_spec (b2z z) (b2z y)); [done|].
  destruct (Z.ltb_spec (b2z z) (b2z x)); [lia|].
  destruct (Z.ltb_spec (b2z x) (b2z y)); destruct (Z.ltb_spec (b2z y) (b2z z));
    destruct (Z.ltb_spec (b2z x) (b2z z)); try lia; try done. apply IH.
Qed.

#[local] Instance key_le_trans : Transitive key_le.
Proof. intros x y z. unfold key_le. intros H1 H2. by eapply bytes_le_trans. Qed.

#[local] Instance key_le_total : Total key_le.
Proof.
  intros x y. unfold key_le. destruct (decide (x.1 = y.1)) as [E|E]; [left; rewrite E; apply bytes_lt_irrefl|].
  pose proof (bytes_lt_antisym _ _ E) as H. destruct (bytes_lt y.1 x.1); [right | by left]. by rewrite H.
Qed.

(** Between a prefix and a key with it, every key has it. *)
Lemma prefix_contiguous p : forall x y,
  bytes_lt x p = false -> bytes_lt y x = false -> starts_with p y = true -> starts_with p x = true.
Proof.
  induction p as [|a p IH]; intros [|b x] [|c y]; cbn [bytes_lt starts_with]; try done.
  intros H1 H2 [->%byte_eqb_eq H3]%andb_true_iff.
  destruct (Z.ltb_spec (b2z b) (b2z c)); [done|]. destruct (Z.ltb_spec (b2z c) (b2z b)); [done|].
  assert (b = c) as -> by (apply b2z_inj; lia). rewrite (proj2 (byte_eqb_eq c c) eq_refl). cbn [andb]. by apply (IH x y).
Qed.

Lemma take_while_sorted {A} (R : relation A) (f : A -> bool) l :
  StronglySorted R l -> (forall x y, x ∈ l -> R x y -> f y = true -> f x = true) ->
  take_while f l = List.filter f l.
Proof.
  induction 1 as [|x l _ IH HF]; intros Hf; [done|]. cbn [take_while List.filter].
  destruct (f x) eqn:E; [f_equal; apply IH; intros; eapply Hf; try eassumption; by right|].
  assert (Hn : forall y, y ∈ l -> f y = false).
  { intros y Hy. destruct (f y) eqn:Ey; [|done]. rewrite Forall_forall in HF.
    rewrite (Hf x y) in E; [done | left | by apply HF | done]. }
  clear -Hn. induction l as [|y l IH]; [done|]. cbn. rewrite Hn by left. apply IH. intros z Hz. apply Hn. by right.
Qed.

Lemma filter_sorted {A} (R : relation A) (f : A -> bool) l : StronglySorted R l -> StronglySorted R (List.filter f l).
Proof.
  induction 1 as [|x l _ IH HF]; cbn; [constructor|]. destruct (f x); [|done]. constructor; [done|].
  rewrite Forall_forall in *. intros y Hy. apply HF. apply list_elem_of_In in Hy. apply List.filter_In in Hy as [Hy _].
  by apply list_elem_of_In.
Qed.

Lemma elem_of_entries t e : e ∈ entries t <-> t !! e.1 = Some e.2.
Proof.
  unfold entries. rewrite merge_sort_Permutation. destruct e as [k v]. apply elem_of_map_to_list.
Qed.

(** The scan is all entries with the prefix, by key. *)
Lemma prefix_range_filter p t : prefix_range p t = List.filter (fun e => starts_with p e.1) (entries t).
Proof.
  unfold prefix_range.
  rewrite (take_while_sorted key_le) by
    (try (apply filter_sorted, (StronglySorted_merge_sort key_le));
     intros x y Hx%list_elem_of_In Hxy Hy; apply List.filter_In in Hx as [_ Hx%negb_true_iff]; by eapply prefix_contiguous).
  induction (entries t) as [|e l IH]; [done|]. cbn. destruct (starts_with p e.1) eqn:Es.
  - replace (bytes_lt e.1 p) with false.
    + cbn. by rewrite Es, IH.
    + symmetry. clear -Es. revert Es. generalize (e.1) as k. induction p as [|a p IH]; intros [|b k]; cbn; try done.
      intros [->%byte_eqb_eq H]%andb_true_iff. rewrite Z.ltb_irrefl. by apply IH.
  - destruct (negb _); [|done]. cbn. by rewrite Es.
Qed.

Lemma elem_of_prefix_range p t k v :
  (k, v) ∈ prefix_range p t <-> t !! k = Some v /\ starts_with p k = true.
Proof.
  rewrite prefix_range_filter. rewrite list_elem_of_In, List.filter_In. rewrite <- list_elem_of_In, elem_of_entries. done.
Qed.

Lemma starts_with_app p k : starts_with p (p ++ k) = true.
Proof. induction p as [|a p IH]; [done|]. cbn. by rewrite (proj2 (byte_eqb_eq a a) eq_refl), IH. Qed.

Lemma starts_with_inv p k : starts_with p k = true -> exists r, k = p ++ r.
Proof.
  revert k. induction p as [|a p IH]; intros k H; [by exists k|]. destruct k as [|b k]; [done|]. cbn in H.
  apply andb_true_iff in H as [->%byte_eqb_eq H]. destruct (IH k H) as [r ->]. by exists r.
Qed.

End Scan.
