(* ===== verification/ServerAuth.v ===== *)
(** * Challenge-response authentication ([server/src/auth.rs])

    A client asks for a challenge, signs it with its identity key and receives
    a token.  JSON bodies are given as their fields. *)

From S2P Require Import Prelude Effects Errors Primitives Codec Text Compare Session SessionSend Encryptor RateLimit Server.
#[local] Open Scope Z_scope.
#[local] Open Scope sibna_scope.

Record ProveRequest := mkProveRequest {
  pr_identity_key_hex : bytes;
  pr_challenge_hex : bytes;
  pr_signature_hex : bytes
}.

Section Auth.
Context {P : Primitives} {J : Jwt}.

Definition challenge_key (identity : bytes) : bytes := bstr "challenge:" ++ identity.

(** [format!("{}:{}:{}", challenge_hex, challenge_mac, expires_at)]. *)
Definition challenge_value (secret challenge_hex : bytes) (expires_at : Z) : bytes :=
  challenge_hex ++ [x3a] ++ hex_encode (hmac_sha256 secret challenge_hex) ++ [x3a] ++ show_i64 expires_at.

Definition challenge_handler (ip identity_key_hex : bytes) : HandlerM Reply :=
  let! _ := enforce_rate_limit "auth_challenge" ip identity_key_hex in
  if negb (len identity_key_hex =? 64)
  then early StatusCode.BAD_REQUEST (ErrorBody "invalid identity_key length")
  else
  let! challenge := lift (os_bytes 32) in
  let challenge_hex := hex_encode challenge in
  let! now := utc_now in
  let! s := get in
  let! _ := db_insert TableKind.Challenges (challenge_key identity_key_hex)
              (challenge_value (jwt_secret s) challenge_hex (now + 60)) in
  ret (mkReply StatusCode.OK (ChallengeBody challenge_hex 60)).

(** [tree_challenges.remove(..).ok()] before an early return. *)
Definition drop_challenge {A} (key : bytes) (code : Z) (text : string) : HandlerM A :=
  let! _ := db_remove TableKind.Challenges key in early code (Text text).

(** [String::from_utf8_lossy] of a stored value: the server stores only ASCII,
    on which it is the identity. *)
Definition from_utf8_lossy (v : bytes) : bytes := v.

(** Step 1: the stored challenge, its integrity and its age. *)
Definition pending_challenge (identity : bytes) : HandlerM bytes :=
  let key := challenge_key identity in
  let! stored := db_get TableKind.Challenges key in
  match stored with
  | Some (Some v) =>
      match split3 x3a (from_utf8_lossy v) with
      | None => early StatusCode.INTERNAL_SERVER_ERROR (Text "Bad challenge format")
      | Some (stored_challenge_hex, stored_mac_hex, expires_str) =>
          let! s := get in
          let computed_mac := hmac_sha256 (jwt_secret s) stored_challenge_hex in
          match hex_decode stored_mac_hex with
          | None => drop_challenge key StatusCode.INTERNAL_SERVER_ERROR "Challenge integrity error"
          | Some stored_mac =>
              if negb (ct_eq computed_mac stored_mac) then
                let! _ := log_with (str_slice 0 (Nat.min 16 (length identity)) identity) in
                drop_challenge key StatusCode.INTERNAL_SERVER_ERROR "Challenge integrity error"
              else
              match parse_i64 expires_str with
              | None => drop_challenge key StatusCode.INTERNAL_SERVER_ERROR "Bad challenge format"
              | Some expires_at =>
                  let! now := utc_now in
                  if expires_at <? now
                  then drop_challenge key StatusCode.UNAUTHORIZED "Challenge expired"
                  else ret stored_challenge_hex
              end
          end
      end
  | _ => early StatusCode.UNAUTHORIZED (Text "No pending challenge")
  end.

(** [Ok(b) if b.len() == n]. *)
Definition hex_of_len (n : Z) (s : bytes) : option bytes :=
  match hex_decode s with Some b => if len b =? n then Some b else None | None => None end.

(** An [Option] with the reply for [None]. *)
Definition or_reply {A} (o : option A) (code : Z) (text : string) : HandlerM A :=
  match o with Some a => ret a | None => early code (Text text) end.

(** Steps 2 and 3: the client's answer to the challenge. *)
Definition check_answer (req : ProveRequest) (expected_challenge_hex : bytes) : HandlerM unit :=
  let! req_challenge := or_reply (hex_decode (pr_challenge_hex req)) StatusCode.BAD_REQUEST "Invalid challenge hex" in
  let! expected := match hex_decode expected_challenge_hex with
                   | Some b => ret b
                   | None => drop_challenge (challenge_key (pr_identity_key_hex req))
                               StatusCode.INTERNAL_SERVER_ERROR "Challenge integrity error"
                   end in
  if negb (ct_eq req_challenge expected) then early StatusCode.UNAUTHORIZED (Text "Challenge mismatch")
  else
  let! key := or_reply (hex_of_len 32 (pr_identity_key_hex req)) StatusCode.BAD_REQUEST "Invalid identity_key hex" in
  let! sg := or_reply (hex_of_len 64 (pr_signature_hex req)) StatusCode.BAD_REQUEST "Invalid signature hex" in
  if negb (ed25519_key_ok key) then early StatusCode.BAD_REQUEST (Text "Invalid Ed25519 public key")
  else if negb (ed25519_verify key req_challenge sg)
  then early StatusCode.UNAUTHORIZED (Text "Signature verification failed")
  else ret tt.

Definition prove_handler (ip : bytes) (req : ProveRequest) : HandlerM Reply :=
  let identity := pr_identity_key_hex req in
  let! _ := enforce_rate_limit "auth_prove" ip identity in
  let! expected_challenge_hex := pending_challenge identity in
  let! _ := check_answer req expected_challenge_hex in
  let! _ := db_remove TableKind.Challenges (challenge_key identity) in
  let! now := utc_now in
  let! s := get in
  let! token := or_reply (jwt_encode (jwt_secret s) (mkClaims identity now (now + 86400) (bstr "default")))
                  StatusCode.INTERNAL_SERVER_ERROR "Failed to issue token" in
  ret (mkReply StatusCode.OK (TokenBody token 86400)).

End Auth.

(** ** Properties *)

Section AuthProperties.
Context {P : Primitives} {J : Jwt}.

(** A pending challenge for an identity, as stored: issued under the server's
    secret and not expired at [now]. *)
Definition pending (secret identity challenge_hex : bytes) (now : Z) (t : Table) : Prop :=
  exists v mac_hex expires expires_at, t !! challenge_key identity = Some v /\
    split3 x3a v = Some (challenge_hex, mac_hex, expires) /\
    hex_decode mac_hex = Some (hmac_sha256 secret challenge_hex) /\
    parse_i64 expires = Some expires_at /\ now <= expires_at.

Lemma drop_challenge_not_ok {A} key code text env s c (a : A) s' c' :
  drop_challenge key code text env s c <> (Ok a, s', c').
Proof. unfold drop_challenge, bind. rewrite db_remove_run. done. Qed.

Lemma pending_challenge_inv id env s c ch s' c' :
  pending_challenge id env s c = (Ok ch, s', c') ->
  s' = set_db_ops (S (db_ops s)) s /\
  exists now, option_map (fun ns => ns / NANOS) (e_clock env (c_clock c)) = Some now /\
    pending (jwt_secret s) id ch now (tree_challenges (db s)).
Proof.
  unfold pending_challenge. unfold bind at 1. rewrite db_get_run. destruct (faults s (db_ops s)); [done|].
  destruct (tree TableKind.Challenges (db s) !! challenge_key id) as [v|] eqn:Ev; [|done].
  unfold from_utf8_lossy. destruct (split3 x3a v) as [[[ch' mac] e]|] eqn:Es; [|done].
  unfold bind at 1, get. cbn [jwt_secret set_db_ops].
  destruct (hex_decode mac) as [m|] eqn:Em; [|by intros ?%drop_challenge_not_ok].
  destruct (ct_eq (hmac_sha256 (jwt_secret s) ch') m) eqn:Ec; cbn [negb].
  2:{ intros H. inv_bind H. by apply drop_challenge_not_ok in H. }
  apply ct_eq_true in Ec. subst m.
  destruct (parse_i64 e) as [x|] eqn:Ex; [|by intros ?%drop_challenge_not_ok].
  intros H. inv_bind H. apply utc_now_inv in E as [-> Ht]. destruct (Z.ltb_spec x a); [by apply drop_challenge_not_ok in H|].
  apply ret_ok_inv in H as (-> & -> & ->). split; [done|]. exists a. split; [done|]. by exists v, mac, e, x.
Qed.

Lemma or_reply_inv {A} (o : option A) code text env s c a s' c' :
  or_reply o code text env s c = (Ok a, s', c') -> o = Some a /\ s' = s /\ c' = c.
Proof. unfold or_reply. destruct o; [|done]. by intros (-> & -> & ->)%ret_ok_inv. Qed.

Lemma hex_of_len_inv n h b : hex_of_len n h = Some b -> hex_decode h = Some b /\ len b = n.
Proof.
  unfold hex_of_len. destruct (hex_decode h) as [b'|]; [|done].
  destruct (Z.eqb_spec (len b') n); [|done]. by intros [= <-].
Qed.

(** The client's answer verifies. *)
Definition answers (req : ProveRequest) (challenge_hex : bytes) : Prop :=
  exists key sg ch, hex_decode (pr_identity_key_hex req) = Some key /\ len key = 32 /\ ed25519_key_ok key = true /\
    hex_decode (pr_signature_hex req) = Some sg /\ len sg = 64 /\
    hex_decode challenge_hex = Some ch /\ hex_decode (pr_challenge_hex req) = Some ch /\
    ed25519_verify key ch sg = true.

Lemma check_answer_inv req ch env s c u s' c' :
  check_answer req ch env s c = (Ok u, s', c') -> s' = s /\ answers req ch.
Proof.
  unfold check_answer. intros H. inv_bind H. apply or_reply_inv in E as (E1 & -> & ->).
  inv_bind H. destruct (hex_decode ch) as [x|] eqn:Ech; [|by apply drop_challenge_not_ok in E].
  apply ret_ok_inv in E as (-> & -> & ->). destruct (ct_eq a x) eqn:Ec; [|done]. apply ct_eq_true in Ec. subst x.
  cbn [negb] in H. inv_bind H. apply or_reply_inv in E as (E2 & -> & ->). inv_bind H.
  apply or_reply_inv in E as (E3 & -> & ->).
  destruct (ed25519_key_ok a0) eqn:Ek; [|done]. destruct (ed25519_verify a0 a a1) eqn:Ev; [|done].
  cbn [negb] in H. apply ret_ok_inv in H as (_ & -> & ->). split; [done|].
  apply hex_of_len_inv in E2 as [? ?], E3 as [? ?]. by exists a0, a1, a.
Qed.

(** Without a stored challenge nobody proves anything. *)
Lemma nothing_pending ip req env s c :
  tree_challenges (db s) !! challenge_key (pr_identity_key_hex req) = None ->
  is_ok (fst (fst (prove_handler ip req env s c))) = false.
Proof.
  intros Hn. destruct (prove_handler ip req env s c) as [[[r|e|] s'] c'] eqn:H; [|done|done].
  unfold prove_handler in H. inv_bind H. apply enforce_ok in E as [l ->].
  inv_bind H. apply pending_challenge_inv in E as (_ & now & _ & v & _ & _ & _ & Hv & _).
  cbn [db set_limiter] in Hv. congruence.
Qed.

(** C19: a token is issued only for a signed challenge, and once.  When
    [prove_handler] succeeds there was, under the requested identity, a stored
    challenge with the server's MAC, not expired at the clock reading used; the
    request repeats it, and its signature over the challenge verifies under the
    Ed25519 key the identity spells; the token's subject is that identity.
    Unless the database fails to delete it, the challenge is gone afterwards,
    and no request for that identity succeeds in any later state in which no
    new challenge was stored. *)
Theorem token_needs_signed_challenge ip req env s c r s' c' :
  prove_handler ip req env s c = (Ok r, s', c') ->
  (exists now i ch, option_map (fun ns => ns / NANOS) (e_clock env i) = Some now /\
    pending (jwt_secret s) (pr_identity_key_hex req) ch now (tree_challenges (db s)) /\ answers req ch) /\
  (exists token t, r = mkReply StatusCode.OK (TokenBody token 86400) /\
    jwt_encode (jwt_secret s) (mkClaims (pr_identity_key_hex req) t (t + 86400) (bstr "default")) = Some token) /\
  (faults s (S (db_ops s)) = None ->
   tree_challenges (db s') !! challenge_key (pr_identity_key_hex req) = None /\
   forall ip2 req2 env2 s2 c2, pr_identity_key_hex req2 = pr_identity_key_hex req ->
     tree_challenges (db s2) = tree_challenges (db s') -> is_ok (fst (fst (prove_handler ip2 req2 env2 s2 c2))) = false).
Proof.
  unfold prove_handler. intros H. apply bind_ok_inv in H as (u0 & s0 & c0 & E & H). apply enforce_ok in E as [l ->].
  apply bind_ok_inv in H as (ch & s1 & c1 & E & H).
  apply pending_challenge_inv in E as (-> & now & Hnow & Hp). cbn [jwt_secret db set_limiter] in Hp.
  apply bind_ok_inv in H as (u1 & s2 & c2 & E & H). apply check_answer_inv in E as (-> & Ha).
  unfold bind at 1 in H. rewrite db_remove_run in H. cbn [faults db_ops set_db_ops set_limiter db] in H.
  apply bind_ok_inv in H as (t & s3 & c3 & E & H). apply utc_now_inv in E as (-> & Ht). unfold bind at 1, get in H.
  apply bind_ok_inv in H as (token & s4 & c4 & E & H). apply or_reply_inv in E as (Et & -> & ->).
  apply ret_ok_inv in H as (-> & -> & ->).
  split; [by exists now, (c_clock c0), ch|]. split.
  { exists token, t. split; [done|]. revert Et. by destruct (faults s (S (db_ops s))). }
  intros Hf. rewrite Hf. cbn [db set_db tree_challenges set_tree tree]. rewrite lookup_delete_eq. split; [done|].
  intros ip2 req2 env2 s5 c5 Hid Hs. apply nothing_pending. rewrite Hs, Hid. by rewrite lookup_delete_eq.
Qed.

Lemma stored_challenge secret ch t : 0 <= t <= I64_MAX ->
  exists mac_hex e, split3 x3a (challenge_value secret (hex_encode ch) t) = Some (hex_encode ch, mac_hex, e) /\
    hex_decode mac_hex = Some (hmac_sha256 secret (hex_encode ch)) /\ parse_i64 e = Some t.
Proof.
  intros Ht. exists (hex_encode (hmac_sha256 secret (hex_encode ch))), (show_i64 t).
  assert (Hc : forall l, ~ In x3a (hex_encode l)) by (intros l; apply hex_encode_not_in; vm_compute; intuition).
  split; [|split; [apply hex_decode_encode | by apply parse_show_i64]]. unfold challenge_value. by apply split3_app.
Qed.

Lemma pending_challenge_run id ch exp lo hi env s c :
  tree_challenges (db s) !! challenge_key id = Some (challenge_value (jwt_secret s) (hex_encode ch) exp) ->
  faults s (db_ops s) = None -> clock_in env lo hi -> hi <= exp -> 0 <= exp <= I64_MAX ->
  exists c', pending_challenge id env s c = (Ok (hex_encode ch), set_db_ops (S (db_ops s)) s, c').
Proof.
  intros Hv Hf Hc Hexp Hr. unfold pending_challenge. unfold bind at 1. rewrite db_get_run, Hf. cbn [tree].
  rewrite Hv. unfold from_utf8_lossy. destruct (stored_challenge (jwt_secret s) ch exp Hr) as (m & e & -> & Hm & He).
  unfold bind at 1, get. cbn [jwt_secret set_db_ops]. rewrite Hm, (proj2 (ct_eq_true _ _) eq_refl), He. cbn [negb].
  destruct (utc_now_run (E := Reply) lo hi env (set_db_ops (S (db_ops s)) s) c Hc) as (t & Et & Ht & _).
  rewrite (bind_ok _ _ _ _ _ _ _ _ Et). destruct (Z.ltb_spec exp t); [lia|]. unfold ret. eauto.
Qed.

Context {L : PrimitiveLaws P}.

Lemma check_answer_run sk ch env s c :
  length sk = 32%nat ->
  check_answer (mkProveRequest (hex_encode (ed25519_public sk)) (hex_encode ch) (hex_encode (ed25519_sign sk ch)))
    (hex_encode ch) env s c = (Ok tt, s, c).
Proof.
  intros Hl. destruct (ed25519_public_ok sk Hl) as [Hk Hkl].
  unfold check_answer, or_reply, hex_of_len. cbn [pr_challenge_hex pr_identity_key_hex pr_signature_hex].
  rewrite !hex_decode_encode. unfold bind, ret. rewrite (proj2 (ct_eq_true _ _) eq_refl). cbn [negb].
  unfold len. rewrite Hkl, ed25519_sign_len. change (Z.of_nat 32 =? 32) with true.
  change (Z.of_nat 64 =? 64) with true. cbv iota beta.
  by rewrite Hk, ed25519_correct.
Qed.

(** C20: logging in.  A client with a 32-byte Ed25519 key, let through by the
    limiter and served by a working database and clock, gets a challenge;
    signing it and answering within 60 seconds, again let through and served,
    however other requests were served meanwhile as long as its challenge stayed
    stored and the server's secret the same, it gets a token, and the server
    accepts that token as its identity until a day and a minute after it was
    issued. *)
Theorem login_succeeds {JL : JwtLaws J} sk ip env1 lo hi s1 c1 :
  let id := hex_encode (ed25519_public sk) in
  length sk = 32%nat -> clock_in env1 lo hi -> 0 <= lo -> hi + 60 <= I64_MAX ->
  admits "auth_challenge" ip id env1 s1 c1 -> faults s1 (db_ops s1) = None ->
  exists challenge s1' c1',
    challenge_handler ip id env1 s1 c1 =
      (Ok (mkReply StatusCode.OK (ChallengeBody (hex_encode challenge) 60)), s1', c1') /\
    forall ip2 env2 lo2 hi2 s2 c2, clock_in env2 lo2 hi2 -> hi2 <= lo + 60 ->
      tree_challenges (db s2) !! challenge_key id = tree_challenges (db s1') !! challenge_key id ->
      jwt_secret s2 = jwt_secret s1 -> admits "auth_prove" ip2 id env2 s2 c2 -> faults s2 (db_ops s2) = None ->
      exists token s2' c2' t,
        prove_handler ip2 (mkProveRequest id (hex_encode challenge) (hex_encode (ed25519_sign sk challenge))) env2 s2 c2
          = (Ok (mkReply StatusCode.OK (TokenBody token 86400)), s2', c2') /\ lo2 <= t <= hi2 /\
        forall now, now <= t + 86400 + 60 ->
          option_map sub (jwt_decode (jwt_secret s2') now token) = Some id.
Proof.
  intros id Hl Hc Hlo Hhi Had Hf. destruct (ed25519_public_ok sk Hl) as [_ Hkl].
  unfold challenge_handler. apply admits_run in Had as (l & c3 & E1). rewrite (bind_ok _ _ _ _ _ _ _ _ E1).
  replace (len id =? 64) with true by (symmetry; apply Z.eqb_eq; subst id; unfold len; rewrite length_hex_encode, Hkl; done).
  cbn [negb]. unfold bind at 1, lift at 1, os_bytes at 1.
  set (ch := map (e_os env1) (seq (c_os c3) 32)). set (c4 := mkCtr _ _ _).
  destruct (utc_now_run (E := Reply) lo hi env1 (set_limiter l s1) c4 Hc) as (t & Et & Ht & _).
  rewrite (bind_ok _ _ _ _ _ _ _ _ Et). unfold bind at 1, get. unfold bind at 1. rewrite db_insert_run.
  cbn [faults db_ops set_limiter]. rewrite Hf. eexists ch, _, _. split; [reflexivity|].
  intros ip2 env2 lo2 hi2 s2 c2 Hc2 Hh2 Hsame Hsec Had2 Hf2.
  cbn [db set_db tree_challenges set_tree tree jwt_secret set_limiter] in Hsame. rewrite lookup_insert_eq in Hsame.
  unfold prove_handler. cbn [pr_identity_key_hex]. apply admits_run in Had2 as (l2 & c5 & E2).
  rewrite (bind_ok _ _ _ _ _ _ _ _ E2).
  edestruct (pending_challenge_run id ch (t + 60) lo2 hi2 env2 (set_limiter l2 s2)) as (c6 & E3);
    [cbn [db jwt_secret set_limiter]; by rewrite Hsame, Hsec | done | done | lia | lia |].
  rewrite (bind_ok _ _ _ _ _ _ _ _ E3). rewrite (bind_ok _ _ _ _ _ _ _ _ (check_answer_run sk ch env2 _ c6 Hl)).
  unfold bind at 1. rewrite db_remove_run. set (s3 := match _ with Some _ => _ | None => _ end).
  assert (Hs3 : jwt_secret s3 = jwt_secret s2) by 
    by (unfold s3; cbn [faults db_ops set_db_ops set_limiter]; by destruct (faults s2 (S (db_ops s2)))).
  destruct (utc_now_run (E := Reply) lo2 hi2 env2 s3 c6 Hc2) as (t2 & Et2 & Ht2 & _).
  rewrite (bind_ok _ _ _ _ _ _ _ _ Et2). unfold bind at 1, get.
  destruct (jwt_encode_ok (jwt_secret s3) (mkClaims id t2 (t2 + 86400) (bstr "default"))) as [token Etok].
  unfold or_reply. rewrite Etok. unfold bind, ret. eexists token, _, _, t2. split; [reflexivity|]. split; [done|].
  intros now Hnow. rewrite (jwt_roundtrip _ _ _ now Etok). cbn [exp].
  destruct (Z.ltb_spec (t2 + 86400) (now - 60)); [lia | done].
Qed.

End AuthProperties.

(** ** Witnesses *)

(** Tokens that spell their claims in binary digits after a checksum of the
    secret. *)
Import Spelled.

Definition plain_token (secret : bytes) (c : Claims) : bytes :=
  hex_encode (Toy.gen 8 (Toy.mix 7 secret)) ++ spell (countable.encode (sub c, iat c, exp c, device c)).

Definition plain_jwt : Jwt := {|
  jwt_encode secret c := Some (plain_token secret c);
  jwt_decode secret now t :=
    if bool_decide (take 16 t = hex_encode (Toy.gen 8 (Toy.mix 7 secret))) then
      match countable.decode (unspell (drop 16 t)) with
      | Some (su, ia, ex, de) => if ex <? now - 60 then None else Some (mkClaims su ia ex de)
      | None => None
      end
    else None
|}.

Lemma plain_jwt_laws : JwtLaws plain_jwt.
Proof.
  split; [by eauto|]. intros secret c t now. unfold jwt_encode, jwt_decode, plain_jwt. intros [= <-]. unfold plain_token.
  set (h := hex_encode _). set (b := spell _).
  assert (Hl : length h = 16%nat) by (unfold h; by rewrite length_hex_encode, length_toy_gen).
  rewrite bool_decide_eq_true_2 by (rewrite <- Hl; apply take_app_length).
  replace (drop 16 (h ++ b)) with b by (rewrite <- Hl; by rewrite drop_app_length). unfold b. rewrite unspell_spell, decode_encode. by destruct c.
Qed.

Definition demo_server_limits : RateLimiter :=
  match server_limiter (E := unit) (instants (fun _ => 0)) ctr0 with
  | (Ok r, _) => r
  | _ => mkRateLimiter ∅ ∅ false 0 (mkGlobalCounter 0 0)
  end.

Definition demo_server : Server :=
  mkServer open_db_empty (fun _ => None) 0 demo_server_limits ∅ [] (bstr "secret") true.

Definition demo_sk : bytes := repeat x21 32.
Definition demo_login : bytes := hex_encode demo_sk.

(** A client logs in, and repeating its proof is refused. *)
Lemma login_succeeds_witness :
  exists challenge s1 c1 token s2 c2,
    challenge_handler (P := toy) (bstr "10.0.0.1") demo_login demo_env1 demo_server ctr0
      = (Ok (mkReply StatusCode.OK (ChallengeBody (hex_encode challenge) 60)), s1, c1) /\
    prove_handler (P := toy) (J := plain_jwt) (bstr "10.0.0.1")
      (mkProveRequest demo_login (hex_encode challenge) (hex_encode (ed25519_sign (Primitives := toy) demo_sk challenge)))
      demo_env1 s1 c1 = (Ok (mkReply StatusCode.OK (TokenBody token 86400)), s2, c2).
Proof.
  destruct (login_succeeds (P := toy) (J := plain_jwt) (L := toy_laws) (JL := plain_jwt_laws) demo_sk (bstr "10.0.0.1")
    demo_env1 1700000000 1700000000 demo_server ctr0) as (ch & s1 & c1 & E1 & Hrest);
    [reflexivity | exact (proj1 demo_clock) | lia | vm_compute; discriminate | vm_compute; reflexivity | reflexivity |].
  assert (Es : s1 = snd (fst (challenge_handler (P := toy) (bstr "10.0.0.1") demo_login demo_env1 demo_server ctr0)))
    by (unfold demo_login; change demo_sk with (ed25519_public (Primitives := toy) demo_sk) at 1; rewrite E1; reflexivity).
  assert (Ec : c1 = snd (challenge_handler (P := toy) (bstr "10.0.0.1") demo_login demo_env1 demo_server ctr0))
    by (unfold demo_login; change demo_sk with (ed25519_public (Primitives := toy) demo_sk) at 1; rewrite E1; reflexivity).
  destruct (Hrest (bstr "10.0.0.1") demo_env1 1700000000 1700000000 s1 c1) as (token & s2 & c2 & t & E2 & _);
    [exact (proj1 demo_clock) | lia | reflexivity | subst s1; vm_compute; reflexivity
    | subst s1 c1; vm_compute; reflexivity | subst s1; vm_compute; reflexivity |].
  exists ch, s1, c1, token, s2, c2. split; [exact E1 | exact E2].
Defined.

Lemma token_needs_signed_challenge_witness :
  exists ch r s' c', let s := snd (fst (challenge_handler (P := toy) (bstr "10.0.0.1") demo_login demo_env1 demo_server ctr0)) in
    prove_handler (P := toy) (J := plain_jwt) (bstr "10.0.0.1")
      (mkProveRequest demo_login (hex_encode ch) (hex_encode (ed25519_sign (Primitives := toy) demo_sk ch)))
      demo_env1 s ctr0 = (Ok r, s', c') /\
    tree_challenges (db s') !! challenge_key demo_login = None.
Proof.
  set (s := snd (fst (challenge_handler (P := toy) (bstr "10.0.0.1") demo_login demo_env1 demo_server ctr0))).
  set (req := mkProveRequest demo_login (hex_encode (repeat x01 32)) (hex_encode (ed25519_sign (Primitives := toy) demo_sk (repeat x01 32)))).
  destruct (prove_handler (P := toy) (J := plain_jwt) (bstr "10.0.0.1") req demo_env1 s ctr0) as [[r s'] c'] eqn:E.
  assert (Ok1 : is_ok r = true).
  { change r with (fst (fst (r, s', c'))). rewrite <- E. vm_compute. reflexivity. }
  destruct r as [r|e|]; [|discriminate..].
  exists (repeat x01 32), r, s', c'. split; [exact E|].
  apply (token_needs_signed_challenge (P := toy) (J := plain_jwt) (bstr "10.0.0.1") req demo_env1 s ctr0 r s' c' E).
  vm_compute. reflexivity.
Defined.
