(* ===== verification/ServerPrekeys.v ===== *)
(** * The prekey directory of the relay ([server/src/main.rs])

    Devices upload their prekey bundles; whoever wants to start a session
    fetches those of a root identity, which consumes them.  A last-resort bundle
    per root identity is served when nothing else is left and stays.  JSON
    bodies are given as their fields. *)

From S2P Require Import Prelude Effects Errors Primitives Text Session SessionSend Encryptor RateLimit Bundle Server ServerAuth.
#[local] Open Scope Z_scope.
#[local] Open Scope sibna_scope.

Record UploadPrekeyRequest := mkUploadPrekeyRequest {
  bundle_hex : bytes;
  is_last_resort : option bool
}.

(** [format!("{}:", root_id)], [format!("{}:{}", root_id, device_id)] and
    [format!("prekey_resort:{}", root_id)]. *)
Definition root_prefix (root_id : bytes) : bytes := root_id ++ [x3a].
Definition device_key (root_id : bytes) (dev : Z) : bytes := root_prefix root_id ++ show_u32 dev.
Definition resort_key (root_id : bytes) : bytes := bstr "prekey_resort:" ++ root_id.

Section Prekeys.
Context {P : Primitives} {J : Jwt}.

(** [PreKeyBundle::from_bytes] and [validate]; a panic of either is one of the handler. *)
Definition parse_bundle (v : bytes) : HandlerM (option PreKeyBundle) :=
  match from_bytes v with Ok b => ret (Some b) | Err _ => ret None | Panic => res Panic end.

Definition validated (b : PreKeyBundle) : HandlerM (Res ProtocolError.t unit) := lift (io_try (bundle_validate b)).

(** [bundle.bundle_id == existing.bundle_id] for what is stored under the key. *)
Definition check_replay (key : bytes) (b : PreKeyBundle) : HandlerM unit :=
  let! stored := db_get TableKind.Prekeys key in
  match stored with
  | Some (Some existing) =>
      let! eb := parse_bundle existing in
      match eb with
      | Some eb => if bool_decide (bundle_id b = bundle_id eb)
                   then early StatusCode.CONFLICT (Text "Replay attack detected: bundle_id reused")
                   else ret tt
      | None => ret tt
      end
  | _ => ret tt
  end.

Definition upload_key (req : UploadPrekeyRequest) (b : PreKeyBundle) : bytes :=
  let root_id := hex_encode (root_identity_key b) in
  if from_option id false (is_last_resort req) then resort_key root_id else device_key root_id (device_id b).

Definition upload_prekey_handler (ip : bytes) (auth : option bytes) (req : UploadPrekeyRequest) : HandlerM Reply :=
  let! claims := auth_user auth in
  let! _ := enforce_rate_limit "prekey_upload" ip (sub claims) in
  let! bundle_bytes := or_reply (hex_decode (bundle_hex req)) StatusCode.BAD_REQUEST "Invalid hex encoding" in
  let! parsed := parse_bundle bundle_bytes in
  let! bundle := or_reply parsed StatusCode.BAD_REQUEST "Malformed PreKeyBundle" in
  let! v := validated bundle in
  match v with
  | Panic => res Panic
  | Err e => early StatusCode.BAD_REQUEST (InvalidBundle e)
  | Ok _ =>
      let root_id := hex_encode (root_identity_key bundle) in
      let db_key := upload_key req bundle in
      let! _ := enforce_rate_limit "prekey_upload" ip root_id in
      let! _ := check_replay db_key bundle in
      let! ok := db_insert TableKind.Prekeys db_key bundle_bytes in
      if negb ok then early StatusCode.INTERNAL_SERVER_ERROR NoBody
      else
        let! _ := log_with (str_slice 0 16 root_id) in
        ret (mkReply StatusCode.OK NoBody)
  end.

(** What a stored entry contributes to the answer. *)
Definition usable (v : bytes) : HandlerM bool :=
  let! parsed := parse_bundle v in
  match parsed with
  | Some b => let! r := validated b in ret (is_ok r)
  | None => ret false
  end.

(** The bundles among scanned entries, in order. *)
Fixpoint collect_bundles (l : list (bytes * bytes)) : HandlerM (list bytes) :=
  match l with
  | [] => ret []
  | (_, v) :: l =>
      let! ok := usable v in
      let! rest := collect_bundles l in
      ret (if ok then hex_encode v :: rest else rest)
  end.

(** The last-resort bundle, when nothing else was found. *)
Definition last_resort (root_id : bytes) : HandlerM (list bytes) :=
  let! stored := db_get TableKind.Prekeys (resort_key root_id) in
  match stored with
  | Some (Some v) =>
      let! ok := usable v in
      if ok then let! _ := log_with (str_slice 0 16 root_id) in ret [hex_encode v] else ret []
  | _ => ret []
  end.

Definition fetch_prekey_handler (ip root_id : bytes) : HandlerM Reply :=
  let! _ := enforce_rate_limit "prekey_fetch" ip root_id in
  let! found := db_scan_prefix TableKind.Prekeys (root_prefix root_id) in
  let! onetime := collect_bundles found in
  let keys_to_delete := map fst found in
  let! resort := match onetime with [] => last_resort root_id | _ :: _ => ret [] end in
  let using_resort := match resort with [] => false | _ :: _ => true end in
  let fetched := onetime ++ resort in
  match fetched with
  | [] => early StatusCode.NOT_FOUND NoBody
  | _ :: _ =>
      let! _ := db_remove_all TableKind.Prekeys keys_to_delete in
      let! _ := if using_resort then ret tt else log_with (str_slice 0 16 root_id) in
      ret (mkReply StatusCode.OK (BundlesBody fetched))
  end.

(** Whether any of the removals found something. *)
Fixpoint remove_found (keys : list bytes) : HandlerM bool :=
  match keys with
  | [] => ret false
  | key :: keys =>
      let! r := db_remove TableKind.Prekeys key in
      let! rest := remove_found keys in
      ret (match r with Some (Some _) => true | _ => rest end)
  end.

Definition delete_prekey_handler (root_id : bytes) (auth : option bytes) : HandlerM Reply :=
  let! claims := auth_user auth in
  if negb (bool_decide (sub claims = root_id))
  then early StatusCode.FORBIDDEN (Text "Cannot delete another user's prekeys")
  else
    let! found := db_scan_prefix TableKind.Prekeys (root_prefix root_id) in
    let! deleted := remove_found (map fst found) in
    ret (mkReply (if deleted then StatusCode.OK else StatusCode.NOT_FOUND) NoBody).

End Prekeys.

(** ** What is served *)

Section Serving.
Context {P : Primitives} {J : Jwt}.

(** A stored value is a bundle that validated at some reading of the clock, or
    does at every one. *)
Definition valid_once (env : Env) (v : bytes) : Prop :=
  exists b c c', from_bytes v = Ok b /\ bundle_validate b env c = (Ok tt, c').
Definition valid_always (env : Env) (v : bytes) : Prop :=
  exists b, from_bytes v = Ok b /\ forall c, is_ok (fst (bundle_validate b env c)) = true.

(** Every branch of the validation. *)
Ltac validate_cases :=
  unfold bundle_validate, check_pq, check_key, check_sig, io_bind, io_res, io_ret, read_secs, ok_or;
  repeat (match goal with
          | |- context [if ?x then _ else _] => destruct x
          | |- context [match ?x with Some _ => _ | None => _ end] => destruct x
          end; cbv beta iota; try done).

Lemma validate_no_panic b env c : is_panic (fst (bundle_validate b env c)) = false.
Proof. validate_cases. Qed.

Lemma validate_instant b env c : c_instant (snd (bundle_validate b env c)) = c_instant c.
Proof. validate_cases. Qed.

(** Parsing a bundle touches nothing and does not panic. *)
Lemma parse_bundle_run v env s c :
  parse_bundle v env s c = (Ok (match from_bytes v with Ok b => Some b | _ => None end), s, c).
Proof. unfold parse_bundle. pose proof (from_bytes_total v). by destruct (from_bytes v). Qed.

Lemma validated_run b env s c : exists r c', validated b env s c = (Ok r, s, c') /\ bundle_validate b env c = (r, c') /\
  c_instant c' = c_instant c.
Proof.
  unfold validated, lift, io_try. pose proof (validate_no_panic b env c) as Hp.
  pose proof (validate_instant b env c) as Hi.
  destruct (bundle_validate b env c) as [[[]|e|] c']; [| |done]; eauto.
Qed.

Lemma usable_run v env s c : exists ok c', usable v env s c = (Ok ok, s, c') /\
  (ok = true -> valid_once env v) /\ (valid_always env v -> ok = true).
Proof.
  unfold usable, bind at 1. rewrite parse_bundle_run. destruct (from_bytes v) as [b|e|] eqn:E.
  - destruct (validated_run b env s c) as (r & c' & Ev & Eb & _). rewrite (bind_ok _ _ _ _ _ _ _ _ Ev).
    exists (is_ok r), c'. split; [done|]. split.
    + intros Hr. exists b, c, c'. split; [done|]. by destruct r as [[]|e|].
    + intros (b' & E' & Hv). rewrite E' in E. injection E as ->. specialize (Hv c). by rewrite Eb in Hv.
  - exists false, c. split; [done|]. split; [done|]. intros (b & Hb & _). congruence.
  - exists false, c. split; [done|]. split; [done|]. intros (b & Hb & _). congruence.
Qed.

(** What a scan leaves: a sublist of the entries, all of them valid, with every
    entry that is valid throughout. *)
Definition picks (env : Env) (l chosen : list (bytes * bytes)) : Prop :=
  chosen `sublist_of` l /\ Forall (fun e => valid_once env e.2) chosen /\
  forall e, e ∈ l -> valid_always env e.2 -> e ∈ chosen.

Abbreviation hexes l := (map (fun e : bytes * bytes => hex_encode e.2) l).

Lemma collect_run l env s : forall c, exists chosen c',
  collect_bundles l env s c = (Ok (hexes chosen), s, c') /\ picks env l chosen.
Proof.
  induction l as [|[k v] l IH]; intros c; cbn [collect_bundles].
  { exists [], c. split; [done|]. split; [constructor|]. split; [constructor|]. by intros e He%elem_of_nil. }
  destruct (usable_run v env s c) as (ok & c1 & E1 & H1 & H2). rewrite (bind_ok _ _ _ _ _ _ _ _ E1).
  destruct (IH c1) as (chosen & c2 & E2 & Hsub & Hval & Hall). rewrite (bind_ok _ _ _ _ _ _ _ _ E2).
  exists (if ok then (k, v) :: chosen else chosen), c2. split; [by destruct ok|]. destruct ok.
  - split; [by constructor|]. split; [constructor; [by apply H1 | done]|].
    intros e [->|He]%elem_of_cons Hv; [left | right; by apply Hall].
  - split; [by apply sublist_cons|]. split; [done|].
    intros e [->|He]%elem_of_cons Hv; [by specialize (H2 Hv) | by apply Hall].
Qed.

(** The entries under a root identity. *)
Abbreviation onetime_entries root s := (prefix_range (root_prefix root) (tree_prekeys (db s))).

Definition consumed (root : bytes) (t t' : Table) : Prop :=
  forall x, t' !! x = if starts_with (root_prefix root) x then None else t !! x.

Lemma scan_consumed root t t' :
  (forall x, t' !! x = if decide (x ∈ map fst (prefix_range (root_prefix root) t)) then None else t !! x) ->
  consumed root t t'.
Proof.
  intros H x. rewrite H. destruct (decide _) as [Hx|Hx].
  - apply list_elem_of_In, in_map_iff in Hx as ([k v] & <- & Hx). apply list_elem_of_In, elem_of_prefix_range in Hx as [_ Hp].
    cbn [fst]. by rewrite Hp.
  - destruct (starts_with _ x) eqn:Es; [|done]. destruct (t !! x) as [v|] eqn:Ex; [|done]. destruct Hx.
    apply list_elem_of_In, in_map_iff. exists (x, v). split; [done|]. apply list_elem_of_In. by apply elem_of_prefix_range.
Qed.

(** The arguments of the log lines do not panic. *)
Definition loggable (s : Server) (root : bytes) : Prop :=
  log_enabled s = true -> is_ascii root /\ (16 <= length root)%nat.

Lemma log_root root env s c : loggable s root -> log_with (E := Reply) (str_slice 0 16 root) env s c = (Ok tt, s, c).
Proof.
  intros Hl. unfold log_with, bind, get. destruct (log_enabled s) eqn:E; [|done].
  destruct (Hl E) as [Ha Hn]. by rewrite str_slice_ascii by (done || lia).
Qed.

Lemma last_resort_run root env s c : fault_free s -> loggable s root ->
  exists hs c', last_resort root env s c = (Ok hs, set_db_ops (S (db_ops s)) s, c') /\
    match tree_prekeys (db s) !! resort_key root with
    | Some v => (hs = [hex_encode v] /\ valid_once env v) \/ (hs = [] /\ ~ valid_always env v)
    | None => hs = []
    end.
Proof.
  intros Hf Hl. unfold last_resort. unfold bind at 1. rewrite db_get_run, Hf. cbn [tree].
  destruct (tree_prekeys (db s) !! resort_key root) as [v|]; [|by exists [], c].
  set (s1 := set_db_ops _ s). destruct (usable_run v env s1 c) as (ok & c1 & E1 & H1 & H2).
  rewrite (bind_ok _ _ _ _ _ _ _ _ E1). destruct ok.
  - rewrite (bind_ok _ _ _ _ _ _ _ _ (log_root root env s1 c1 Hl)). exists [hex_encode v], c1. split; [done|].
    left. split; [done | by apply H1].
  - exists [], c1. split; [done|]. right. split; [done|]. intros Hv. by specialize (H2 Hv).
Qed.

(** The outcome of a fetch, on every branch. *)
Lemma fetch_run ip root env s c :
  fault_free s -> loggable s root -> admits "prekey_fetch" ip root env s c ->
  exists chosen r s' c', fetch_prekey_handler ip root env s c = (r, s', c') /\
    picks env (onetime_entries root s) chosen /\
    match chosen with
    | _ :: _ => r = Ok (mkReply StatusCode.OK (BundlesBody (hexes chosen))) /\
                consumed root (tree_prekeys (db s)) (tree_prekeys (db s'))
    | [] =>
        (exists v, tree_prekeys (db s) !! resort_key root = Some v /\ valid_once env v /\
           r = Ok (mkReply StatusCode.OK (BundlesBody [hex_encode v])) /\
           consumed root (tree_prekeys (db s)) (tree_prekeys (db s'))) \/
        (r = Err (mkReply StatusCode.NOT_FOUND NoBody) /\ tree_prekeys (db s') = tree_prekeys (db s) /\
         forall v, tree_prekeys (db s) !! resort_key root = Some v -> ~ valid_always env v)
    end.
Proof.
  intros Hf Hl Had. unfold fetch_prekey_handler. apply admits_run in Had as (l & c1 & E1).
  rewrite (bind_ok _ _ _ _ _ _ _ _ E1). unfold bind at 1. rewrite db_scan_run. cbn [faults db_ops set_limiter db tree].
  rewrite (Hf (db_ops s)). set (found := prefix_range _ _). set (s1 := set_db_ops _ _).
  assert (Hf1 : fault_free s1) by exact Hf. assert (Hl1 : loggable s1 root) by exact Hl.
  destruct (collect_run found env s1 c1) as (chosen & c2 & E2 & Hp). rewrite (bind_ok _ _ _ _ _ _ _ _ E2).
  exists chosen. destruct chosen as [|e chosen]; cbn [map].
  - destruct (last_resort_run root env s1 c2 Hf1 Hl1) as (hs & c3 & E3 & Hr). rewrite (bind_ok _ _ _ _ _ _ _ _ E3).
    cbn [app]. set (s2 := set_db_ops _ s1) in *. change (tree_prekeys (db s1)) with (tree_prekeys (db s)) in Hr.
    destruct hs as [|h hs].
    + eexists _, s2, c3. split; [reflexivity|]. split; [done|]. right. split; [done|]. split; [done|].
      intros v Hv. rewrite Hv in Hr. by destruct Hr as [[? _]|[_ ?]].
    + destruct (tree_prekeys (db s) !! resort_key root) as [v|]; [|done]. destruct Hr as [[Eh Hv]|[? _]]; [|done].
      destruct (db_remove_all_run (E := Reply) TableKind.Prekeys (map fst found) env s2 c3 Hf1) as (s3 & E4 & Hx & _ & _).
      rewrite (bind_ok _ _ _ _ _ _ _ _ E4). unfold bind, ret. eexists _, s3, c3. split; [reflexivity|]. split; [done|].
      left. exists v. split; [done|]. split; [done|]. split; [by rewrite Eh | by apply scan_consumed].
  - unfold bind at 1, ret at 1. rewrite app_nil_r.
    destruct (db_remove_all_run (E := Reply) TableKind.Prekeys (map fst found) env s1 c2 Hf1) as (s3 & E4 & Hx & _ & Hs3).
    rewrite (bind_ok _ _ _ _ _ _ _ _ E4). assert (Hl3 : loggable s3 root) by (rewrite Hs3; exact Hl).
    rewrite (bind_ok _ _ _ _ _ _ _ _ (log_root root env s3 c2 Hl3)). unfold ret.
    eexists _, s3, c2. split; [reflexivity|]. split; [done|]. split; [done | by apply scan_consumed].
Qed.

(** C24: fetching prekeys.  Take a fetch that the limiter lets through, on a
    working database, for an identity the log lines can shorten: logging is off,
    or the name is ASCII of at least 16 bytes, as the hexadecimal identities are
    (for other names the log line can panic, [resort_bundles_can_be_drained]).
    It always answers.  It serves, in the order of their keys, a sublist of the
    bundles stored under the root identity: only bundles whose signatures and
    expiry were checked in this request, and every one that is valid
    throughout.  If it serves any, every entry under that identity is gone
    afterwards, and nothing else is (zero reuse).  If there is none, the
    last-resort bundle is served when it is valid throughout, the invalid entries
    go, and it stays itself unless its key lies under the identity (only for one
    named [prekey_resort]); otherwise the answer is 404 and the directory is
    unchanged. *)
Theorem fetch_consumes_prekeys ip root env s c :
  fault_free s -> loggable s root -> admits "prekey_fetch" ip root env s c ->
  exists chosen r s' c', fetch_prekey_handler ip root env s c = (r, s', c') /\
    picks env (onetime_entries root s) chosen /\
    match chosen with
    | _ :: _ => r = Ok (mkReply StatusCode.OK (BundlesBody (hexes chosen))) /\
                consumed root (tree_prekeys (db s)) (tree_prekeys (db s'))
    | [] =>
        (exists v, tree_prekeys (db s) !! resort_key root = Some v /\ valid_once env v /\
           r = Ok (mkReply StatusCode.OK (BundlesBody [hex_encode v])) /\
           consumed root (tree_prekeys (db s)) (tree_prekeys (db s'))) \/
        (r = Err (mkReply StatusCode.NOT_FOUND NoBody) /\ tree_prekeys (db s') = tree_prekeys (db s) /\
         forall v, tree_prekeys (db s) !! resort_key root = Some v -> ~ valid_always env v)
    end.
Proof. apply fetch_run. Qed.

End Serving.

(** ** Uploading *)

Section Uploading.
Context {P : Primitives} {J : Jwt}.

(** A valid token, whoever it belongs to. *)
Definition authenticated (auth : option bytes) (claims : Claims) (env : Env) (s : Server) (c : Ctr) : Prop :=
  exists c', auth_user auth env s c = (Ok claims, s, c') /\ c_instant c' = c_instant c.

(** The limiter lets a request through that it checks under two identities. *)
Definition admits2 (op : string) (ip id1 id2 : bytes) (env : Env) (s : Server) (c : Ctr) : Prop :=
  forall c0, c_instant c0 = c_instant c -> exists l c1,
    check op (generate_rate_key ip id1) env (limiter s) c0 = (Ok tt, l, c1) /\
    forall c2, c_instant c2 = c_instant c1 -> admits op ip id2 env (set_limiter l s) c2.

(** No bundle of the same id is stored under the key. *)
Definition fresh_id (t : Table) (key : bytes) (b : PreKeyBundle) : Prop :=
  forall v eb, t !! key = Some v -> from_bytes v = Ok eb -> bundle_id b <> bundle_id eb.

Lemma check_replay_run key b env s c : fault_free s -> fresh_id (tree_prekeys (db s)) key b ->
  check_replay key b env s c = (Ok tt, set_db_ops (S (db_ops s)) s, c).
Proof.
  intros Hf Hn. unfold check_replay, bind at 1. rewrite db_get_run, Hf. cbn [tree].
  destruct (tree_prekeys (db s) !! key) as [v|] eqn:E; [|done]. unfold bind at 1. rewrite parse_bundle_run.
  destruct (from_bytes v) as [eb|e|] eqn:Eb; try done. by rewrite bool_decide_eq_false_2 by (by eapply Hn).
Qed.

Lemma upload_run ip auth claims h v b resort env s c :
  fault_free s -> authenticated auth claims env s c -> hex_decode h = Some v -> from_bytes v = Ok b ->
  (forall c, is_ok (fst (bundle_validate b env c)) = true) ->
  let req := mkUploadPrekeyRequest h resort in
  admits2 "prekey_upload" ip (sub claims) (hex_encode (root_identity_key b)) env s c ->
  fresh_id (tree_prekeys (db s)) (upload_key req b) b ->
  exists s' c', upload_prekey_handler ip auth req env s c = (Ok (mkReply StatusCode.OK NoBody), s', c') /\
    tree_prekeys (db s') = <[upload_key req b := v]> (tree_prekeys (db s)) /\ faults s' = faults s /\
    log_enabled s' = log_enabled s /\ jwt_secret s' = jwt_secret s.
Proof.
  intros Hf (c1 & Ea & Hi) Hh Hb Hv req Had Hn. unfold upload_prekey_handler.
  rewrite (bind_ok _ _ _ _ _ _ _ _ Ea). destruct (Had c1 Hi) as (l & c2 & E1 & H2).
  assert (E1' : enforce_rate_limit "prekey_upload" ip (sub claims) env s c1 = (Ok tt, set_limiter l s, c2))
    by (unfold enforce_rate_limit, bind, m_try, zoom; by rewrite E1).
  rewrite (bind_ok _ _ _ _ _ _ _ _ E1'). subst req. cbn [bundle_hex]. rewrite Hh. unfold or_reply at 1, bind at 1, ret at 1.
  unfold bind at 1. rewrite parse_bundle_run, Hb. unfold or_reply at 1, bind at 1, ret at 1.
  destruct (validated_run b env (set_limiter l s) c2) as (r & c3 & E3 & Eb & Hi3). rewrite (bind_ok _ _ _ _ _ _ _ _ E3).
  specialize (Hv c2). rewrite Eb in Hv. destruct r as [[]|e|]; try done.
  destruct (admits_run _ _ _ _ _ _ (H2 c3 Hi3)) as (l2 & c4 & E4). rewrite (bind_ok _ _ _ _ _ _ _ _ E4).
  rewrite (bind_ok _ _ _ _ _ _ _ _ (check_replay_run _ b env (set_limiter l2 (set_limiter l s)) c4 Hf Hn)).
  unfold bind at 1. rewrite db_insert_run. cbn [faults set_db_ops set_limiter]. rewrite Hf. cbn [negb].
  assert (Hw : length (root_identity_key b) = 32%nat).
  { pose proof (from_bytes_total v) as Ht. rewrite Hb in Ht. apply (wf_root b), Ht. }
  set (s5 := set_db _ _).
  assert (Hl : loggable s5 (hex_encode (root_identity_key b)))
    by (intros _; split; [apply hex_encode_ascii | rewrite length_hex_encode; lia]).
  rewrite (bind_ok _ _ _ _ _ _ _ _ (log_root _ env s5 c4 Hl)). unfold ret. eexists s5, c4. split; [reflexivity|]. done.
Qed.

Lemma device_key_prefix root dev : starts_with (root_prefix root) (device_key root dev) = true.
Proof. apply starts_with_app. Qed.

(** An entry of the directory that stays valid is served. *)
Lemma fetch_serves ip root key v env s c :
  fault_free s -> loggable s root -> admits "prekey_fetch" ip root env s c ->
  tree_prekeys (db s) !! key = Some v -> starts_with (root_prefix root) key = true -> valid_always env v ->
  exists hs s' c', fetch_prekey_handler ip root env s c = (Ok (mkReply StatusCode.OK (BundlesBody hs)), s', c') /\
    hex_encode v ∈ hs /\ consumed root (tree_prekeys (db s)) (tree_prekeys (db s')).
Proof.
  intros Hf Hl Had Hk Hp Hv. destruct (fetch_run ip root env s c Hf Hl Had) as (ch & r & s' & c' & E & Hpk & Hr).
  assert (Hin : (key, v) ∈ ch) by (apply Hpk; [by apply elem_of_prefix_range | done]).
  destruct ch as [|e ch]; [by apply elem_of_nil in Hin|]. destruct Hr as [-> Hc].
  eexists _, s', c'. split; [exact E|]. split; [|done].
  apply list_elem_of_In, in_map_iff. exists (key, v). split; [done | by apply list_elem_of_In].
Qed.

(** A fetched one-time prekey can be put back.  After a fetch that
    consumed a device's bundle, anyone with a token of the server (its claims
    are not compared with the bundle's root identity) can upload the bundle just
    served, and it is accepted and stored under the same key, so that the next
    fetch serves the same one-time prekey again: the replay check compares only
    with the bundle stored at that moment. *)
Theorem fetched_prekey_can_be_reuploaded ip root v b env s c ip2 auth claims env2 c2 :
  fault_free s -> loggable s root -> admits "prekey_fetch" ip root env s c ->
  from_bytes v = Ok b -> root = hex_encode (root_identity_key b) ->
  tree_prekeys (db s) !! device_key root (device_id b) = Some v ->
  (forall c, is_ok (fst (bundle_validate b env c)) = true) ->
  (forall c, is_ok (fst (bundle_validate b env2 c)) = true) ->
  exists hs s1 c1, fetch_prekey_handler ip root env s c = (Ok (mkReply StatusCode.OK (BundlesBody hs)), s1, c1) /\
    hex_encode v ∈ hs /\ tree_prekeys (db s1) !! device_key root (device_id b) = None /\
    (fault_free s1 -> authenticated auth claims env2 s1 c2 -> admits2 "prekey_upload" ip2 (sub claims) root env2 s1 c2 ->
     exists s2 c3, upload_prekey_handler ip2 auth (mkUploadPrekeyRequest (hex_encode v) None) env2 s1 c2
       = (Ok (mkReply StatusCode.OK NoBody), s2, c3) /\
       tree_prekeys (db s2) !! device_key root (device_id b) = Some v).
Proof.
  intros Hf Hl Had Hb Hr Hk Hv1 Hv2.
  destruct (fetch_serves ip root _ v env s c Hf Hl Had Hk (device_key_prefix _ _)) as (hs & s1 & c1 & E & Hh & Hc);
    [by exists b|].
  assert (Hn : tree_prekeys (db s1) !! device_key root (device_id b) = None) by (by rewrite Hc, device_key_prefix).
  exists hs, s1, c1. split; [done|]. split; [done|]. split; [done|]. intros Hf1 Ha Had2.
  destruct (upload_run ip2 auth claims (hex_encode v) v b None env2 s1 c2) as (s2 & c3 & E2 & Ht & _); try done.
  - apply hex_decode_encode.
  - by rewrite <- Hr.
  - unfold upload_key. cbn [is_last_resort from_option id]. rewrite <- Hr. intros v' eb Hs. congruence.
  - exists s2, c3. split; [done|]. rewrite Ht. unfold upload_key. cbn [is_last_resort from_option id]. rewrite <- Hr.
    apply lookup_insert_eq.
Qed.

(** C25: the directory hands out what devices published.  A bundle a device
    builds and signs with its 32-byte keys (none of them all zeros) and a
    1184-byte post-quantum key, uploaded within its thirty days with any valid
    token, let through by the limiter, on a working database and under a key
    whose stored bundle has another id, is accepted; and whenever later a fetch
    for its root identity is let through, the database working, the entry still
    in place and the bundle not yet expired, the answer contains exactly its
    bytes. *)
Theorem uploaded_bundle_is_served {L : PrimitiveLaws P} sk rk spk opk dev pq env0 c0 lo hi :
  length sk = 32%nat -> length rk = 32%nat -> length spk = 32%nat -> length pq = 1184%nat ->
  opt_len 32 opk -> is_u32 dev -> all_zero (ed25519_public sk) = false -> all_zero spk = false ->
  clock_in env0 lo hi -> 0 <= lo -> hi <= U64_MAX - 30 * 86400 ->
  exists b c', publish sk rk spk opk dev pq env0 c0 = (Ok b, c') /\
    forall ip auth claims env s c, clock_in env lo (lo + 30 * 86400) -> fault_free s ->
      let key := device_key (hex_encode (root_identity_key b)) (device_id b) in
      authenticated auth claims env s c ->
      admits2 "prekey_upload" ip (sub claims) (hex_encode (root_identity_key b)) env s c ->
      fresh_id (tree_prekeys (db s)) key b ->
      exists s1 c1, upload_prekey_handler ip auth (mkUploadPrekeyRequest (hex_encode (to_bytes b)) None) env s c
          = (Ok (mkReply StatusCode.OK NoBody), s1, c1) /\
        forall ip2 s2 c2, fault_free s2 -> tree_prekeys (db s2) !! key = tree_prekeys (db s1) !! key ->
          admits "prekey_fetch" ip2 (hex_encode (root_identity_key b)) env s2 c2 ->
          exists hs s3 c3, fetch_prekey_handler ip2 (hex_encode (root_identity_key b)) env s2 c2
              = (Ok (mkReply StatusCode.OK (BundlesBody hs)), s3, c3) /\ hex_encode (to_bytes b) ∈ hs.
Proof.
  intros Hsk Hrk Hspk Hpq Hopk Hdev Hz1 Hz2 Hck Hlo Hhi.
  destruct (published_bundle_valid sk rk spk opk dev pq env0 c0 lo hi) as (b & c' & E & Hp & Hx & Hv); try done.
  exists b, c'. split; [done|]. intros ip auth claims env s c Hc2 Hf key Ha Had Hn.
  assert (Hval : forall c, is_ok (fst (bundle_validate b env c)) = true).
  { intros c1. destruct (clock_in_secs env _ _ (c_clock c1) Hc2) as (t & Et & Ht). rewrite (Hv env c1 t Et).
    by destruct (Z.leb_spec t (expiration b)); [|lia]. }
  assert (Hw : length (root_identity_key b) = 32%nat).
  { pose proof (from_bytes_total (to_bytes b)) as Ht. rewrite Hp in Ht. apply (wf_root b), Ht. }
  destruct (upload_run ip auth claims (hex_encode (to_bytes b)) (to_bytes b) b None env s c) as (s1 & c1 & E1 & Ht & _);
    try done; [apply hex_decode_encode|].
  exists s1, c1. split; [done|]. intros ip2 s2 c2 Hf2 Hs Had2. rewrite Ht in Hs. unfold upload_key in Hs.
  cbn [is_last_resort from_option id] in Hs. unfold key in Hs. rewrite lookup_insert_eq in Hs.
  assert (Hl : loggable s2 (hex_encode (root_identity_key b)))
    by (intros _; split; [apply hex_encode_ascii | rewrite length_hex_encode; lia]).
  assert (Hva : valid_always env (to_bytes b)) by (by exists b).
  destruct (fetch_serves _ _ _ _ _ _ _ Hf2 Hl Had2 Hs (device_key_prefix _ _) Hva) as (hs & s3 & c3 & E3 & Hh & _).
  by exists hs, s3, c3.
Qed.

(** The reserved name.  The key of a last-resort bundle also reads as an
    entry of the root identity [prekey_resort], so a fetch for that name, which
    needs no authentication, serves and then removes the last-resort bundles of
    all users; with log lines on, the handler panics afterwards, since the name
    is shorter than the 16 characters the line cuts from it.  Either way every
    last-resort bundle is gone, although they are meant to persist. *)
Theorem resort_bundles_can_be_drained ip root v env s c :
  fault_free s -> admits "prekey_fetch" ip (bstr "prekey_resort") env s c ->
  tree_prekeys (db s) !! resort_key root = Some v -> valid_always env v ->
  exists r s' c', fetch_prekey_handler ip (bstr "prekey_resort") env s c = (r, s', c') /\
    (if log_enabled s then r = Panic
     else exists hs, r = Ok (mkReply StatusCode.OK (BundlesBody hs)) /\ hex_encode v ∈ hs) /\
    forall root', tree_prekeys (db s') !! resort_key root' = None.
Proof.
  intros Hf Had Hk Hv.
  assert (Hpre : forall root', starts_with (root_prefix (bstr "prekey_resort")) (resort_key root') = true).
  { intros root'. change (resort_key root') with (root_prefix (bstr "prekey_resort") ++ root'). apply starts_with_app. }
  destruct (log_enabled s) eqn:El.
  2:{ destruct (fetch_serves ip (bstr "prekey_resort") (resort_key root) v env s c Hf) as (hs & s' & c' & E & Hh & Hc);
        try done; [by intros H; rewrite H in El|].
      eexists _, s', c'. split; [exact E|]. split; [by eauto|]. intros root'. by rewrite Hc, Hpre. }
  unfold fetch_prekey_handler. apply admits_run in Had as (l & c1 & E1).
  rewrite (bind_ok _ _ _ _ _ _ _ _ E1). unfold bind at 1. rewrite db_scan_run. cbn [faults db_ops set_limiter db tree].
  rewrite (Hf (db_ops s)). set (found := prefix_range _ _). set (s1 := set_db_ops _ _).
  destruct (collect_run found env s1 c1) as (chosen & c2 & E2 & Hp). rewrite (bind_ok _ _ _ _ _ _ _ _ E2).
  assert (Hin : (resort_key root, v) ∈ chosen) by (apply Hp; [by apply elem_of_prefix_range | done]).
  destruct chosen as [|e chosen]; [by apply elem_of_nil in Hin|]. cbn [map]. unfold bind at 1, ret at 1. cbn [app].
  destruct (db_remove_all_run (E := Reply) TableKind.Prekeys (map fst found) env s1 c2 Hf) as (s3 & E4 & Hx & _ & Hs3).
  rewrite (bind_ok _ _ _ _ _ _ _ _ E4). unfold bind at 1, log_with, bind at 1, get.
  assert (Hl3 : log_enabled s3 = true) by (by rewrite Hs3). rewrite Hl3. unfold bind, res.
  replace (str_slice 0 16 (bstr "prekey_resort")) with (Panic : Res Reply bytes) by reflexivity.
  eexists _, s3, c2. split; [reflexivity|]. split; [done|]. intros root'.
  by rewrite (scan_consumed _ _ _ Hx), Hpre.
Qed.

End Uploading.

(** ** Witnesses *)

Definition demo_published : PreKeyBundle :=
  match publish (P := toy) (repeat x01 32) (repeat x02 32) (repeat x03 32) None 1 (repeat x04 1184) demo_env ctr0 with
  | (Ok b, _) => b
  | _ => demo_bundle
  end.

Definition demo_root : bytes := hex_encode (root_identity_key demo_published).

(** A server that holds an entry of the directory. *)
Definition demo_directory (logging : bool) (key : bytes) : Server :=
  mkServer (mkDbState {[ key := to_bytes demo_published ]} ∅ ∅ ∅) (fun _ => None) 0 demo_server_limits ∅ []
    (bstr "secret") logging.

Lemma demo_published_valid c : is_ok (fst (bundle_validate (P := toy) demo_published demo_env c)) = true.
Proof. destruct c. vm_compute. reflexivity. Qed.

Lemma demo_published_always : valid_always (P := toy) demo_env (to_bytes demo_published).
Proof. exists demo_published. split; [vm_compute; reflexivity | exact demo_published_valid]. Qed.

Lemma demo_loggable key : loggable (demo_directory true key) demo_root.
Proof. intros _. split; [apply hex_encode_ascii | vm_compute; lia]. Qed.

Definition demo_ip : bytes := bstr "10.0.0.1".

Definition demo_auth : option bytes :=
  Some (bstr "Bearer " ++ plain_token (bstr "secret") (mkClaims (bstr "mallory") 1699999990 1700086390 (bstr "default"))).

Lemma fetch_consumes_prekeys_witness :
  exists hs s' c', fetch_prekey_handler (P := toy) demo_ip demo_root demo_env
    (demo_directory true (device_key demo_root 1)) ctr0 = (Ok (mkReply StatusCode.OK (BundlesBody hs)), s', c') /\
    tree_prekeys (db s') !! device_key demo_root 1 = None.
Proof.
  destruct (fetch_consumes_prekeys (P := toy) demo_ip demo_root demo_env
    (demo_directory true (device_key demo_root 1)) ctr0) as (ch & r & s' & c' & E & Hp & Hr);
    [by intros n | apply demo_loggable | vm_compute; reflexivity |].
  assert (Hin : (device_key demo_root 1, to_bytes demo_published) ∈ ch).
  { apply Hp; [|exact demo_published_always]. apply elem_of_prefix_range. split; [apply lookup_singleton_eq | vm_compute; reflexivity]. }
  destruct ch as [|e ch]; [exact (False_ind _ (not_elem_of_nil _ Hin))|]. destruct Hr as [-> Hc].
  eexists _, s', c'. split; [exact E|]. rewrite Hc, device_key_prefix. reflexivity.
Defined.

Lemma uploaded_bundle_is_served_witness :
  exists b s1 c1, upload_prekey_handler (P := toy) (J := plain_jwt) demo_ip demo_auth
      (mkUploadPrekeyRequest (hex_encode (to_bytes b)) None) demo_env demo_server ctr0
    = (Ok (mkReply StatusCode.OK NoBody), s1, c1).
Proof.
  destruct (uploaded_bundle_is_served (P := toy) (J := plain_jwt) (L := toy_laws) (repeat x01 32) (repeat x02 32)
    (repeat x03 32) None 1 (repeat x04 1184) demo_env ctr0 1700000000 1700000000) as (b & c' & E & Hs);
    [reflexivity | reflexivity | reflexivity | reflexivity | by intros ? [=] | vm_compute; split; discriminate
    | reflexivity | reflexivity | exact demo_env_clock | lia | vm_compute; discriminate |].
  assert (Eb : b = demo_published) by (unfold demo_published; by rewrite E). subst b.
  destruct (Hs demo_ip demo_auth (mkClaims (bstr "mallory") 1699999990 1700086390 (bstr "default")) demo_env demo_server ctr0)
    as (s1 & c1 & E1 & _).
  - intros i. exists (1700000000 * NANOS). split; [done|]. rewrite Z.div_mul by done. lia.
  - by intros n.
  - eexists. split; [vm_compute; reflexivity | reflexivity].
  - intros [i j k] Hi. cbn [c_instant] in Hi. subst j. eexists _, _. split; [vm_compute; reflexivity|].
    intros [i2 j2 k2] Hj. cbn [c_instant] in Hj. subst j2. vm_compute. reflexivity.
  - intros v eb Hv. discriminate Hv.
  - by exists demo_published, s1, c1.
Defined.

Lemma fetched_prekey_can_be_reuploaded_witness :
  exists hs s1 c1 s2 c2,
    fetch_prekey_handler (P := toy) demo_ip demo_root demo_env (demo_directory true (device_key demo_root 1)) ctr0
      = (Ok (mkReply StatusCode.OK (BundlesBody hs)), s1, c1) /\
    upload_prekey_handler (P := toy) (J := plain_jwt) demo_ip demo_auth
      (mkUploadPrekeyRequest (hex_encode (to_bytes demo_published)) None) demo_env s1 ctr0
      = (Ok (mkReply StatusCode.OK NoBody), s2, c2).
Proof.
  destruct (fetched_prekey_can_be_reuploaded (P := toy) (J := plain_jwt) demo_ip demo_root (to_bytes demo_published)
    demo_published demo_env (demo_directory true (device_key demo_root 1)) ctr0 demo_ip demo_auth
    (mkClaims (bstr "mallory") 1699999990 1700086390 (bstr "default")) demo_env ctr0) as (hs & s1 & c1 & E & _ & _ & Hup);
    [by intros n | apply demo_loggable | vm_compute; reflexivity | vm_compute; reflexivity | reflexivity
    | apply lookup_singleton_eq | exact demo_published_valid | exact demo_published_valid |].
  assert (Es : s1 = snd (fst (fetch_prekey_handler (P := toy) demo_ip demo_root demo_env
                                (demo_directory true (device_key demo_root 1)) ctr0))) by (by rewrite E).
  destruct Hup as (s2 & c2 & E2 & _).
  - intros n. subst s1. vm_compute. reflexivity.
  - subst s1. eexists. split; [vm_compute; reflexivity | reflexivity].
  - subst s1. intros [i j k] Hi. cbn [c_instant] in Hi. subst j. eexists _, _. split; [vm_compute; reflexivity|].
    intros [i2 j2 k2] Hj. vm_compute in Hj. subst j2. vm_compute. reflexivity.
  - exists hs, s1, c1, s2, c2. split; [exact E | exact E2].
Defined.

Lemma resort_bundles_can_be_drained_witness :
  tree_prekeys (db (snd (fst (fetch_prekey_handler (P := toy) demo_ip (bstr "prekey_resort") demo_env
    (demo_directory false (resort_key demo_root)) ctr0)))) !! resort_key demo_root = None.
Proof.
  destruct (resort_bundles_can_be_drained (P := toy) demo_ip demo_root (to_bytes demo_published) demo_env
    (demo_directory false (resort_key demo_root)) ctr0) as (r & s' & c' & E & _ & Hn);
    [by intros n | vm_compute; reflexivity | apply lookup_singleton_eq | exact demo_published_always |].
  rewrite E. apply Hn.
Defined.
