(* ===== verification/ServerRelay.v ===== *)
(** * The message relay ([server/src/ws.rs], [main.rs])

    Sealed envelopes and call signals between connected clients, the queue for
    recipients that are offline, and the REST endpoints next to it.  A handler
    is one step: the interleaving of two handlers between their database
    transactions is not modelled.

    [serde_json] is a parameter: a [Codec] for the WebSocket messages, one for
    bare envelopes and one for the documents of the queue, of which the model
    keeps what the code reads from them.  [Uuid::new_v4] is an argument of the
    operations that draw one. *)

From S2P Require Import Prelude Effects Errors Primitives Codec Text Session RateLimit Server ServerAuth.
#[local] Open Scope Z_scope.
#[local] Open Scope sibna_scope.

(** ** Data *)

Record WebRtcSignal := mkWebRtcSignal {
  sig_recipient_id : bytes;
  sig_payload_hex : bytes;
  sig_signature_hex : bytes;
  sig_timestamp : Z
}.

Inductive WsMessage :=
| Envelope (e : SealedEnvelope)
| Ack (message_id : bytes)
| WebRtc (s : WebRtcSignal).

(** A stored document: what [json.get("envelope")] and, without it,
    [json.get("signal")] hold, and [json["expires"].as_i64()]. *)
Inductive QueueField :=
| FEnvelope (e : SealedEnvelope)
| FBadEnvelope (raw : bytes)
| FSignal (s : WebRtcSignal)
| FOther.

Record QueueDoc := mkQueueDoc { doc_expires : option Z; doc_field : QueueField }.

(** The values of the Rust types. *)
Definition is_i64 (z : Z) : bool := (I64_MIN <=? z) && (z <=? I64_MAX).
Definition wf_envelope (e : SealedEnvelope) : bool :=
  valid_utf8 (recipient_id e) && valid_utf8 (payload_hex e) && valid_utf8 (message_id e)
  && is_i64 (env_timestamp e) && valid_utf8 (signature_hex e).
Definition wf_signal (s : WebRtcSignal) : bool :=
  valid_utf8 (sig_recipient_id s) && valid_utf8 (sig_payload_hex s) && valid_utf8 (sig_signature_hex s)
  && is_i64 (sig_timestamp s).
Definition wf_message (m : WsMessage) : bool :=
  match m with Envelope e => wf_envelope e | Ack i => valid_utf8 i | WebRtc s => wf_signal s end.
Definition wf_doc (d : QueueDoc) : bool :=
  match doc_expires d with Some z => is_i64 z | None => true end
  && match doc_field d with FEnvelope e => wf_envelope e | FBadEnvelope raw => valid_utf8 raw | FSignal s => wf_signal s | FOther => true end.

Definition stamp (now : Z) (e : SealedEnvelope) : SealedEnvelope :=
  mkSealedEnvelope (recipient_id e) (payload_hex e) (compressed e) (message_id e) now (signature_hex e).
Definition stamp_signal (now : Z) (s : WebRtcSignal) : WebRtcSignal :=
  mkWebRtcSignal (sig_recipient_id s) (sig_payload_hex s) (sig_signature_hex s) now.

Definition MAX_PAYLOAD_HEX_LEN : Z := 20 * 1024 * 1024.

(** Every field after its length, 8 bytes big-endian. *)
Definition canonical (fields : list bytes) : bytes := flat_map (fun f => u64_be (len f) ++ f) fields.

Definition queue_prefix (id : bytes) : bytes := bstr "queue:" ++ id ++ [x3a].
Definition queue_key (id mid : bytes) : bytes := queue_prefix id ++ mid.
Definition dedup_key (mid : bytes) : bytes := bstr "dedup:" ++ mid.

Definition is_hexdigit (b : u8) : bool := match hex_value b with Some _ => true | None => false end.

Section Relay.
Context {P : Primitives} {J : Jwt}.
Context {CW : Codec WsMessage} {CE : Codec SealedEnvelope} {CD : Codec QueueDoc}.

(** A function that returns nothing: an early [return] is the error. *)
Abbreviation WsM := (M Server unit).
Definition stop {A} : WsM A := res (Err tt).

(** ** Routing *)

Definition check_dedup (mid : bytes) : WsM unit :=
  let! stored := db_get TableKind.Dedup (dedup_key mid) in
  let! _ := match stored with
            | Some (Some existing) =>
                let! is_expired := if (length existing =? 8)%nat
                                   then let! now := utc_now in ret (i64_from_be existing <? now - 48 * 3600)
                                   else ret true in
                if negb is_expired then stop
                else let! _ := db_remove TableKind.Dedup (dedup_key mid) in ret tt
            | _ => ret tt
            end in
  let! now := utc_now in
  let! _ := db_insert TableKind.Dedup (dedup_key mid) (i64_be now) in
  ret tt.

(** The Ed25519 check of both routes; every failure returns. *)
Definition verify_sender (sender_id payload signature_hex : bytes) : bool :=
  match hex_of_len 32 sender_id with
  | Some key =>
      ed25519_key_ok key &&
      match hex_of_len 64 signature_hex with Some sg => ed25519_verify key payload sg | None => false end
  | None => false
  end.

Definition queue_message {E} (e : SealedEnvelope) : M Server E unit :=
  let! now := utc_now in
  match encode (mkQueueDoc (Some (now + 7 * 86400)) (FEnvelope e)) with
  | Some b => let! _ := db_insert TableKind.Queue (queue_key (recipient_id e) (message_id e)) b in ret tt
  | None => ret tt
  end.

(** [clients.get(id)] and a send, when the message could be serialised. *)
Definition send_live {E} (id : bytes) (data : option bytes) : M Server E bool :=
  let! s := get in
  match clients s !! id, data with
  | Some ch, Some data => channel_send ch data
  | _, _ => ret false
  end.

Definition route_message (sender_id : bytes) (e : SealedEnvelope) : WsM unit :=
  if (len (message_id e) =? 0) || (128 <? len (message_id e)) then stop
  else if negb (len (recipient_id e) =? 64) || negb (forallb is_hexdigit (recipient_id e)) then stop
  else if MAX_PAYLOAD_HEX_LEN <? len (payload_hex e) then stop
  else
    let! _ := check_dedup (message_id e) in
    if negb (verify_sender sender_id (canonical [recipient_id e; message_id e; payload_hex e]) (signature_hex e)) then stop
    else
      let! now := utc_now in
      let e := stamp now e in
      let! _ := queue_message e in
      let! _ := send_live (recipient_id e) (encode (Envelope e)) in
      ret tt.

Definition route_webrtc (sender_id : bytes) (s : WebRtcSignal) (uuid : bytes) : WsM unit :=
  if negb (len (sig_recipient_id s) =? 64) then stop
  else if negb (verify_sender sender_id (canonical [sig_recipient_id s; sig_payload_hex s]) (sig_signature_hex s)) then stop
  else
    let! now := utc_now in
    let s := stamp_signal now s in
    let! sent := send_live (sig_recipient_id s) (encode (WebRtc s)) in
    if sent then ret tt
    else
      let! now := utc_now in
      match encode (mkQueueDoc (Some (now + 60)) (FSignal s)) with
      | Some b =>
          let! _ := db_insert TableKind.Queue (queue_key (sig_recipient_id s) (bstr "webrtc_" ++ uuid)) b in ret tt
      | None => ret tt
      end.

Definition handle_ack {E} (identity_id mid : bytes) : M Server E unit :=
  let! _ := db_remove TableKind.Queue (queue_key identity_id mid) in ret tt.

(** ** The queue *)

(** [tx.send(data).ok()], when the message could be serialised. *)
Definition push {E} (ch : nat) (data : option bytes) : M Server E unit :=
  match data with Some d => let! _ := channel_send ch d in ret tt | None => ret tt end.

(** One stored entry: whether it is to be deleted. *)
Definition deliver_one {E} (ch : nat) (now : Z) (value : bytes) : M Server E bool :=
  match decode value with
  | None => ret false
  | Some doc =>
      if from_option id 0 (doc_expires doc) <? now then ret true
      else match doc_field doc with
           | FEnvelope e => let! _ := push ch (encode (Envelope e)) in ret false
           | FBadEnvelope _ => ret false
           | FSignal s => let! _ := push ch (encode (WebRtc s)) in ret true
           | FOther => ret false
           end
  end.

Fixpoint deliver_each {E} (ch : nat) (now : Z) (l : list (bytes * bytes)) : M Server E (list bytes) :=
  match l with
  | [] => ret []
  | (key, value) :: l =>
      let! del := deliver_one ch now value in
      let! rest := deliver_each ch now l in
      ret (if del : bool then key :: rest else rest)
  end.

Definition deliver_queued_messages {E} (identity_id : bytes) (ch : nat) : M Server E unit :=
  let! now := utc_now in
  let! found := db_scan_prefix TableKind.Queue (queue_prefix identity_id) in
  let! to_delete := deliver_each ch now found in
  db_remove_all TableKind.Queue to_delete.

(** ** Connections *)

(** [ws_handler]: the identity of the connection to upgrade. *)
Definition ws_handler (token : bytes) : HandlerM bytes :=
  let! s := get in
  let! claims := validate_jwt token (jwt_secret s) in
  match claims with
  | Some c => ret (sub c)
  | None => early StatusCode.UNAUTHORIZED (Text "Invalid token")
  end.

(** The start of [handle_ws]: a new channel, registered, and the queue. *)
Definition handle_ws_open {E} (identity_id : bytes) : M Server E nat :=
  let! s := get in
  let ch := length (channels s) in
  let! _ := put (set_clients (<[identity_id := ch]> (clients s)) (set_channels (channels s ++ [mkChannel true []]) s)) in
  let! _ := deliver_queued_messages identity_id ch in
  ret ch.

(** The end of [handle_ws]: whichever task finished. *)
Definition handle_ws_close {E} (identity_id : bytes) : M Server E unit :=
  modify (fun s => set_clients (delete identity_id (clients s)) s).

(** The sending task stops when the socket fails; its receiver is dropped. *)
Definition send_task_fails {E} (ch : nat) : M Server E unit :=
  modify (fun s => match channels s !! ch with
                   | Some c => set_channels (<[ch := mkChannel false (ch_sent c)]> (channels s)) s
                   | None => s
                   end).

(** What the receiving task waits for. *)
Inductive Received :=
| Elapsed
| EndOfStream
| Broken
| Binary (data : bytes)
| TextFrame (data : bytes)
| Close
| OtherFrame.

Definition parse_ws (data : bytes) : option WsMessage :=
  match decode data with
  | Some m => Some m
  | None => option_map Envelope (decode data)
  end.

Definition dispatch (identity_id : bytes) (m : WsMessage) (uuid : bytes) : WsM unit :=
  match m with
  | Envelope e => route_message identity_id e
  | Ack mid => handle_ack identity_id mid
  | WebRtc s => route_webrtc identity_id s uuid
  end.

(** One turn of the receiving loop: whether it goes on. *)
Definition recv_step {E} (identity_id : bytes) (m : Received) (uuid : bytes) : M Server E bool :=
  match m with
  | Elapsed | EndOfStream | Broken | Close => ret false
  | OtherFrame => ret true
  | Binary data | TextFrame data =>
      match parse_ws data with
      | Some msg => let! _ := m_try (dispatch identity_id msg uuid) in ret true
      | None => ret true
      end
  end.

(** ** The REST endpoints *)

Record SendMessageRequest := mkSendMessageRequest {
  req_recipient_id : bytes;
  req_payload_hex : bytes;
  req_compressed : option bool
}.

Definition send_message_handler (ip : bytes) (auth : option bytes) (req : SendMessageRequest) (uuid : bytes)
    : HandlerM Reply :=
  let! claims := auth_user auth in
  let! _ := enforce_rate_limit "message_send" ip (sub claims) in
  let! now := utc_now in
  let e := mkSealedEnvelope (req_recipient_id req) (req_payload_hex req) (from_option id false (req_compressed req))
             uuid now [] in
  let! live := send_live (req_recipient_id req) (encode e) in
  if live then
    let! _ := log_with (str_slice 0 16 (req_recipient_id req)) in
    ret (mkReply StatusCode.OK NoBody)
  else
    let! _ := queue_message e in
    ret (mkReply StatusCode.ACCEPTED NoBody).

Definition envelope_value (f : QueueField) : JsonEnvelope :=
  match f with FEnvelope e => JEnvelope e | FBadEnvelope raw => JOther raw | FSignal _ | FOther => JNull end.

(** The messages of the answer and the keys to delete. *)
Fixpoint read_inbox (now : Z) (l : list (bytes * bytes)) : list JsonEnvelope * list bytes :=
  match l with
  | [] => ([], [])
  | (key, value) :: l =>
      let (messages, to_delete) := read_inbox now l in
      match decode value with
      | None => (messages, to_delete)
      | Some doc =>
          if from_option id 0 (doc_expires doc) <? now then (messages, key :: to_delete)
          else (envelope_value (doc_field doc) :: messages, key :: to_delete)
      end
  end.

Definition inbox_handler (ip : bytes) (auth : option bytes) (identity_key_hex : bytes) : HandlerM Reply :=
  let! claims := auth_user auth in
  if negb (bool_decide (sub claims = identity_key_hex))
  then early StatusCode.UNAUTHORIZED (Text "Identity mismatch")
  else
    let! _ := enforce_rate_limit "inbox_fetch" ip (sub claims) in
    let! now := utc_now in
    let! found := db_scan_prefix TableKind.Queue (queue_prefix (sub claims)) in
    let (messages, to_delete) := read_inbox now found in
    let! _ := db_remove_all TableKind.Queue to_delete in
    ret (mkReply StatusCode.OK (InboxBody messages (Z.of_nat (length messages)))).

(** ** Pruning: one tick of the task [run_server] spawns *)

Definition stale (cutoff : Z) (value : bytes) : bool := (length value =? 8)%nat && (i64_from_be value <? cutoff).

Definition prune_tick {E} : M Server E unit :=
  let! now := utc_now in
  let! items := db_iter TableKind.Dedup in
  db_remove_all TableKind.Dedup (map fst (List.filter (fun e => stale (now - 48 * 3600) e.2) items)).

End Relay.

(** ** What is signed *)

Lemma length_to_be_app (n : nat) z f x g y : to_be n z ++ f ++ x = to_be n y ++ g -> to_be n z = to_be n y /\ f ++ x = g.
Proof. intros H. apply app_inj_1 in H; [done|]. by rewrite !length_to_be. Qed.

(** The canonical payload is unambiguous.  For fields of at most
    [2^64 - 1] bytes the length-prefixed form determines the list of fields, so
    a signature made for one recipient, message id and payload is not one for
    any other split of the same characters, and the payload of a call signal
    (two fields) is never that of an envelope (three). *)
Theorem canonical_injective l l' :
  Forall (fun f => len f < 2 ^ 64) l -> Forall (fun f => len f < 2 ^ 64) l' -> canonical l = canonical l' -> l = l'.
Proof.
  revert l'. induction l as [|f l IH]; intros [|g l'] H H' E; try done.
  apply Forall_cons in H as [Hf H], H' as [Hg H']. unfold canonical in E. cbn [flat_map] in E.
  rewrite <- !app_assoc in E. apply length_to_be_app in E as [El E].
  assert (Hl : len f = len g).
  { apply (f_equal from_be) in El. rewrite !from_to_be in El. change (256 ^ Z.of_nat 8) with (2 ^ 64) in El.
    rewrite !Z.mod_small in El; [done | unfold len in *; lia..]. }
  apply app_inj_1 in E as [-> E]; [|unfold len in Hl; lia]. f_equal. by apply IH.
Qed.

Lemma canonical_injective_witness :
  canonical [bstr "AABB"; bstr "CCDD"] = canonical [bstr "AABB"; bstr "CCDD"] /\
  (canonical [bstr "AABB"; bstr "CCDD"] = canonical [bstr "AABBCC"; bstr "DD"] ->
   [bstr "AABB"; bstr "CCDD"] = [bstr "AABBCC"; bstr "DD"]).
Proof.
  split; [reflexivity|]. apply canonical_injective; repeat constructor.
Defined.
