(* ===== verification/ServerRun.v ===== *)
(** * The server as a whole ([server/src/main.rs], [run_server])

    The routes with their middleware, the WebSocket tasks and the pruning task
    as events of one machine, and what holds along any sequence of them. *)

From S2P Require Import Prelude Effects Errors Primitives Codec Text Session SessionSend Encryptor RateLimit Bundle Server ServerAuth ServerPrekeys ServerRelay.
#[local] Open Scope Z_scope.
#[local] Open Scope sibna_scope.

Section Machine.
Context {P : Primitives} {J : Jwt}.
Context {CW : Codec WsMessage} {CE : Codec SealedEnvelope} {CD : Codec QueueDoc}.

(** A request to a route, from an address. *)
Inductive Request :=
| Challenge (identity_key_hex : bytes)
| Prove (req : ProveRequest)
| Upload (auth : option bytes) (req : UploadPrekeyRequest)
| Fetch (user_id : bytes)
| Delete (user_id : bytes) (auth : option bytes)
| Send (auth : option bytes) (req : SendMessageRequest) (uuid : bytes)
| Inbox (auth : option bytes) (identity_key_hex : bytes)
| Health.

Definition health_handler : HandlerM Reply :=
  ret (mkReply StatusCode.OK (HealthBody "ok" "3.0.0" ["http"; "websocket"]%string "ed25519-jwt")).

(** The router of [run_server]. *)
Definition route (ip : bytes) (r : Request) : HandlerM Reply :=
  match r with
  | Challenge id => ip_rate_limit ip (challenge_handler ip id)
  | Prove req => ip_rate_limit ip (prove_handler ip req)
  | Upload auth req => ip_rate_limit ip (upload_prekey_handler ip auth req)
  | Fetch user => ip_rate_limit ip (fetch_prekey_handler ip user)
  | Delete user auth => ip_rate_limit ip (delete_prekey_handler user auth)
  | Send auth req uuid => send_message_handler ip auth req uuid
  | Inbox auth id => inbox_handler ip auth id
  | Health => health_handler
  end.

Inductive Event :=
| EvRequest (ip : bytes) (r : Request)
| EvOpen (identity_id : bytes)
| EvReceived (identity_id : bytes) (m : Received) (uuid : bytes)
| EvSocketFails (ch : nat)
| EvClose (identity_id : bytes)
| EvPrune.

(** A panic ends its task and leaves the state. *)
Definition exec (ev : Event) : M Server unit unit :=
  match ev with
  | EvRequest ip r => let! _ := m_try (route ip r) in ret tt
  | EvOpen id => let! _ := handle_ws_open id in ret tt
  | EvReceived id m uuid => let! _ := recv_step id m uuid in ret tt
  | EvSocketFails ch => send_task_fails ch
  | EvClose id => handle_ws_close id
  | EvPrune => prune_tick
  end.

Fixpoint run (env : Env) (evs : list Event) (s : Server) (c : Ctr) : Server * Ctr :=
  match evs with
  | [] => (s, c)
  | ev :: evs => let '(_, s', c') := exec ev env s c in run env evs s' c'
  end.

(** ** A queued message *)

(** The event acknowledges the message, collects it, or writes under its key. *)
Definition touches (key : bytes) (ev : Event) : bool :=
  match ev with
  | EvRequest _ (Send _ req uuid) => bool_decide (queue_key (req_recipient_id req) uuid = key)
  | EvRequest _ (Inbox _ id) => starts_with (queue_prefix id) key
  | EvReceived id (Binary data | TextFrame data) uuid =>
      match parse_ws data with
      | Some (Envelope e) => bool_decide (queue_key (recipient_id e) (message_id e) = key)
      | Some (Ack mid) => bool_decide (queue_key id mid = key)
      | Some (WebRtc s) => bool_decide (queue_key (sig_recipient_id s) (bstr "webrtc_" ++ uuid) = key)
      | None => false
      end
  | _ => false
  end.

Section Keeping.
Variables (env : Env) (lo hi : Z) (key value : bytes).
Hypothesis clock : clock_in env lo hi.

Definition kept (s : Server) : Prop := fault_free s /\ tree_queue (db s) !! key = Some value.

Lemma kept_frame s s' : faults s' = faults s -> tree_queue (db s') = tree_queue (db s) -> kept s -> kept s'.
Proof. intros Hf Ht [H1 H2]. split; [intros n; rewrite Hf; apply H1 | by rewrite Ht]. Qed.

Ltac same := split; [by eapply kept_frame; [| |eassumption] | done].

Lemma utc_now_kept {E} : triple env kept (utc_now (E := E)) (fun t => lo <= t <= hi).
Proof.
  intros s c Hk. destruct (utc_now_run (E := E) lo hi env s c clock) as (t & -> & Ht & _). split; [done|]. by intros ? [= <-].
Qed.

Lemma db_get_kept {E} k key' : triple env kept (db_get (E := E) k key') (fun _ => True).
Proof. intros s c Hk. rewrite db_get_run. same. Qed.

Lemma db_insert_kept {E} k key' v : (k = TableKind.Queue -> key' <> key) -> triple env kept (db_insert (E := E) k key' v) (fun _ => True).
Proof.
  intros Hn s c Hk. rewrite db_insert_run. destruct Hk as [Hf Hq]. rewrite (Hf (db_ops s)). split; [|done]. split; [done|].
  destruct k; try done. cbn. by rewrite lookup_insert_ne by (by apply Hn).
Qed.

Lemma db_remove_kept {E} k key' : (k = TableKind.Queue -> key' <> key) -> triple env kept (db_remove (E := E) k key') (fun _ => True).
Proof.
  intros Hn s c Hk. rewrite db_remove_run. destruct Hk as [Hf Hq]. rewrite (Hf (db_ops s)). split; [|done]. split; [done|].
  destruct k; try done. cbn. by rewrite lookup_delete_ne by (by apply Hn).
Qed.

Lemma db_remove_all_kept {E} k keys : (k = TableKind.Queue -> key ∉ keys) ->
  triple env kept (db_remove_all (E := E) k keys) (fun _ => True).
Proof.
  intros Hn. induction keys as [|x keys IH]; [by apply triple_ret|]. cbn [db_remove_all].
  eapply triple_bind; [apply db_remove_kept; intros Hk ->; apply (Hn Hk); left|].
  intros _ _. apply IH. intros Hk Hx. apply (Hn Hk). by right.
Qed.

(** A scan of the queue reads the message as it is. *)
Lemma db_scan_kept {E} k p : triple env kept (db_scan_prefix (E := E) k p)
  (fun l => k = TableKind.Queue -> forall v, (key, v) ∈ l -> v = value).
Proof.
  intros s c [Hf Hq]. rewrite db_scan_run, (Hf (db_ops s)). split; [by split|]. intros l [= <-] -> v Hv.
  apply elem_of_prefix_range in Hv as [Hv _]. cbn in Hv. congruence.
Qed.

Lemma db_iter_kept {E} k : triple env kept (db_iter (E := E) k) (fun _ => True).
Proof. intros s c Hk. same. Qed.

Lemma enforce_kept op ip id : triple env kept (enforce_rate_limit op ip id) (fun _ => True).
Proof. intros s c Hk. destruct (enforce_frame op ip id env s c) as [l ->]. same. Qed.

Lemma log_kept {E} (r : Res E bytes) : triple env kept (log_with r) (fun _ => True).
Proof. intros s c Hk. unfold log_with, bind, get, res. destruct (log_enabled s); [destruct r|]; same. Qed.

Lemma channel_send_kept {E} ch data : triple env kept (channel_send (E := E) ch data) (fun _ => True).
Proof.
  intros s c Hk. unfold channel_send, bind, get. destruct (channels s !! ch) as [[[] sent]|]; same.
Qed.

Lemma lift_kept {E A} (m : IO E A) : triple env kept (lift m) (fun _ => True).
Proof. apply triple_leads, leads_lift. Qed.

Ltac keep_step :=
  lazymatch goal with
  | |- triple _ _ (bind get _) _ => apply triple_get; intros ? ?
  | |- triple _ _ (bind utc_now _) _ => eapply triple_bind; [apply utc_now_kept | intros ? ?]
  | |- triple _ _ (bind (db_scan_prefix _ _) _) _ => eapply triple_bind; [apply db_scan_kept | intros ? ?]
  | |- triple _ _ (bind _ _) _ => apply (triple_bind _ _ _ _ (fun _ => True)); [|intros ? _]
  | |- triple _ _ (m_try _) _ => apply (triple_try _ _ _ (fun _ => True))
  | |- triple _ _ (match ?x with _ => _ end) _ => destruct x
  | |- triple _ _ (ret _) _ => by apply triple_ret
  | |- triple _ _ (res _) _ => apply triple_res
  | |- triple _ _ (early _ _) _ => apply triple_res
  | |- triple _ _ stop _ => apply triple_res
  | |- triple _ _ (lift _) _ => apply lift_kept
  | |- triple _ _ (log_with _) _ => apply log_kept
  | |- triple _ _ (db_get _ _) _ => apply db_get_kept
  | |- triple _ _ (db_iter _) _ => apply db_iter_kept
  | |- triple _ _ (db_insert _ _ _) _ => apply db_insert_kept; try done
  | |- triple _ _ (db_remove _ _) _ => apply db_remove_kept; try done
  | |- triple _ _ (db_remove_all _ _) _ => apply db_remove_all_kept; try done
  | |- triple _ _ (enforce_rate_limit _ _ _) _ => apply enforce_kept
  | |- triple _ _ (channel_send _ _) _ => apply channel_send_kept
  end.
Ltac keep := repeat keep_step.

Lemma auth_user_kept auth : triple env kept (auth_user auth) (fun _ => True).
Proof. unfold auth_user, validate_jwt. keep. Qed.

Lemma challenge_kept ip id : triple env kept (challenge_handler ip id) (fun _ => True).
Proof. unfold challenge_handler. keep. Qed.

Lemma prove_kept ip req : triple env kept (prove_handler ip req) (fun _ => True).
Proof.
  unfold prove_handler, pending_challenge, check_answer, drop_challenge, or_reply. keep.
Qed.

Lemma upload_kept ip auth req : triple env kept (upload_prekey_handler ip auth req) (fun _ => True).
Proof.
  unfold upload_prekey_handler, check_replay, parse_bundle, validated, or_reply. keep. apply auth_user_kept.
Qed.

Lemma usable_kept v : triple env kept (usable v) (fun _ => True).
Proof. unfold usable, parse_bundle, validated. keep. Qed.

Lemma collect_kept l : triple env kept (collect_bundles l) (fun _ => True).
Proof. induction l as [|[k v] l IH]; cbn [collect_bundles]; keep; [apply usable_kept | exact IH]. Qed.

Lemma fetch_kept ip root : triple env kept (fetch_prekey_handler ip root) (fun _ => True).
Proof.
  unfold fetch_prekey_handler, last_resort. keep; first [apply collect_kept | apply usable_kept].
Qed.

Lemma remove_found_kept keys : triple env kept (remove_found keys) (fun _ => True).
Proof. induction keys as [|k keys IH]; cbn [remove_found]; keep. exact IH. Qed.

Lemma delete_kept root auth : triple env kept (delete_prekey_handler root auth) (fun _ => True).
Proof. unfold delete_prekey_handler. keep; [apply auth_user_kept | apply remove_found_kept]. Qed.

Lemma prune_kept : triple env kept (prune_tick (E := unit)) (fun _ => True).
Proof. unfold prune_tick. keep. Qed.

(** What is queued under another key. *)
Lemma queue_message_kept {E} e : queue_key (recipient_id e) (message_id e) <> key ->
  triple env kept (queue_message (E := E) e) (fun _ => True).
Proof. intros Hn. unfold queue_message. keep. Qed.

Lemma send_live_kept {E} id data : triple env kept (send_live (E := E) id data) (fun _ => True).
Proof. unfold send_live. keep. Qed.

Lemma dispatch_kept id m uuid :
  match m with
  | Envelope e => queue_key (recipient_id e) (message_id e) <> key
  | Ack mid => queue_key id mid <> key
  | WebRtc s => queue_key (sig_recipient_id s) (bstr "webrtc_" ++ uuid) <> key
  end -> triple env kept (dispatch id m uuid) (fun _ => True).
Proof.
  destruct m as [e|mid|s]; intros Hn; cbn [dispatch].
  - unfold route_message, check_dedup. keep; first [by apply queue_message_kept | apply send_live_kept].
  - unfold handle_ack. keep.
  - unfold route_webrtc. keep. apply send_live_kept.
Qed.

Lemma send_kept ip auth req uuid : queue_key (req_recipient_id req) uuid <> key ->
  triple env kept (send_message_handler ip auth req uuid) (fun _ => True).
Proof.
  intros Hn. unfold send_message_handler. keep; first [apply auth_user_kept | by apply queue_message_kept | apply send_live_kept].
Qed.

Lemma elem_of_read_inbox now l k :
  k ∈ snd (read_inbox now l) -> exists v, (k, v) ∈ l.
Proof.
  induction l as [|[k' v'] l IH]; cbn [read_inbox snd]; [by intros ?%elem_of_nil|].
  destruct (read_inbox now l) as [ms ds]. cbn [snd] in IH.
  assert (Hc : k ∈ k' :: ds -> exists v, (k, v) ∈ (k', v') :: l).
  { intros [->|Hk]%elem_of_cons; [exists v'; left|]. destruct (IH Hk) as [v Hv]. exists v. by right. }
  destruct (decode v') as [doc|]; [|intros Hk; apply Hc; by right].
  destruct (_ <? now); exact Hc.
Qed.

Lemma inbox_kept ip auth id : starts_with (queue_prefix id) key = false ->
  triple env kept (inbox_handler ip auth id) (fun _ => True).
Proof.
  intros Hn. unfold inbox_handler. apply (triple_bind _ _ _ _ (fun _ => True)); [apply auth_user_kept|]. intros cl _.
  destruct (bool_decide (sub cl = id)) eqn:Eb; cbn [negb]; [|apply triple_res]. apply bool_decide_eq_true in Eb as ->.
  keep_step; [keep|]. keep_step.
  apply (triple_bind _ _ _ _ (fun l => forall k v, (k, v) ∈ l -> starts_with (queue_prefix id) k = true)).
  { intros s c [Hf Hq]. rewrite db_scan_run, (Hf (db_ops s)). split; [by split|]. intros l [= <-] k v Hkv.
    by apply elem_of_prefix_range in Hkv as [_ ?]. }
  intros l Hl. destruct (read_inbox _ l) as [ms ds] eqn:Er. keep. intros _ Hd.
  assert (Hk : key ∈ snd (read_inbox a0 l)) by (by rewrite Er). apply elem_of_read_inbox in Hk as [v Hv].
  apply Hl in Hv. congruence.
Qed.

(** ** Delivery *)

Variables (ex : Z) (e : SealedEnvelope).
Hypothesis stored : decode value = Some (mkQueueDoc (Some ex) (FEnvelope e)).
Hypothesis in_time : hi <= ex.

Lemma deliver_each_kept {E} ch now l : now <= hi -> (forall v, (key, v) ∈ l -> v = value) ->
  triple env kept (deliver_each (E := E) ch now l) (fun ds => key ∉ ds).
Proof.
  intros Hnow. induction l as [|[k v] l IH]; intros Hl; cbn [deliver_each]; [apply triple_ret; apply not_elem_of_nil|].
  apply (triple_bind _ _ _ _ (fun del => del = true -> k <> key)).
  - unfold deliver_one, push. destruct (decode v) as [doc|] eqn:Ed; [|by apply triple_ret].
    destruct (decide (k = key)) as [->|Hk].
    + rewrite (Hl v) in Ed by left. rewrite stored in Ed. injection Ed as <-. cbn [doc_expires doc_field from_option id].
      destruct (Z.ltb_spec ex now); [lia|]. keep.
    + apply (triple_weaken _ _ _ (fun _ => True)); [|done]. keep.
  - intros del Hd. apply (triple_bind _ _ _ _ (fun ds => key ∉ ds)); [apply IH; intros v' Hv'; apply Hl; by right|].
    intros ds Hds. apply triple_ret. destruct del; [|done]. intros [->|Hk]%elem_of_cons; [by apply Hd | done].
Qed.

Lemma open_kept {E} id : triple env kept (handle_ws_open (E := E) id) (fun _ => True).
Proof.
  unfold handle_ws_open, deliver_queued_messages. keep_step. keep_step; [by apply triple_put|]. keep_step; [|keep].
  keep_step. keep_step. cbv beta in *. eapply triple_bind; [apply deliver_each_kept; [lia | auto]|]. intros ds Hds. keep.
Qed.

Lemma ip_rate_limit_kept ip next : triple env kept next (fun _ => True) -> triple env kept (ip_rate_limit ip next) (fun _ => True).
Proof. intros H. unfold ip_rate_limit. keep. exact H. Qed.

Lemma route_kept ip r : touches key (EvRequest ip r) = false -> triple env kept (route ip r) (fun _ => True).
Proof.
  destruct r; cbn [route touches]; intros Ht.
  - apply ip_rate_limit_kept, challenge_kept.
  - apply ip_rate_limit_kept, prove_kept.
  - apply ip_rate_limit_kept, upload_kept.
  - apply ip_rate_limit_kept, fetch_kept.
  - apply ip_rate_limit_kept, delete_kept.
  - apply send_kept. by apply bool_decide_eq_false in Ht.
  - by apply inbox_kept.
  - by apply triple_ret.
Qed.

Lemma exec_kept ev : touches key ev = false -> triple env kept (exec ev) (fun _ => True).
Proof.
  destruct ev as [ip r|id|id m uuid|ch|id|]; intros Ht; cbn [exec].
  - keep_step; [|keep]. apply (triple_try _ _ _ (fun _ => True)). by apply route_kept.
  - keep. apply open_kept.
  - keep_step; [|keep]. destruct m as [| | |data|data| |]; cbn [recv_step touches] in *; try (by apply triple_ret).
    all: destruct (parse_ws data) as [m|]; [|by apply triple_ret].
    all: keep; apply dispatch_kept; destruct m; by apply bool_decide_eq_false in Ht.
  - apply triple_modify. intros s Hk. by destruct (channels s !! ch).
  - by apply triple_modify.
  - apply prune_kept.
Qed.

Lemma run_kept evs : forall s c, Forall (fun ev => touches key ev = false) evs -> kept s -> kept (fst (run env evs s c)).
Proof.
  induction evs as [|ev evs IH]; intros s c Hf Hk; [done|]. apply Forall_cons in Hf as [Hev Hf]. cbn [run].
  destruct (exec_kept ev Hev s c Hk) as [Hk' _]. destruct (exec ev env s c) as [[r s'] c']. by apply IH.
Qed.

(** What went into an open channel. *)
Definition sent_on (ch : nat) (s : Server) (sent : list bytes) : Prop := channels s !! ch = Some (mkChannel true sent).

(** Pushing appends, and touches nothing else. *)
Lemma push_run {E} ch d s c sent : sent_on ch s sent ->
  exists s' new, push (E := E) ch d env s c = (Ok tt, s', c) /\ sent_on ch s' (sent ++ new) /\
    s' = set_channels (channels s') s /\ forall x, d = Some x -> new = [x].
Proof.
  intros Hs. unfold push. destruct d as [d|].
  - unfold channel_send, bind, get. rewrite Hs. eexists _, [d]. split; [reflexivity|]. split; [|split; [done|]].
    + unfold sent_on. cbn [channels set_channels]. apply list_lookup_insert_eq. by eapply lookup_lt_Some.
    + by intros x [= <-].
  - exists s, []. rewrite app_nil_r. split; [done|]. split; [done|]. split; [by destruct s | done].
Qed.

Lemma deliver_one_run {E} ch now v s c sent : sent_on ch s sent -> exists del s' new,
  deliver_one (E := E) ch now v env s c = (Ok del, s', c) /\ sent_on ch s' (sent ++ new) /\
  s' = set_channels (channels s') s /\
  (v = value -> now <= ex -> forall data, encode (Envelope e) = Some data -> data ∈ new).
Proof.
  intros Hs. unfold deliver_one.
  assert (Hno : sent_on ch s (sent ++ []) /\ s = set_channels (channels s) s) by (rewrite app_nil_r; by destruct s).
  destruct (decode v) as [doc|] eqn:Ed.
  2:{ exists false, s, []. split; [reflexivity|]. do 2 (split; [apply Hno|]). intros ->. congruence. }
  destruct (Z.ltb_spec (from_option id 0 (doc_expires doc)) now) as [Hlt|_].
  { exists true, s, []. split; [reflexivity|]. do 2 (split; [apply Hno|]). intros -> Hn.
    rewrite stored in Ed. injection Ed as <-. cbn in Hlt. lia. }
  destruct (doc_field doc) as [e'|raw|sg|] eqn:Ef.
  - destruct (push_run (E := E) ch (encode (Envelope e')) s c sent Hs) as (s' & new & Ep & H1 & H2 & H3).
    rewrite (bind_ok _ _ _ _ _ _ _ _ Ep). exists false, s', new. do 3 (split; [done|]). intros -> _ data Hd.
    rewrite stored in Ed. injection Ed as <-. injection Ef as <-. rewrite (H3 _ Hd). by left.
  - exists false, s, []. split; [reflexivity|]. do 2 (split; [apply Hno|]). intros ->.
    rewrite stored in Ed. by injection Ed as <-.
  - destruct (push_run (E := E) ch (encode (WebRtc sg)) s c sent Hs) as (s' & new & Ep & H1 & H2 & _).
    rewrite (bind_ok _ _ _ _ _ _ _ _ Ep). exists true, s', new. do 3 (split; [done|]). intros ->.
    rewrite stored in Ed. by injection Ed as <-.
  - exists false, s, []. split; [reflexivity|]. do 2 (split; [apply Hno|]). intros ->.
    rewrite stored in Ed. by injection Ed as <-.
Qed.

Lemma deliver_each_run {E} ch now c : forall l s sent, sent_on ch s sent -> exists ds s' new,
  deliver_each (E := E) ch now l env s c = (Ok ds, s', c) /\ sent_on ch s' (sent ++ new) /\
  s' = set_channels (channels s') s /\
  ((key, value) ∈ l -> now <= ex -> forall data, encode (Envelope e) = Some data -> data ∈ new).
Proof.
  induction l as [|[k v] l IH]; intros s sent Hs; cbn [deliver_each].
  { exists [], s, []. rewrite app_nil_r. split; [done|]. split; [done|]. split; [by destruct s|]. by intros ?%elem_of_nil. }
  destruct (deliver_one_run (E := E) ch now v s c sent Hs) as (del & s1 & n1 & E1 & Hs1 & Hf1 & H1).
  rewrite (bind_ok _ _ _ _ _ _ _ _ E1). destruct (IH s1 _ Hs1) as (ds & s2 & n2 & E2 & Hs2 & Hf2 & H2).
  rewrite (bind_ok _ _ _ _ _ _ _ _ E2). eexists _, s2, (n1 ++ n2). split; [reflexivity|]. rewrite app_assoc.
  split; [done|]. split; [rewrite Hf2, Hf1; by destruct s|].
  intros [Heq|Hl]%elem_of_cons Hn data Hd; apply elem_of_app; [left|right; by apply H2]. injection Heq as _ ->. by apply H1.
Qed.

Lemma open_delivers {E} id s c : kept s -> starts_with (queue_prefix id) key = true ->
  exists ch s' c' sent, handle_ws_open (E := E) id env s c = (Ok ch, s', c') /\ sent_on ch s' sent /\
    clients s' !! id = Some ch /\ forall data, encode (Envelope e) = Some data -> data ∈ sent.
Proof.
  intros [Hf Hq] Hp. unfold handle_ws_open. unfold bind at 1, get. unfold bind at 1, put.
  set (ch := length (channels s)). set (s1 := set_clients _ _). unfold bind at 1, deliver_queued_messages.
  destruct (utc_now_run (E := E) lo hi env s1 c clock) as (t & Et & Ht & _). rewrite (bind_ok _ _ _ _ _ _ _ _ Et).
  unfold bind at 1. rewrite db_scan_run. replace (faults s1 (db_ops s1)) with (None : option Fault) by (symmetry; apply Hf).
  set (s2 := set_db_ops _ _). set (c2 := mkCtr _ _ _).
  assert (Hs2 : sent_on ch s2 []) by (unfold sent_on; cbn; apply list_lookup_middle; done).
  destruct (deliver_each_run (E := E) ch t c2 (prefix_range (queue_prefix id) (tree TableKind.Queue (db s1))) s2 [] Hs2)
    as (ds & s3 & new & E3 & Hs3 & Hf3 & H3).
  rewrite (bind_ok _ _ _ _ _ _ _ _ E3).
  destruct (db_remove_all_run (E := E) TableKind.Queue ds env s3 c2) as (s4 & E4 & _ & _ & Hs4); [rewrite Hf3; exact Hf|].
  rewrite E4. unfold ret. exists ch, s4, c2, new. split; [done|]. split; [|split].
  - unfold sent_on. rewrite Hs4. exact Hs3.
  - rewrite Hs4, Hf3. cbn. apply lookup_insert_eq.
  - intros data Hd. apply H3; [apply elem_of_prefix_range; by split | lia | done].
Qed.

End Keeping.

(** ** Accepting a message *)

Context {LW : CodecLaws CW wf_message} {LD : CodecLaws CD wf_doc} {L : PrimitiveLaws P}.

Lemma verify_own sk fields : length sk = 32%nat ->
  verify_sender (hex_encode (ed25519_public sk)) (canonical fields) (hex_encode (ed25519_sign sk (canonical fields))) = true.
Proof.
  intros Hl. destruct (ed25519_public_ok sk Hl) as [Hk Hkl]. unfold verify_sender, hex_of_len. rewrite !hex_decode_encode.
  unfold len. rewrite Hkl, ed25519_sign_len. change (Z.of_nat 32 =? 32) with true. change (Z.of_nat 64 =? 64) with true.
  cbv iota. by rewrite Hk, ed25519_correct.
Qed.

(** An envelope the relay does not drop by its form. *)
Record well_formed_envelope (e : SealedEnvelope) : Prop := {
  we_types : wf_envelope e = true;
  we_id : 1 <= len (message_id e) <= 128;
  we_recipient : len (recipient_id e) = 64;
  we_recipient_hex : forallb is_hexdigit (recipient_id e) = true;
  we_payload : len (payload_hex e) <= MAX_PAYLOAD_HEX_LEN
}.

Definition signed_by (sk : bytes) (e : SealedEnvelope) : Prop :=
  signature_hex e = hex_encode (ed25519_sign sk (canonical [recipient_id e; message_id e; payload_hex e])).

(** The message id is not recorded. *)
Definition unused_id (s : Server) (mid : bytes) : Prop := tree_dedup (db s) !! dedup_key mid = None.

Lemma check_dedup_run mid env lo hi s c : fault_free s -> clock_in env lo hi -> unused_id s mid ->
  exists s' c' now, check_dedup mid env s c = (Ok tt, s', c') /\ fault_free s' /\ lo <= now <= hi /\
    tree_dedup (db s') = <[dedup_key mid := i64_be now]> (tree_dedup (db s)) /\ tree_queue (db s') = tree_queue (db s).
Proof.
  intros Hf Hc Hu. unfold check_dedup. unfold bind at 1. rewrite db_get_run, (Hf (db_ops s)). cbn [tree]. rewrite Hu.
  unfold bind at 1, ret at 1.
  destruct (utc_now_run (E := unit) lo hi env (set_db_ops (S (db_ops s)) s) c Hc) as (t & Et & Ht & _).
  rewrite (bind_ok _ _ _ _ _ _ _ _ Et). unfold bind. rewrite db_insert_run. cbn [faults set_db_ops]. rewrite Hf. unfold ret.
  eexists _, _, t. split; [reflexivity|]. done.
Qed.

Lemma wf_stamp t e : I64_MIN <= t <= I64_MAX -> wf_envelope e = true -> wf_envelope (stamp t e) = true.
Proof.
  unfold wf_envelope. intros Ht. rewrite !andb_true_iff. intros ((((H1 & H2) & H3) & _) & H5). repeat split; try done.
  unfold is_i64. cbn [env_timestamp stamp]. apply andb_true_iff. split; apply Z.leb_le; lia.
Qed.

Lemma queue_message_run {E} e env lo hi s c :
  fault_free s -> clock_in env lo hi -> 0 <= lo -> hi + 7 * 86400 <= I64_MAX -> wf_envelope e = true ->
  exists s' c' ex value, queue_message (E := E) e env s c = (Ok tt, s', c') /\
    kept (queue_key (recipient_id e) (message_id e)) value s' /\
    decode value = Some (mkQueueDoc (Some ex) (FEnvelope e)) /\ lo + 7 * 86400 <= ex <= hi + 7 * 86400.
Proof.
  intros Hf Hc Hlo Hhi Hw. unfold queue_message. destruct (utc_now_run (E := E) lo hi env s c Hc) as (t & Et & Ht & _).
  rewrite (bind_ok _ _ _ _ _ _ _ _ Et).
  destruct (codec_roundtrip (C := CD) (mkQueueDoc (Some (t + 7 * 86400)) (FEnvelope e))) as (b & Eb & Db).
  { unfold wf_doc, is_i64. cbn [doc_expires doc_field]. rewrite Hw. unfold I64_MIN, I64_MAX in *.
    destruct (Z.leb_spec (-9223372036854775808) (t + 7 * 86400)); [|lia].
    by destruct (Z.leb_spec (t + 7 * 86400) 9223372036854775807); [|lia]. }
  rewrite Eb. unfold bind. rewrite db_insert_run, (Hf (db_ops s)). unfold ret. eexists _, _, _, b. split; [reflexivity|].
  split; [split; [done|]|split; [exact Db | lia]]. cbn. apply lookup_insert_eq.
Qed.

Lemma route_accepts sk e env lo hi s c :
  length sk = 32%nat -> well_formed_envelope e -> signed_by sk e ->
  fault_free s -> clock_in env lo hi -> 0 <= lo -> hi + 7 * 86400 <= I64_MAX -> unused_id s (message_id e) ->
  exists s' c' t ex value, route_message (hex_encode (ed25519_public sk)) e env s c = (Ok tt, s', c') /\
    lo <= t <= hi /\ kept (queue_key (recipient_id e) (message_id e)) value s' /\
    decode value = Some (mkQueueDoc (Some ex) (FEnvelope (stamp t e))) /\ lo + 7 * 86400 <= ex.
Proof.
  intros Hsk [Hty Hid Hr Hrh Hp] Hsg Hf Hc Hlo Hhi Hu. unfold route_message.
  destruct (Z.eqb_spec (len (message_id e)) 0); [lia|]. destruct (Z.ltb_spec 128 (len (message_id e))); [lia|]. cbn [orb].
  rewrite Hr, Hrh. change (64 =? 64) with true. cbn [negb orb].
  destruct (Z.ltb_spec MAX_PAYLOAD_HEX_LEN (len (payload_hex e))); [lia|].
  destruct (check_dedup_run (message_id e) env lo hi s c Hf Hc Hu) as (s1 & c1 & now & E1 & Hf1 & _).
  rewrite (bind_ok _ _ _ _ _ _ _ _ E1). rewrite Hsg, verify_own by done. cbn [negb].
  destruct (utc_now_run (E := unit) lo hi env s1 c1 Hc) as (t & Et & Ht & _). rewrite (bind_ok _ _ _ _ _ _ _ _ Et).
  set (c2 := mkCtr _ _ _).
  destruct (queue_message_run (E := unit) (stamp t e) env lo hi s1 c2) as (s2 & c3 & ex & v & E2 & Hk & Hd & Hx); try done.
  { apply wf_stamp; [unfold I64_MIN; lia | done]. }
  rewrite (bind_ok _ _ _ _ _ _ _ _ E2). unfold bind.
  destruct (send_live_kept (E := unit) env _ v (recipient_id (stamp t e)) (encode (Envelope (stamp t e))) s2 c3 Hk) as [Hk3 _].
  destruct (send_live _ _ env s2 c3) as [[r s3] c4] eqn:E3. assert (is_ok r = true) as [b ->]%is_ok_inv.
  { clear -E3. unfold send_live, bind, get, channel_send, bind, get, ret, put in E3.
    destruct (clients s2 !! _); [|by injection E3 as <-]. destruct (encode (Envelope (stamp t e))); [|by injection E3 as <-].
    by destruct (channels s2 !! n) as [[[] ?]|]; injection E3 as <-. }
  exists s3, c4, t, ex, v. split; [done|]. split; [done|]. split; [exact Hk3|]. split; [exact Hd | lia].
Qed.

(** At-least-once delivery.  An envelope of the documented form, signed by
    the sender of the connection and with an unused message id, is accepted and
    queued.  Then, whatever requests, connections, messages and pruning the
    server handles within the seven days of the queue, as long as none of them
    acknowledges or collects this message or writes under its key, the recipient
    who connects gets the envelope, stamped with the time of its acceptance,
    pushed on the new channel; and once the recipient's acknowledgement has been
    handled, the entry is gone. *)
Theorem accepted_message_is_delivered sk e env lo hi s c :
  length sk = 32%nat -> well_formed_envelope e -> signed_by sk e ->
  fault_free s -> clock_in env lo hi -> 0 <= lo -> hi + 7 * 86400 <= I64_MAX -> hi <= lo + 7 * 86400 ->
  unused_id s (message_id e) ->
  let key := queue_key (recipient_id e) (message_id e) in
  exists s1 c1 t data, route_message (hex_encode (ed25519_public sk)) e env s c = (Ok tt, s1, c1) /\
    lo <= t <= hi /\ encode (Envelope (stamp t e)) = Some data /\
    forall evs, Forall (fun ev => touches key ev = false) evs ->
      let '(s2, c2) := run env evs s1 c1 in
      exists ch s3 c3 sent, handle_ws_open (E := unit) (recipient_id e) env s2 c2 = (Ok ch, s3, c3) /\
        sent_on ch s3 sent /\ data ∈ sent /\
        forall s4 c4, fault_free s4 ->
          tree_queue (db (snd (fst (handle_ack (E := unit) (recipient_id e) (message_id e) env s4 c4)))) !! key = None.
Proof.
  intros Hsk Hw Hsg Hf Hc Hlo Hhi Hwin Hu key.
  destruct (route_accepts sk e env lo hi s c Hsk Hw Hsg Hf Hc Hlo Hhi Hu) as (s1 & c1 & t & ex & v & E1 & Ht & Hk & Hd & Hx).
  destruct (codec_roundtrip (C := CW) (Envelope (stamp t e))) as (data & Ed & _).
  { apply Is_true_true_2. cbn [wf_message]. apply wf_stamp; [unfold I64_MIN; lia | apply Hw]. }
  exists s1, c1, t, data. split; [done|]. split; [done|]. split; [done|]. intros evs Hevs.
  assert (Hx' : hi <= ex) by lia.
  pose proof (run_kept env lo hi key v Hc ex (stamp t e) Hd Hx' evs s1 c1 Hevs Hk) as Hk2.
  destruct (run env evs s1 c1) as [s2 c2].
  destruct (open_delivers env lo hi key v Hc ex (stamp t e) Hd Hx' (E := unit) (recipient_id e) s2 c2 Hk2)
    as (ch & s3 & c3 & sent & E3 & Hs & _ & Hin); [apply starts_with_app|].
  exists ch, s3, c3, sent. split; [done|]. split; [done|]. split; [by apply Hin|]. intros s4 c4 Hf4.
  unfold handle_ack, bind. rewrite db_remove_run, (Hf4 (db_ops s4)). cbn. apply lookup_delete_eq.
Qed.

(** ** Where the relay falls short *)

(** A recorded message id is refused for 48 hours. *)
Lemma check_dedup_dup mid t env lo hi s c :
  fault_free s -> clock_in env lo hi -> tree_dedup (db s) !! dedup_key mid = Some (i64_be t) ->
  I64_MIN <= t <= I64_MAX -> hi <= t + 48 * 3600 ->
  exists c', check_dedup mid env s c = (Err tt, set_db_ops (S (db_ops s)) s, c').
Proof.
  intros Hf Hc Hd Ht Hw. unfold check_dedup. unfold bind at 1. rewrite db_get_run, (Hf (db_ops s)). cbn [tree]. rewrite Hd.
  replace (length (i64_be t) =? 8)%nat with true by (unfold i64_be; by rewrite length_to_be).
  destruct (utc_now_run (E := unit) lo hi env (set_db_ops (S (db_ops s)) s) c Hc) as (n & En & Hn & _).
  unfold bind at 1. unfold bind at 1. rewrite (bind_ok _ _ _ _ _ _ _ _ En). unfold ret at 1.
  rewrite i64_from_to_be by done. destruct (Z.ltb_spec t (n - 48 * 3600)); [lia|]. cbn [negb]. unfold stop, res. eauto.
Qed.

(** A message id is used up before the signature is checked.  Anyone who
    is connected can send an envelope of the right form under a message id with
    a signature that does not verify: it is dropped, but its id is recorded, and
    for the next 48 hours every envelope with that id, from any sender and
    however signed, is dropped too, without being queued or sent. *)
Theorem message_id_can_be_burned attacker e1 env lo hi s c :
  well_formed_envelope e1 ->
  verify_sender attacker (canonical [recipient_id e1; message_id e1; payload_hex e1]) (signature_hex e1) = false ->
  fault_free s -> clock_in env lo hi -> 0 <= lo -> hi <= I64_MAX -> hi <= lo + 48 * 3600 ->
  unused_id s (message_id e1) ->
  exists s1 c1, route_message attacker e1 env s c = (Err tt, s1, c1) /\ tree_queue (db s1) = tree_queue (db s) /\
    forall sender e2 s2 c2, message_id e2 = message_id e1 -> fault_free s2 -> tree_dedup (db s2) = tree_dedup (db s1) ->
      exists s3 c3, route_message sender e2 env s2 c2 = (Err tt, s3, c3) /\
        tree_queue (db s3) = tree_queue (db s2) /\ channels s3 = channels s2.
Proof.
  intros [_ Hid Hr Hrh Hp] Hbad Hf Hc Hlo Hhi Hwin Hu. unfold route_message at 1.
  destruct (Z.eqb_spec (len (message_id e1)) 0); [lia|]. destruct (Z.ltb_spec 128 (len (message_id e1))); [lia|].
  rewrite Hr, Hrh. change (64 =? 64) with true. cbn [negb orb].
  destruct (Z.ltb_spec MAX_PAYLOAD_HEX_LEN (len (payload_hex e1))); [lia|].
  destruct (check_dedup_run (message_id e1) env lo hi s c Hf Hc Hu) as (s1 & c1 & now & E1 & Hf1 & Hn & Hd & Hq).
  rewrite (bind_ok _ _ _ _ _ _ _ _ E1). rewrite Hbad. cbn [negb]. exists s1, c1. split; [done|]. split; [done|].
  intros sender e2 s2 c2 Hm Hf2 Hd2. unfold route_message.
  destruct (_ || _); [by exists s2, c2|]. destruct (_ || _); [by exists s2, c2|].
  destruct (MAX_PAYLOAD_HEX_LEN <? _); [by exists s2, c2|]. rewrite Hm.
  destruct (check_dedup_dup (message_id e1) now env lo hi s2 c2) as [c3 E3]; [done | done | | unfold I64_MIN; lia | lia |].
  { rewrite Hd2, Hd. apply lookup_insert_eq. }
  rewrite (bind_err _ _ _ _ _ _ _ _ E3). by eexists _, c3.
Qed.

(** Routing to a client that is not registered pushes nothing. *)
Lemma send_live_absent {E} id d env s c : clients s !! id = None -> send_live (E := E) id d env s c = (Ok false, s, c).
Proof. intros H. unfold send_live, bind, get. by rewrite H. Qed.

(** Database operations and the clock leave the connections alone. *)
Section Connections.
Variable I : Server -> Prop.
Hypothesis stable : forall s s', clients s' = clients s -> channels s' = channels s -> I s -> I s'.

Lemma db_get_conn {E} k x : preserves I (db_get (E := E) k x).
Proof. intros env s c. rewrite db_get_run. by apply stable. Qed.
Lemma db_insert_conn {E} k x v : preserves I (db_insert (E := E) k x v).
Proof. intros env s c. rewrite db_insert_run. destruct (faults s (db_ops s)); by apply stable. Qed.
Lemma db_remove_conn {E} k x : preserves I (db_remove (E := E) k x).
Proof. intros env s c. rewrite db_remove_run. destruct (faults s (db_ops s)); by apply stable. Qed.
Lemma db_scan_conn {E} k p : preserves I (db_scan_prefix (E := E) k p).
Proof. intros env s c. rewrite db_scan_run. by apply stable. Qed.
Lemma db_remove_all_conn {E} k keys : preserves I (db_remove_all (E := E) k keys).
Proof. induction keys as [|x keys IH]; cbn [db_remove_all]; lead_steps. apply db_remove_conn. Qed.
Lemma utc_now_conn {E} : preserves I (utc_now (E := E)).
Proof. unfold utc_now. lead_steps. Qed.

End Connections.

#[local] Hint Resolve db_get_conn db_insert_conn db_remove_conn db_scan_conn db_remove_all_conn utc_now_conn : sibna.

Definition unregistered (id : bytes) (chs : list Channel) (s : Server) : Prop := clients s !! id = None /\ channels s = chs.
Definition registered (id : bytes) (ch : nat) (s : Server) : Prop := clients s !! id = Some ch /\ exists sent, sent_on ch s sent.

Lemma unregistered_stable id chs s s' :
  clients s' = clients s -> channels s' = channels s -> unregistered id chs s -> unregistered id chs s'.
Proof. intros E1 E2 [H1 H2]. split; by rewrite ?E1, ?E2. Qed.
Lemma registered_stable id ch s s' :
  clients s' = clients s -> channels s' = channels s -> registered id ch s -> registered id ch s'.
Proof. intros E1 E2 [H1 H2]. unfold registered, sent_on. by rewrite E1, E2. Qed.
#[local] Hint Resolve unregistered_stable registered_stable : sibna.

Lemma send_live_unregistered {E} id chs d : preserves (unregistered id chs) (send_live (E := E) id d).
Proof. intros env s c Hu. rewrite send_live_absent by apply Hu. done. Qed.

Lemma route_unregistered id chs sender e : recipient_id e = id -> preserves (unregistered id chs) (route_message sender e).
Proof.
  intros Hr. unfold route_message, check_dedup, queue_message, stop. lead_steps.
  cbn [recipient_id stamp]. rewrite Hr. apply send_live_unregistered.
Qed.

Lemma push_registered {E} id ch d : preserves (registered id ch) (push (E := E) ch d).
Proof.
  intros env s c (Hc & sent & Hs). destruct d as [d|]; [|by split; [|exists sent]].
  destruct (push_run env (E := E) ch (Some d) s c sent Hs) as (s' & new & -> & Hs' & Hf & _).
  split; [by rewrite Hf | by eexists].
Qed.

Lemma deliver_registered {E} id ch now l : preserves (registered id ch) (deliver_each (E := E) ch now l).
Proof.
  induction l as [|[k v] l IH]; cbn [deliver_each]; unfold deliver_one; lead_steps;
    first [exact IH | apply push_registered].
Qed.

(** A connection gets a channel of its own, open and registered. *)
Lemma open_registers {E} id env s c ch s' c' :
  handle_ws_open (E := E) id env s c = (Ok ch, s', c') -> ch = length (channels s) /\ registered id ch s'.
Proof.
  unfold handle_ws_open. unfold bind at 1, get. unfold bind at 1, put. set (s1 := set_clients _ _). intros H.
  apply bind_ok_inv in H as (u & s2 & c2 & E1 & H). apply ret_ok_inv in H as (-> & -> & ->). split; [done|].
  assert (Hd : preserves (registered id (length (channels s))) (deliver_queued_messages (E := E) id (length (channels s)))).
  { unfold deliver_queued_messages. lead_steps. apply deliver_registered. }
  specialize (Hd env s1 c). rewrite E1 in Hd. apply Hd. split; [apply lookup_insert_eq|]. exists []. unfold sent_on. cbn.
  by apply list_lookup_middle.
Qed.

(** The end of an old connection unregisters a newer one.  When a client
    connects again before its previous connection was noticed to be gone, the
    close of the previous one removes the client's entry whichever channel it
    holds: the new channel stays open, but nothing routed to this client is
    pushed to it any more. *)
Theorem old_close_silences_new_connection id env1 s1 c1 ch1 s2 c2 env2 ch2 s3 c3 env3 c4 :
  handle_ws_open (E := unit) id env1 s1 c1 = (Ok ch1, s2, c2) ->
  handle_ws_open (E := unit) id env2 s2 c2 = (Ok ch2, s3, c3) ->
  ch1 <> ch2 /\ registered id ch2 s3 /\
  let s4 := snd (fst (handle_ws_close (E := unit) id env3 s3 c4)) in
  clients s4 !! id = None /\ channels s4 = channels s3 /\
  forall sender e env c, recipient_id e = id ->
    channels (snd (fst (route_message sender e env s4 c))) = channels s3.
Proof.
  intros H1 H2. apply open_registers in H1 as [-> [_ [sent Hs]]], H2 as [-> Hr2].
  split; [apply lookup_lt_Some in Hs; lia|]. split; [done|]. intros s4.
  assert (Hu : unregistered id (channels s3) s4) by (split; [apply lookup_delete_eq | done]).
  split; [apply Hu|]. split; [done|]. intros sender e env c Hr. by apply (route_unregistered id (channels s3) sender e Hr).
Qed.

(** The inbox endpoint never serves.  [run_server] installs no limit for
    the operation [inbox_fetch], and the limiter refuses operations it does not
    know; checking never adds one.  So in every state without such a limit the
    handler does not succeed, whoever asks, and leaves the queue as it is. *)
Theorem inbox_is_always_refused :
  (forall env c l c', server_limiter (E := unit) env c = (Ok l, c') -> limits l !! "inbox_fetch"%string = None) /\
  (forall op cl env l c, limits (snd (fst (check op cl env l c))) = limits l) /\
  (forall ip auth id env s c, limits (limiter s) !! "inbox_fetch"%string = None ->
     is_ok (fst (fst (inbox_handler ip auth id env s c))) = false /\
     tree_queue (db (snd (fst (inbox_handler ip auth id env s c)))) = tree_queue (db s)).
Proof.
  split; [|split].
  - intros env c l c'. unfold server_limiter, io_bind. destruct (RateLimiter_new env c) as [[r|e|] c1] eqn:E; try done.
    intros [= <- _]. cbn [limits set_limits].
    rewrite !lookup_insert_ne by done. revert E. unfold RateLimiter_new, io_bind, read_instant, io_ret. intros [= <- _]. reflexivity.
  - intros op cl env l c. pose proof (check_effect op cl env l c) as H. cbv zeta in H.
    destruct (check op cl env l c) as [[out l'] c']. apply H.
  - intros ip auth id env s c Hl.
    cut (exists r s' c', inbox_handler ip auth id env s c = (r, s', c') /\ is_ok r = false /\ db s' = db s).
    { intros (r & s' & c' & -> & Hr & Hd). cbn. by rewrite Hd. }
    unfold inbox_handler. unfold bind at 1.
    assert (Ha : snd (fst (auth_user auth env s c)) = s).
    { unfold auth_user, validate_jwt, early, utc_now, bind, get, lift, res, ret, read_secs.
      destruct auth as [h|]; [|done]. destruct (negb _); [done|]. destruct (starts_with _ h); [|done].
      destruct (option_map _ _); cbn [or_panic]; [|done]. by destruct (jwt_decode _ _ _). }
    destruct (auth_user auth env s c) as [[[cl|e|] s1] c1]; cbn in Ha; subst s1; [|by eauto 6..].
    destruct (negb _); [unfold early, res; by eauto 6|].
    pose proof (unknown_operation "inbox_fetch" ip (sub cl) env s c1 Hl) as Hu.
    destruct (enforce_frame "inbox_fetch" ip (sub cl) env s c1) as [l' Hf]. unfold bind.
    destruct (enforce_rate_limit "inbox_fetch" ip (sub cl) env s c1) as [[[u|e|] s2] c2]; [done| |];
      cbn in Hf; subst s2; by eauto 6.
Qed.

End Machine.

(** ** Witnesses *)

#[export] Instance envelope_eq_dec : EqDecision SealedEnvelope.
Proof. solve_decision. Defined.
#[export] Instance signal_eq_dec : EqDecision WebRtcSignal.
Proof. solve_decision. Defined.
#[export] Instance message_eq_dec : EqDecision WsMessage.
Proof. solve_decision. Defined.
#[export] Instance field_eq_dec : EqDecision QueueField.
Proof. solve_decision. Defined.
#[export] Instance doc_eq_dec : EqDecision QueueDoc.
Proof. solve_decision. Defined.

#[export] Instance envelope_countable : Countable SealedEnvelope.
Proof.
  refine (inj_countable' (fun e => (recipient_id e, payload_hex e, compressed e, message_id e, env_timestamp e, signature_hex e))
    (fun '(r, p, k, m, t, g) => mkSealedEnvelope r p k m t g) _). by intros [].
Defined.
#[export] Instance signal_countable : Countable WebRtcSignal.
Proof.
  refine (inj_countable' (fun s => (sig_recipient_id s, sig_payload_hex s, sig_signature_hex s, sig_timestamp s))
    (fun '(r, p, g, t) => mkWebRtcSignal r p g t) _). by intros [].
Defined.
#[export] Instance message_countable : Countable WsMessage.
Proof.
  refine (inj_countable' (fun m => match m with Envelope e => inl (inl e) | Ack i => inl (inr i) | WebRtc s => inr s end)
    (fun x => match x with inl (inl e) => Envelope e | inl (inr i) => Ack i | inr s => WebRtc s end) _). by intros [].
Defined.
#[export] Instance doc_countable : Countable QueueDoc.
Proof.
  refine (inj_countable' (fun d => (doc_expires d, match doc_field d with
      FEnvelope e => inl (inl e) | FBadEnvelope raw => inl (inr raw) | FSignal s => inr (inl s) | FOther => inr (inr tt) end))
    (fun '(x, f) => mkQueueDoc x (match f with
      inl (inl e) => FEnvelope e | inl (inr raw) => FBadEnvelope raw | inr (inl s) => FSignal s | inr (inr _) => FOther end)) _).
  by intros [x []].
Defined.

Import Spelled.

Definition demo_envelope : SealedEnvelope :=
  let r := hex_encode (repeat x05 32) in
  mkSealedEnvelope r (bstr "c0ffee") false (bstr "m1") 0
    (hex_encode (ed25519_sign (Primitives := toy) demo_sk (canonical [r; bstr "m1"; bstr "c0ffee"]))).

Lemma demo_envelope_ok : well_formed_envelope demo_envelope.
Proof. split; vm_compute; try done; split; discriminate. Qed.

(** A message outlives a visit by another client and reaches its recipient. *)
Lemma accepted_message_is_delivered_witness :
  exists s1 c1 ch s3 c3,
    route_message (P := toy) (CW := spelled wf_message) (CD := spelled wf_doc) demo_login demo_envelope demo_env demo_server ctr0
      = (Ok tt, s1, c1) /\
    handle_ws_open (CW := spelled wf_message) (CD := spelled wf_doc) (E := unit) (recipient_id demo_envelope) demo_env
      (fst (run (P := toy) (J := plain_jwt) (CW := spelled wf_message) (CE := spelled wf_envelope) (CD := spelled wf_doc)
              demo_env [EvOpen demo_login; EvPrune] s1 c1))
      (snd (run (P := toy) (J := plain_jwt) (CW := spelled wf_message) (CE := spelled wf_envelope) (CD := spelled wf_doc)
              demo_env [EvOpen demo_login; EvPrune] s1 c1)) = (Ok ch, s3, c3).
Proof.
  destruct (accepted_message_is_delivered (P := toy) (J := plain_jwt) (CW := spelled wf_message) (CE := spelled wf_envelope)
    (CD := spelled wf_doc) (LW := spelled_laws wf_message) (LD := spelled_laws wf_doc) (L := toy_laws)
    demo_sk demo_envelope demo_env 1700000000 1700000000 demo_server ctr0) as (s1 & c1 & t & data & E1 & _ & _ & Hr);
    [reflexivity | exact demo_envelope_ok | reflexivity | by intros n | exact demo_env_clock | lia
    | vm_compute; discriminate | lia | reflexivity |].
  specialize (Hr [EvOpen demo_login; EvPrune]). destruct (run demo_env [EvOpen demo_login; EvPrune] s1 c1) as [s2 c2] eqn:E2.
  destruct Hr as (ch & s3 & c3 & sent & E3 & _); [repeat constructor|].
  exists s1, c1, ch, s3, c3. split; [exact E1|]. rewrite E2. exact E3.
Defined.

Lemma message_id_can_be_burned_witness :
  exists s1 c1, route_message (P := toy) (CW := spelled wf_message) (CD := spelled wf_doc) (bstr "mallory") demo_envelope
    demo_env demo_server ctr0 = (Err tt, s1, c1) /\
  exists s3 c3, route_message (P := toy) (CW := spelled wf_message) (CD := spelled wf_doc) demo_login demo_envelope
    demo_env s1 c1 = (Err tt, s3, c3).
Proof.
  destruct (message_id_can_be_burned (P := toy) (CW := spelled wf_message) (CD := spelled wf_doc) (bstr "mallory") demo_envelope
    demo_env 1700000000 1700000000 demo_server ctr0) as (s1 & c1 & E1 & _ & Hall);
    [exact demo_envelope_ok | reflexivity | by intros n | exact demo_env_clock | lia | vm_compute; discriminate | lia | reflexivity |].
  exists s1, c1. split; [exact E1|].
  assert (Es : s1 = snd (fst (route_message (P := toy) (CW := spelled wf_message) (CD := spelled wf_doc) (bstr "mallory")
                  demo_envelope demo_env demo_server ctr0))) by (by rewrite E1).
  destruct (Hall demo_login demo_envelope s1 c1) as (s3 & c3 & E3 & _); [reflexivity | | reflexivity |].
  - intros n. rewrite Es. vm_compute. reflexivity.
  - by exists s3, c3.
Defined.

Lemma old_close_silences_new_connection_witness :
  exists ch s3, registered demo_login ch s3 /\
    clients (snd (fst (handle_ws_close (E := unit) demo_login demo_env s3 ctr0))) !! demo_login = None.
Proof.
  set (open s c := handle_ws_open (CW := spelled wf_message) (CD := spelled wf_doc) (E := unit) demo_login demo_env s c).
  destruct (open demo_server ctr0) as [[r1 s2] c2] eqn:E1.
  assert (K1 : is_ok r1 = true) by (change r1 with (fst (fst (r1, s2, c2))); rewrite <- E1; vm_compute; reflexivity).
  destruct (open s2 c2) as [[r2 s3] c3] eqn:E2.
  assert (K2 : is_ok r2 = true).
  { change r2 with (fst (fst (r2, s3, c3))). rewrite <- E2.
    change s2 with (snd (fst (r1, s2, c2))). change c2 with (snd (r1, s2, c2)) at 2. rewrite <- E1. vm_compute. reflexivity. }
  destruct r1 as [ch1|e|]; [|discriminate..]. destruct r2 as [ch2|e|]; [|discriminate..].
  destruct (old_close_silences_new_connection (P := toy) (CW := spelled wf_message) (CD := spelled wf_doc) demo_login
    demo_env demo_server ctr0 ch1 s2 c2 demo_env ch2 s3 c3 demo_env ctr0 E1 E2) as (_ & H1 & H2 & _).
  exists ch2, s3. split; [exact H1 | exact H2].
Defined.
