(* ===== verification/ServerFlood.v ===== *)
(** * A flood of requests from one address

    The routes of [/v1/auth] and [/v1/prekeys] sit behind [ip_rate_limit].
    However the requests of all addresses, the connections and the pruning are
    interleaved, the limiter of the running server accounts for each request of
    one address it lets through, so their number within a window is bounded. *)

From S2P Require Import Prelude Effects Errors Primitives Codec Text Session SessionSend Encryptor RateLimit Bundle Server ServerAuth ServerPrekeys ServerRelay ServerRun.
#[local] Open Scope Z_scope.
#[local] Open Scope sibna_scope.

Definition ip_unauth_limit : OperationLimit := mkOperationLimit 50 200 5000 20000 (NANOS / 2) 50.

Section Flood.
Context {P : Primitives} {J : Jwt}.
Context {CW : Codec WsMessage} {CE : Codec SealedEnvelope} {CD : Codec QueueDoc}.
Context (env : Env) (ip : bytes) (w : Win.t) (t0 : Z).

(** The counter of the address in the bucket of the middleware. *)
Definition ip_client : string := generate_rate_key ip (bstr "ip_only").

(** The requests behind the middleware. *)
Definition behind_gate (r : Request) : bool :=
  match r with Challenge _ | Prove _ | Upload _ _ | Fetch _ | Delete _ _ => true | _ => false end.

(** Whether the event is such a request of this address, let through while the
    clock is in the window of length [Win.len w] from [t0]. *)
Definition let_through (ev : Event) (s : Server) (c : Ctr) : bool :=
  match ev with
  | EvRequest ip' r => bool_decide (ip' = ip) && behind_gate r &&
      is_ok (enforce_rate_limit "ip_unauth" ip (bstr "ip_only") env s c).1.1 && in_interval env w t0 (c_instant c)
  | _ => false
  end.

Fixpoint through (evs : list Event) (s : Server) (c : Ctr) : Z :=
  match evs with
  | [] => 0
  | ev :: evs =>
      let '(_, s', c') := exec ev env s c in (if let_through ev s c then 1 else 0) + through evs s' c'
  end.

Hypothesis (Hmono : forall i j : nat, (i <= j)%nat -> e_instant env i <= e_instant env j).

(** [n] requests have been let through in the window, and the limiter knows. *)
Definition accounted (n : Z) (s : Server) (c : Ctr) : Prop :=
  limits (limiter s) !! "ip_unauth"%string = Some ip_unauth_limit /\
  accounts env w ip_unauth_limit t0 n (counters (limiter s) !! ip_client) (c_instant c).

Lemma accounts_later n o k k' : (k <= k')%nat ->
  accounts env w ip_unauth_limit t0 n o k -> accounts env w ip_unauth_limit t0 n o k'.
Proof.
  intros Hk [H1 H2]. split.
  - destruct H1 as [->|H1]; [by left|right; intros; apply H1; lia].
  - destruct H2 as [H2|[H2|[H2 ?]]]; [by left|by right; left|right; right]. split; [intros; apply H2; lia|done].
Qed.

Lemma accounted_frame n s c s' c' :
  limiter s' = limiter s -> (c_instant c <= c_instant c')%nat -> accounted n s c -> accounted n s' c'.
Proof. intros E Hc [H1 H2]. unfold accounted. rewrite E. split; [done|]. by eapply accounts_later. Qed.

(** Computations that keep the account. *)
Definition tame {E A} (m : M Server E A) : Prop :=
  forall n s c, accounted n s c -> let '(_, s', c') := m env s c in accounted n s' c'.

Lemma tame_bind {E A B} (m : M Server E A) (k : A -> M Server E B) : tame m -> (forall a, tame (k a)) -> tame (bind m k).
Proof.
  intros Hm Hk n s c Ha. specialize (Hm n s c Ha). unfold bind. destruct (m env s c) as [[[a|e|] s'] c']; try done.
  by apply Hk.
Qed.

Lemma tame_ret {E A} (a : A) : tame (ret (E := E) a).
Proof. by intros n s c. Qed.
Lemma tame_res {E A} (r : Res E A) : tame (res r).
Proof. by intros n s c. Qed.
Lemma tame_get {E} : tame (get (E := E)).
Proof. by intros n s c. Qed.
Lemma tame_try {E F A} (m : M Server E A) : tame m -> tame (m_try (F := F) m).
Proof. intros Hm n s c Ha. specialize (Hm n s c Ha). unfold m_try. by destruct (m env s c) as [[[] ?] ?]. Qed.
Lemma tame_modify {E} f : (forall s, limiter (f s) = limiter s) -> tame (modify (E := E) f).
Proof. intros Hf n s c Ha. unfold modify. cbn. by apply (accounted_frame n s c). Qed.

(** Actions that do not turn the monotonic clock back. *)
Definition ticks {E A} (m : IO E A) : Prop := forall c, (c_instant c <= c_instant (m env c).2)%nat.

Lemma ticks_bind {E A B} (m : IO E A) (k : A -> IO E B) : ticks m -> (forall a, ticks (k a)) -> ticks (io_bind m k).
Proof.
  intros Hm Hk c. specialize (Hm c). unfold io_bind. destruct (m env c) as [[a|e|] c']; cbn in *; try done.
  specialize (Hk a c'). lia.
Qed.
Lemma ticks_same {E A} (m : IO E A) : (forall c, c_instant (m env c).2 = c_instant c) -> ticks m.
Proof. intros Hm c. by rewrite Hm. Qed.
Lemma ticks_try {E F A} (m : IO E A) : ticks m -> ticks (io_try (F := F) m).
Proof. intros Hm c. specialize (Hm c). unfold io_try. by destruct (m env c) as [[] ?]. Qed.

Lemma tame_lift {E A} (m : IO E A) : ticks m -> tame (lift m).
Proof.
  intros Hm n s c Ha. specialize (Hm c). unfold lift. destruct (m env c) as [r c']. cbn in *. by apply (accounted_frame n s c).
Qed.

(** One check of any operation by any client; a success of the middleware's own
    check in the window is accounted for. *)
Lemma check_accounted op cl' n s c :
  accounted n s c ->
  let '(r, l', c') := check op cl' env (limiter s) c in
  accounted n (set_limiter l' s) c' /\
  (op = "ip_unauth"%string -> cl' = ip_client -> is_ok r = true -> in_interval env w t0 (c_instant c) = true ->
   accounted (n + 1) (set_limiter l' s) c').
Proof.
  intros [Hl Hacc]. pose proof (exec_effect (OpCheck op cl') env (limiter s) c "ip_unauth" ip_client) as He.
  unfold RateLimit.exec in He. destruct (check op cl' env (limiter s) c) as [[r l'] c'].
  destruct He as (Hi & Hlim & (a & Hst) & Hok). unfold accounted. cbn [limiter set_limiter].
  rewrite (Hlim ltac:(done)), Hl. split.
  - split; [done|]. destruct Hst as [[-> _]|(j & c0 & c1 & Hj & Hs & -> & Hev)]; [by eapply accounts_later|].
    rewrite <- (Z.add_0_r n). eapply (accounts_evolved env w ip_unauth_limit t0 Hmono ltac:(by destruct w) n c0 c1 _ _ j a false); try done.
    eapply accounts_start; [by destruct w | exact Hacc | exact Hs].
  - intros -> -> Hr Hin. split; [done|]. destruct (Hok eq_refl Hr) as (l2 & c0 & c1 & El & Hk & Hs & -> & Hev & Hlt).
    assert (l2 = ip_unauth_limit) as -> by congruence.
    apply (accounts_evolved env w ip_unauth_limit t0 Hmono ltac:(by destruct w) n c0 c1 (c_instant c) (c_instant c') (c_instant c) true true);
      [eapply accounts_start; [by destruct w | exact Hacc | exact Hs] | lia | done |]. by intros _.
Qed.

Lemma log_tame {E} (r : Res E bytes) : tame (log_with r).
Proof. intros n s c Ha. unfold log_with, bind, get, res, ret. destruct (log_enabled s); [by destruct r|done]. Qed.

Lemma enforce_tame op ip' id : tame (enforce_rate_limit op ip' id).
Proof.
  intros n s c Ha. unfold enforce_rate_limit, bind at 1, m_try, zoom.
  pose proof (check_accounted op (generate_rate_key ip' id) n s c Ha) as Hc.
  destruct (check op _ env (limiter s) c) as [[r l] c1]. destruct Hc as [Hc _].
  destruct r as [u|e|]; [done| |done].
  apply (tame_bind _ _ (log_tame _) (fun _ => tame_res _) n (set_limiter l s) c1 Hc).
Qed.

(** The gate itself counts. *)
Lemma gate_counts n s c : accounted n s c ->
  is_ok (enforce_rate_limit "ip_unauth" ip (bstr "ip_only") env s c).1.1 = true -> in_interval env w t0 (c_instant c) = true ->
  let '(_, s', c') := enforce_rate_limit "ip_unauth" ip (bstr "ip_only") env s c in accounted (n + 1) s' c'.
Proof.
  intros Ha Hok Hin. destruct (enforce_rate_limit _ _ _ env s c) as [[r0 s'] c'] eqn:E. cbn in Hok.
  destruct r0 as [[]|e|]; [|done..]. revert E. unfold enforce_rate_limit, bind at 1, m_try, zoom.
  pose proof (check_accounted "ip_unauth" ip_client n s c Ha) as Hc. unfold ip_client in Hc.
  destruct (check _ _ env (limiter s) c) as [[r l] c1]. destruct Hc as [_ Hc]. destruct r as [u|e|]; [|intros Hx; exfalso..].
  - intros [= <- <-]. by apply Hc.
  - by apply bind_ok_inv in Hx as (? & ? & ? & _ & Hx).
  - done.
Qed.

(** ** The handlers *)

Lemma validate_ticks b : ticks (bundle_validate b).
Proof.
  unfold bundle_validate. repeat match goal with
  | |- ticks (if _ then _ else _) => case_match
  | |- ticks (io_bind _ _) => apply ticks_bind; [|intros ?]
  | |- ticks _ => by apply ticks_same
  end.
Qed.

Lemma db_get_tame {E} t x : tame (db_get (E := E) t x).
Proof. intros n s c. rewrite db_get_run. by apply accounted_frame. Qed.
Lemma db_insert_tame {E} t x v : tame (db_insert (E := E) t x v).
Proof. intros n s c. rewrite db_insert_run. destruct (faults s (db_ops s)); by apply accounted_frame. Qed.
Lemma db_remove_tame {E} t x : tame (db_remove (E := E) t x).
Proof. intros n s c. rewrite db_remove_run. destruct (faults s (db_ops s)); by apply accounted_frame. Qed.
Lemma db_scan_tame {E} t p : tame (db_scan_prefix (E := E) t p).
Proof. intros n s c. rewrite db_scan_run. by apply accounted_frame. Qed.
Lemma db_iter_tame {E} t : tame (db_iter (E := E) t).
Proof. intros n s c. by apply accounted_frame. Qed.
Lemma channel_send_tame {E} ch d : tame (channel_send (E := E) ch d).
Proof. intros n s c Ha. unfold channel_send, bind, get. by destruct (channels s !! ch) as [[[] ?]|]; [apply (accounted_frame n s c)|..]. Qed.

Lemma utc_now_tame {E} : tame (utc_now (E := E)).
Proof. unfold utc_now. apply tame_bind; [by apply tame_lift, ticks_same|]. intros ?. apply tame_res. Qed.

Ltac tame_step :=
  lazymatch goal with
  | |- tame (bind _ _) => apply tame_bind; [|intros ?]
  | |- tame (match ?x with _ => _ end) => destruct x
  | |- tame (ret _) => apply tame_ret
  | |- tame (res _) => apply tame_res
  | |- tame (early _ _) => apply tame_res
  | |- tame stop => apply tame_res
  | |- tame get => apply tame_get
  | |- tame (m_try _) => apply tame_try
  | |- tame (log_with _) => apply log_tame
  | |- tame (enforce_rate_limit _ _ _) => apply enforce_tame
  | |- tame utc_now => apply utc_now_tame
  | |- tame (db_get _ _) => apply db_get_tame
  | |- tame (db_insert _ _ _) => apply db_insert_tame
  | |- tame (db_remove _ _) => apply db_remove_tame
  | |- tame (db_scan_prefix _ _) => apply db_scan_tame
  | |- tame (db_iter _) => apply db_iter_tame
  | |- tame (channel_send _ _) => apply channel_send_tame
  | |- tame (lift (os_bytes _)) => by apply tame_lift, ticks_same
  | |- tame (lift (io_try (bundle_validate _))) => apply tame_lift, ticks_try, validate_ticks
  | |- tame (modify _) => by apply tame_modify
  | |- tame _ => eassumption
  end.
Ltac tame_steps := repeat tame_step.

Lemma db_remove_all_tame {E} t keys : tame (db_remove_all (E := E) t keys).
Proof. induction keys as [|x keys IH]; cbn [db_remove_all]; tame_steps. Qed.
Lemma remove_found_tame keys : tame (remove_found keys).
Proof. induction keys as [|x keys IH]; cbn [remove_found]; tame_steps. Qed.
Lemma auth_user_tame auth : tame (auth_user auth).
Proof. unfold auth_user, validate_jwt. tame_steps. Qed.
Lemma usable_tame v : tame (usable v).
Proof. unfold usable, parse_bundle, validated. tame_steps. Qed.
Lemma collect_tame l : tame (collect_bundles l).
Proof. induction l as [|[x v] l IH]; cbn [collect_bundles]; tame_steps. apply usable_tame. Qed.
Lemma send_live_tame {E} id d : tame (send_live (E := E) id d).
Proof. unfold send_live. tame_steps. Qed.
Lemma queue_message_tame {E} e : tame (queue_message (E := E) e).
Proof. unfold queue_message. tame_steps. Qed.

Ltac tame_calls := tame_steps;
  first [ apply db_remove_all_tame | apply remove_found_tame | apply auth_user_tame | apply usable_tame
        | apply collect_tame | apply send_live_tame | apply queue_message_tame ].

Lemma handler_tame r ip' :
  match r with
  | Challenge id => tame (challenge_handler ip' id)
  | Prove req => tame (prove_handler ip' req)
  | Upload auth req => tame (upload_prekey_handler ip' auth req)
  | Fetch user => tame (fetch_prekey_handler ip' user)
  | Delete user auth => tame (delete_prekey_handler user auth)
  | Send auth req uuid => tame (send_message_handler ip' auth req uuid)
  | Inbox auth id => tame (inbox_handler ip' auth id)
  | Health => tame health_handler
  end.
Proof.
  destruct r; unfold challenge_handler, prove_handler, pending_challenge, check_answer, drop_challenge, or_reply,
    upload_prekey_handler, check_replay, parse_bundle, validated, fetch_prekey_handler, last_resort,
    delete_prekey_handler, send_message_handler, inbox_handler, health_handler, or_reply; tame_steps; tame_calls.
Qed.

Lemma route_tame ip' r : tame (route ip' r).
Proof.
  pose proof (handler_tame r ip') as Hh. destruct r; cbn [route]; unfold ip_rate_limit; tame_steps.
Qed.

Lemma deliver_tame {E} ch now l : tame (deliver_each (E := E) ch now l).
Proof. induction l as [|[x v] l IH]; cbn [deliver_each]; unfold deliver_one, push; tame_steps. Qed.

Lemma open_tame {E} id : tame (handle_ws_open (E := E) id).
Proof.
  assert (Hd : forall ch, tame (deliver_queued_messages (E := E) id ch)).
  { intros ch. unfold deliver_queued_messages. tame_steps; [apply deliver_tame | apply db_remove_all_tame]. }
  intros n s c Ha. unfold handle_ws_open. unfold bind at 1, get. unfold bind at 1, put. set (s1 := set_clients _ _).
  apply (tame_bind _ _ (Hd _) (fun _ => tame_ret _) n s1 c). by apply (accounted_frame n s c).
Qed.

Lemma dispatch_tame id m uuid : tame (dispatch id m uuid).
Proof.
  destruct m; cbn [dispatch]; unfold route_message, check_dedup, handle_ack, route_webrtc; tame_steps;
    first [apply queue_message_tame | apply send_live_tame].
Qed.

Lemma exec_tame ev : tame (exec ev).
Proof.
  destruct ev as [ip' r|id|id m uuid|ch|id|]; cbn [exec].
  - tame_steps. apply route_tame.
  - tame_steps. apply open_tame.
  - tame_steps. unfold recv_step. tame_steps; apply dispatch_tame.
  - apply tame_modify. intros s. by destruct (channels s !! ch).
  - by apply tame_modify.
  - unfold prune_tick. tame_steps. apply db_remove_all_tame.
Qed.

(** A request behind the gate that the gate lets through. *)
Lemma gated_exec ip' h n s c : ip' = ip -> tame h -> accounted n s c ->
  is_ok (enforce_rate_limit "ip_unauth" ip (bstr "ip_only") env s c).1.1 = true -> in_interval env w t0 (c_instant c) = true ->
  let '(_, s', c') := (let! _ := m_try (F := unit) (ip_rate_limit ip' h) in ret tt) env s c in accounted (n + 1) s' c'.
Proof.
  intros -> Hh Ha Hok Hin. pose proof (gate_counts n s c Ha Hok Hin) as Hg.
  unfold ip_rate_limit, bind, m_try. destruct (enforce_rate_limit _ _ _ env s c) as [[[u|e|] s1] c1]; try done.
  specialize (Hh (n + 1) s1 c1 Hg). by destruct (h env s1 c1) as [[[] ?] ?].
Qed.

Lemma exec_accounted ev n s c : accounted n s c ->
  let '(_, s', c') := exec ev env s c in accounted (n + if let_through ev s c then 1 else 0) s' c'.
Proof.
  intros Ha. destruct (let_through ev s c) eqn:El; [|rewrite Z.add_0_r; by apply exec_tame].
  destruct ev as [ip' r| | | | |]; try done. unfold let_through in El.
  apply andb_true_iff in El as [[[->%bool_decide_eq_true Hr]%andb_true_iff Hok]%andb_true_iff Hin].
  pose proof (handler_tame r ip) as Hh. destruct r; try done; cbn [exec route]; by apply gated_exec.
Qed.

Lemma through_accounted evs : forall n s c, accounted n s c ->
  n + through evs s c <= 2 * Win.max w ip_unauth_limit.
Proof.
  induction evs as [|ev evs IH]; intros n s c Ha; cbn [through].
  - destruct Ha as [_ Ha]. apply accounts_bound in Ha; [lia | by destruct w].
  - pose proof (exec_accounted ev n s c Ha) as He. destruct (exec ev env s c) as [[r s'] c'].
    rewrite Z.add_assoc. by apply IH.
Qed.

(** C21: a flood from one address is bounded.  From the start of the server,
    under a monotonic clock and any interleaving of requests from any addresses,
    connections, messages and pruning: within any second, minute, hour or day,
    at most twice 50, 200, 5,000 and 20,000 requests of one address get past the
    middleware to the routes of authentication and prekeys. *)
Theorem ip_flood_is_bounded sibna_env secret d fs logging c s c' evs :
  startup sibna_env secret d fs logging env c = (Ok s, c') ->
  through evs s c' <= 2 * Win.max w ip_unauth_limit.
Proof.
  intros Hs. apply (through_accounted evs 0).
  unfold startup, io_bind in Hs. destruct (choose_secret _ _ _ _) as [[k| |] c1]; try done.
  unfold server_limiter, io_bind in Hs. destruct (RateLimiter_new env c1) as [[r| |] c2] eqn:Er; try done.
  injection Hs as <- <-. split; cbn [limiter limits set_limits set_global_rps set_global_enabled].
  - rewrite !lookup_insert_ne by done. apply lookup_insert_eq.
  - unfold RateLimiter_new, io_bind, read_instant, io_ret in Er. injection Er as <- _. split; [by left|]. by right; left.
Qed.

End Flood.

(** ** A flood *)

Import Spelled.

(** Two hundred requests for a challenge at one instant. *)
Definition demo_flood : list Event := repeat (EvRequest (bstr "10.0.0.1") (Challenge (bstr "no key"))) 200.

Lemma ip_flood_is_bounded_witness :
  exists s c', startup None None open_db_empty (fun _ => None) false demo_env ctr0 = (Ok s, c') /\
    through (P := toy) (J := plain_jwt) (CW := spelled wf_message) (CE := spelled wf_envelope) (CD := spelled wf_doc)
      demo_env (bstr "10.0.0.1") Win.Second (e_instant demo_env 0) demo_flood s c' <= 100.
Proof.
  destruct (startup None None open_db_empty (fun _ => None) false demo_env ctr0) as [[s|e|] c'] eqn:E;
    [|vm_compute in E; discriminate..].
  exists s, c'. split; [reflexivity|].
  apply (ip_flood_is_bounded (P := toy) (J := plain_jwt) (CW := spelled wf_message) (CE := spelled wf_envelope) (CD := spelled wf_doc)
    demo_env (bstr "10.0.0.1") Win.Second (e_instant demo_env 0)
    ltac:(intros i j _; vm_compute; discriminate) None None open_db_empty (fun _ => None) false ctr0 s c' demo_flood E).
Defined.

(** The limit of the second is reached: fifty get through at once. *)
Example flood_is_cut_off :
  match startup None None open_db_empty (fun _ => None) false demo_env ctr0 with
  | (Ok s, c') => through (P := toy) (J := plain_jwt) (CW := spelled wf_message) (CE := spelled wf_envelope) (CD := spelled wf_doc)
      demo_env (bstr "10.0.0.1") Win.Second 0 demo_flood s c' = 50
  | _ => False
  end.
Proof. vm_compute. reflexivity. Qed.
