(* ===== verification/ServerLives.v ===== *)
(** * The server over several lives ([main] and [run_server] of [server/src/main.rs])

    A life of the server starts from the variables of its environment, opens
    the database, handles events and ends, orderly or not.  The database is
    what lives share: every write is committed when it is made, so at the end
    of a life it holds what the last operation left.  Clients, channels and
    limits start afresh. *)

From S2P Require Import Prelude Effects Errors Primitives Codec Text Session SessionSend Encryptor RateLimit Bundle Server ServerAuth ServerPrekeys ServerRelay ServerRun.
#[local] Open Scope Z_scope.
#[local] Open Scope sibna_scope.

(** ** Starting *)

(** The environment variables [std::env::var] finds. *)
Record Settings := mkSettings {
  PORT : option bytes;
  SIBNA_DB_PATH : option bytes;
  SIBNA_ENV : option bytes;
  SIBNA_JWT_SECRET : option bytes
}.

Definition listen_port (v : option bytes) : Z := default 8080 (parse_uint 65535 (default (bstr "8080") v)).

Definition db_path (db_path_override v : option bytes) : bytes :=
  match db_path_override with Some p => p | None => default (bstr "sibna_server_db") v end.

(** The databases on disk, by path. *)
Abbreviation Disk := (gmap bytes DbState).

(** [Database::create] opens or creates; the tables are created when missing. *)
Definition open_db (opens : bool) (path : bytes) (d : Disk) : Res string DbState * Disk :=
  if opens
  then let x := default open_db_empty (d !! path) in (Ok x, <[path := x]> d)
  else (Err "the database cannot be opened"%string, d).

Section Lives.
Context {P : Primitives} {J : Jwt}.
Context {CW : Codec WsMessage} {CE : Codec SealedEnvelope} {CD : Codec QueueDoc}.

(** What a life is given: its variables, what the system lets it bind and open,
    clock and randomness, faults of the database, whether log lines are
    rendered, and the events it handles. *)
Record Life := mkLife {
  l_settings : Settings;
  l_binds : Z -> bool;
  l_opens : bytes -> bool;
  l_env : Env;
  l_ctr : Ctr;
  l_faults : nat -> option Fault;
  l_logging : bool;
  l_events : list Event
}.

(** The server when the life ends, or why it did not start; and the disk. *)
Definition run_server (db_path_override : option bytes) (l : Life) (d : Disk) : Res string Server * Disk :=
  let path := db_path db_path_override (SIBNA_DB_PATH (l_settings l)) in
  let (r, d) := open_db (l_opens l path) path d in
  match r with
  | Ok x =>
      match startup (SIBNA_ENV (l_settings l)) (SIBNA_JWT_SECRET (l_settings l)) x (l_faults l) (l_logging l)
              (l_env l) (l_ctr l) with
      | (Ok s, c) => let (s, _) := run (l_env l) (l_events l) s c in (Ok s, <[path := db s]> d)
      | (Err e, _) => (Err e, d)
      | (Panic, _) => (Panic, d)
      end
  | Err e => (Err e, d)
  | Panic => (Panic, d)
  end.

Definition main (l : Life) (d : Disk) : Res string Server * Disk :=
  if l_binds l (listen_port (PORT (l_settings l))) then run_server None l d
  else (Err "the port cannot be bound"%string, d).

Fixpoint lives (ls : list Life) (d : Disk) : Disk :=
  match ls with [] => d | l :: ls => lives ls (main l d).2 end.

(** ** A queued message on disk *)
Section Message.
Variables (lo hi : Z) (key value : bytes) (path : bytes).

(** A life that leaves the message alone: its clock is in the window, the
    database works, and no event acknowledges, collects or overwrites it. *)
Definition quiet (l : Life) : Prop :=
  clock_in (l_env l) lo hi /\ (forall n, l_faults l n = None) /\
  Forall (fun ev => touches key ev = false) (l_events l).

Definition on_disk (d : Disk) : Prop := exists x, d !! path = Some x /\ tree_queue x !! key = Some value.

Variables (ex : Z) (e : SealedEnvelope).
Hypothesis stored : decode value = Some (mkQueueDoc (Some ex) (FEnvelope e)).
Hypothesis in_time : hi <= ex.

Lemma startup_fields sibna_env secret d fs logging env c s c' :
  startup sibna_env secret d fs logging env c = (Ok s, c') -> db s = d /\ faults s = fs.
Proof.
  unfold startup, io_bind. destruct (choose_secret _ _ _ _) as [[k| |] c1]; try done.
  destruct (server_limiter _ _) as [[r| |] c2]; try done. by intros [= <- _].
Qed.

Lemma on_disk_insert p x d : on_disk d -> (p = path -> tree_queue x !! key = Some value) -> on_disk (<[p := x]> d).
Proof.
  intros (x0 & H1 & H2) Hx. destruct (decide (p = path)) as [->|Hp].
  - exists x. rewrite lookup_insert_eq. split; [done | by apply Hx].
  - exists x0. by rewrite lookup_insert_ne.
Qed.

(** A life keeps the message; on its database, the server has it too. *)
Lemma run_server_kept over l d : quiet l -> on_disk d ->
  on_disk (run_server over l d).2 /\
  forall s, (run_server over l d).1 = Ok s -> db_path over (SIBNA_DB_PATH (l_settings l)) = path -> kept key value s.
Proof.
  intros (Hc & Hf & Hev) Hd. unfold run_server. set (p := db_path _ _). unfold open_db.
  destruct (l_opens l p); [|by split]. set (x := default open_db_empty (d !! p)).
  assert (Hx : p = path -> tree_queue x !! key = Some value).
  { intros ->. destruct Hd as (x0 & H1 & H2). unfold x. by rewrite H1. }
  pose proof (on_disk_insert p x d Hd Hx) as Hd1.
  destruct (startup _ _ _ _ _ _ _) as [[s|er|] c] eqn:Es; [|by split..].
  apply startup_fields in Es as [Edb Efs].
  destruct (decide (p = path)) as [Hp|Hp].
  - assert (Hk : kept key value s) by (split; [intros n; by rewrite Efs|rewrite Edb; by apply Hx]).
    pose proof (run_kept (l_env l) lo hi key value Hc ex e stored in_time (l_events l) s c Hev Hk) as Hk'.
    destruct (run (l_env l) (l_events l) s c) as [s' c']. split.
    + apply on_disk_insert; [done|]. intros _. apply Hk'.
    + by intros s2 [= <-] _.
  - destruct (run (l_env l) (l_events l) s c) as [s' c']. split; [by apply on_disk_insert|done].
Qed.

Lemma main_kept l d : quiet l -> on_disk d ->
  on_disk (main l d).2 /\
  forall s, (main l d).1 = Ok s -> db_path None (SIBNA_DB_PATH (l_settings l)) = path -> kept key value s.
Proof. intros Hq Hd. unfold main. destruct (l_binds l _); [by apply run_server_kept | by split]. Qed.

Lemma lives_kept ls : forall d, Forall quiet ls -> on_disk d -> on_disk (lives ls d).
Proof.
  induction ls as [|l ls IH]; intros d Hq Hd; [done|]. apply Forall_cons in Hq as [Hl Hq]. simpl.
  apply IH; [done|]. by apply main_kept.
Qed.

End Message.

(** ** The secret of the tokens *)
Section Secret.
Variable k : bytes.

(** The secret of a life is fixed when it starts. *)
Definition keyed (s : Server) : Prop := jwt_secret s = k.

Lemma db_get_keyed {E} t x : preserves keyed (db_get (E := E) t x).
Proof. intros env s c. by rewrite db_get_run. Qed.
Lemma db_insert_keyed {E} t x v : preserves keyed (db_insert (E := E) t x v).
Proof. intros env s c. rewrite db_insert_run. by destruct (faults s (db_ops s)). Qed.
Lemma db_remove_keyed {E} t x : preserves keyed (db_remove (E := E) t x).
Proof. intros env s c. rewrite db_remove_run. by destruct (faults s (db_ops s)). Qed.
Lemma db_scan_keyed {E} t p : preserves keyed (db_scan_prefix (E := E) t p).
Proof. intros env s c. by rewrite db_scan_run. Qed.
Lemma db_iter_keyed {E} t : preserves keyed (db_iter (E := E) t).
Proof. by intros env s c. Qed.
Lemma utc_now_keyed {E} : preserves keyed (utc_now (E := E)).
Proof. unfold utc_now. lead_steps. Qed.
Lemma log_keyed {E} (r : Res E bytes) : preserves keyed (log_with r).
Proof. unfold log_with. lead_steps. Qed.
Lemma enforce_keyed op ip id : preserves keyed (enforce_rate_limit op ip id).
Proof. intros env s c Hs. by destruct (enforce_frame op ip id env s c) as [l ->]. Qed.
Lemma channel_send_keyed {E} ch d : preserves keyed (channel_send (E := E) ch d).
Proof. intros env s c Hs. unfold channel_send, bind, get. by destruct (channels s !! ch) as [[[] ?]|]. Qed.
#[local] Hint Resolve db_get_keyed db_insert_keyed db_remove_keyed db_scan_keyed db_iter_keyed utc_now_keyed log_keyed
  enforce_keyed channel_send_keyed : sibna.

Lemma db_remove_all_keyed {E} t keys : preserves keyed (db_remove_all (E := E) t keys).
Proof. induction keys as [|x keys IH]; cbn [db_remove_all]; lead_steps. Qed.
Lemma remove_found_keyed keys : preserves keyed (remove_found keys).
Proof. induction keys as [|x keys IH]; cbn [remove_found]; lead_steps. Qed.
Lemma auth_user_keyed auth : preserves keyed (auth_user auth).
Proof. unfold auth_user, validate_jwt. lead_steps. Qed.
Lemma usable_keyed v : preserves keyed (usable v).
Proof. unfold usable, parse_bundle, validated. lead_steps. Qed.
#[local] Hint Resolve db_remove_all_keyed remove_found_keyed auth_user_keyed usable_keyed : sibna.
Lemma collect_keyed l : preserves keyed (collect_bundles l).
Proof. induction l as [|[x v] l IH]; cbn [collect_bundles]; lead_steps. Qed.
#[local] Hint Resolve collect_keyed : sibna.

Lemma route_keyed ip r : preserves keyed (route ip r).
Proof.
  destruct r; cbn [route]; unfold ip_rate_limit, challenge_handler, prove_handler, pending_challenge, check_answer,
    drop_challenge, upload_prekey_handler, check_replay, parse_bundle, validated, fetch_prekey_handler, last_resort,
    delete_prekey_handler, send_message_handler, inbox_handler, queue_message, send_live, health_handler, or_reply, early;
    lead_steps.
Qed.

Lemma deliver_keyed {E} ch now l : preserves keyed (deliver_each (E := E) ch now l).
Proof. induction l as [|[x v] l IH]; cbn [deliver_each]; unfold deliver_one, push; lead_steps. Qed.
#[local] Hint Resolve deliver_keyed : sibna.

Lemma open_keyed {E} id : preserves keyed (handle_ws_open (E := E) id).
Proof.
  assert (Hd : forall ch, preserves keyed (deliver_queued_messages (E := E) id ch))
    by (intros ch; unfold deliver_queued_messages; lead_steps).
  intros env s c Hs. unfold handle_ws_open. unfold bind at 1, get. unfold bind at 1, put. set (s1 := set_clients _ _).
  revert env s1 c Hs. intros env s1 c Hs. apply (leads_bind keyed _ _ (Hd _) (fun _ => leads_ret keyed _) env s1 c Hs).
Qed.

Lemma send_live_keyed {E} id d : preserves keyed (send_live (E := E) id d).
Proof. unfold send_live. lead_steps. Qed.
#[local] Hint Resolve send_live_keyed : sibna.

Lemma dispatch_keyed id m uuid : preserves keyed (dispatch id m uuid).
Proof.
  destruct m; cbn [dispatch]; unfold route_message, check_dedup, queue_message, handle_ack, route_webrtc, stop; lead_steps.
Qed.
#[local] Hint Resolve open_keyed dispatch_keyed : sibna.

Lemma m_try_keyed {E F A} (m : M Server E A) : preserves keyed m -> preserves keyed (m_try (F := F) m).
Proof. intros Hm env s c Hs. specialize (Hm env s c Hs). unfold m_try. by destruct (m env s c) as [[[] ?] ?]. Qed.
#[local] Hint Resolve m_try_keyed route_keyed : sibna.

Lemma exec_keyed ev : preserves keyed (exec ev).
Proof.
  destruct ev as [ip r|id|id m uuid|ch|id|]; cbn [exec]; unfold prune_tick, handle_ws_close; lead_steps.
  - destruct m; cbn [recv_step]; lead_steps.
  - intros env s c Hs. unfold send_task_fails, modify. cbn. by destruct (channels s !! ch).
Qed.

Lemma run_keyed env evs : forall s c, keyed s -> keyed (run env evs s c).1.
Proof.
  induction evs as [|ev evs IH]; intros s c Hs; [done|]. cbn [run]. pose proof (exec_keyed ev env s c Hs) as H.
  destruct (exec ev env s c) as [[r s'] c']. by apply IH.
Qed.

End Secret.

(** The secret of a life that has started. *)
Lemma startup_secret sibna_env secret d fs logging env c s c' :
  startup sibna_env secret d fs logging env c = (Ok s, c') ->
  match secret with
  | Some k => jwt_secret s = k /\ (is_production sibna_env = true -> 32 <= len k)
  | None => is_production sibna_env = false /\ exists b, length b = 32%nat /\ jwt_secret s = hex_encode b
  end.
Proof.
  unfold startup, choose_secret, io_bind. destruct secret as [k|].
  - destruct (Z.leb_spec 32 (len k)); [|destruct (is_production sibna_env); [done|]]; unfold io_ret at 1;
      destruct (server_limiter _ _) as [[r| |] c2]; try done; intros [= <- _]; by split.
  - destruct (is_production sibna_env); [done|]. unfold os_bytes at 1, io_ret at 1. cbv iota beta.
    set (b := map _ _). assert (Hb : length b = 32%nat) by (unfold b; by rewrite length_map, length_seq). clearbody b.
    destruct (server_limiter _ _) as [[r| |] c2]; try done. intros [= <- _]. split; [done|]. by exists b.
Qed.

Lemma main_secret l d s : (main l d).1 = Ok s ->
  match SIBNA_JWT_SECRET (l_settings l) with
  | Some k => jwt_secret s = k /\ (is_production (SIBNA_ENV (l_settings l)) = true -> 32 <= len k)
  | None => is_production (SIBNA_ENV (l_settings l)) = false /\ exists b, length b = 32%nat /\ jwt_secret s = hex_encode b
  end.
Proof.
  unfold main, run_server, open_db. destruct (l_binds l _); [|done]. destruct (l_opens l _); [|done].
  destruct (startup _ _ _ _ _ _ _) as [[s0|e|] c] eqn:Es; try done. apply startup_secret in Es.
  pose proof (run_keyed (jwt_secret s0) (l_env l) (l_events l) s0 c eq_refl) as Hk.
  destruct (run _ _ s0 c) as [s' c']. intros [= <-]. unfold keyed in Hk. simpl in Hk. by rewrite Hk.
Qed.

(** A life with a port and a database starts unless its secret is refused. *)
Lemma main_starts l d :
  l_binds l (listen_port (PORT (l_settings l))) = true -> l_opens l (db_path None (SIBNA_DB_PATH (l_settings l))) = true ->
  (exists k, SIBNA_JWT_SECRET (l_settings l) = Some k /\ 32 <= len k) \/ is_production (SIBNA_ENV (l_settings l)) = false ->
  exists s, (main l d).1 = Ok s.
Proof.
  intros Hb Ho Hs. unfold main, run_server, open_db. rewrite Hb, Ho.
  assert (G : forall b x, exists s c', startup (SIBNA_ENV (l_settings l)) (SIBNA_JWT_SECRET (l_settings l)) b (l_faults l)
    (l_logging l) (l_env l) x = (Ok s, c')).
  { intros b x. unfold startup, choose_secret, io_bind. destruct (SIBNA_JWT_SECRET _) as [k|].
    - destruct (Z.leb_spec 32 (len k)); [by eexists _, _|]. destruct Hs as [(k' & [= ->] & ?)| ->]; [lia|]. by eexists _, _.
    - destruct Hs as [(k' & ? & _)| ->]; [done|]. by eexists _, _. }
  destruct (G (default open_db_empty (d !! db_path None (SIBNA_DB_PATH (l_settings l)))) (l_ctr l)) as (s & c & ->).
  destruct (run _ _ s c) as [s' c']. by exists s'.
Qed.

(** Tokens across restarts.  A token issued in a life with a configured
    secret is accepted by every later life with the same secret, whatever both
    have handled, until 60 seconds after its expiry; and a life in production
    mode only ever issues and accepts tokens under a configured secret of at
    least 32 characters, because otherwise it does not start. *)
Theorem tokens_survive_restarts {JL : JwtLaws J} l1 d1 s1 l2 d2 s2 k cl token env lo hi c :
  (main l1 d1).1 = Ok s1 -> (main l2 d2).1 = Ok s2 ->
  SIBNA_JWT_SECRET (l_settings l1) = Some k -> SIBNA_JWT_SECRET (l_settings l2) = Some k ->
  jwt_encode (jwt_secret s1) cl = Some token -> forallb visible token = true ->
  clock_in env lo hi -> 0 <= lo -> hi <= exp cl + 60 ->
  (exists c', auth_user (Some (bstr "Bearer " ++ token)) env s2 c = (Ok cl, s2, c')) /\
  (is_production (SIBNA_ENV (l_settings l1)) = true -> 32 <= len k).
Proof.
  intros H1 H2 Hk1 Hk2 He Hv Hc Hlo Hhi. apply main_secret in H1, H2. rewrite Hk1 in H1. rewrite Hk2 in H2.
  destruct H1 as [H1 Hp]. destruct H2 as [H2 _]. split; [|done]. unfold auth_user.
  rewrite forallb_app, Hv. change (forallb visible (bstr "Bearer ")) with true. cbn [andb negb].
  rewrite starts_with_app. change (drop 7 (bstr "Bearer " ++ token)) with token.
  unfold bind at 1, get, validate_jwt. destruct (utc_now_run (E := Reply) lo hi env s2 c Hc) as (t & Et & Ht & _).
  unfold bind at 1. rewrite (bind_ok _ _ _ _ _ _ _ _ Et). unfold ret at 1. rewrite H2, <- H1.
  rewrite (jwt_roundtrip _ _ _ t He). destruct (Z.ltb_spec (exp cl) (t - 60)); [lia|]. unfold ret. eauto.
Qed.

Context {LW : CodecLaws CW wf_message} {LD : CodecLaws CD wf_doc} {L : PrimitiveLaws P}.

(** C18: accepted messages survive restarts.  A well-formed envelope with an
    unused id, signed by its sender, is accepted by the relay on a working
    database.  Then let the relay go on, stop, and live any number of further
    lives, with any settings: some on other databases, some that cannot bind
    their port or open the database, some that refuse to start.  As long as the
    operations on the database succeed, no event acknowledges, collects or
    overwrites the message, and the queue's seven days last, the recipient who
    connects in a life that has started on the same database gets the envelope
    pushed. *)
Theorem message_survives_restarts sk e env lo hi s c path d :
  length sk = 32%nat -> well_formed_envelope e -> signed_by sk e ->
  fault_free s -> clock_in env lo hi -> 0 <= lo -> hi + 7 * 86400 <= I64_MAX -> hi <= lo + 7 * 86400 ->
  unused_id s (message_id e) ->
  let key := queue_key (recipient_id e) (message_id e) in
  exists s1 c1 t data, route_message (hex_encode (ed25519_public sk)) e env s c = (Ok tt, s1, c1) /\
    lo <= t <= hi /\ encode (Envelope (stamp t e)) = Some data /\
    forall evs ls l s2 c2, Forall (fun ev => touches key ev = false) evs ->
      Forall (quiet lo hi key) ls -> quiet lo hi key l ->
      db_path None (SIBNA_DB_PATH (l_settings l)) = path ->
      (main l (lives ls (<[path := db (run env evs s1 c1).1]> d))).1 = Ok s2 ->
      exists ch s3 c3 sent, handle_ws_open (E := unit) (recipient_id e) (l_env l) s2 c2 = (Ok ch, s3, c3) /\
        sent_on ch s3 sent /\ data ∈ sent.
Proof.
  intros Hsk Hw Hsg Hf Hc Hlo Hhi Hwin Hu key.
  destruct (route_accepts sk e env lo hi s c Hsk Hw Hsg Hf Hc Hlo Hhi Hu) as (s1 & c1 & t & ex & v & E1 & Ht & Hk & Hd & Hx).
  destruct (codec_roundtrip (C := CW) (Envelope (stamp t e))) as (data & Ed & _).
  { apply Is_true_true_2. cbn [wf_message]. apply wf_stamp; [unfold I64_MIN; lia | apply Hw]. }
  exists s1, c1, t, data. split; [done|]. split; [done|]. split; [done|]. intros evs ls l s2 c2 Hevs Hls Hl Hp Hm.
  assert (Hx' : hi <= ex) by lia.
  pose proof (run_kept env lo hi key v Hc ex (stamp t e) Hd Hx' evs s1 c1 Hevs Hk) as Hk1.
  assert (Hdisk : on_disk key v path (lives ls (<[path := db (run env evs s1 c1).1]> d))).
  { apply (lives_kept lo hi key v path ex (stamp t e) Hd Hx' ls); [done|]. eexists. rewrite lookup_insert_eq. split; [done|]. apply Hk1. }
  destruct (main_kept lo hi key v path ex (stamp t e) Hd Hx' l _ Hl Hdisk) as [_ Hk2].
  destruct (open_delivers (l_env l) lo hi key v (proj1 Hl) ex (stamp t e) Hd Hx' (E := unit) (recipient_id e) s2 c2 (Hk2 s2 Hm Hp))
    as (ch & s3 & c3 & sent & E3 & Hs & _ & Hin); [apply starts_with_app|].
  exists ch, s3, c3, sent. split; [done|]. split; [done|]. by apply Hin.
Qed.

End Lives.

(** ** Concrete lives *)

Import Spelled.

Definition demo_life (path : option bytes) (mode secret : option bytes) (opens : bool) (evs : list Event) : Life :=
  mkLife (mkSettings (Some (bstr "9000")) path mode secret) (fun _ => true) (fun _ => opens) demo_env ctr0 (fun _ => None)
    false evs.

(** Production without a secret, a database that does not open, another database. *)
Definition demo_lives : list Life :=
  [demo_life None (Some (bstr "Production")) None true []; demo_life None None None false [];
   demo_life (Some (bstr "other")) None None true [EvPrune]; demo_life None None (Some (bstr "short")) true [EvOpen demo_login; EvPrune]].

Definition demo_last_life : Life := demo_life None (Some (bstr "production")) (Some (repeat x61 32)) true [EvPrune].

Lemma demo_quiet key path mode secret opens evs : Forall (fun ev => touches (CW := spelled wf_message) (CE := spelled wf_envelope) key ev = false) evs ->
  quiet (CW := spelled wf_message) (CE := spelled wf_envelope) 1700000000 1700000000 key (demo_life path mode secret opens evs).
Proof. intros H. split; [exact demo_env_clock|]. by split. Qed.

Lemma message_survives_restarts_witness :
  exists s1 c1 s2 ch s3 c3,
    route_message (P := toy) (CW := spelled wf_message) (CD := spelled wf_doc) demo_login demo_envelope demo_env demo_server ctr0
      = (Ok tt, s1, c1) /\
    (main (P := toy) (J := plain_jwt) (CW := spelled wf_message) (CE := spelled wf_envelope) (CD := spelled wf_doc) demo_last_life
      (lives (P := toy) (J := plain_jwt) (CW := spelled wf_message) (CE := spelled wf_envelope) (CD := spelled wf_doc) demo_lives
        {[bstr "sibna_server_db" := db s1]})).1 = Ok s2 /\
    handle_ws_open (CW := spelled wf_message) (CD := spelled wf_doc) (E := unit) (recipient_id demo_envelope) demo_env s2 ctr0
      = (Ok ch, s3, c3).
Proof.
  destruct (message_survives_restarts (P := toy) (J := plain_jwt) (CW := spelled wf_message) (CE := spelled wf_envelope)
    (CD := spelled wf_doc) (LW := spelled_laws wf_message) (LD := spelled_laws wf_doc) (L := toy_laws)
    demo_sk demo_envelope demo_env 1700000000 1700000000 demo_server ctr0 (bstr "sibna_server_db") ∅)
    as (s1 & c1 & t & data & E1 & _ & _ & Hr);
    [reflexivity | exact demo_envelope_ok | reflexivity | by intros n | exact demo_env_clock | lia
    | vm_compute; discriminate | lia | reflexivity |].
  destruct (main_starts (P := toy) (J := plain_jwt) (CW := spelled wf_message) (CE := spelled wf_envelope) (CD := spelled wf_doc)
    demo_last_life (lives (P := toy) (J := plain_jwt) (CW := spelled wf_message) (CE := spelled wf_envelope) (CD := spelled wf_doc)
      demo_lives {[bstr "sibna_server_db" := db s1]})) as [s2 E2];
    [reflexivity | reflexivity | left; eexists; split; [reflexivity | vm_compute; discriminate] |].
  destruct (Hr [] demo_lives demo_last_life s2 ctr0) as (ch & s3 & c3 & sent & E3 & _);
    [constructor | repeat (apply Forall_cons; split; [apply demo_quiet; repeat constructor|]); constructor
    | apply demo_quiet; repeat constructor | reflexivity | exact E2 |].
  exists s1, c1, s2, ch, s3, c3. split; [exact E1|]. split; [exact E2 | exact E3].
Defined.

Lemma tokens_survive_restarts_witness :
  exists s2 token c', (main (P := toy) (J := plain_jwt) (CW := spelled wf_message) (CE := spelled wf_envelope) (CD := spelled wf_doc)
      demo_last_life ∅).1 = Ok s2 /\
    auth_user (J := plain_jwt) (Some (bstr "Bearer " ++ token)) demo_env s2 ctr0
      = (Ok (mkClaims demo_login 1700000000 1700086400 (bstr "default")), s2, c').
Proof.
  destruct (main_starts (P := toy) (J := plain_jwt) (CW := spelled wf_message) (CE := spelled wf_envelope) (CD := spelled wf_doc)
    demo_last_life ∅) as [s2 E2];
    [reflexivity | reflexivity | left; eexists; split; [reflexivity | vm_compute; discriminate] |].
  set (cl := mkClaims demo_login 1700000000 1700086400 (bstr "default")).
  destruct (tokens_survive_restarts (P := toy) (J := plain_jwt) (CW := spelled wf_message) (CE := spelled wf_envelope) (CD := spelled wf_doc)
    (JL := plain_jwt_laws) demo_last_life ∅ s2 demo_last_life ∅ s2 (repeat x61 32) cl (plain_token (repeat x61 32) cl) demo_env 1700000000 1700000000 ctr0)
    as [[c' Ha] _]; try exact E2; try reflexivity; try exact demo_env_clock; try lia.
  - apply main_secret in E2. destruct E2 as [E2 _]. cbn [jwt_encode plain_jwt]. by rewrite E2.
  - vm_compute. discriminate.
  - eexists s2, _, c'. split; [exact E2 | exact Ha].
Defined.
