(* ===== verification/Iot.v ===== *)
(** * Constrained devices ([core/src/iot.rs])

    The payload formats for MQTT and serial lines, their checksum, and the
    header of stored session states.  The LZ4 crate is a parameter. *)

From S2P Require Import Prelude Effects Primitives.
#[local] Open Scope Z_scope.
#[local] Open Scope sibna_scope.

(** ** Errors *)

Module DecompressError.
Inductive t := InvalidData | TooLarge.
End DecompressError.

Module ParseError.
Inductive t := TooShort | DecompressionFailed.
End ParseError.

Module SessionRestoreError.
Inductive t := TooShort | InvalidMagic | UnsupportedVersion (v : u8).
End SessionRestoreError.

Module FrameError.
Inductive t := TooShort | NoSTX | NoETX | IncompleteFrame | CrcMismatch (expected received : Z).
End FrameError.

Module RngError.
Inductive t := HardwareFailure | NotReady.
End RngError.

(** ** Entropy sources *)

(** The trait [HardwareRng], for a source with state [S]. *)
Class HardwareRng (S : Type) := { hw_fill_bytes : nat -> M S RngError.t bytes }.

(** The thread's generator is seeded by the system. *)
#[export] Instance SoftwareRng : HardwareRng unit := {| hw_fill_bytes n := lift (os_bytes n) |}.

(** The software source never fails and fills the buffer. *)
Lemma software_rng_total n env c : exists b c', hw_fill_bytes n env tt c = (Ok b, tt, c') /\ length b = n.
Proof. eexists _, _. split; [reflexivity|]. by rewrite length_map, length_seq. Qed.

(** ** Compression *)

(** [lz4_flex::compress_prepend_size] and [decompress_size_prepended]. *)
Class Lz4 := {
  lz4_compress : bytes -> bytes;
  lz4_decompress : bytes -> option bytes
}.

(** The compressed form starts with the size, 32 bits little-endian, and
    decompresses to the data. *)
Class Lz4Laws (Z4 : Lz4) := {
  lz4_size d : is_u32 (len d) -> take 4 (lz4_compress d) = u32_le (len d);
  lz4_roundtrip d : is_u32 (len d) -> lz4_decompress (lz4_compress d) = Some d
}.

Definition MAX_DECOMPRESSED_SIZE : Z := 20 * 1024 * 1024.

Section Mqtt.
Context {Z4 : Lz4}.

Definition compress (data : bytes) : bytes := lz4_compress data.

Definition decompress (data : bytes) : Res DecompressError.t bytes :=
  if (4 <? len data) && (MAX_DECOMPRESSED_SIZE <? from_le (take 4 data)) then Err DecompressError.TooLarge
  else ok_or (lz4_decompress data) DecompressError.InvalidData.

Definition mqtt_send_topic (recipient_id_hex : bytes) : bytes := bstr "sibna/msg/" ++ recipient_id_hex.
Definition mqtt_inbox_topic (my_id_hex : bytes) : bytes := bstr "sibna/inbox/" ++ my_id_hex.

Definition build_mqtt_payload (recipient_id encrypted_payload : bytes) (compress_payload : bool) : bytes :=
  [if compress_payload then x01 else x00] ++ recipient_id
  ++ (if compress_payload then compress encrypted_payload else encrypted_payload).

Definition parse_mqtt_payload (raw : bytes) : Res ParseError.t (bool * bytes * bytes) :=
  if len raw <? 33 then Err ParseError.TooShort
  else
    let? flags := or_panic (raw !! 0%nat) in
    let compressed := Z.testbit (b2z flags) 0 in
    let? recipient := or_panic (slice 1 33 raw) in
    let? payload_raw := or_panic (slice 33 (length raw) raw) in
    let? payload := if compressed
                    then map_err (fun _ => ParseError.DecompressionFailed) (decompress payload_raw)
                    else Ok payload_raw in
    Ok (compressed, recipient, payload).

End Mqtt.

(** ** Stored sessions *)

Definition session_to_bytes (state : bytes) : bytes := bstr "SIBN" ++ [x01] ++ state.

Definition session_from_bytes (raw : bytes) : Res SessionRestoreError.t bytes :=
  if len raw <? 5 then Err SessionRestoreError.TooShort
  else if negb (bool_decide (take 4 raw = bstr "SIBN")) then Err SessionRestoreError.InvalidMagic
  else
    let? v := or_panic (raw !! 4%nat) in
    if negb (Byte.eqb v x01) then Err (SessionRestoreError.UnsupportedVersion v)
    else or_panic (slice 5 (length raw) raw).

(** ** Serial frames *)

Definition crc_bit (crc : Z) : Z :=
  if Z.testbit crc 0 then Z.lxor (Z.shiftr crc 1) 40961 else Z.shiftr crc 1.

Definition crc_byte (crc : Z) (b : u8) : Z := Nat.iter 8 crc_bit (Z.lxor crc (b2z b)).

Definition crc16 (data : bytes) : Z := fold_left crc_byte data 65535.

(** [(x >> 8) as u8] and [x as u8]. *)
Definition high_byte (x : Z) : u8 := z2b (Z.shiftr x 8).
Definition low_byte (x : Z) : u8 := z2b x.

Definition frame_serial (payload : bytes) : bytes :=
  let l := len payload mod 65536 in
  let crc := crc16 payload in
  [x02; high_byte l; low_byte l] ++ payload ++ [high_byte crc; low_byte crc; x03].

(** [(a << 8) | b]. *)
Definition be16 (a b : u8) : Z := Z.lor (Z.shiftl (b2z a) 8) (b2z b).

Definition parse_serial_frame (data : bytes) : Res FrameError.t bytes :=
  if len data <? 6 then Err FrameError.TooShort
  else
    let? stx := or_panic (data !! 0%nat) in
    if negb (Byte.eqb stx x02) then Err FrameError.NoSTX
    else
    let? etx := or_panic (data !! (length data - 1)%nat) in
    if negb (Byte.eqb etx x03) then Err FrameError.NoETX
    else
    let? d1 := or_panic (data !! 1%nat) in
    let? d2 := or_panic (data !! 2%nat) in
    let l := Z.to_nat (be16 d1 d2) in
    if len data <? 3 + be16 d1 d2 + 3 then Err FrameError.IncompleteFrame
    else
    let? payload := or_panic (slice 3 (3 + l) data) in
    let? c1 := or_panic (data !! (3 + l)%nat) in
    let? c2 := or_panic (data !! (3 + l + 1)%nat) in
    let received_crc := be16 c1 c2 in
    let expected_crc := crc16 payload in
    if negb (received_crc =? expected_crc) then Err (FrameError.CrcMismatch expected_crc received_crc)
    else Ok payload.

(** ** The checksum *)

Definition is_u16 (z : Z) : Prop := 0 <= z < 65536.

Lemma is_u16_lxor a b : is_u16 a -> is_u16 b -> is_u16 (Z.lxor a b).
Proof.
  unfold is_u16. intros Ha Hb. change 65536 with (2 ^ 16) in *.
  assert (0 <= Z.lxor a b) by (apply Z.lxor_nonneg; lia). split; [done|].
  destruct (Z.eq_dec (Z.lxor a b) 0) as [->|Hn]; [done|]. apply Z.log2_lt_pow2; [lia|].
  eapply Z.le_lt_trans; [apply Z.log2_lxor; lia|].
  assert (Hl : forall x, 0 <= x < 2 ^ 16 -> Z.log2 x < 16).
  { intros x Hx. destruct (Z.eq_dec x 0) as [->|]; [done|]. apply Z.log2_lt_pow2; lia. }
  pose proof (Hl a Ha). pose proof (Hl b Hb). lia.
Qed.

Lemma is_u16_byte b : is_u16 (b2z b).
Proof. unfold is_u16. pose proof (b2z_range b). lia. Qed.

Lemma shiftr1_bound c : is_u16 c -> 0 <= Z.shiftr c 1 < 2 ^ 15.
Proof. unfold is_u16. intros H. rewrite Z.shiftr_div_pow2 by lia. change (2 ^ 1) with 2. change (2 ^ 15) with 32768.
  split; [apply Z.div_pos; lia | apply Z.div_lt_upper_bound; lia].
Qed.

Lemma crc_bit_u16 c : is_u16 c -> is_u16 (crc_bit c).
Proof.
  intros H. pose proof (shiftr1_bound c H). unfold crc_bit.
  destruct (Z.testbit c 0); [apply is_u16_lxor|]; unfold is_u16; lia.
Qed.

(** The top bit of the result is the bit shifted out, so a step can be undone. *)
Lemma crc_bit_top c : is_u16 c -> Z.testbit (crc_bit c) 15 = Z.testbit c 0.
Proof.
  intros H. pose proof (shiftr1_bound c H) as Hs.
  assert (Hz : Z.testbit (Z.shiftr c 1) 15 = false).
  { destruct (Z.eq_dec (Z.shiftr c 1) 0) as [->|]; [done|]. apply Z.bits_above_log2; [lia|]. apply Z.log2_lt_pow2; lia. }
  unfold crc_bit. destruct (Z.testbit c 0); [|done]. by rewrite Z.lxor_spec, Hz.
Qed.

Lemma crc_bit_inj a b : is_u16 a -> is_u16 b -> crc_bit a = crc_bit b -> a = b.
Proof.
  intros Ha Hb E. pose proof (crc_bit_top a Ha) as Ta. pose proof (crc_bit_top b Hb) as Tb. rewrite E, Tb in Ta.
  unfold crc_bit in E. rewrite <- Ta in E.
  assert (Hs : Z.shiftr a 1 = Z.shiftr b 1).
  { destruct (Z.testbit b 0); [|done]. apply (f_equal (fun x => Z.lxor x 40961)) in E.
    by rewrite !Z.lxor_assoc, !Z.lxor_nilpotent, !Z.lxor_0_r in E. }
  rewrite !Z.shiftr_div_pow2 in Hs by lia. change (2 ^ 1) with 2 in Hs. rewrite !Z.bit0_odd in Ta.
  rewrite (Z.div_mod a 2), (Z.div_mod b 2), Hs by lia. by rewrite !Zmod_odd, Ta.
Qed.

Lemma crc_iter_inj n a b : is_u16 a -> is_u16 b -> Nat.iter n crc_bit a = Nat.iter n crc_bit b -> a = b.
Proof.
  revert a b. induction n as [|n IH]; intros a b Ha Hb E; [done|]. rewrite !Nat.iter_succ_r in E.
  apply crc_bit_inj; [done..|]. apply IH; [by apply crc_bit_u16..| exact E].
Qed.

Lemma crc_iter_u16 n a : is_u16 a -> is_u16 (Nat.iter n crc_bit a).
Proof. intros H. induction n; [done|]. by apply crc_bit_u16. Qed.

Lemma crc_byte_u16 c b : is_u16 c -> is_u16 (crc_byte c b).
Proof. intros H. apply crc_iter_u16, is_u16_lxor; [done | apply is_u16_byte]. Qed.

Lemma lxor_cancel a b c : Z.lxor a c = Z.lxor b c -> a = b.
Proof.
  intros E. apply (f_equal (fun x => Z.lxor x c)) in E. by rewrite !Z.lxor_assoc, !Z.lxor_nilpotent, !Z.lxor_0_r in E.
Qed.

Lemma crc_byte_inj_state a b x : is_u16 a -> is_u16 b -> crc_byte a x = crc_byte b x -> a = b.
Proof.
  intros Ha Hb E. apply crc_iter_inj in E; [by eapply lxor_cancel | apply is_u16_lxor; [done | apply is_u16_byte]..].
Qed.

Lemma crc_byte_inj_byte a x y : is_u16 a -> crc_byte a x = crc_byte a y -> x = y.
Proof.
  intros Ha E. apply crc_iter_inj in E; [|apply is_u16_lxor; [done | apply is_u16_byte]..].
  apply b2z_inj. rewrite (Z.lxor_comm a (b2z x)), (Z.lxor_comm a (b2z y)) in E. by eapply lxor_cancel.
Qed.

Lemma crc_fold_u16 l a : is_u16 a -> is_u16 (fold_left crc_byte l a).
Proof. revert a. induction l as [|x l IH]; intros a Ha; [done|]. by apply IH, crc_byte_u16. Qed.

Lemma crc_fold_inj l a b : is_u16 a -> is_u16 b -> fold_left crc_byte l a = fold_left crc_byte l b -> a = b.
Proof.
  revert a b. induction l as [|x l IH]; intros a b Ha Hb E; [done|]. cbn [fold_left] in E.
  apply IH in E; [|by apply crc_byte_u16..]. by eapply crc_byte_inj_state.
Qed.

Lemma crc16_u16 l : is_u16 (crc16 l).
Proof. apply crc_fold_u16. unfold is_u16. lia. Qed.

(** Payloads that differ in one byte have different checksums. *)
Lemma crc16_one_byte p x y s : crc16 (p ++ x :: s) = crc16 (p ++ y :: s) -> x = y.
Proof.
  unfold crc16. rewrite !fold_left_app. cbn [fold_left]. intros E.
  assert (Hp : is_u16 (fold_left crc_byte p 65535)) by (apply crc_fold_u16; unfold is_u16; lia).
  apply crc_fold_inj in E; [|by apply crc_byte_u16..]. by eapply crc_byte_inj_byte.
Qed.

(** ** Frames *)

Lemma be16_bytes z : is_u16 z -> be16 (high_byte z) (low_byte z) = z.
Proof.
  unfold is_u16, be16, high_byte, low_byte. intros H. rewrite Z.shiftr_div_pow2 by lia. change (2 ^ 8) with 256.
  rewrite b2z_z2b_small by (split; [apply Z.div_pos; lia | apply Z.div_lt_upper_bound; lia]). rewrite b2z_z2b, Z.lor_comm.
  rewrite lor_shiftl_8 by (apply Z.mod_pos_bound; lia). pose proof (Z.div_mod z 256). lia.
Qed.

(** A frame with any payload and any checksum, of a length that fits. *)
Lemma parse_frame p crc : len p <= 65535 -> is_u16 crc ->
  parse_serial_frame ([x02; high_byte (len p); low_byte (len p)] ++ p ++ [high_byte crc; low_byte crc; x03])
  = if crc =? crc16 p then Ok p else Err (FrameError.CrcMismatch (crc16 p) crc).
Proof.
  intros Hp Hc. unfold parse_serial_frame. set (tail := [_; _; x03]). set (d := _ ++ p ++ tail).
  assert (Hl : length d = (length p + 6)%nat) by (unfold d, tail; rewrite !length_app; simpl; lia).
  assert (Hu : is_u16 (len p)) by (unfold is_u16, len in *; lia).
  unfold len at 1. rewrite Hl. destruct (Z.ltb_spec (Z.of_nat (length p + 6)) 6); [lia|].
  change (d !! 0%nat) with (Some x02). cbn [or_panic res_bind]. change (negb (Byte.eqb x02 x02)) with false. cbv iota.
  assert (Ht : forall i, d !! (3 + length p + i)%nat = tail !! i).
  { intros i. unfold d. rewrite lookup_app_r by (simpl; lia). change (length [x02; _; _]) with 3%nat.
    replace (3 + length p + i - 3)%nat with (length p + i)%nat by lia. rewrite lookup_app_r by lia. f_equal. lia. }
  replace (length p + 6 - 1)%nat with (3 + length p + 2)%nat by lia. rewrite Ht. cbn [tail lookup list_lookup or_panic res_bind].
  change (negb (Byte.eqb x03 x03)) with false. cbv iota.
  change (d !! 1%nat) with (Some (high_byte (len p))). change (d !! 2%nat) with (Some (low_byte (len p))).
  cbn [or_panic res_bind]. rewrite be16_bytes by done. unfold len at 1. rewrite Hl.
  destruct (Z.ltb_spec (Z.of_nat (length p + 6)) (3 + len p + 3)); [unfold len in *; lia|].
  replace (Z.to_nat (len p)) with (length p) by (unfold len; lia).
  assert (Hs : slice 3 (3 + length p) d = Some p) by (unfold d; apply (slice_mid _ _ [x02; _; _] p tail); simpl; lia).
  rewrite Hs. cbn [or_panic res_bind]. rewrite <- (Nat.add_0_r (3 + length p)) at 1. rewrite !Ht.
  cbn [tail lookup list_lookup or_panic res_bind]. rewrite be16_bytes by done. by destruct (crc =? crc16 p).
Qed.

(** Serial frames.  A payload of at most 65535 bytes is recovered from its
    frame, and a frame in which one byte of the payload was changed on the line
    is refused with the two checksums, whatever the byte and the change; a
    longer payload is never recovered, because its length field wraps. *)
Theorem serial_frame_roundtrip payload :
  (len payload <= 65535 -> parse_serial_frame (frame_serial payload) = Ok payload) /\
  (forall p x y s, payload = p ++ x :: s -> x <> y -> len payload <= 65535 ->
     let l := len payload in
     parse_serial_frame ([x02; high_byte l; low_byte l] ++ (p ++ y :: s)
                         ++ [high_byte (crc16 payload); low_byte (crc16 payload); x03])
     = Err (FrameError.CrcMismatch (crc16 (p ++ y :: s)) (crc16 payload))) /\
  (65535 < len payload -> parse_serial_frame (frame_serial payload) <> Ok payload).
Proof.
  split; [|split].
  - intros Hl. unfold frame_serial. rewrite Z.mod_small by (unfold len in *; lia).
    rewrite parse_frame by (done || apply crc16_u16). by rewrite Z.eqb_refl.
  - intros p x y s -> Hxy Hl l. assert (El : l = len (p ++ y :: s)) by (unfold l, len; rewrite !length_app; done).
    rewrite El. rewrite parse_frame by (try apply crc16_u16; rewrite <- El; exact Hl).
    destruct (Z.eqb_spec (crc16 (p ++ x :: s)) (crc16 (p ++ y :: s))) as [E|]; [|done].
    by apply crc16_one_byte in E.
  - intros Hl. unfold frame_serial. set (m := len payload mod 65536).
    assert (Hm : is_u16 m) by (unfold is_u16, m; apply Z.mod_pos_bound; lia).
    unfold parse_serial_frame. set (d := [x02; _; _] ++ _). destruct (len d <? 6); [done|].
    destruct (or_panic (d !! 0%nat)) as [a|e|]; cbn [res_bind]; try done. destruct (negb _); [done|].
    destruct (or_panic (d !! (length d - 1)%nat)) as [b|e|]; cbn [res_bind]; try done. destruct (negb _); [done|].
    change (d !! 1%nat) with (Some (high_byte m)). change (d !! 2%nat) with (Some (low_byte m)). cbn [or_panic res_bind].
    rewrite be16_bytes by done. destruct (_ <? _); [done|].
    destruct (slice 3 (3 + Z.to_nat m) d) as [q|] eqn:Es; cbn [or_panic res_bind]; [|done].
    apply slice_length in Es. destruct (d !! _); cbn [or_panic res_bind]; [|done].
    destruct (d !! _); cbn [or_panic res_bind]; [|done]. destruct (negb _); [done|].
    intros [= ->]. unfold is_u16, len in *. lia.
Qed.

Lemma serial_frame_roundtrip_witness : parse_serial_frame (frame_serial (bstr "SIBNA")) = Ok (bstr "SIBNA").
Proof. refine (proj1 (serial_frame_roundtrip (bstr "SIBNA")) _). vm_compute. discriminate. Defined.

(** ** MQTT payloads and stored sessions *)

(** A payload comes back with its recipient and its flag. *)
Theorem mqtt_payload_roundtrip {Z4 : Lz4} {ZL : Lz4Laws Z4} recipient payload (compressed : bool) :
  length recipient = 32%nat -> len payload <= MAX_DECOMPRESSED_SIZE ->
  parse_mqtt_payload (build_mqtt_payload recipient payload compressed) = Ok (compressed, recipient, payload).
Proof.
  intros Hr Hp. unfold build_mqtt_payload, parse_mqtt_payload. set (rest := if compressed then compress payload else payload).
  set (raw := _ ++ recipient ++ rest). assert (Hl : length raw = (33 + length rest)%nat)
    by (unfold raw; rewrite !length_app, Hr; simpl; lia).
  unfold len at 1. rewrite Hl. destruct (Z.ltb_spec (Z.of_nat (33 + length rest)) 33); [lia|].
  change (raw !! 0%nat) with (Some (if compressed then x01 else x00)). cbn [or_panic res_bind].
  replace (Z.testbit (b2z (if compressed then x01 else x00)) 0) with compressed by (by destruct compressed).
  assert (H1 : slice 1 33 raw = Some recipient)
    by (unfold raw; apply (slice_mid _ _ [_] recipient rest); simpl; lia).
  assert (H2 : slice 33 (33 + length rest) raw = Some rest).
  { unfold raw. rewrite app_assoc. rewrite <- (app_nil_r rest) at 2.
    apply (slice_mid _ _ ([_] ++ recipient) rest []); simpl; lia. }
  rewrite H1, H2. cbn [or_panic res_bind]. subst rest. destruct compressed; [|done].
  assert (Hu : is_u32 (len payload)) by (unfold in_u, U32_MAX, MAX_DECOMPRESSED_SIZE, len in *; lia).
  unfold decompress, compress. rewrite lz4_size, from_le_u32, lz4_roundtrip by done.
  destruct (Z.ltb_spec MAX_DECOMPRESSED_SIZE (len payload)); [lia|]. by rewrite andb_false_r.
Qed.

(** LZ4 as storing. *)
Definition stored_lz4 : Lz4 := {|
  lz4_compress d := u32_le (len d) ++ d;
  lz4_decompress d := if (4 <=? length d)%nat then Some (drop 4 d) else None
|}.

Lemma stored_lz4_laws : Lz4Laws stored_lz4.
Proof.
  split; intros d _; cbn [lz4_compress lz4_decompress stored_lz4].
  - rewrite <- (length_to_le 4 (len d)) at 1. apply take_app_length.
  - rewrite length_app, length_to_le. cbn [Nat.leb Nat.add]. rewrite <- (length_to_le 4 (len d)) at 1. by rewrite drop_app_length.
Qed.

Lemma mqtt_payload_roundtrip_witness :
  parse_mqtt_payload (Z4 := stored_lz4) (build_mqtt_payload (Z4 := stored_lz4) (repeat xab 32) (bstr "data") true)
  = Ok (true, repeat xab 32, bstr "data").
Proof. apply (mqtt_payload_roundtrip (ZL := stored_lz4_laws)); [reflexivity | vm_compute; discriminate]. Defined.

(** The header of a stored session: written and checked, on every branch. *)
Lemma session_header state raw :
  session_from_bytes (session_to_bytes state) = Ok state /\
  (forall s, session_from_bytes raw = Ok s <-> raw = session_to_bytes s).
Proof.
  assert (H : forall s, session_from_bytes (session_to_bytes s) = Ok s).
  { intros s. unfold session_from_bytes, session_to_bytes. set (r := _ ++ _ ++ s).
    assert (Hl : length r = (5 + length s)%nat) by done. unfold len. rewrite Hl.
    destruct (Z.ltb_spec (Z.of_nat (5 + length s)) 5); [lia|]. change (take 4 r) with (bstr "SIBN").
    rewrite bool_decide_eq_true_2 by done. cbn [negb]. change (r !! 4%nat) with (Some x01). cbn [or_panic res_bind].
    change (negb (Byte.eqb x01 x01)) with false. cbv iota. unfold r. rewrite app_assoc. rewrite <- (app_nil_r s) at 2.
    by rewrite (slice_mid _ _ (bstr "SIBN" ++ [x01]) s []) by (rewrite ?length_app; simpl; lia). }
  split; [apply H|]. intros s. split; [|intros ->; apply H]. unfold session_from_bytes, len.
  destruct (Z.ltb_spec (Z.of_nat (length raw)) 5); [done|].
  destruct (bool_decide (take 4 raw = bstr "SIBN")) eqn:E; [|done]. apply bool_decide_eq_true in E. cbn [negb].
  destruct (raw !! 4%nat) as [v|] eqn:Ev; [|done]. cbn [or_panic res_bind]. destruct (Byte.eqb v x01) eqn:Eb; [|done].
  apply byte_eqb_eq in Eb as ->. cbn [negb]. rewrite slice_ok by lia. cbn [or_panic]. intros [= <-]. unfold session_to_bytes.
  rewrite <- E. rewrite (firstn_all2 (drop 5 raw)) by (rewrite length_drop; lia).
  rewrite <- (take_drop 4 raw) at 1. f_equal. by rewrite (drop_S _ _ _ Ev).
Qed.
