(* ===== verification/Storage.v ===== *)
(** * The store on disk ([core/src/storage.rs], [save_to_disk] and
    [load_from_disk] of [core/src/lib.rs])

    The files of one store and the file operations of saving and loading, each
    of which may fail or be the last one before the process is killed; a write
    interrupted in one of these ways leaves any part of its bytes.  The file
    names are distinct (a store whose own extension is one of those the code
    uses is not modelled), and what was written survives.  [bincode] is a
    parameter. *)

From S2P Require Import Prelude Effects Errors Primitives Codec Random Padding Kdf Handler Compare Encryptor Chain Message RatchetState Session RateLimit Group KeyStore Context.
#[local] Open Scope Z_scope.
#[local] Open Scope sibna_scope.

(** ** Data *)

Record StoragePayload := mkStoragePayload {
  sp_version : Z;
  sp_sequence_number : Z;
  sp_keystore : KeyStore;
  sp_sessions : gmap bytes DoubleRatchetSession;
  sp_config : Config;
  sp_groups : GroupManager;
  sp_last_save : Z;
  sp_device_id : bytes
}.

Record StorageManifest := mkStorageManifest {
  sm_version : Z;
  sm_sequence_number : Z;
  blob_hash : bytes;
  manifest_mac : bytes
}.

Definition wf_manifest (m : StorageManifest) : Prop :=
  is_u32 (sm_version m) /\ is_u64 (sm_sequence_number m) /\ length (blob_hash m) = 32%nat /\ length (manifest_mac m) = 32%nat.

Definition MAGIC : bytes := bstr "SIBNA001".
Definition STORAGE_VERSION : Z := 1.

(** What [serde] keeps of a session and of the payload. *)
Definition session_image (x : DoubleRatchetSession) : DoubleRatchetSession :=
  mkSession (of_serde (serde_image (state x))) (config x) (session_id x) (peer_id x) (created_at_ts x).

Definition payload_image (p : StoragePayload) : StoragePayload :=
  mkStoragePayload (sp_version p) (sp_sequence_number p) (persistent (sp_keystore p)) (session_image <$> sp_sessions p)
    (sp_config p) (sp_groups p) (sp_last_save p) (sp_device_id p).

Class PayloadCodec := {
  payload_encode : StoragePayload -> option bytes;
  payload_decode : bytes -> option StoragePayload
}.

Class PayloadCodecLaws (C : PayloadCodec) := {
  payload_roundtrip p b : payload_encode p = Some b -> payload_decode b = Some (payload_image p)
}.

(** ** The file system *)

Inductive FileName := Blob | Tmp | Manifest | Lock | Salt | SaltTmp | Keys | KeysTmp.
#[export] Instance file_name_eq_dec : EqDecision FileName.
Proof. solve_decision. Defined.

Definition Disk : Type := FileName -> option bytes.
Definition set_file (f : FileName) (v : option bytes) (d : Disk) : Disk := fun g => if decide (g = f) then v else d g.

(** What goes wrong at an operation and, if it is a write, how many of its bytes
    have reached the file by then. *)
Inductive IoFault := IoFails (written : nat) | IoKilled (written : nat).

Definition written (x : IoFault) : nat := match x with IoFails n | IoKilled n => n end.

Record World := mkWorld { disk : Disk; io_faults : nat -> option IoFault; io_count : nat }.
Definition set_disk d w := mkWorld d (io_faults w) (io_count w).

(** How a call ends without a result: by an error, or with the process. *)
Inductive Exit := Failed (e : ProtocolError.t) | Killed.

Abbreviation FM := (M World Exit).

Definition fail {A} (e : ProtocolError.t) : FM A := res (Err (Failed e)).
Definition or_fail {A} (r : PResult A) : FM A := res (map_err Failed r).

(** A file operation: its effect, and what an interruption leaves. *)
Record FileOp := mkFileOp { whole : Disk -> Disk; part : nat -> Disk -> Disk }.

Definition atomic (f : Disk -> Disk) : FileOp := mkFileOp f (fun _ d => d).

Definition append (f : FileName) (b : bytes) (d : Disk) : Disk := set_file f (option_map (fun old => old ++ b) (d f)) d.

Definition appending (f : FileName) (b : bytes) : FileOp := mkFileOp (append f b) (fun n => append f (take n b)).

Definition exit_of (x : IoFault) : Exit :=
  match x with IoFails _ => Failed ProtocolError.StorageError | IoKilled _ => Killed end.

Definition perform (o : FileOp) : FM unit :=
  let! w := get in
  let! _ := put (mkWorld (disk w) (io_faults w) (S (io_count w))) in
  match io_faults w (io_count w) with
  | None => modify (fun w => set_disk (whole o (disk w)) w)
  | Some x =>
      let! _ := modify (fun w => set_disk (part o (written x) (disk w)) w) in
      res (Err (exit_of x))
  end.

Definition io (f : Disk -> Disk) : FM unit := perform (atomic f).

Definition create (f : FileName) : FM unit := io (set_file f (Some [])).
Definition write_all (f : FileName) (b : bytes) : FM unit := perform (appending f b).
Definition sync_all : FM unit := io (fun d => d).
Definition rename (f g : FileName) : FM unit := io (fun d => set_file f None (set_file g (d f) d)).

(** Opening and reading a file to its end. *)
Definition read_file (f : FileName) : FM bytes :=
  let! _ := io (fun d => d) in
  let! w := get in
  or_fail (ok_or (disk w f) ProtocolError.StorageError).

(** ** Locking *)

(** The loop of [_acquire_lock]: a poll every 50 ms. *)
Fixpoint lock_loop (fuel : nat) (start : Z) : FM unit :=
  match fuel with
  | O => res Panic
  | S fuel =>
      let! now := lift read_instant in
      if (now - start) / NANOS <? 30 then
        let! w := get in
        match disk w Lock with
        | None => create Lock
        | Some _ => lock_loop fuel start
        end
      else fail ProtocolError.Timeout
  end.

(** With a sleep of 50 ms after every poll, 601 polls reach 30 seconds. *)
Definition LOCK_POLLS : nat := 601.

Definition acquire_lock : FM unit :=
  let! start := lift read_instant in lock_loop LOCK_POLLS start.

(** [let _lock_file = Self::_acquire_lock(path)?;]: the guard's [drop] removes
    the lock file on return, on errors and on panics, not when the process is
    killed. *)
Definition with_lock {A} (body : FM A) : FM A := fun env w c =>
  match acquire_lock env w c with
  | (Ok _, w1, c1) =>
      match body env w1 c1 with
      | (Err Killed, w2, c2) => (Err Killed, w2, c2)
      | (r, w2, c2) => (r, set_disk (set_file Lock None (disk w2)) w2, c2)
      end
  | (Err e, w1, c1) => (Err e, w1, c1)
  | (Panic, w1, c1) => (Panic, w1, c1)
  end.

Section Storage.
Context {P : Primitives} {PC : PayloadCodec} {MC : Codec StorageManifest}.

(** ** Saving *)

Definition mac_input (version seq : Z) (hash : bytes) : bytes := u32_le version ++ u64_le seq ++ hash.

Definition make_manifest (key : bytes) (version seq : Z) (encrypted : bytes) : StorageManifest :=
  let hash := sha256 encrypted in
  mkStorageManifest version seq hash (hmac_sha256 key (mac_input version seq hash)).

Definition save_body (key salt : bytes) (ks : KeyStore) (sessions : gmap bytes DoubleRatchetSession) (cfg : Config)
    (groups : GroupManager) (seq : Z) (dev : bytes) : FM unit :=
  let! now := lift read_secs_or_far in
  let payload := mkStoragePayload STORAGE_VERSION seq ks sessions cfg groups now dev in
  let! plaintext := or_fail (ok_or (payload_encode payload) ProtocolError.SerializationError) in
  let! handler := or_fail (map_err (fun _ => ProtocolError.InternalError) (CryptoHandler_new key)) in
  let! encrypted := lift (io_map_err (fun _ => Failed ProtocolError.StorageError)
                            (handler_encrypt handler plaintext (bstr "SibnaUnifiedStore_v1"))) in
  let! _ := create Tmp in
  let! _ := write_all Tmp MAGIC in
  let! _ := write_all Tmp salt in
  let! _ := write_all Tmp encrypted in
  let! _ := sync_all in
  let! manifest_bytes := or_fail (ok_or (encode (make_manifest key STORAGE_VERSION seq encrypted))
                                    ProtocolError.SerializationError) in
  let! _ := create Manifest in
  let! _ := write_all Manifest manifest_bytes in
  rename Tmp Blob.

Definition save_context key salt ks sessions cfg groups seq dev : FM unit :=
  with_lock (save_body key salt ks sessions cfg groups seq dev).

(** ** Loading *)

(** [read_exact]: the first [n] bytes and the rest. *)
Definition read_exact (n : nat) (b : bytes) : PResult (bytes * bytes) :=
  if (n <=? length b)%nat then Ok (take n b, drop n b) else Err ProtocolError.StorageError.

(** The header of the blob: the salt and the encrypted payload. *)
Definition read_blob (b : bytes) : PResult (bytes * bytes) :=
  let? (magic, rest) := read_exact 8 b in
  if negb (bool_decide (magic = MAGIC)) then Err ProtocolError.StorageError
  else read_exact 32 rest.

Definition check_manifest (key : bytes) (m : StorageManifest) (encrypted : bytes) : PResult unit :=
  if negb (ct_eq (manifest_mac m) (hmac_sha256 key (mac_input (sm_version m) (sm_sequence_number m) (blob_hash m))))
  then Err ProtocolError.StorageError
  else if negb (bool_decide (blob_hash m = sha256 encrypted)) then Err ProtocolError.StorageError
  else Ok tt.

(** What the two files contain, before the sessions jump. *)
Definition open_store (key manifest_bytes blob : bytes) : PResult (StoragePayload * bytes) :=
  let? m := ok_or (decode manifest_bytes) ProtocolError.DeserializationError in
  let? (salt, encrypted) := read_blob blob in
  let? handler := map_err (fun _ => ProtocolError.InternalError) (CryptoHandler_new key) in
  let? _ := check_manifest key m encrypted in
  let? plaintext := map_err (fun _ => ProtocolError.StorageError)
                      (handler_decrypt handler encrypted (bstr "SibnaUnifiedStore_v1")) in
  let? payload := ok_or (payload_decode plaintext) ProtocolError.DeserializationError in
  if sp_sequence_number payload <? sm_sequence_number m then Err ProtocolError.StorageError
  else Ok (payload, salt).

(** [for session_item in payload.sessions.iter() { jump_to_reservation()? }]. *)
Fixpoint jump_all (l : list (bytes * DoubleRatchetSession)) : IO Exit (list (bytes * DoubleRatchetSession)) :=
  match l with
  | [] => io_ret []
  | (k, x) :: l =>
      let* (_, st) := io_map_err (fun _ => Failed ProtocolError.InternalError) (run_on jump_to_reservation (state x)) in
      let* rest := jump_all l in
      io_ret ((k, mkSession st (config x) (session_id x) (peer_id x) (created_at_ts x)) :: rest)
  end.

Definition set_payload_sessions (m : gmap bytes DoubleRatchetSession) (p : StoragePayload) : StoragePayload :=
  mkStoragePayload (sp_version p) (sp_sequence_number p) (sp_keystore p) m (sp_config p) (sp_groups p) (sp_last_save p)
    (sp_device_id p).

Definition load_body (key : bytes) : FM (StoragePayload * bytes) :=
  let! w := get in
  match disk w Manifest with
  | None => fail ProtocolError.StorageError
  | Some _ =>
      let! manifest_bytes := read_file Manifest in
      let! _ := or_fail (ok_or (decode (A := StorageManifest) manifest_bytes) ProtocolError.DeserializationError) in
      let! blob := read_file Blob in
      let! (payload, salt) := or_fail (open_store key manifest_bytes blob) in
      let! l := lift (jump_all (map_to_list (sp_sessions payload))) in
      ret (set_payload_sessions (list_to_map l) payload, salt)
  end.

Definition load_context (key : bytes) : FM (StoragePayload * bytes) := with_lock (load_body key).

(** ** The context's side *)

(** The sessions behind their [Arc]s, cloned by the serialiser. *)
Definition session_map (s : SecureContext) : gmap bytes DoubleRatchetSession :=
  omap (fun i => arcs s !! i) (sessions (ctx_sessions s)).

Definition set_sequence n (s : SecureContext) : SecureContext :=
  mkContext (ctx_keystore s) (ctx_sessions s) (arcs s) (ctx_groups s) (ctx_config s) (ctx_random s) (storage_key s)
    (storage_salt s) (ctx_device_id s) (rate_limiter s) n (ctx_created_at s).

(** The atomic counter wraps, whether the save succeeds or not; [seq + 1]
    panics. *)
Definition save_to_disk : M (World * SecureContext) Exit unit :=
  let! (w, ctx) := get in
  let seq := sequence_number ctx in
  let! _ := put (w, set_sequence ((seq + 1) mod (U64_MAX + 1)) ctx) in
  let! next := res (or_panic (u_add U64_MAX seq 1)) in
  zoom fst (fun w s => (w, snd s))
    (save_context (storage_key ctx) (storage_salt ctx) (ctx_keystore ctx) (session_map ctx)
       (sm_config (ctx_sessions ctx)) (ctx_groups ctx) next (ctx_device_id ctx)).

(** The restored sessions, each in an [Arc] of its own. *)
Definition restore_sessions (m : gmap bytes DoubleRatchetSession) : gmap bytes nat * list DoubleRatchetSession :=
  let l := map_to_list m in
  (list_to_map (zip (l.*1) (seq 0 (length l))), l.*2).

Definition load_from_disk (password : bytes) : FM SecureContext :=
  let! blob := read_file Blob in
  let! (_, rest) := or_fail (read_exact 8 blob) in
  let! (salt, _) := or_fail (read_exact 32 rest) in
  let! key := or_fail (storage_kdf password salt) in
  let! (payload, _) := load_context key in
  let (ids, xs) := restore_sessions (sp_sessions payload) in
  let! rng := lift (io_map_err (fun e => Failed (ProtocolError.from_crypto e)) SecureRandom_new) in
  let! l := lift RateLimiter_new in
  let! created_at := lift read_instant in
  ret (mkContext (sp_keystore payload) (mkSessionManager ids (sp_config payload)) xs (sp_groups payload)
         (sp_config payload) rng key salt (sp_device_id payload) l (sp_sequence_number payload) created_at).

End Storage.

(** ** Runs of file operations *)

Definition quiet (w : World) (n : nat) : Prop := forall j, (j < n)%nat -> io_faults w (io_count w + j) = None.
Definition applied (fs : list FileOp) (d : Disk) : Disk := fold_left (fun d o => whole o d) fs d.
Definition after (fs : list FileOp) (w : World) : World :=
  mkWorld (applied fs (disk w)) (io_faults w) (io_count w + length fs).

(** The operations before the [k]-th, and what is left of that one. *)
Definition cut (fs : list FileOp) (k : nat) (x : IoFault) (d : Disk) : Disk :=
  from_option (fun o => part o (written x)) id (fs !! k) (applied (take k fs) d).

(** Undisturbed, [m] performs the operations [fs] and ends with [r]; interrupted
    at one of them, it has performed those before and a part of that one. *)
Definition performs {A} (env : Env) (c : Ctr) (m : FM A) (fs : list FileOp) (r : Res Exit A) (c' : Ctr) : Prop :=
  forall w, (quiet w (length fs) -> m env w c = (r, after fs w, c')) /\
    forall k x, (k < length fs)%nat -> quiet w k -> io_faults w (io_count w + k) = Some x ->
      exists c2, m env w c = (Err (exit_of x), mkWorld (cut fs k x (disk w)) (io_faults w) (io_count w + S k), c2).

Lemma performs_none {A} env c (m : FM A) r c' : (forall w, m env w c = (r, w, c')) -> performs env c m [] r c'.
Proof.
  intros H w. split; [|intros k x Hk; simpl in Hk; lia]. intros _. rewrite H. unfold after. simpl. rewrite Nat.add_0_r. by destruct w.
Qed.

Lemma performs_op env c o : performs env c (perform o) [o] (Ok tt) c.
Proof.
  intros w. unfold perform, bind, get, put. split.
  - intros Hq. assert (E : io_faults w (io_count w) = None) by (rewrite <- (Nat.add_0_r (io_count w)); apply Hq; simpl; lia).
    rewrite E. unfold modify, after, set_disk. simpl.
    by rewrite Nat.add_1_r.
  - intros k x Hk _ Hf. simpl in Hk. replace k with 0%nat in * by lia. rewrite Nat.add_0_r in Hf. rewrite Hf. unfold res. simpl.
    exists c. by rewrite Nat.add_1_r.
Qed.

Lemma cut_app fs1 fs2 k x d : cut (fs1 ++ fs2) k x d =
  if decide (k < length fs1)%nat then cut fs1 k x d else cut fs2 (k - length fs1) x (applied fs1 d).
Proof.
  unfold cut, applied. destruct (decide _) as [Hl|Hl].
  - by rewrite lookup_app_l, take_app_le by lia.
  - by rewrite lookup_app_r, take_app_ge, fold_left_app by lia.
Qed.

Lemma performs_bind {A B} env c (m : FM A) (k : A -> FM B) fs1 fs2 a r c1 c2 :
  performs env c m fs1 (Ok a) c1 -> performs env c1 (k a) fs2 r c2 -> performs env c (bind m k) (fs1 ++ fs2) r c2.
Proof.
  intros H1 H2 w. destruct (H1 w) as [Hq1 Hk1]. split.
  - intros Hq. rewrite length_app in Hq. unfold bind. rewrite Hq1 by (intros j Hj; apply Hq; lia).
    destruct (H2 (after fs1 w)) as [Hq2 _]. rewrite Hq2.
    + unfold after, applied. simpl. by rewrite fold_left_app, length_app, Nat.add_assoc.
    + intros j Hj. simpl. rewrite <- Nat.add_assoc. apply Hq. lia.
  - intros n x Hn Hq Hf. rewrite length_app in Hn. rewrite cut_app. destruct (decide (n < length fs1)%nat) as [Hl|Hl].
    + destruct (Hk1 n x Hl Hq Hf) as [c3 E]. exists c3. unfold bind. by rewrite E.
    + unfold bind. rewrite Hq1 by (intros j Hj; apply Hq; lia). destruct (H2 (after fs1 w)) as [_ Hk2].
      destruct (Hk2 (n - length fs1)%nat x) as [c3 E].
      * lia.
      * intros j Hj. simpl. rewrite <- Nat.add_assoc. apply Hq. lia.
      * simpl. rewrite <- Nat.add_assoc. rewrite <- Hf. do 2 f_equal. lia.
      * exists c3. rewrite E. cbn [disk io_faults io_count after]. do 3 f_equal. lia.
Qed.

Lemma performs_pure {A B} env c (m : FM A) (k : A -> FM B) fs a r c1 c2 :
  (forall w, m env w c = (Ok a, w, c1)) -> performs env c1 (k a) fs r c2 -> performs env c (bind m k) fs r c2.
Proof. intros H1 H2. eapply (performs_bind _ _ _ _ [] fs); [apply performs_none; exact H1 | exact H2]. Qed.

(** Acquiring a free lock at once. *)
Definition prompt (env : Env) (c : Ctr) : Prop :=
  (e_instant env (S (c_instant c)) - e_instant env (c_instant c)) / NANOS < 30.

Lemma lock_loop_free fuel start env w c : disk w Lock = None -> (e_instant env (c_instant c) - start) / NANOS < 30 ->
  lock_loop (S fuel) start env w c = create Lock env w (mkCtr (c_clock c) (S (c_instant c)) (c_os c)).
Proof.
  intros Hl Hp. cbn [lock_loop]. unfold bind at 1, lift, read_instant. destruct (Z.ltb_spec ((e_instant env (c_instant c) - start) / NANOS) 30); [|lia].
  unfold bind, get. by rewrite Hl.
Qed.





(** A body under a lock that is free.  Only a killed process leaves the lock. *)
Definition unlocked (x : IoFault) (d : Disk) : Disk :=
  match x with IoFails _ => set_file Lock None d | IoKilled _ => d end.

Lemma with_lock_run {A} (body : FM A) env w c fs r c' :
  disk w Lock = None -> prompt env c ->
  performs env (mkCtr (c_clock c) (S (S (c_instant c))) (c_os c)) body fs r c' -> r <> Err Killed ->
  let fs' := atomic (set_file Lock (Some [])) :: fs in
  (quiet w (length fs') -> with_lock body env w c =
     (r, mkWorld (set_file Lock None (applied fs' (disk w))) (io_faults w) (io_count w + length fs'), c')) /\
  forall k x, (k < length fs')%nat -> quiet w k -> io_faults w (io_count w + k) = Some x ->
    exists c2 w2, with_lock body env w c = (Err (exit_of x), w2, c2) /\
      forall f, disk w2 f = unlocked x (cut fs' k x (disk w)) f.
Proof.
  intros Hl Hp Hb Hr fs'. unfold with_lock, acquire_lock. unfold bind, lift, read_instant. change LOCK_POLLS with (S 600).
  rewrite lock_loop_free by (done || exact Hp). cbn [c_clock c_instant c_os]. set (c0 := mkCtr _ _ _) in *. unfold create, io.
  set (lock := atomic (set_file Lock (Some []))) in *. destruct (performs_op env c0 lock w) as [Hq Hk]. split.
  - intros Hqw. rewrite Hq by (intros j Hj; apply Hqw; simpl in *; lia).
    destruct (Hb (after [lock] w)) as [Hb1 _]. rewrite Hb1.
    + unfold after, applied, set_disk. simpl. replace (io_count w + 1 + length fs)%nat with (io_count w + S (length fs))%nat by lia.
      destruct r as [a|[e|]|]; done.
    + intros j Hj. simpl. replace (io_count w + 1 + j)%nat with (io_count w + S j)%nat by lia. apply Hqw. simpl. lia.
  - intros k x Hkl Hqk Hf. destruct k as [|k].
    + destruct (Hk 0%nat x) as [c2 ->]; [simpl; lia | done | done|]. eexists c2, _. split; [reflexivity|].
      intros f. destruct x; cbn; [|done]. unfold set_file. destruct (decide (f = Lock)) as [->|]; done.
    + rewrite Hq by (intros j Hj; apply Hqk; simpl in *; lia).
      destruct (Hb (after [lock] w)) as [_ Hb2]. destruct (Hb2 k x) as [c2 E].
      * simpl in Hkl. lia.
      * intros j Hj. simpl. replace (io_count w + 1 + j)%nat with (io_count w + S j)%nat by lia. apply Hqk. lia.
      * simpl. by replace (io_count w + 1 + k)%nat with (io_count w + S k)%nat by lia.
      * rewrite E. destruct x; eexists c2, _; (split; [reflexivity | done]).
Qed.

(** ** Saving and loading *)

Section StorageProperties.
Context {P : Primitives} {L : PrimitiveLaws P}.
Context {PC : PayloadCodec} {PL : PayloadCodecLaws PC} {MC : Codec StorageManifest} {ML : CodecLaws MC wf_manifest}.

(** The operations of a save. *)
Definition blob_bytes (salt encrypted : bytes) : bytes := MAGIC ++ salt ++ encrypted.

Definition save_ops (salt encrypted manifest : bytes) : list FileOp :=
  [atomic (set_file Tmp (Some [])); appending Tmp MAGIC; appending Tmp salt; appending Tmp encrypted; atomic (fun d => d);
   atomic (set_file Manifest (Some [])); appending Manifest manifest;
   atomic (fun d => set_file Tmp None (set_file Blob (d Tmp) d))].

(** What a context to be saved needs: a usable key, an encoding of the payload
    that is not too long, a 64-bit sequence number. *)
Definition savable (key : bytes) (payload : Z -> StoragePayload) (seq : Z) : Prop :=
  CryptoHandler_new key = Ok (mkCryptoHandler key) /\ is_u64 seq /\
  forall now, is_u64 now -> exists b, payload_encode (payload now) = Some b /\ len b <= MAX_PLAINTEXT_LENGTH.

Definition payload_at ks sessions cfg groups seq dev (now : Z) : StoragePayload :=
  mkStoragePayload STORAGE_VERSION seq ks sessions cfg groups now dev.

(** The clock fits 64 bits. *)
Definition clock_u64 (env : Env) : Prop := forall i ns, e_clock env i = Some ns -> is_u64 (ns / NANOS).

(** Two files hold a payload. *)
Definition holds (key salt : bytes) (p : StoragePayload) (manifest blob : bytes) : Prop :=
  open_store key manifest blob = Ok (payload_image p, salt) /\ exists m, decode (A := StorageManifest) manifest = Some m.

Lemma read_blob_bytes salt encrypted : length salt = 32%nat -> read_blob (blob_bytes salt encrypted) = Ok (salt, encrypted).
Proof.
  intros Hs. unfold read_blob, blob_bytes. set (rest := salt ++ encrypted).
  assert (Hx : forall p q n, length p = n -> read_exact n (p ++ q) = Ok (p, q)).
  { intros p q n <-. unfold read_exact. rewrite length_app. destruct (Nat.leb_spec (length p) (length p + length q)); [|lia].
    by rewrite take_app_length, drop_app_length. }
  rewrite (Hx MAGIC rest 8%nat eq_refl). cbn [res_bind]. rewrite bool_decide_eq_true_2 by done. cbn [negb]. by apply Hx.
Qed.

Lemma make_manifest_wf key seq encrypted : is_u64 seq -> wf_manifest (make_manifest key STORAGE_VERSION seq encrypted).
Proof.
  intros Hs. unfold make_manifest. split; [unfold STORAGE_VERSION, in_u, U32_MAX; cbn; lia|].
  split; [done|]. split; [apply sha256_len | apply hmac_len].
Qed.

Lemma check_own_manifest key seq encrypted : check_manifest key (make_manifest key STORAGE_VERSION seq encrypted) encrypted = Ok tt.
Proof.
  unfold check_manifest, make_manifest. cbn [manifest_mac sm_version sm_sequence_number blob_hash].
  by rewrite (proj2 (ct_eq_true _ _) eq_refl), bool_decide_eq_true_2.
Qed.

Lemma save_body_performs key salt ks sessions cfg groups seq dev env c :
  savable key (payload_at ks sessions cfg groups seq dev) seq -> length salt = 32%nat -> rng_healthy env -> clock_u64 env ->
  exists now encrypted manifest c', 
    performs env c (save_body key salt ks sessions cfg groups seq dev) (save_ops salt encrypted manifest) (Ok tt) c' /\
    encode (make_manifest key STORAGE_VERSION seq encrypted) = Some manifest /\
    holds key salt (payload_at ks sessions cfg groups seq dev now) manifest (blob_bytes salt encrypted).
Proof.
  intros (Hk & Hseq & Hp) Hs Hr Hcu. set (now := from_option (fun ns => ns / NANOS) (U64_MAX / 2) (e_clock env (c_clock c))).
  set (c1 := mkCtr (S (c_clock c)) (c_instant c) (c_os c)). destruct (Hp now) as (plain & Ep & Hl).
  { unfold now. destruct (e_clock env (c_clock c)) as [ns|] eqn:Ec; [by apply (Hcu _ _ Ec)|]. split; vm_compute; discriminate. }
  destruct (handler_encrypt_ok (mkCryptoHandler key) plain (bstr "SibnaUnifiedStore_v1") env c1 Hr Hl)
    as (nonce & ct & c2 & Ee & Hn & Ea & Hc); [vm_compute; discriminate|].
  destruct (codec_roundtrip (C := MC) _ (make_manifest_wf key seq (nonce ++ ct) Hseq)) as (mb & Em & Dm).
  exists now, (nonce ++ ct), mb, c2. split; [|split; [done|split; [|by eexists]]].
  - unfold save_body. eapply performs_pure; [by intros w|]. fold now. change (mkStoragePayload _ _ _ _ _ _ now _)
      with (payload_at ks sessions cfg groups seq dev now). rewrite Ep. cbn [ok_or].
    eapply performs_pure; [by intros w|]. rewrite Hk. cbn [map_err]. eapply performs_pure; [by intros w|].
    eapply performs_pure; [intros w; unfold lift, io_map_err; fold c1; by rewrite Ee|].
    do 5 (eapply (performs_bind _ _ _ _ [_]); [apply performs_op|]). rewrite Em.
    eapply performs_pure; [by intros w|]. do 2 (eapply (performs_bind _ _ _ _ [_]); [apply performs_op|]). apply performs_op.
  - unfold open_store. rewrite Dm. cbn [ok_or res_bind]. rewrite read_blob_bytes by done. cbn [res_bind]. rewrite Hk.
    cbn [map_err res_bind]. rewrite check_own_manifest. cbn [res_bind].
    rewrite (handler_decrypt_ok (mkCryptoHandler key) nonce ct plain _ Hn Ea Hc Hl). cbn [map_err res_bind].
    rewrite (payload_roundtrip _ _ Ep). cbn [ok_or res_bind payload_image payload_at sp_sequence_number make_manifest sm_sequence_number].
    by rewrite Z.ltb_irrefl.
Qed.

(** The sessions of a loaded store: as [serde] kept them, the sending chain
    moved on to its reservation. *)
Lemma jump_run st env c : exists st' c', run_on jump_to_reservation st env c = (Ok (tt, st'), c') /\
  root_key st' = root_key st /\ receiving_chain st' = receiving_chain st /\
  skipped_message_keys st' = skipped_message_keys st /\ dh_local st' = dh_local st /\ dh_remote st' = dh_remote st.
Proof.
  unfold run_on, jump_to_reservation, bind at 1, get. destruct (sending_chain st) as [ck|]; [|by eexists _, _].
  destruct (ck_index ck <? ck_reserved_until ck); [|by eexists _, _]. unfold bind, modify, touch, bind, get, lift, modify.
  destruct (current_timestamp_or_run (E := ProtocolError.t) (last_activity (set_sending_chain (Some (mkChainKey (ck_key ck)
    (ck_reserved_until ck) (ck_created_at ck) (ck_max_messages ck) (ck_reserved_until ck))) st)) env c) as (t & c' & ->).
  by eexists _, _.
Qed.

Definition jumped (x y : DoubleRatchetSession) : Prop :=
  root_key (state y) = root_key (state x) /\ receiving_chain (state y) = receiving_chain (state x) /\
  skipped_message_keys (state y) = skipped_message_keys (state x) /\ dh_local (state y) = dh_local (state x) /\
  dh_remote (state y) = dh_remote (state x) /\ session_id y = session_id x /\ peer_id y = peer_id x.

Lemma jump_all_run l env : forall c, exists l' c', jump_all l env c = (Ok l', c') /\
  Forall2 (fun a b => a.1 = b.1 /\ jumped a.2 b.2) l l'.
Proof.
  induction l as [|[k x] l IH]; intros c; cbn [jump_all]; [by exists [], c|].
  destruct (jump_run (state x) env c) as (st & c1 & E1 & H1). unfold io_bind at 1, io_map_err. rewrite E1. cbn [map_err].
  destruct (IH c1) as (l' & c2 & E2 & H2). unfold io_bind. rewrite E2. eexists _, _. split; [reflexivity|].
  constructor; [|done]. split; [done|]. unfold jumped. cbn [state session_id peer_id snd]. tauto.
Qed.

Lemma jumped_lookup (m : gmap bytes DoubleRatchetSession) l' :
  Forall2 (fun a b => a.1 = b.1 /\ jumped a.2 b.2) (map_to_list m) l' ->
  forall id, match m !! id, (list_to_map l' : gmap bytes DoubleRatchetSession) !! id with
             | Some x, Some y => jumped x y
             | None, None => True
             | _, _ => False
             end.
Proof.
  intros H id. replace (m !! id) with ((list_to_map (map_to_list m) : gmap bytes DoubleRatchetSession) !! id)
    by (by rewrite list_to_map_to_list). revert H. generalize (map_to_list m) as l. intros l H.
  induction H as [|[k x] [k' y] l l' [Hk Hj] _ IH]; [done|]. cbn [fst snd] in *. subst k'. cbn.
  destruct (decide (k = id)) as [->|Hne]; [by rewrite !lookup_insert_eq | by rewrite !lookup_insert_ne].
Qed.

(** What a load returns for a stored payload. *)
Definition restored (p q : StoragePayload) : Prop :=
  sp_version q = sp_version p /\ sp_sequence_number q = sp_sequence_number p /\
  sp_keystore q = persistent (sp_keystore p) /\ sp_config q = sp_config p /\ sp_groups q = sp_groups p /\
  sp_device_id q = sp_device_id p /\
  forall id, match sp_sessions p !! id, sp_sessions q !! id with
             | Some x, Some y => jumped (session_image x) y
             | None, None => True
             | _, _ => False
             end.

Definition undisturbed (w : World) : Prop := forall n, io_faults w n = None.

Lemma perform_quiet o env w c : undisturbed w ->
  perform o env w c = (Ok tt, mkWorld (whole o (disk w)) (io_faults w) (S (io_count w)), c).
Proof. intros Hu. unfold perform, bind, get, put. by rewrite Hu. Qed.

(** Reading two files, whatever else the disk holds. *)
Lemma load_holds key salt p manifest blob env w c :
  holds key salt p manifest blob -> disk w Manifest = Some manifest -> disk w Blob = Some blob -> disk w Lock = None ->
  undisturbed w -> prompt env c ->
  exists q w' c', load_context key env w c = (Ok (q, salt), w', c') /\ restored p q /\ disk w' Lock = None /\
    disk w' Manifest = Some manifest /\ disk w' Blob = Some blob.
Proof.
  intros [Ho [m Dm]] Hm Hb Hl Hu Hp. unfold load_context, with_lock, acquire_lock. unfold bind, lift, read_instant.
  change LOCK_POLLS with (S 600). rewrite lock_loop_free by (done || exact Hp). cbn [c_clock c_instant c_os]. set (c0 := mkCtr _ _ _).
  unfold create, io. rewrite perform_quiet by done. cbn [whole atomic]. set (w1 := mkWorld _ _ _). unfold load_body. unfold bind at 1, get.
  change (disk w1 Manifest) with (disk w Manifest). rewrite Hm. unfold bind at 1, read_file, io. unfold bind at 1. rewrite perform_quiet by done.
  unfold bind at 1, get, or_fail, res. cbn [disk w1 whole atomic]. change (set_file Lock (Some []) (disk w) Manifest) with (disk w Manifest).
  rewrite Hm. cbn [ok_or map_err]. rewrite Dm. unfold bind at 1. cbn [ok_or map_err]. unfold bind at 1. unfold bind at 1.
  rewrite perform_quiet by done. unfold bind at 1. cbn [disk whole atomic]. change (set_file Lock (Some []) (disk w) Blob) with (disk w Blob).
  rewrite Hb. cbn [ok_or map_err]. rewrite Ho. unfold bind at 1. cbn [map_err].
  destruct (jump_all_run (map_to_list (sp_sessions (payload_image p))) env c0) as (l' & c2 & Ej & Hj).
  unfold bind, lift. rewrite Ej. unfold ret. eexists _, _, c2. split; [reflexivity|].
  split; [|split; [done | split; [exact Hm | exact Hb]]].
  repeat (split; [done|]). intros id. cbn [sp_sessions set_payload_sessions]. pose proof (jumped_lookup _ _ Hj id) as H.
  cbn [payload_image sp_sessions] in H. rewrite lookup_fmap in H. by destruct (sp_sessions p !! id).
Qed.

Lemma applied_save salt encrypted manifest d :
  let d' := applied (save_ops salt encrypted manifest) d in
  d' Blob = Some (blob_bytes salt encrypted) /\ d' Manifest = Some manifest /\ d' Lock = d Lock.
Proof. split; [reflexivity | by split]. Qed.

Lemma save_run key salt ks sessions cfg groups seq dev env w c :
  savable key (payload_at ks sessions cfg groups seq dev) seq -> length salt = 32%nat -> rng_healthy env -> clock_u64 env ->
  disk w Lock = None -> undisturbed w -> prompt env c ->
  exists now w' c' manifest blob, save_context key salt ks sessions cfg groups seq dev env w c = (Ok tt, w', c') /\
    holds key salt (payload_at ks sessions cfg groups seq dev now) manifest (blob_bytes salt blob) /\
    disk w' Manifest = Some manifest /\ disk w' Blob = Some (blob_bytes salt blob) /\ disk w' Lock = None /\ undisturbed w'.
Proof.
  intros Hs Hsalt Hr Hcu Hl Hu Hp. unfold save_context.
  destruct (save_body_performs key salt ks sessions cfg groups seq dev env (mkCtr (c_clock c) (S (S (c_instant c))) (c_os c))
    Hs Hsalt Hr Hcu) as (now & enc & mb & c' & Hb & _ & Hh).
  destruct (with_lock_run _ env w c _ _ _ Hl Hp Hb) as [Hrun _]; [done|]. rewrite Hrun by (by intros j _).
  destruct (applied_save salt enc mb (set_file Lock (Some []) (disk w))) as (H1 & H2 & _).
  eexists now, _, c', mb, enc. split; [reflexivity|]. split; [done|].
  split; [exact H2|]. split; [exact H1|]. done.
Qed.

(** The table and the cells of restored sessions. *)
Lemma restore_lookup (l : list (bytes * DoubleRatchetSession)) id : forall k,
  match (list_to_map l : gmap bytes DoubleRatchetSession) !! id with
  | Some x => exists i, (list_to_map (zip (l.*1) (seq k (length l))) : gmap bytes nat) !! id = Some (k + i)%nat /\ l.*2 !! i = Some x
  | None => (list_to_map (zip (l.*1) (seq k (length l))) : gmap bytes nat) !! id = None
  end.
Proof.
  induction l as [|[key x] l IH]; intros k; [done|]. cbn. destruct (decide (key = id)) as [->|Hne].
  - rewrite !lookup_insert_eq. exists 0%nat. by rewrite Nat.add_0_r.
  - rewrite !lookup_insert_ne by done. specialize (IH (S k)). destruct (_ !! id) as [y|]; [|done].
    destruct IH as (i & Hi & Hl). exists (S i). by rewrite Nat.add_succ_r.
Qed.

Lemma restored_sessions m s : sessions (ctx_sessions s) = fst (restore_sessions m) -> arcs s = snd (restore_sessions m) ->
  session_map s = m.
Proof.
  intros H1 H2. apply map_eq. intros id. unfold session_map. rewrite lookup_omap, H1, H2. unfold restore_sessions. cbn [fst snd].
  pose proof (restore_lookup (map_to_list m) id 0) as H. rewrite list_to_map_to_list in H.
  destruct (m !! id) as [x|]; [destruct H as (i & -> & ?) | rewrite H]; done.
Qed.

(** A context loaded in place of [ctx]. *)
Definition resumes (ctx ctx' : SecureContext) : Prop :=
  sequence_number ctx' = sequence_number ctx + 1 /\ ctx_device_id ctx' = ctx_device_id ctx /\
  storage_key ctx' = storage_key ctx /\ storage_salt ctx' = storage_salt ctx /\ ctx_groups ctx' = ctx_groups ctx /\
  ctx_keystore ctx' = persistent (ctx_keystore ctx) /\ ctx_config ctx' = sm_config (ctx_sessions ctx) /\
  forall id, match session_map ctx !! id, session_map ctx' !! id with
             | Some x, Some y => jumped (session_image x) y
             | None, None => True
             | _, _ => False
             end.

Lemma load_context_resumes password ctx now manifest blob env w c :
  storage_kdf password (storage_salt ctx) = Ok (storage_key ctx) ->
  holds (storage_key ctx) (storage_salt ctx) (payload_at (ctx_keystore ctx) (session_map ctx) (sm_config (ctx_sessions ctx))
    (ctx_groups ctx) (sequence_number ctx + 1) (ctx_device_id ctx) now) manifest (blob_bytes (storage_salt ctx) blob) ->
  length (storage_salt ctx) = 32%nat ->
  disk w Manifest = Some manifest -> disk w Blob = Some (blob_bytes (storage_salt ctx) blob) -> disk w Lock = None ->
  undisturbed w -> rng_healthy env -> prompt env c ->
  exists ctx' w' c', load_from_disk password env w c = (Ok ctx', w', c') /\ resumes ctx ctx' /\ disk w' Lock = None.
Proof.
  intros Hk Hh Hsalt Hm Hb Hl Hu Hr Hp. pose proof (read_blob_bytes (storage_salt ctx) blob Hsalt) as Hrb. unfold read_blob in Hrb.
  unfold load_from_disk. unfold bind at 1, read_file. unfold bind at 1, io. rewrite perform_quiet by done.
  unfold bind at 1, get. cbn [disk whole atomic]. rewrite Hb. unfold or_fail at 1, res. cbn [ok_or map_err].
  destruct (read_exact 8 (blob_bytes (storage_salt ctx) blob)) as [[magic rest]|e|]; try done. cbn [res_bind] in Hrb.
  destruct (negb _); [done|]. unfold bind at 1, or_fail, res. cbn [map_err]. unfold bind at 1. rewrite Hrb. cbn [map_err].
  unfold bind at 1. rewrite Hk. cbn [map_err]. set (w0 := mkWorld _ _ _).
  destruct (load_holds _ _ _ manifest _ env w0 c Hh) as (q & w1 & c1 & E & Hq & Hl1 & _); try done.
  unfold bind at 1. rewrite E. destruct (restore_sessions (sp_sessions q)) as [ids xs] eqn:Ers. unfold bind at 1, lift, io_map_err.
  destruct (SecureRandom_new_ok env c1 Hr) as (rng & c2 & ->). cbn [map_err]. unfold bind, RateLimiter_new, io_bind, read_instant, io_ret, ret.
  eexists _, w1, _. split; [reflexivity|]. split; [|done]. destruct Hq as (_ & Hsq & Hks & Hcf & Hg & Hd & Hs).
  repeat (split; [done|]). intros id. specialize (Hs id).
  match goal with |- context [session_map ?x] => lazymatch x with ctx => fail | _ => rewrite (restored_sessions (sp_sessions q) x) end end;
    [exact Hs | by rewrite Ers | by rewrite Ers].
Qed.

(** C26: a context survives a restart.  Take a context whose storage key comes
    from a password and is usable, whose payload can be encoded in at most 100
    MiB, and whose sequence number has not reached its maximum.  Saved to an
    unlocked store on a working disk (the lock being tried within 30 seconds),
    with a healthy random source and a clock of 64 bits, it is saved and the
    lock released.  Whenever later the same manifest and blob are loaded with
    the password, on a working disk and with no lock file present, whatever
    happened to the remaining files, the load returns the context: the device
    id, the keys of the store and the groups unchanged, the sequence number of
    that save, the key store without the Diffie-Hellman secrets [serde] skips,
    and exactly the saved sessions, each with its root key, its receiving chain
    and its skipped keys; and the lock is released. *)
Theorem context_survives_restart password ctx env w c :
  storage_kdf password (storage_salt ctx) = Ok (storage_key ctx) -> length (storage_salt ctx) = 32%nat ->
  0 <= sequence_number ctx < U64_MAX ->
  savable (storage_key ctx) (payload_at (ctx_keystore ctx) (session_map ctx) (sm_config (ctx_sessions ctx)) (ctx_groups ctx)
    (sequence_number ctx + 1) (ctx_device_id ctx)) (sequence_number ctx + 1) ->
  rng_healthy env -> clock_u64 env -> disk w Lock = None -> undisturbed w -> prompt env c ->
  exists w1 c1, save_to_disk env (w, ctx) c = (Ok tt, (w1, set_sequence (sequence_number ctx + 1) ctx), c1) /\ disk w1 Lock = None /\
    forall env2 w2 c2, disk w2 Manifest = disk w1 Manifest -> disk w2 Blob = disk w1 Blob -> disk w2 Lock = None ->
      undisturbed w2 -> rng_healthy env2 -> prompt env2 c2 ->
      exists ctx' w3 c3, load_from_disk password env2 w2 c2 = (Ok ctx', w3, c3) /\ resumes ctx ctx' /\ disk w3 Lock = None.
Proof.
  intros Hk Hsalt Hsq Hs Hr Hcu Hl Hu Hp.
  destruct (save_run _ _ _ _ _ _ _ _ env w c Hs Hsalt Hr Hcu Hl Hu Hp) as (now & w1 & c1 & mb & b & E & Hh & Hm & Hb & Hl1 & _).
  exists w1, c1. split; [|split; [done|]].
  - unfold save_to_disk. unfold bind at 1, get. unfold bind at 1, put. unfold u_add.
    destruct (Z.leb_spec (sequence_number ctx + 1) U64_MAX); [|lia]. unfold bind at 1, res, or_panic. unfold zoom. cbn [fst snd].
    rewrite E, Z.mod_small by lia. done.
  - intros env2 w2 c2 Em Eb Hl2 Hu2 Hr2 Hp2. rewrite Hm in Em. rewrite Hb in Eb.
    eapply load_context_resumes; eauto.
Qed.

(** An older store is accepted.  After a save the two files can be kept,
    and put back over those of a later save with a higher sequence number: the
    load succeeds and returns the older state, sequence number included.  The
    manifest is authenticated, but nothing outside the two files says which
    sequence number is the last. *)
Theorem rollback_is_accepted key salt ks sessions cfg groups seq dev env w c ks2 sessions2 groups2 seq2 env2 c2 env3 c3 :
  savable key (payload_at ks sessions cfg groups seq dev) seq -> savable key (payload_at ks2 sessions2 cfg groups2 seq2 dev) seq2 ->
  length salt = 32%nat -> rng_healthy env -> clock_u64 env -> rng_healthy env2 -> clock_u64 env2 -> disk w Lock = None -> undisturbed w ->
  prompt env c -> prompt env2 c2 -> prompt env3 c3 -> seq < seq2 ->
  exists w1 c1 w2 c4, save_context key salt ks sessions cfg groups seq dev env w c = (Ok tt, w1, c1) /\
    save_context key salt ks2 sessions2 cfg groups2 seq2 dev env2 w1 c2 = (Ok tt, w2, c4) /\
    let w3 := set_disk (set_file Manifest (disk w1 Manifest) (set_file Blob (disk w1 Blob) (disk w2))) w2 in
    exists q w4 c5, load_context key env3 w3 c3 = (Ok (q, salt), w4, c5) /\ sp_sequence_number q = seq.
Proof.
  intros Hs Hs2 Hsalt Hr Hcu Hr2 Hcu2 Hl Hu Hp Hp2 Hp3 Hlt.
  destruct (save_run key salt ks sessions cfg groups seq dev env w c) as (now & w1 & c1 & mb & b & E & Hh & Hm & Hb & Hl1 & Hu1); try done.
  destruct (save_run key salt ks2 sessions2 cfg groups2 seq2 dev env2 w1 c2) as (now2 & w2 & c4 & mb2 & b2 & E2 & _ & _ & _ & Hl2 & Hu2); try done.
  exists w1, c1, w2, c4. split; [done|]. split; [done|]. intros w3.
  destruct (load_holds key salt _ mb _ env3 w3 c3 Hh) as (q & w4 & c5 & El & Hq & _); [exact Hm | exact Hb | exact Hl2 | exact Hu2 | exact Hp3 |].
  exists q, w4, c5. split; [done|]. apply Hq.
Qed.






End StorageProperties.

(** ** Loaded sessions *)

Section LoadedSessions.
Context {P : Primitives}.

(** No local Diffie-Hellman secret and no remote key, as [serde] leaves a session. *)
Definition keyless (s : DoubleRatchetState) : Prop := dh_local s = None.

Lemma skip_loop_keyless env fuel n : triple env keyless (skip_loop fuel n) (fun _ => True).
Proof.
  induction fuel as [|fuel IH]; cbn [skip_loop]; [apply triple_res|].
  apply triple_get. intros s Hs. apply (triple_bind _ _ _ _ (fun _ => True)); [apply triple_res|]. intros chain _.
  destruct (_ <? n); [|by apply triple_ret]. destruct (next_message_key chain) as [mk chain'].
  apply (triple_bind _ _ _ _ (fun _ => True)); [by apply triple_modify|]. intros _ _.
  do 3 (apply (triple_bind _ _ _ _ (fun _ => True)); [apply triple_res|]; intros ? _).
  apply triple_get. intros s2 Hs2. destruct (add_skipped_key _ _ _ s2) as [added s3] eqn:E.
  apply (triple_bind _ _ _ _ (fun _ => True)); [apply triple_put|].
  - unfold add_skipped_key in E. destruct (skipped_keys_full s2); by injection E as _ <-.
  - intros _ _. destruct added; [exact IH | apply triple_res].
Qed.

Lemma skip_keyless env n : triple env keyless (skip_message_keys n) (fun _ => True).
Proof.
  unfold skip_message_keys. apply triple_get. intros s Hs. destruct (receiving_chain s); [|by apply triple_ret].
  apply (triple_bind _ _ _ _ (fun _ => True)); [apply triple_res|]. intros lim _.
  destruct (_ <? n); [apply triple_res | apply skip_loop_keyless].
Qed.

Lemma dh_ratchet_keyless remote env s c : keyless s -> is_ok (fst (fst (dh_ratchet remote env s c))) = false.
Proof.
  intros Hs. unfold dh_ratchet, bind at 1, modify. unfold bind at 1, modify. unfold bind at 1, get. unfold bind at 1, res.
  match goal with |- context [ok_or (dh_local ?x)] => replace (dh_local x) with (None : option bytes) by (symmetry; exact Hs) end.
  done.
Qed.

Lemma trial_keyless m ad env s c : keyless s -> dh_remote s = None -> is_ok (fst (decrypt_trial m ad env s c)).1 = false.
Proof.
  intros Hs Hr. destruct (decrypt_trial m ad env s c) as [[[pt|e|] s'] c'] eqn:E; [|done|done]. exfalso.
  unfold decrypt_trial in E. inv_bind E. clear E. unfold ratchet_if_new in E0. unfold bind at 1, get in E0. rewrite Hr in E0.
  inv_bind E0. assert (Hk : keyless s1).
  { destruct (sending_chain s); unfold modify, ret in E; by injection E as _ <- _. }
  inv_bind E0. destruct (skip_keyless env (previous_chain_length (header m)) s1 c1 Hk) as [Hk2 _]. rewrite E1 in Hk2.
  pose proof (dh_ratchet_keyless (dh_public (header m)) env s2 c2 Hk2) as Hd. by rewrite E0 in Hd.
Qed.

(** A session loaded with its context is dead.  [load_context] restores
    sessions through [serde] alone, which keeps neither Diffie-Hellman key (only
    [deserialize_state] repairs them): such a session decrypts nothing but
    messages whose keys had been stored as skipped, and as long as its sending
    chain is not due for rotation it encrypts nothing either. *)
Theorem loaded_session_is_dead x y cfg env c :
  jumped (session_image x) y ->
  (forall msg ad pt s' c', decrypt cfg msg ad env (state y) c = (Ok pt, s', c') ->
     exists m, parse_message cfg (state y) msg = Ok m /\
       is_Some (skipped_message_keys (state y) !! (dh_public (header m), h_message_number (header m)))) /\
  (forall pt ad ck c1, sending_chain (state y) = Some ck -> needs_rotation (E := ProtocolError.t) ck env c = (Ok false, c1) ->
     is_ok (fst (fst (encrypt cfg pt ad env (state y) c))) = false).
Proof.
  intros (_ & _ & _ & Hl & Hr & _). cbn in Hl, Hr. split.
  - intros msg ad pt s' c'. unfold decrypt. destruct (_ <? _); [done|]. unfold bind at 1, get. intros H. inv_bind H.
    unfold res in E. destruct (parse_message cfg (state y) msg) as [m|e|] eqn:Ep; try done. injection E as <- <- <-. exists m.
    split; [done|]. apply bind_ok_inv in H as (u & s0 & c0 & E & H). destruct (skipped_message_keys (state y) !! _) as [mk|]; [by eexists|]. exfalso.
    apply bind_ok_inv in H as ([pt' st] & s1 & c2 & E1 & _). unfold lift, run_on in E1.
    assert (s0 = state y) as -> by (unfold lift in E; destruct (header_validate _ _ _) as [[]]; by injection E).
    pose proof (trial_keyless m ad env (state y) c0 Hl Hr) as Ht.
    by destruct (decrypt_trial m ad env (state y) c0) as [[[] ?] ?].
  - intros pt ad ck c1 Hc Hn. destruct (encrypt cfg pt ad env (state y) c) as [[[b|e|] s'] c'] eqn:H; [|done|done]. exfalso.
    unfold encrypt, seal_next in H. inv_bind H. unfold res in E. destruct (map_err _ _) as [[]|e|] in E; try done. injection E as <- <- <-.
    inv_bind H. unfold res in E. destruct (map_err _ _) as [[]|e|] in E; try done. injection E as <- <- <-.
    unfold bind at 1, get in H. unfold bind at 1, lift in H. rewrite Hc, Hn in H. unfold bind at 1, ret in H.
    unfold bind at 1, get in H. unfold bind at 1, res in H. rewrite Hl in H. done.
Qed.

End LoadedSessions.

(** ** Witnesses *)

Import Spelled.

#[local] Instance padding_mode_eq_dec : EqDecision PaddingMode.t.
Proof. solve_decision. Defined.
#[local] Instance config_eq_dec : EqDecision Config.
Proof. solve_decision. Defined.
#[local] Instance manifest_eq_dec : EqDecision StorageManifest.
Proof. solve_decision. Defined.
#[local] Instance manifest_countable : Countable StorageManifest.
Proof.
  refine (inj_countable' (fun m => (sm_version m, sm_sequence_number m, blob_hash m, manifest_mac m))
    (fun '(v, n, h, k) => mkStorageManifest v n h k) _). by intros [].
Defined.

Definition is_wf_manifest (m : StorageManifest) : bool :=
  (0 <=? sm_version m) && (sm_version m <=? U32_MAX) && (0 <=? sm_sequence_number m) && (sm_sequence_number m <=? U64_MAX)
  && (length (blob_hash m) =? 32)%nat && (length (manifest_mac m) =? 32)%nat.

Definition demo_manifests : Codec StorageManifest := spelled is_wf_manifest.

Lemma demo_manifests_laws : CodecLaws demo_manifests wf_manifest.
Proof.
  assert (Hw : forall m, wf_manifest m <-> is_wf_manifest m).
  { intros m. unfold wf_manifest, is_wf_manifest, in_u. rewrite Is_true_true, !andb_true_iff, !Z.leb_le, !Nat.eqb_eq. tauto. }
  destruct (spelled_laws is_wf_manifest) as [H1 H2]. split; [intros m Hm; by apply H1, Hw | intros b m Hb; by eapply Hw, H2].
Qed.

(** A codec for the empty context at any sequence number and time. *)
Definition empty_payload (seq now : Z) : StoragePayload :=
  payload_at KeyStore_new ∅ Config_default (GroupManager_new demo_key) seq (repeat x07 16) now.

Definition is_empty_payload (p : StoragePayload) : bool :=
  (sp_version p =? STORAGE_VERSION) && bool_decide (sp_keystore p = KeyStore_new) && (size (sp_sessions p) =? 0)%nat
  && bool_decide (sp_config p = Config_default) && (size (groups (sp_groups p)) =? 0)%nat
  && bool_decide (master_key (sp_groups p) = demo_key) && (max_groups (sp_groups p) =? DEFAULT_MAX_GROUPS)
  && bool_decide (sp_device_id p = repeat x07 16) && (0 <=? sp_sequence_number p) && (sp_sequence_number p <=? U64_MAX)
  && (0 <=? sp_last_save p) && (sp_last_save p <=? U64_MAX).

Definition demo_payloads : PayloadCodec := {|
  payload_encode p := if is_empty_payload p then Some (u64_le (sp_sequence_number p) ++ u64_le (sp_last_save p)) else None;
  payload_decode b := Some (payload_image (empty_payload (from_le (take 8 b)) (from_le (drop 8 b))))
|}.

Lemma is_empty_payload_eq p : is_empty_payload p = true ->
  p = empty_payload (sp_sequence_number p) (sp_last_save p) /\ is_u64 (sp_sequence_number p) /\ is_u64 (sp_last_save p).
Proof.
  unfold is_empty_payload. rewrite !andb_true_iff, !Z.leb_le, !Z.eqb_eq, !Nat.eqb_eq, !bool_decide_eq_true.
  intros (((((((((((H1 & H2) & H3) & H4) & H5) & H6) & H7) & H8) & H9) & H10) & H11) & H12). split; [|unfold in_u; lia].
  destruct p as [v n ks ss cf [g mk mg] ls dv]. cbn in *. apply map_size_empty_inv in H3, H5. by subst.
Qed.

Lemma demo_payloads_laws : PayloadCodecLaws demo_payloads.
Proof.
  split. intros p b. cbn [payload_encode payload_decode demo_payloads]. destruct (is_empty_payload p) eqn:E; [|done].
  apply is_empty_payload_eq in E as (Hp & Hs & Hn). intros Hb. apply (inj Some) in Hb as <-. set (n := u64_le (sp_sequence_number p)).
  assert (Hl : length n = 8%nat) by apply length_to_le. rewrite take_app_length', drop_app_length' by done. unfold n.
  rewrite !from_le_u64 by done. by rewrite <- Hp.
Qed.

(** A clock that advances 50 ms between readings. *)
Definition storage_env : Env := mkEnv (fun _ => Some (1700000000 * NANOS)) (fun i => 50000000 * Z.of_nat i) (fun _ => x01) 7.

Lemma storage_env_healthy : rng_healthy storage_env.
Proof. intros p. exists 20%nat. split; [lia | discriminate]. Qed.

Lemma storage_env_clock : clock_u64 storage_env.
Proof. intros i ns [= <-]. split; vm_compute; discriminate. Qed.


Lemma demo_savable key seq : CryptoHandler_new key = Ok (mkCryptoHandler key) -> is_u64 seq ->
  savable (PC := demo_payloads) key
    (payload_at KeyStore_new ∅ Config_default (GroupManager_new demo_key) seq (repeat x07 16)) seq.
Proof.
  intros Hk Hs. split; [exact Hk|]. split; [done|]. intros now Hn.
  assert (E : is_empty_payload (empty_payload seq now) = true).
  { unfold is_empty_payload. rewrite !andb_true_iff, !Z.leb_le, !bool_decide_eq_true. unfold in_u in *. cbn. repeat split; lia. }
  exists (u64_le seq ++ u64_le now). split.
  - cbn [payload_encode demo_payloads]. change (payload_at _ _ _ _ seq _ now) with (empty_payload seq now). by rewrite E.
  - rewrite len_app. unfold len. rewrite !length_to_le. vm_compute. discriminate.
Qed.

Definition empty_disk (faults : nat -> option IoFault) : World := mkWorld (fun _ => None) faults 0.

Definition demo_storage_key : bytes := match storage_kdf (P := toy) (bstr "hunter2") (zeros 32) with Ok k => k | _ => [] end.

Definition demo_saved_ctx : SecureContext :=
  mkContext KeyStore_new (mkSessionManager ∅ Config_default) [] (GroupManager_new demo_key) Config_default
    (mkSecureRandom (zeros 64) 0 1000000) demo_storage_key (zeros 32) (repeat x07 16) demo_limits 0 0.

Lemma context_survives_restart_witness :
  exists ctx' w1 c1 w3 c3,
    save_to_disk (P := toy) (PC := demo_payloads) (MC := demo_manifests) storage_env (empty_disk (fun _ => None), demo_saved_ctx) ctr0
      = (Ok tt, (w1, set_sequence 1 demo_saved_ctx), c1) /\
    load_from_disk (P := toy) (PC := demo_payloads) (MC := demo_manifests) (bstr "hunter2") storage_env
      (mkWorld (disk w1) (fun _ => None) 0) c1 = (Ok ctx', w3, c3) /\ sequence_number ctx' = 1.
Proof.
  destruct (context_survives_restart (P := toy) (L := toy_laws) (PC := demo_payloads) (PL := demo_payloads_laws) (MC := demo_manifests)
    (ML := demo_manifests_laws) (bstr "hunter2") demo_saved_ctx storage_env (empty_disk (fun _ => None)) ctr0)
    as (w1 & c1 & E1 & Hl & Hload);
    [vm_compute; reflexivity | reflexivity | cbn; split; [lia | vm_compute; reflexivity]
    | apply (demo_savable demo_storage_key 1); [vm_compute; reflexivity|]; split; vm_compute; discriminate
    | exact storage_env_healthy | exact storage_env_clock | reflexivity | by intros n | vm_compute; reflexivity |].
  destruct (Hload storage_env (mkWorld (disk w1) (fun _ => None) 0) c1) as (ctx' & w3 & c3 & E3 & Hq & _);
    [reflexivity | reflexivity | exact Hl | by intros n | exact storage_env_healthy | |].
  - unfold prompt, storage_env, NANOS. cbn [e_instant]. apply Z.div_lt_upper_bound; lia.
  - exists ctx', w1, c1, w3, c3. split; [exact E1|]. split; [exact E3|]. apply Hq.
Defined.

Lemma rollback_is_accepted_witness :
  exists w1 c1 w2 c4 q w4 c5,
    save_context (P := toy) (PC := demo_payloads) (MC := demo_manifests) demo_key (zeros 32) KeyStore_new ∅ Config_default
      (GroupManager_new demo_key) 1 (repeat x07 16) storage_env (empty_disk (fun _ => None)) ctr0 = (Ok tt, w1, c1) /\
    save_context (P := toy) (PC := demo_payloads) (MC := demo_manifests) demo_key (zeros 32) KeyStore_new ∅ Config_default
      (GroupManager_new demo_key) 2 (repeat x07 16) storage_env w1 ctr0 = (Ok tt, w2, c4) /\
    load_context (P := toy) (PC := demo_payloads) (MC := demo_manifests) demo_key storage_env
      (set_disk (set_file Manifest (disk w1 Manifest) (set_file Blob (disk w1 Blob) (disk w2))) w2) ctr0 = (Ok (q, zeros 32), w4, c5) /\
    sp_sequence_number q = 1.
Proof.
  destruct (rollback_is_accepted (P := toy) (L := toy_laws) (PC := demo_payloads) (PL := demo_payloads_laws) (MC := demo_manifests)
    (ML := demo_manifests_laws) demo_key (zeros 32) KeyStore_new ∅ Config_default (GroupManager_new demo_key) 1 (repeat x07 16)
    storage_env (empty_disk (fun _ => None)) ctr0 KeyStore_new ∅ (GroupManager_new demo_key) 2 storage_env ctr0 storage_env ctr0)
    as (w1 & c1 & w2 & c4 & E1 & E2 & q & w4 & c5 & E3 & Hq);
    [apply demo_savable; [reflexivity|]; split; vm_compute; discriminate | apply demo_savable; [reflexivity|]; split; vm_compute; discriminate | reflexivity
    | exact storage_env_healthy | exact storage_env_clock | exact storage_env_healthy | exact storage_env_clock | reflexivity
    | by intros n | vm_compute; reflexivity | vm_compute; reflexivity | vm_compute; reflexivity | lia |].
  exists w1, c1, w2, c4, q, w4, c5. split; [exact E1|]. split; [exact E2|]. split; [exact E3 | exact Hq].
Defined.


Lemma loaded_session_is_dead_witness :
  let st := match DoubleRatchetState_new (E := unit) demo_env1 ctr0 with (Ok s, _) => s | _ => mkState [] None None None [] None None ∅ 0 0 0 0 0 0 0 end in
  let x := mkSession st Config_default [] None 0 in
  jumped (session_image x) (session_image x) /\
  forall msg ad pt s' c', decrypt (P := toy) Config_default msg ad demo_env1 (state (session_image x)) ctr0 = (Ok pt, s', c') ->
    exists m, parse_message (P := toy) Config_default (state (session_image x)) msg = Ok m.
Proof.
  intros st x. assert (Hj : jumped (session_image x) (session_image x)) by (repeat split; reflexivity).
  split; [exact Hj|]. intros msg ad pt s' c' H.
  destruct (loaded_session_is_dead (P := toy) x (session_image x) Config_default demo_env1 ctr0 Hj) as [Hd _].
  destruct (Hd msg ad pt s' c' H) as (m & Hm & _). exists m. exact Hm.
Defined.
