(* ===== verification/Metadata.v ===== *)
(** * Metadata resistance ([core/src/metadata.rs])

    Padding of payloads and the signed envelope handed to a relay. *)

From S2P Require Import Prelude Effects Errors Primitives Text Random Padding Session Encryptor Server ServerAuth.
#[local] Open Scope Z_scope.
#[local] Open Scope sibna_scope.

Module PaddingError.
Inductive t := TooShort | InvalidPadding.
End PaddingError.

Module EnvelopeError.
Inductive t := MalformedSignature | MalformedSenderKey | InvalidSenderKey | SignatureInvalid | Expired.
End EnvelopeError.

Definition PADDING_BLOCK_SIZE : Z := PaddingMode.block_size PaddingMode.Standard.
Definition MAX_JITTER_MS : Z := 500.

Record SignedEnvelope := mkSignedEnvelope {
  se_recipient_id : bytes;
  se_payload_hex : bytes;
  se_sender_id : bytes;
  se_timestamp : Z;
  se_message_id : bytes;
  se_signature_hex : bytes;
  se_compressed : bool;
  se_is_dummy : bool
}.

Definition set_envelope_signature (sg : bytes) (e : SignedEnvelope) : SignedEnvelope :=
  mkSignedEnvelope (se_recipient_id e) (se_payload_hex e) (se_sender_id e) (se_timestamp e) (se_message_id e) sg
    (se_compressed e) (se_is_dummy e).

Section Metadata.
Context {P : Primitives}.

Definition pad_payload (payload : bytes) : IO PaddingError.t bytes :=
  io_map_err (fun _ => PaddingError.InvalidPadding) (pad_message payload PaddingMode.Standard).

Definition unpad_payload (padded : bytes) : Res PaddingError.t bytes :=
  map_err (fun _ => PaddingError.InvalidPadding) (unpad_message padded).

Definition round_up_to_block (n : Z) : Z :=
  if n =? 0 then PADDING_BLOCK_SIZE else (n + PADDING_BLOCK_SIZE - 1) / PADDING_BLOCK_SIZE * PADDING_BLOCK_SIZE.

(** [i64::to_le_bytes]. *)
Definition i64_le (z : Z) : bytes := u64_le (z mod 2 ^ 64).

(** What the hash runs over. *)
Definition signed_fields (e : SignedEnvelope) : bytes :=
  se_recipient_id e ++ se_payload_hex e ++ i64_le (se_timestamp e) ++ se_message_id e
  ++ [if se_is_dummy e then x01 else x00].

Definition signing_payload (e : SignedEnvelope) : bytes := sha512 (signed_fields e).

Definition envelope_verify (e : SignedEnvelope) : Res EnvelopeError.t unit :=
  let? sig_bytes := ok_or (hex_decode (se_signature_hex e)) EnvelopeError.MalformedSignature in
  let? key_bytes := ok_or (hex_decode (se_sender_id e)) EnvelopeError.MalformedSenderKey in
  if negb (len key_bytes =? 32) || negb (len sig_bytes =? 64) then Err EnvelopeError.MalformedSignature
  else if negb (ed25519_key_ok key_bytes) then Err EnvelopeError.InvalidSenderKey
  else if ed25519_verify key_bytes (signing_payload e) sig_bytes then Ok tt else Err EnvelopeError.SignatureInvalid.

(** [(now - self.timestamp).abs() > 300]; the difference of two [i64] may overflow. *)
Definition envelope_is_expired {E} (e : SignedEnvelope) : IO E bool :=
  let* t := read_secs in
  let* now := io_res (or_panic t) in
  let d := now - se_timestamp e in
  if (I64_MIN <? d) && (d <=? I64_MAX) then io_ret (300 <? Z.abs d) else io_res Panic.

End Metadata.

Section MetadataProperties.
Context {P : Primitives}.

(** Move the first [k] characters of the payload to the end of the recipient. *)
Definition shift_boundary (k : nat) (e : SignedEnvelope) : SignedEnvelope :=
  mkSignedEnvelope (se_recipient_id e ++ take k (se_payload_hex e)) (drop k (se_payload_hex e)) (se_sender_id e)
    (se_timestamp e) (se_message_id e) (se_signature_hex e) (se_compressed e) (se_is_dummy e).

Definition set_compressed (b : bool) (e : SignedEnvelope) : SignedEnvelope :=
  mkSignedEnvelope (se_recipient_id e) (se_payload_hex e) (se_sender_id e) (se_timestamp e) (se_message_id e)
    (se_signature_hex e) b (se_is_dummy e).

Lemma signed_fields_shift k e : signed_fields (shift_boundary k e) = signed_fields e.
Proof.
  unfold signed_fields, shift_boundary. cbn [se_recipient_id se_payload_hex se_timestamp se_message_id se_is_dummy].
  rewrite <- app_assoc. f_equal. rewrite (app_assoc (take k _) (drop k _)). by rewrite take_drop.
Qed.

(** What the envelope's signature does not protect.  The fields are hashed
    one after the other without their lengths, and the compression flag is not
    hashed: an envelope that verifies still verifies after any number of
    characters was moved from its payload to its recipient, and with the flag
    set to either value; and whoever signs an envelope with the key its sender
    field spells produces one that verifies. *)
Theorem envelope_signature_is_ambiguous {L : PrimitiveLaws P} e sk k b :
  (envelope_verify (set_compressed b (shift_boundary k e)) = envelope_verify e) /\
  (length sk = 32%nat -> se_sender_id e = hex_encode (ed25519_public sk) ->
   envelope_verify (set_envelope_signature (hex_encode (ed25519_sign sk (signing_payload e))) e) = Ok tt).
Proof.
  split.
  - unfold envelope_verify, signing_payload.
    change (signed_fields (set_compressed b (shift_boundary k e))) with (signed_fields (shift_boundary k e)).
    by rewrite signed_fields_shift.
  - intros Hl Hs. destruct (ed25519_public_ok sk Hl) as [Hk Hkl]. unfold envelope_verify.
    cbn [se_signature_hex se_sender_id set_envelope_signature]. rewrite Hs, !hex_decode_encode. cbn [ok_or res_bind].
    unfold len. rewrite Hkl, ed25519_sign_len, Hk. change (signing_payload (set_envelope_signature _ e)) with (signing_payload e).
    rewrite ed25519_correct by done. reflexivity.
Qed.

End MetadataProperties.

Lemma envelope_signature_is_ambiguous_witness :
  let e := mkSignedEnvelope (bstr "aabb") (bstr "ccdd") demo_login 1700000000 (bstr "m1") [] false false in
  envelope_verify (P := toy)
    (set_envelope_signature (hex_encode (ed25519_sign (Primitives := toy) demo_sk (signing_payload (P := toy) e))) e) = Ok tt.
Proof.
  intros e. refine (proj2 (envelope_signature_is_ambiguous (P := toy) (L := toy_laws) e demo_sk 0 false) _ _); reflexivity.
Defined.
