(* ===== verification/Router.v ===== *)
(** * The hybrid router ([core/src/manager.rs], [core/src/transport/relay.rs],
    [core/src/media/mod.rs])

    Direct delivery first, through the peer's session, the relay as a fallback;
    discovery, key rotation and cover traffic.  The network is a parameter:
    whether a write to a peer's stream succeeds and the answer to an HTTP
    request; so are the URL and serialisation crates. *)

From S2P Require Import Prelude Effects Process Errors Primitives Codec Text Kdf Handler Padding Chain Message RatchetState Session SessionInvariant SessionReceive SessionSend Encryptor RateLimit KeyStore Context P2pHandshake P2pNode Bundle Server ServerAuth ServerPrekeys ServerRelay ServerRun Metadata.
#[local] Open Scope Z_scope.
#[local] Open Scope sibna_scope.

(** ** Media payloads *)

Module MediaSignal.
Inductive t :=
| Offer (sdp : bytes)
| Answer (sdp : bytes)
| IceCandidate (candidate sdp_mid : bytes) (sdp_m_line_index : Z)
| Hangup.
End MediaSignal.

Inductive ProtocolPayload := Data (d : bytes) | WebRtcPayload (s : MediaSignal.t).

Section Payload.
Context {CP : Codec ProtocolPayload}.
Definition payload_to_bytes (p : ProtocolPayload) : PResult bytes := ok_or (encode p) ProtocolError.InvalidMessage.
Definition payload_from_bytes (data : bytes) : PResult ProtocolPayload := ok_or (decode data) ProtocolError.InvalidMessage.
End Payload.

(** ** The relay client *)

Record HttpRequest := mkHttpRequest {
  http_post : bool;
  http_server : bytes;
  http_path : bytes;
  http_authorization : option bytes;
  http_json : bool;
  http_body : bytes
}.

Record HttpAnswer := mkHttpAnswer { http_status : Z; http_text : option bytes }.

(** [reqwest], [url] and the direct transport. *)
Class Net := {
  url_parse : bytes -> option bytes;
  url_join : bytes -> bytes -> bool;
  url_scheme : bytes -> bytes;
  url_set_scheme : bytes -> bytes -> option bytes;
  url_set_path : bytes -> bytes -> bytes;
  client_build : option bytes -> bool;
  proxy_all : bytes -> bool;
  http : HttpRequest -> option HttpAnswer;
  stream_writes : string -> bool
}.

Record RelayClient := mkRelayClient { server_url : bytes; client_proxy : option bytes }.

Section Client.
Context {N : Net}.

Definition RelayClient_new (server_url : bytes) (proxy_url : option bytes) : PResult RelayClient :=
  let? server := ok_or (url_parse server_url) ProtocolError.InvalidMessage in
  let? _ := match proxy_url with
            | Some p => ensure (proxy_all p) ProtocolError.InternalError
            | None => Ok tt
            end in
  let? _ := ensure (client_build proxy_url) ProtocolError.InternalError in
  Ok (mkRelayClient server proxy_url).

(** [status().is_success()]. *)
Definition is_success (status : Z) : bool := (200 <=? status) && (status <? 300).

(** A request to a path of the server: [join], [send]. *)
Definition request (r : RelayClient) (post : bool) (path : bytes) (json : bool) (body : bytes) : PResult HttpAnswer :=
  let? _ := ensure (url_join (server_url r) path) ProtocolError.InvalidMessage in
  ok_or (http (mkHttpRequest post (server_url r) path None json body)) ProtocolError.InternalError.

Definition upload_prekey_bundle (r : RelayClient) (identity_key_hex bundle_json : bytes) : PResult unit :=
  let? a := request r true (bstr "/v1/prekeys/upload/" ++ identity_key_hex) false bundle_json in
  if is_success (http_status a) then Ok tt else Err ProtocolError.HandshakeFailed.

Definition fetch_prekey_bundle (r : RelayClient) (identity_key_hex : bytes) : PResult bytes :=
  let? a := request r false (bstr "/v1/prekeys/" ++ identity_key_hex) false [] in
  if is_success (http_status a) then ok_or (http_text a) ProtocolError.InternalError else Err ProtocolError.HandshakeFailed.

Definition websocket_url (r : RelayClient) (identity_key_hex : bytes) : PResult bytes :=
  let scheme := if bool_decide (url_scheme (server_url r) = bstr "https") then bstr "wss" else bstr "ws" in
  let? ws_url := ok_or (url_set_scheme (server_url r) scheme) ProtocolError.InvalidMessage in
  Ok (url_set_path ws_url (bstr "/ws/" ++ identity_key_hex)).

Definition send_envelope (r : RelayClient) (envelope_json : bytes) : PResult unit :=
  let? a := request r true (bstr "/v1/messages/send") true envelope_json in
  if is_success (http_status a) then Ok tt else Err ProtocolError.HandshakeFailed.

End Client.

(** ** The router *)

Definition MAX_ACTIVE_PEERS : Z := 500.
Definition MAX_MESSAGE_BYTES : Z := 10 * 1024 * 1024.

Record HybridRouter := mkRouter {
  r_ctx : SecureContext;
  r_p2p_node : option P2pNode;
  active_peers : gmap bytes Peer;
  cover_traffic_enabled : bool;
  relay_client : option RelayClient
}.

Definition set_ctx x r := mkRouter x (r_p2p_node r) (active_peers r) (cover_traffic_enabled r) (relay_client r).
Definition set_p2p_node x r := mkRouter (r_ctx r) (Some x) (active_peers r) (cover_traffic_enabled r) (relay_client r).
Definition set_active_peers x r := mkRouter (r_ctx r) (r_p2p_node r) x (cover_traffic_enabled r) (relay_client r).
Definition set_cover_traffic x r := mkRouter (r_ctx r) (r_p2p_node r) (active_peers r) x (relay_client r).
Definition set_relay_client x r := mkRouter (r_ctx r) (r_p2p_node r) (active_peers r) (cover_traffic_enabled r) (Some x).

Abbreviation RtM := (M HybridRouter ProtocolError.t).

(** A socket address. *)
Inductive IpAddr := V4 (a b c d : Z) | V6 (segments : list Z).
Record SocketAddr := mkSocketAddr { sa_ip : IpAddr; sa_port : Z }.

Definition is_loopback (ip : IpAddr) : bool :=
  match ip with V4 a _ _ _ => a =? 127 | V6 s => bool_decide (s = [0; 0; 0; 0; 0; 0; 0; 1]) end.
Definition is_multicast (ip : IpAddr) : bool :=
  match ip with
  | V4 a _ _ _ => (224 <=? a) && (a <=? 239)
  | V6 s => match s with x :: _ => Z.land x 65280 =? 65280 | [] => false end
  end.
Definition is_unspecified (ip : IpAddr) : bool :=
  match ip with V4 a b c d => (a =? 0) && (b =? 0) && (c =? 0) && (d =? 0) | V6 s => bool_decide (s = repeat 0 8) end.

Definition is_valid_peer_addr (addr : SocketAddr) : bool :=
  negb (is_loopback (sa_ip addr)) && negb (is_multicast (sa_ip addr)) && negb (is_unspecified (sa_ip addr))
  && negb (sa_port addr =? 0).

Section Router.
Context {P : Primitives} {N : Net} {CP : Codec ProtocolPayload} {CSE : Codec SignedEnvelope}.

Definition HybridRouter_new (ctx : SecureContext) : HybridRouter := mkRouter ctx None ∅ false None.

Definition init_relay_from_config : RtM unit :=
  let! r := get in
  let cfg := ctx_config (r_ctx r) in
  let! client := res (RelayClient_new (String.list_byte_of_string (relay_url cfg))
                        (option_map String.list_byte_of_string (proxy_url cfg))) in
  modify (set_relay_client client).

(** [chrono::Utc::now().timestamp()]. *)
Definition timestamp_now {S E} : M S E Z := let! t := lift read_secs in res (or_panic t).

(** The signed envelope around a ciphertext. *)
Definition sign_envelope (i : IdentityKeyPair) (recipient_id ciphertext : bytes) (dummy : bool) : RtM SignedEnvelope :=
  let! now := timestamp_now in
  let! mid := lift (os_bytes 16) in
  let e := mkSignedEnvelope (hex_encode recipient_id) (hex_encode ciphertext) (hex_encode (ik_ed_public i)) now
             (hex_encode mid) [] false dummy in
  let! sg := res (identity_sign i (signing_payload e)) in
  ret (set_envelope_signature (hex_encode sg) e).

Definition send_via_relay (recipient_id plaintext : bytes) : RtM unit :=
  let! r := get in
  let! relay := res (ok_or (relay_client r) ProtocolError.InvalidState) in
  let! ciphertext := m_map_err (fun _ => ProtocolError.EncryptionFailed)
                       (zoom r_ctx set_ctx (ctx_encrypt_message recipient_id plaintext None)) in
  let! r := get in
  let! i := res (map_err (fun _ => ProtocolError.InternalError) (get_identity (r_ctx r))) in
  let! e := sign_envelope i recipient_id ciphertext false in
  let! json := res (ok_or (encode e) ProtocolError.InvalidMessage) in
  res (send_envelope relay json).

(** [peer.send_message] on the shared peer of the table. *)
Definition direct_send (recipient_id : bytes) (peer : Peer) (plaintext : bytes) : RtM (Res P2pError.t bytes) :=
  m_try (zoom (fun r => default peer (active_peers r !! recipient_id))
           (fun p r => set_active_peers (<[recipient_id := p]> (active_peers r)) r)
           (send_message plaintext (stream_writes (peer_addr peer)))).

Definition router_send_message (recipient_id plaintext : bytes) : RtM unit :=
  if MAX_MESSAGE_BYTES <? len plaintext then res (Err ProtocolError.InvalidArgument)
  else
    let! r := get in
    match r_p2p_node r, active_peers r !! recipient_id with
    | Some _, Some peer =>
        let! out := direct_send recipient_id peer plaintext in
        if is_ok out then ret tt else send_via_relay recipient_id plaintext
    | _, _ => send_via_relay recipient_id plaintext
    end.

Definition send_webrtc_signal (recipient_id : bytes) (s : MediaSignal.t) : RtM unit :=
  let! b := res (payload_to_bytes (WebRtcPayload s)) in router_send_message recipient_id b.

Definition send_app_data (recipient_id data : bytes) : RtM unit :=
  let! b := res (payload_to_bytes (Data data)) in router_send_message recipient_id b.

(** True unless the cap is reached. *)
Definition add_p2p_peer (peer : Peer) : RtM bool :=
  let! r := get in
  if MAX_ACTIVE_PEERS <=? Z.of_nat (size (active_peers r)) then ret false
  else let! _ := modify (set_active_peers (<[peer_id_bytes peer := peer]> (active_peers r))) in ret true.

(** ** Discovery: one turn of the loop

    [connect] is what dialling the address gives; the result says whether it
    was dialled. *)

Definition discovery_step (seen : gset bytes) (token : bytes) (addr : SocketAddr) (connect : SocketAddr -> option Peer)
    : RtM (bool * gset bytes) :=
  let! r := get in
  if negb (is_valid_peer_addr addr) then ret (false, seen)
  else if MAX_ACTIVE_PEERS <=? Z.of_nat (size (active_peers r)) then ret (false, seen)
  else if bool_decide (token ∈ seen) then ret (false, seen)
  else
    let! _ := match connect addr with
              | Some peer =>
                  modify (fun r => match active_peers r !! peer_id_bytes peer with
                                   | Some _ => r
                                   | None => set_active_peers (<[peer_id_bytes peer := peer]> (active_peers r)) r
                                   end)
              | None => ret tt
              end in
    ret (true, {[token]} ∪ seen).

(** ** Key rotation *)

(** [tokio::time::interval] panics on a period of zero. *)
Definition rotation_period (cfg : Config) : PResult Z :=
  let secs := key_rotation_interval cfg / 10 in if secs =? 0 then Panic else Ok secs.

Definition rotation_tick : RtM unit :=
  let! r := get in
  let! needs_rotation := match get_signed_prekey (ctx_keystore (r_ctx r)) with
                         | Ok spk => lift (SignedPreKey_is_expired spk)
                         | _ => ret true
                         end in
  if needs_rotation : bool then
    let! _ := m_try (zoom (fun r => ctx_keystore (r_ctx r)) (fun k r => set_ctx (set_keystore k (r_ctx r)) r)
                       rotate_signed_prekey) in ret tt
  else ret tt.

(** ** Cover traffic *)

(** The spawned send is dropped with its outcome. *)
Definition send_dummy_to_relay (recipient_id : bytes) : RtM unit :=
  let! r := get in
  let! relay := res (ok_or (relay_client r) ProtocolError.InvalidState) in
  let! junk := lift (os_bytes 64) in
  let! ciphertext := zoom r_ctx set_ctx (ctx_encrypt_message recipient_id junk None) in
  let! r := get in
  let! i := res (map_err (fun _ => ProtocolError.InternalError) (get_identity (r_ctx r))) in
  let! e := sign_envelope i recipient_id ciphertext true in
  let! json := res (ok_or (encode e) ProtocolError.InvalidMessage) in
  let _ := send_envelope relay json in
  ret tt.

(** One turn of the loop, without its delay: whether it goes on, and the
    outcome of the send. *)
Definition cover_tick : RtM (bool * option (Res ProtocolError.t unit)) :=
  let! r := get in
  if negb (cover_traffic_enabled r) then ret (false, None)
  else
    let! dummy_id := lift (os_bytes 32) in
    let! out := m_try (send_dummy_to_relay dummy_id) in
    ret (true, Some out).

End Router.

(** ** Discovery never floods *)

Section Discovery.

Record Discovered := mkDiscovered { d_token : bytes; d_addr : SocketAddr; d_connect : SocketAddr -> option Peer }.

(** The loop over what the browser reports: the addresses dialled, in order. *)
Fixpoint discovery_loop (l : list Discovered) (seen : gset bytes) : RtM (list Discovered) :=
  match l with
  | [] => ret []
  | d :: l =>
      let! (dialled, seen) := discovery_step seen (d_token d) (d_addr d) (d_connect d) in
      let! rest := discovery_loop l seen in
      ret (if dialled : bool then d :: rest else rest)
  end.

Definition within_cap (r : HybridRouter) : Prop := Z.of_nat (size (active_peers r)) <= MAX_ACTIVE_PEERS.

Lemma insert_within_cap (m : gmap bytes Peer) k p : Z.of_nat (size m) < MAX_ACTIVE_PEERS ->
  Z.of_nat (size (<[k := p]> m)) <= MAX_ACTIVE_PEERS.
Proof.
  intros H. destruct (m !! k) eqn:E; [rewrite map_size_insert_Some by eauto | rewrite map_size_insert_None by done]; lia.
Qed.

Lemma discovery_step_run seen token addr connect env r c : within_cap r ->
  exists dialled seen' r', discovery_step seen token addr connect env r c = (Ok (dialled, seen'), r', c) /\
    within_cap r' /\ active_peers r ⊆ active_peers r' /\ r_ctx r' = r_ctx r /\
    if dialled : bool then is_valid_peer_addr addr = true /\ token ∉ seen /\ seen' = {[token]} ∪ seen else seen' = seen /\ r' = r.
Proof.
  intros Hc. unfold discovery_step, bind at 1, get.
  destruct (is_valid_peer_addr addr) eqn:Ev; cbn [negb]; [|by exists false, seen, r].
  destruct (Z.leb_spec MAX_ACTIVE_PEERS (Z.of_nat (size (active_peers r)))) as [|Hlt]; [by exists false, seen, r|].
  destruct (bool_decide (token ∈ seen)) eqn:Et; [by exists false, seen, r|]. apply bool_decide_eq_false in Et.
  unfold bind. destruct (connect addr) as [peer|]; [|by exists true, ({[token]} ∪ seen), r].
  unfold modify. destruct (active_peers r !! peer_id_bytes peer) eqn:Ep; [by exists true, ({[token]} ∪ seen), r|].
  eexists true, _, _. split; [reflexivity|]. split; [by apply insert_within_cap|]. split; [by apply insert_subseteq|]. done.
Qed.

Lemma discovery_loop_run l env : forall seen r c, within_cap r ->
  exists dialled r', discovery_loop l seen env r c = (Ok dialled, r', c) /\ within_cap r' /\
    active_peers r ⊆ active_peers r' /\ dialled `sublist_of` l /\
    Forall (fun d => is_valid_peer_addr (d_addr d) = true /\ d_token d ∉ seen) dialled /\
    base.NoDup (map d_token dialled).
Proof.
  induction l as [|d l IH]; intros seen r c Hc; cbn [discovery_loop].
  { exists [], r. split; [done|]. split; [done|]. split; [done|]. split; [constructor|]. split; constructor. }
  destruct (discovery_step_run seen (d_token d) (d_addr d) (d_connect d) env r c Hc) as (b & seen' & r1 & E1 & Hc1 & Hs1 & _ & Hb).
  rewrite (bind_ok _ _ _ _ _ _ _ _ E1). destruct (IH seen' r1 c Hc1) as (ds & r2 & E2 & Hc2 & Hs2 & Hsub & Hall & Hnd).
  rewrite (bind_ok _ _ _ _ _ _ _ _ E2). unfold ret. eexists _, r2. split; [reflexivity|]. split; [done|].
  split; [by transitivity (active_peers r1)|]. destruct b.
  - destruct Hb as (Hv & Hn & ->). split; [by constructor|]. split.
    + constructor; [done|]. eapply Forall_impl; [exact Hall|]. intros x [? Hx]. split; [done|]. set_solver.
    + cbn [map]. constructor; [|done]. intros (x & Hx & Hin)%list_elem_of_In%in_map_iff. rewrite Forall_forall in Hall.
      apply list_elem_of_In in Hin. destruct (Hall x Hin) as [_ Hns]. rewrite Hx in Hns. set_solver.
  - destruct Hb as [-> ->]. split; [by constructor|]. done.
Qed.

(** Discovery is bounded.  Whatever is announced on the network, the
    discovery loop keeps at most 500 peers, drops none that is connected and
    replaces none, dials only addresses that passed the check, and dials no
    announcement token twice nor one it had seen before. *)
Theorem discovery_is_bounded l env : forall seen r c, within_cap r ->
  exists dialled r', discovery_loop l seen env r c = (Ok dialled, r', c) /\ within_cap r' /\
    active_peers r ⊆ active_peers r' /\ dialled `sublist_of` l /\
    Forall (fun d => is_valid_peer_addr (d_addr d) = true /\ d_token d ∉ seen) dialled /\
    base.NoDup (map d_token dialled).
Proof. apply discovery_loop_run. Qed.

(** An IPv4 loopback address written as an IPv6 one passes the check. *)
Lemma mapped_loopback_is_valid : is_valid_peer_addr (mkSocketAddr (V6 [0; 0; 0; 0; 0; 65535; 32512; 1]) 4000) = true.
Proof. reflexivity. Qed.

End Discovery.

Lemma discovery_is_bounded_witness :
  exists dialled r',
    discovery_loop [mkDiscovered (bstr "t") (mkSocketAddr (V4 192 168 1 5) 4000) (fun _ => None);
                    mkDiscovered (bstr "t") (mkSocketAddr (V4 192 168 1 5) 4000) (fun _ => None)] ∅ demo_env1
      (mkRouter (demo_ctx ∅ []) None ∅ false None) ctr0 = (Ok dialled, r', ctr0) /\ base.NoDup (map d_token dialled).
Proof.
  destruct (discovery_is_bounded
    [mkDiscovered (bstr "t") (mkSocketAddr (V4 192 168 1 5) 4000) (fun _ => None);
     mkDiscovered (bstr "t") (mkSocketAddr (V4 192 168 1 5) 4000) (fun _ => None)]
    demo_env1 ∅ (mkRouter (demo_ctx ∅ []) None ∅ false None) ctr0) as (ds & r' & E & _ & _ & _ & _ & Hn);
    [vm_compute; discriminate|].
  exists ds, r'. split; [exact E | exact Hn].
Defined.

(** ** The relay path *)

Section RelayPath.
Context {P : Primitives} {J : Jwt}.
Context {CW : Codec WsMessage} {CE : Codec SealedEnvelope} {CD : Codec QueueDoc}.
Context {N : Net} {CP : Codec ProtocolPayload} {CSE : Codec SignedEnvelope}.

(** Posts to the message endpoint are answered by the server, in some state,
    with the Authorization header they carry. *)
Definition answered_by_server : Prop := forall req a, http_path req = bstr "/v1/messages/send" -> http req = Some a ->
  exists ip fields uuid env s c r,
    reply_of (fst (fst (route ip (Send (http_authorization req) fields uuid) env s c))) = Some r /\ http_status a = status r.

Lemma send_without_token ip fields uuid env s c :
  route ip (Send None fields uuid) env s c = (Err (mkReply StatusCode.UNAUTHORIZED (Server.Text "Missing Authorization header")), s, c).
Proof. done. Qed.

Lemma envelope_is_refused relay json : answered_by_server -> is_ok (send_envelope relay json) = false.
Proof.
  intros Ha. unfold send_envelope, request. destruct (ensure _ _) as [u|e|]; try done. cbn [res_bind].
  set (req := mkHttpRequest _ _ _ _ _ _). destruct (http req) as [a|] eqn:E; [|done]. cbn [ok_or res_bind].
  destruct (Ha req a eq_refl E) as (ip & fields & uuid & env & s & c & r & Hr & ->).
  cbn [http_authorization req] in Hr. rewrite send_without_token in Hr. injection Hr as <-. done.
Qed.

Lemma via_relay_refused id pt env r c : answered_by_server -> is_ok (fst (fst (send_via_relay id pt env r c))) = false.
Proof.
  intros Ha. destruct (send_via_relay id pt env r c) as [[[u|e|] r'] c'] eqn:H; [|done|done]. exfalso.
  unfold send_via_relay in H. unfold bind at 1, get in H. apply bind_ok_inv in H as (relay & s1 & c1 & _ & H).
  apply bind_ok_inv in H as (ct & s2 & c2 & _ & H). unfold bind at 1 in H. apply bind_ok_inv in H as (i & s3 & c3 & _ & H).
  apply bind_ok_inv in H as (e & s4 & c4 & _ & H). apply bind_ok_inv in H as (json & s5 & c5 & _ & H).
  unfold res in H. pose proof (envelope_is_refused relay json Ha) as Hf. by destruct (send_envelope relay json).
Qed.

(** C39: the relay fallback never delivers.  The relay client posts envelopes
    without an Authorization header, and the server's message endpoint answers
    401 to that in every state; so with posts answered by this server a message
    is sent only if it is at most 10 MiB, the router has a node, the recipient
    is an active peer, its session encrypts the message and the frame is
    within the stream's limit and written; the router is left as it was but for that session. *)
Theorem only_direct_sends_succeed id pt env r c r' c' :
  answered_by_server -> router_send_message id pt env r c = (Ok tt, r', c') ->
  len pt <= MAX_MESSAGE_BYTES /\ r_p2p_node r <> None /\
  exists peer frame peer', active_peers r !! id = Some peer /\ stream_writes (peer_addr peer) = true /\
    send_message pt true env peer c = (Ok frame, peer', c') /\
    r' = set_active_peers (<[id := peer']> (active_peers r)) r.
Proof.
  intros Ha. unfold router_send_message. destruct (Z.ltb_spec MAX_MESSAGE_BYTES (len pt)); [done|]. unfold bind, get.
  pose proof (fun s c => via_relay_refused id pt env s c Ha) as Hf.
  assert (Hr : forall s c, send_via_relay id pt env s c = (Ok tt, r', c') -> False) by (intros s0 c0 E; specialize (Hf s0 c0); by rewrite E in Hf).
  destruct (r_p2p_node r); [|by intros E%Hr]. destruct (active_peers r !! id) as [peer|] eqn:Ep; [|by intros E%Hr].
  unfold direct_send, m_try, zoom. rewrite Ep. change (default peer (Some peer)) with peer.
  destruct (send_message pt (stream_writes (peer_addr peer)) env peer c) as [[[f|e|] p'] c1] eqn:Es; cbn [is_ok]; [|by intros E%Hr|done].
  intros [= <- <-]. split; [done|]. split; [done|]. exists peer, f, p'. split; [done|].
  destruct (stream_writes (peer_addr peer)); [done|]. exfalso. unfold send_message in Es.
  apply bind_ok_inv in Es as (ct & s1 & c2 & _ & Es). unfold bind, get in Es. by rewrite andb_false_r in Es.
Qed.

(** ** Cover traffic *)

Lemma rate_gate_sessions op id env s c : ctx_sessions (snd (fst (rate_gate op id env s c))) = ctx_sessions s.
Proof.
  unfold rate_gate, bind, get. destruct (enable_rate_limiting _); [|done]. unfold zoom, m_map_err.
  by destruct (check _ _ _ _ _) as [[]].
Qed.

Lemma encrypt_needs_session id pt ad env s c ct s' c' :
  ctx_encrypt_message id pt ad env s c = (Ok ct, s', c') -> is_Some (sessions (ctx_sessions s) !! id).
Proof.
  unfold ctx_encrypt_message. intros H. apply bind_ok_inv in H as (u & s1 & c1 & E & H).
  pose proof (rate_gate_sessions "encrypt" id env s c) as Hs. rewrite E in Hs. cbn [fst snd] in Hs. unfold bind at 1, get in H.
  destruct (_ <? _); [done|]. apply bind_ok_inv in H as (u2 & s2 & c2 & E2 & H).
  assert (s2 = s1) as ->. { unfold trust_gate, bind, get in E2. destruct (_ && _); [done|]. by injection E2 as _ <- _. }
  apply bind_ok_inv in H as (p & s3 & c3 & E3 & H). assert (s3 = s1) as ->.
  { unfold lift in E3. destruct (pad_message _ _ _ _) as [[]]; by injection E3. }
  unfold bind at 1, get in H. apply bind_ok_inv in H as (loc & s4 & c4 & E4 & _). unfold res, get_session in E4.
  rewrite Hs in E4. destruct (sessions (ctx_sessions s) !! id); [by eexists | done].
Qed.

Lemma lift_os_ok_inv {S E} n env (s s1 : S) c c1 x :
  lift (E := E) (os_bytes n) env s c = (Ok x, s1, c1) -> x = map (e_os env) (seq (c_os c) n) /\ s1 = s.
Proof. unfold lift, os_bytes. by intros [=]. Qed.

(** Cover traffic sends nothing.  The loop encrypts its dummy message for
    a random identity; encryption needs a session with that identity, so unless
    the 32 random bytes happen to name one, no dummy envelope is ever built and
    the attempt ends in an error (or a panic) that is only logged. *)
Theorem cover_traffic_sends_nothing env r c out r' c' :
  sessions (ctx_sessions (r_ctx r)) !! map (e_os env) (seq (c_os c) 32) = None ->
  cover_tick env r c = (Ok (true, Some out), r', c') -> is_ok out = false.
Proof.
  intros Hn. unfold cover_tick. unfold bind at 1, get. destruct (negb _); [done|]. intros H.
  apply bind_ok_inv in H as (id & s1 & c1 & E & H). apply lift_os_ok_inv in E as [-> ->].
  apply bind_ok_inv in H as (o & s2 & c2 & E & H). apply ret_ok_inv in H as ([= ->] & -> & ->). unfold m_try in E.
  set (id := map _ _) in *.
  destruct (send_dummy_to_relay id env r c1) as [[[u|e|] s3] c3] eqn:Hd; [exfalso | by injection E as <- | done].
  unfold send_dummy_to_relay in Hd. unfold bind at 1, get in Hd. apply bind_ok_inv in Hd as (relay & s4 & c4 & E4 & Hd).
  assert (s4 = r) as -> by (unfold res in E4; destruct (ok_or _ _); by injection E4).
  apply bind_ok_inv in Hd as (junk & s5 & c5 & E5 & Hd). apply lift_os_ok_inv in E5 as [_ ->].
  apply bind_ok_inv in Hd as (ct & s6 & c6 & E6 & _). unfold zoom in E6.
  destruct (ctx_encrypt_message id junk None env (r_ctx r) c5) as [[x t] c7] eqn:Ee. injection E6 as -> _ _.
  apply encrypt_needs_session in Ee. rewrite Hn in Ee. by destruct Ee.
Qed.

End RelayPath.

(** ** Witnesses *)

(** A network in which posts without a token are refused and streams write. *)
Definition demo_net : Net := {|
  url_parse u := Some u;
  url_join _ _ := true;
  url_scheme _ := bstr "http";
  url_set_scheme u _ := Some u;
  url_set_path u p := u ++ p;
  client_build _ := true;
  proxy_all _ := true;
  http req := match http_authorization req with None => Some (mkHttpAnswer StatusCode.UNAUTHORIZED None) | Some _ => None end;
  stream_writes _ := true
|}.

Definition demo_json : Codec SignedEnvelope := {| encode e := Some (se_payload_hex e); decode _ := None |}.

Definition demo_router (peers : gmap bytes Peer) : HybridRouter :=
  mkRouter (demo_ctx ∅ []) (Some demo_na) peers true (Some (mkRelayClient (bstr "http://relay") None)).

Import Spelled.

Lemma demo_net_answers : answered_by_server (P := toy) (J := plain_jwt) (CE := spelled wf_envelope) (CD := spelled wf_doc) (N := demo_net).
Proof.
  intros req a _. cbn. destruct (http_authorization req) eqn:E; [done|]. intros [= <-].
  exists [], (mkSendMessageRequest [] [] None), [], demo_env, demo_server, ctr0. eexists. split; [reflexivity|]. done.
Qed.

Definition demo_peer : Peer := mkPeer (bstr "bob") (wrap_stream MAX_FRAME_BYTES) (demo_side HandshakeRole.Initiator demo_sk1 demo_sk2) "10.0.0.2:4000".

Lemma only_direct_sends_succeed_witness :
  exists frame peer' r' c', router_send_message (P := toy) (N := demo_net) (CSE := demo_json) (bstr "bob") (bstr "hi") demo_env1
      (demo_router {[bstr "bob" := demo_peer]}) ctr0 = (Ok tt, r', c') /\
    active_peers r' !! bstr "bob" = Some peer' /\ send_message (P := toy) (bstr "hi") true demo_env1 demo_peer ctr0 = (Ok frame, peer', c').
Proof.
  destruct (router_send_message (P := toy) (N := demo_net) (CSE := demo_json) (bstr "bob") (bstr "hi") demo_env1
      (demo_router {[bstr "bob" := demo_peer]}) ctr0) as [[x r'] c'] eqn:E.
  assert (K : is_ok x = true) by (change x with (fst (fst (x, r', c'))); rewrite <- E; vm_compute; reflexivity).
  destruct x as [[]|e|]; [|discriminate K..].
  destruct (only_direct_sends_succeed (P := toy) (J := plain_jwt) (CE := spelled wf_envelope)
    (CD := spelled wf_doc) (N := demo_net) (CSE := demo_json) (bstr "bob") (bstr "hi") demo_env1
    (demo_router {[bstr "bob" := demo_peer]}) ctr0 r' c' demo_net_answers E) as (_ & _ & p & f & p' & Hp & _ & Hs & Hr).
  assert (p = demo_peer) as ->.
  { assert (active_peers (demo_router {[bstr "bob" := demo_peer]}) !! bstr "bob" = Some demo_peer) as H by apply lookup_singleton_eq.
    rewrite H in Hp. congruence. }
  exists f, p', r', c'. split; [reflexivity|]. split; [|exact Hs]. rewrite Hr. apply lookup_insert_eq.
Defined.

Lemma cover_traffic_sends_nothing_witness :
  exists out r' c', cover_tick (P := toy) (N := demo_net) (CSE := demo_json) demo_env1 (demo_router ∅) ctr0
    = (Ok (true, Some out), r', c') /\ is_ok out = false.
Proof.
  destruct (cover_tick (P := toy) (N := demo_net) (CSE := demo_json) demo_env1 (demo_router ∅) ctr0) as [[x r'] c'] eqn:E.
  assert (K : match x with Ok (true, Some _) => true | _ => false end = true)
    by (change x with (fst (fst (x, r', c'))); rewrite <- E; vm_compute; reflexivity).
  destruct x as [[[] [out|]]|e|]; [|discriminate K..].
  exists out, r', c'. split; [reflexivity|].
  exact (cover_traffic_sends_nothing (P := toy) (N := demo_net) (CSE := demo_json) demo_env1 (demo_router ∅) ctr0 out r' c'
    eq_refl E).
Defined.
