(* ===== verification/FfiMemory.v ===== *)
(** * Memory across the foreign-function interface

    What a C caller and the library share: byte buffers, the [ByteBuffer] and
    handle variables of the caller, and the boxes behind the handles.  A cell is
    one allocation; a pointer is null, dangling (the pointer of an empty vector)
    or an offset into an allocation.  Every access names its cell and its range;
    one that does not fit is undefined behaviour, an outcome of its own. *)

From S2P Require Import Prelude Effects Errors Random Context.
#[local] Open Scope Z_scope.
#[local] Open Scope sibna_scope.

Definition ISIZE_MAX : Z := 2 ^ 63 - 1.

Inductive Ptr := Null | Dangling | At (block offset : nat).

Definition is_null (p : Ptr) : bool := match p with Null => true | _ => false end.

(** [#[repr(C)] struct ByteBuffer]. *)
Record ByteBuffer := mkByteBuffer { bb_data : Ptr; bb_len : Z; bb_capacity : Z }.

(** Bytes of the caller, or of a vector of that capacity which the library gave
    away; a caller's variable; a box behind a handle. *)
Inductive Cell :=
| Bytes (vec : option Z) (data : bytes)
| BufferVar (b : ByteBuffer)
| HandleVar (p : Ptr)
| ContextBox (s : SecureContext)
| SessionBox (h : SessionHandle).

(** The memory, and the thread's last error and random generator. *)
Record Ffi := mkFfi {
  cells : gmap nat Cell;
  next_block : nat;
  last_error : bytes;
  thread_rng : option SecureRandom
}.

Definition set_cells x s := mkFfi x (next_block s) (last_error s) (thread_rng s).
Definition set_error x s := mkFfi (cells s) (next_block s) x (thread_rng s).
Definition set_thread_rng x s := mkFfi (cells s) (next_block s) (last_error s) x.

Inductive Ub := Undefined.
Abbreviation FfiM := (M Ffi Ub).

Definition undefined {A} : FfiM A := res (Err Undefined).
Definition defined {A} (o : option A) : FfiM A := match o with Some a => ret a | None => undefined end.

(** Allocations are never reused. *)
Definition alloc (x : Cell) : FfiM nat :=
  let! s := get in
  let! _ := put (mkFfi (<[next_block s := x]> (cells s)) (S (next_block s)) (last_error s) (thread_rng s)) in
  ret (next_block s).

(** ** Bytes *)

(** The bytes a pointer and a length denote. *)
Definition slice_at (p : Ptr) (n : Z) (m : gmap nat Cell) : option bytes :=
  match p with
  | Null => None
  | Dangling => if n =? 0 then Some [] else None
  | At b off =>
      if n =? 0 then Some []
      else match m !! b with
           | Some (Bytes _ d) =>
               if (Z.of_nat off + n <=? len d) && (n <=? ISIZE_MAX) then Some (take (Z.to_nat n) (drop off d)) else None
           | _ => None
           end
  end.

(** [slice::from_raw_parts]. *)
Definition from_raw_parts (p : Ptr) (n : Z) : FfiM bytes := let! s := get in defined (slice_at p n (cells s)).

(** Overwrite a part of a list. *)
Definition splice (off : nat) (b d : bytes) : bytes := take off d ++ b ++ drop (off + length b) d.

(** [ptr::copy_nonoverlapping] from the library's own memory. *)
Definition copy_out (p : Ptr) (b : bytes) : FfiM unit :=
  let! s := get in
  let! _ := defined (slice_at p (len b) (cells s)) in
  match p with
  | At k off =>
      match cells s !! k with
      | Some (Bytes v d) => modify (set_cells (<[k := Bytes v (splice off b d)]> (cells s)))
      | _ => undefined
      end
  | _ => undefined
  end.

(** ** Variables of the caller *)

Definition buffer_at (p : Ptr) (m : gmap nat Cell) : option ByteBuffer :=
  match p with At b O => match m !! b with Some (BufferVar x) => Some x | _ => None end | _ => None end.

Definition handle_at (p : Ptr) (m : gmap nat Cell) : option Ptr :=
  match p with At b O => match m !! b with Some (HandleVar x) => Some x | _ => None end | _ => None end.

(** [*out = ..]: the old value is not dropped. *)
Definition write_buffer (p : Ptr) (x : ByteBuffer) : FfiM unit :=
  let! s := get in
  match p, buffer_at p (cells s) with
  | At b _, Some _ => modify (set_cells (<[b := BufferVar x]> (cells s)))
  | _, _ => undefined
  end.

Definition write_handle (p x : Ptr) : FfiM unit :=
  let! s := get in
  match p, handle_at p (cells s) with
  | At b _, Some _ => modify (set_cells (<[b := HandleVar x]> (cells s)))
  | _, _ => undefined
  end.

(** ** Boxes *)

Definition context_at (p : Ptr) (m : gmap nat Cell) : option SecureContext :=
  match p with At b O => match m !! b with Some (ContextBox x) => Some x | _ => None end | _ => None end.

Definition session_box_at (p : Ptr) (m : gmap nat Cell) : option SessionHandle :=
  match p with At b O => match m !! b with Some (SessionBox x) => Some x | _ => None end | _ => None end.

(** [Box::into_raw(Box::new(x))]. *)
Definition into_raw (x : Cell) : FfiM Ptr := let! b := alloc x in ret (At b 0).

(** A method call on [&mut *(context as *mut SecureContext)]: its outcome. *)
Definition on_context {E A} (p : Ptr) (m : M SecureContext E A) : FfiM (Res E A) :=
  let! s := get in
  match p, context_at p (cells s) with
  | At b _, Some ctx =>
      m_try (zoom (fun _ => ctx) (fun ctx s => set_cells (<[b := ContextBox ctx]> (cells s)) s) m)
  | _, _ => undefined
  end.

(** [Box::from_raw] and drop. *)
Definition drop_context (p : Ptr) : FfiM unit :=
  let! s := get in
  match p, context_at p (cells s) with
  | At b _, Some _ => modify (set_cells (delete b (cells s)))
  | _, _ => undefined
  end.

Definition drop_session (p : Ptr) : FfiM unit :=
  let! s := get in
  match p, session_box_at p (cells s) with
  | At b _, Some _ => modify (set_cells (delete b (cells s)))
  | _, _ => undefined
  end.

(** ** Vectors given away *)

(** The capacity the allocator gives to a vector with these elements. *)
Class Allocator := { vec_capacity : bytes -> Z }.
Class AllocatorLaws (A : Allocator) := { vec_fits b : len b <= vec_capacity b }.

Section Buffers.
Context {A : Allocator}.

Definition ByteBuffer_new (data : bytes) : FfiM ByteBuffer :=
  let capacity := vec_capacity data in
  if capacity =? 0 then ret (mkByteBuffer Dangling (len data) capacity)
  else let! b := alloc (Bytes (Some capacity) data) in ret (mkByteBuffer (At b 0) (len data) capacity).

Definition ByteBuffer_empty : ByteBuffer := mkByteBuffer Null 0 0.

(** [Vec::from_raw_parts], which takes the allocation back. *)
Definition vec_from_raw_parts (p : Ptr) (n capacity : Z) : FfiM bytes :=
  let! s := get in
  match p with
  | At b O =>
      match cells s !! b with
      | Some (Bytes (Some cap) d) =>
          if (cap =? capacity) && (n <=? len d)
          then let! _ := modify (set_cells (delete b (cells s))) in ret (take (Z.to_nat n) d)
          else undefined
      | _ => undefined
      end
  | Dangling => if (n =? 0) && (capacity =? 0) then ret [] else undefined
  | _ => undefined
  end.

Definition ByteBuffer_to_vec (b : ByteBuffer) : FfiM bytes :=
  if is_null (bb_data b) then ret [] else vec_from_raw_parts (bb_data b) (bb_len b) (bb_capacity b).

(** [slice::from_raw_parts_mut(p, n).zeroize()]. *)
Definition zeroize_slice (p : Ptr) (n : Z) : FfiM unit :=
  let! old := from_raw_parts p n in
  if n =? 0 then ret tt else copy_out p (zeros (length old)).

(** The bytes are overwritten with zeros before they are given back. *)
Definition ByteBuffer_free (p : Ptr) : FfiM unit :=
  let! s := get in
  let! b := defined (buffer_at p (cells s)) in
  if is_null (bb_data b) then ret tt
  else
    let! _ := zeroize_slice (bb_data b) (bb_len b) in
    let! _ := vec_from_raw_parts (bb_data b) (bb_len b) (bb_capacity b) in
    write_buffer p ByteBuffer_empty.

End Buffers.
