(* ===== verification/Ffi.v ===== *)
(** * The C interface ([core/src/ffi/mod.rs])

    Every exported function on the shared memory of [FfiMemory], and one
    caller's thread as a sequence of calls.  A panic inside a call ends the
    process. *)

From S2P Require Import Prelude Effects Errors Primitives Random Handler Padding Chain Message RatchetState Session SessionInvariant SessionReceive SessionSend RateLimit Group Bundle KeyStore Builder Context FfiMemory.
#[local] Open Scope Z_scope.
#[local] Open Scope sibna_scope.

Module SibnaResult.
Inductive t :=
| Ok | InvalidArgument | InvalidKey | EncryptionFailed | DecryptionFailed | OutOfMemory | InvalidState | SessionNotFound
| KeyNotFound | RateLimitExceeded | InternalError | BufferTooSmall | InvalidCiphertext | AuthenticationFailed.
End SibnaResult.

Definition set_last_error (msg : bytes) : FfiM unit := modify (set_error msg).

(** [set_last_error(..); return code;] *)
Definition reject (msg : bytes) (code : SibnaResult.t) : FfiM SibnaResult.t :=
  let! _ := set_last_error msg in ret code.

Definition error_code (e : ProtocolError.t) : SibnaResult.t :=
  match e with
  | ProtocolError.InvalidArgument => SibnaResult.InvalidArgument
  | ProtocolError.InvalidKeyLength | ProtocolError.InvalidKey => SibnaResult.InvalidKey
  | ProtocolError.EncryptionFailed => SibnaResult.EncryptionFailed
  | ProtocolError.DecryptionFailed => SibnaResult.DecryptionFailed
  | ProtocolError.OutOfMemory => SibnaResult.OutOfMemory
  | ProtocolError.InvalidState => SibnaResult.InvalidState
  | ProtocolError.SessionNotFound => SibnaResult.SessionNotFound
  | ProtocolError.KeyNotFound => SibnaResult.KeyNotFound
  | ProtocolError.RateLimitExceeded => SibnaResult.RateLimitExceeded
  | ProtocolError.InvalidCiphertext => SibnaResult.InvalidCiphertext
  | ProtocolError.AuthenticationFailed => SibnaResult.AuthenticationFailed
  | _ => SibnaResult.InternalError
  end.

Definition message_of (e : ProtocolError.t) : bytes := bstr (ProtocolError.display e).
Definition crypto_message_of (e : CryptoError.t) : bytes := bstr (CryptoError.crypto_display e).

Definition map_error (e : ProtocolError.t) : FfiM SibnaResult.t := reject (message_of e) (error_code e).

Definition MAX_PASSWORD_LEN : Z := 4096.
Definition MAX_RANDOM_LEN : Z := 1024 * 1024.
Definition MAX_BUNDLE_LEN : Z := 8 * 1024.

(** [env!("CARGO_PKG_VERSION")], from the workspace manifest. *)
Definition VERSION : bytes := bstr "3.0.1".

Definition null_argument : FfiM SibnaResult.t := reject (bstr "Null pointer argument") SibnaResult.InvalidArgument.

(** The associated data of the plain and of the session calls. *)
Definition read_ad (p : Ptr) (n : Z) : FfiM bytes := if is_null p then ret [] else from_raw_parts p n.
Definition read_ad_opt (p : Ptr) (n : Z) : FfiM (option bytes) :=
  if is_null p || (n =? 0) then ret None else let! b := from_raw_parts p n in ret (Some b).

Section Ffi.
Context {P : Primitives} {H : HashOrder} {A : Allocator}.

(** [match r { Ok(v) => *out = ByteBuffer::new(v), Err(e) => map_error(e) }]. *)
Definition return_buffer (out : Ptr) (r : PResult bytes) : FfiM SibnaResult.t :=
  match r with
  | Ok v => let! b := ByteBuffer_new v in let! _ := write_buffer out b in ret SibnaResult.Ok
  | Err e => map_error e
  | Panic => res Panic
  end.

(** [match r { Ok(_) => Ok, Err(e) => map_error(e) }]. *)
Definition return_unit {X} (r : PResult X) : FfiM SibnaResult.t :=
  match r with Ok _ => ret SibnaResult.Ok | Err e => map_error e | Panic => res Panic end.

(** ** Contexts *)

(** [None] when key generation ran out of [fuel]. *)
Definition sibna_context_create (fuel : nat) (password : Ptr) (password_len : Z) (context : Ptr)
    : FfiM (option SibnaResult.t) :=
  if is_null context then let! r := reject (bstr "context pointer is null") SibnaResult.InvalidArgument in ret (Some r)
  else if MAX_PASSWORD_LEN <? password_len
  then let! r := reject (bstr "password too long") SibnaResult.InvalidArgument in ret (Some r)
  else
    let! password := read_ad_opt password password_len in
    let! out := m_try (zoom thread_rng set_thread_rng (SecureContext_new fuel Config_default password)) in
    match out with
    | Ok None => ret None
    | Ok (Some ctx) =>
        let! p := into_raw (ContextBox ctx) in
        let! _ := write_handle context p in
        ret (Some SibnaResult.Ok)
    | Err e => let! r := reject (message_of e) SibnaResult.InternalError in ret (Some r)
    | Panic => res Panic
    end.

Definition sibna_context_destroy (context : Ptr) : FfiM unit :=
  if is_null context then ret tt else drop_context context.

Definition sibna_context_set_device_link (context : Ptr) (device_id : Z) (root_key signature : Ptr) : FfiM SibnaResult.t :=
  if is_null context || is_null root_key || is_null signature then null_argument
  else
    let! root := from_raw_parts root_key 32 in
    let! sg := from_raw_parts signature 64 in
    let! out := on_context context (ctx_set_device_link device_id root sg) in
    match out with
    | Ok _ => ret SibnaResult.Ok
    | Err e => reject (message_of e) SibnaResult.InternalError
    | Panic => res Panic
    end.

(** A string and its terminator into a buffer of the caller. *)
Definition sibna_version (version : Ptr) (version_len : Z) : FfiM SibnaResult.t :=
  if is_null version then reject (bstr "version buffer is null") SibnaResult.InvalidArgument
  else
    let version_bytes := VERSION ++ [x00] in
    if version_len <? len version_bytes then reject (bstr "version buffer too small") SibnaResult.BufferTooSmall
    else let! _ := copy_out version version_bytes in ret SibnaResult.Ok.

(** ** Plain encryption *)

Definition sibna_encrypt (key plaintext : Ptr) (plaintext_len : Z) (associated_data : Ptr) (ad_len : Z) (ciphertext : Ptr)
    : FfiM SibnaResult.t :=
  if is_null key || is_null plaintext || is_null ciphertext then null_argument
  else
    let! key := from_raw_parts key 32 in
    let! plaintext := from_raw_parts plaintext plaintext_len in
    let! ad := read_ad associated_data ad_len in
    match CryptoHandler_new key with
    | Err e => reject (crypto_message_of e) SibnaResult.InvalidKey
    | Panic => res Panic
    | Ok handler =>
        let! out := m_try (lift (handler_encrypt handler plaintext ad)) in
        match out with
        | Ok ct => let! b := ByteBuffer_new ct in let! _ := write_buffer ciphertext b in ret SibnaResult.Ok
        | Err e => reject (crypto_message_of e) SibnaResult.EncryptionFailed
        | Panic => res Panic
        end
    end.

Definition sibna_decrypt (key ciphertext : Ptr) (ciphertext_len : Z) (associated_data : Ptr) (ad_len : Z) (plaintext : Ptr)
    : FfiM SibnaResult.t :=
  if is_null key || is_null ciphertext || is_null plaintext then null_argument
  else
    let! key := from_raw_parts key 32 in
    let! ciphertext := from_raw_parts ciphertext ciphertext_len in
    let! ad := read_ad associated_data ad_len in
    match CryptoHandler_new key with
    | Err e => reject (crypto_message_of e) SibnaResult.InvalidKey
    | Panic => res Panic
    | Ok handler =>
        match handler_decrypt handler ciphertext ad with
        | Ok pt => let! b := ByteBuffer_new pt in let! _ := write_buffer plaintext b in ret SibnaResult.Ok
        | Err CryptoError.AuthenticationFailed => reject (bstr "Authentication failed") SibnaResult.AuthenticationFailed
        | Err e => reject (crypto_message_of e) SibnaResult.DecryptionFailed
        | Panic => res Panic
        end
    end.

(** ** Randomness *)

(** [n] bytes of a new generator into the caller's memory. *)
Definition random_out (n : Z) (output : Ptr) : FfiM SibnaResult.t :=
  let! out := m_try (lift SecureRandom_new) in
  match out with
  | Err e => reject (crypto_message_of e) SibnaResult.InternalError
  | Panic => res Panic
  | Ok rng =>
      let! _ := from_raw_parts output n in
      let! (b, _) := lift (run_on (fill_bytes (Z.to_nat n)) rng) in
      let! _ := copy_out output b in
      ret SibnaResult.Ok
  end.

Definition sibna_random_bytes (n : Z) (output : Ptr) : FfiM SibnaResult.t :=
  if is_null output then reject (bstr "output buffer is null") SibnaResult.InvalidArgument
  else if (n =? 0) || (MAX_RANDOM_LEN <? n) then reject (bstr "invalid random length") SibnaResult.InvalidArgument
  else random_out n output.

Definition sibna_generate_key (key : Ptr) : FfiM SibnaResult.t :=
  if is_null key then reject (bstr "key buffer is null") SibnaResult.InvalidArgument else random_out 32 key.

Definition sibna_free_buffer (buffer : Ptr) : FfiM unit := if is_null buffer then ret tt else ByteBuffer_free buffer.

Definition sibna_last_error (buffer : Ptr) (buffer_len : Z) : FfiM SibnaResult.t :=
  let! s := get in
  let error_msg := (match last_error s with [] => bstr "No error" | e => e end) ++ [x00] in
  if is_null buffer then ret SibnaResult.InvalidArgument
  else if buffer_len <? len error_msg then ret SibnaResult.BufferTooSmall
  else let! _ := copy_out buffer error_msg in ret SibnaResult.Ok.

(** ** Sessions *)

Definition sibna_session_create (context peer_id : Ptr) (peer_id_len : Z) (session : Ptr) : FfiM SibnaResult.t :=
  if is_null context || is_null peer_id || is_null session then null_argument
  else
    let! peer := from_raw_parts peer_id peer_id_len in
    let! out := on_context context (ctx_create_session peer) in
    match out with
    | Ok handle => let! p := into_raw (SessionBox handle) in let! _ := write_handle session p in ret SibnaResult.Ok
    | Err e => map_error e
    | Panic => res Panic
    end.

Definition sibna_session_destroy (session : Ptr) : FfiM unit := if is_null session then ret tt else drop_session session.

Definition bad_session_id (n : Z) : bool := (n =? 0) || (256 <? n).

Definition sibna_session_encrypt (context session_id : Ptr) (session_id_len : Z) (plaintext : Ptr) (plaintext_len : Z)
    (associated_data : Ptr) (ad_len : Z) (ciphertext_out : Ptr) : FfiM SibnaResult.t :=
  if is_null context || is_null session_id || is_null plaintext || is_null ciphertext_out then null_argument
  else if bad_session_id session_id_len then reject (bstr "Invalid session_id length") SibnaResult.InvalidArgument
  else if plaintext_len =? 0 then reject (bstr "Plaintext must not be empty") SibnaResult.InvalidArgument
  else
    let! id := from_raw_parts session_id session_id_len in
    let! pt := from_raw_parts plaintext plaintext_len in
    let! ad := read_ad_opt associated_data ad_len in
    let! out := on_context context (ctx_encrypt_message id pt ad) in
    return_buffer ciphertext_out out.

Definition sibna_session_decrypt (context session_id : Ptr) (session_id_len : Z) (ciphertext : Ptr) (ciphertext_len : Z)
    (associated_data : Ptr) (ad_len : Z) (plaintext_out : Ptr) : FfiM SibnaResult.t :=
  if is_null context || is_null session_id || is_null ciphertext || is_null plaintext_out then null_argument
  else if bad_session_id session_id_len then reject (bstr "Invalid session_id length") SibnaResult.InvalidArgument
  else if ciphertext_len <? 29 then reject (bstr "Ciphertext too short") SibnaResult.InvalidCiphertext
  else
    let! id := from_raw_parts session_id session_id_len in
    let! ct := from_raw_parts ciphertext ciphertext_len in
    let! ad := read_ad_opt associated_data ad_len in
    let! out := on_context context (ctx_decrypt_message id ct ad) in
    return_buffer plaintext_out out.

(** ** Identity and handshake *)

Definition sibna_generate_identity (context ed25519_pub_out x25519_pub_out : Ptr) : FfiM SibnaResult.t :=
  if is_null context || is_null ed25519_pub_out || is_null x25519_pub_out then null_argument
  else
    let! out := on_context context generate_identity in
    match out with
    | Ok keypair =>
        let! _ := copy_out ed25519_pub_out (ik_ed_public keypair) in
        let! _ := copy_out x25519_pub_out (ik_x_public keypair) in
        ret SibnaResult.Ok
    | Err e => map_error e
    | Panic => res Panic
    end.

Definition sibna_generate_prekey_bundle (context bundle_out : Ptr) : FfiM SibnaResult.t :=
  if is_null context || is_null bundle_out then null_argument
  else
    let! out := on_context context (let! s := get in lift (generate_prekey_bundle_bytes (ctx_keystore s))) in
    return_buffer bundle_out out.

Definition sibna_perform_handshake (context bundle_bytes : Ptr) (bundle_len : Z) (peer_id : Ptr) (peer_id_len : Z)
    (initiator : u8) : FfiM SibnaResult.t :=
  if is_null context || is_null bundle_bytes || is_null peer_id then null_argument
  else if (bundle_len =? 0) || (MAX_BUNDLE_LEN <? bundle_len) || (peer_id_len =? 0) || (256 <? peer_id_len)
  then reject (bstr "Invalid buffer length") SibnaResult.InvalidArgument
  else
    let! data := from_raw_parts bundle_bytes bundle_len in
    let! peer := from_raw_parts peer_id peer_id_len in
    match Bundle.from_bytes data with
    | Err e => map_error e
    | Panic => res Panic
    | Ok bundle =>
        let! checked := m_try (lift (bundle_validate bundle)) in
        match checked with
        | Err e => map_error e
        | Panic => res Panic
        | Ok _ =>
            let role := if Byte.eqb initiator x00 then HandshakeRole.Responder else HandshakeRole.Initiator in
            let! out := on_context context
                          (perform_handshake peer role (Some (identity_key bundle)) (Some (signed_prekey bundle))
                             (Some (signature bundle)) (onetime_prekey bundle) None None) in
            return_unit out
        end
    end.

Definition sibna_identity_sign (context data : Ptr) (data_len : Z) (signature_out : Ptr) : FfiM SibnaResult.t :=
  if is_null context || is_null data || is_null signature_out then null_argument
  else if data_len =? 0 then reject (bstr "data_len must be > 0") SibnaResult.InvalidArgument
  else
    let! data := from_raw_parts data data_len in
    let! keypair := on_context context (let! s := get in res (get_identity s)) in
    match keypair with
    | Err e => map_error e
    | Panic => res Panic
    | Ok keypair =>
        match identity_sign keypair data with
        | Ok sg => let! _ := copy_out signature_out sg in ret SibnaResult.Ok
        | Err e => map_error e
        | Panic => res Panic
        end
    end.

Definition sibna_identity_verify (ed25519_pub data : Ptr) (data_len : Z) (signature : Ptr) : FfiM SibnaResult.t :=
  if is_null ed25519_pub || is_null data || is_null signature then null_argument
  else
    let! pub := from_raw_parts ed25519_pub 32 in
    let! data := from_raw_parts data data_len in
    let! sg := from_raw_parts signature 64 in
    if negb (ed25519_key_ok pub) then reject (bstr "Invalid Ed25519 public key") SibnaResult.InvalidArgument
    else ret (if ed25519_verify pub data sg then SibnaResult.Ok else SibnaResult.AuthenticationFailed).

Definition sibna_identity_destroy (_ : Ptr) : FfiM unit := ret tt.

(** ** Groups *)

Definition sibna_group_create (context group_id : Ptr) (group_id_len : Z) : FfiM SibnaResult.t :=
  if is_null context || is_null group_id then null_argument
  else if negb (group_id_len =? 32) then reject (bstr "group_id must be 32 bytes") SibnaResult.InvalidArgument
  else
    let! id := from_raw_parts group_id 32 in
    let! out := on_context context (ctx_create_group id) in
    return_unit out.

Definition sibna_group_destroy (context group_id : Ptr) (group_id_len : Z) : FfiM SibnaResult.t :=
  if is_null context || is_null group_id then null_argument
  else if negb (group_id_len =? 32) then reject (bstr "group_id must be 32 bytes") SibnaResult.InvalidArgument
  else
    let! id := from_raw_parts group_id 32 in
    let! out := on_context context (ctx_leave_group id : M _ ProtocolError.t _) in
    return_unit out.

(** ** A thread of the caller *)

Inductive Answer := Code (r : SibnaResult.t) | Void | NoFuel.

Inductive FfiCall :=
| ContextCreate (password : Ptr) (password_len : Z) (context : Ptr)
| ContextDestroy (context : Ptr)
| SetDeviceLink (context : Ptr) (device_id : Z) (root_key signature : Ptr)
| Version (version : Ptr) (version_len : Z)
| Encrypt (key plaintext : Ptr) (plaintext_len : Z) (associated_data : Ptr) (ad_len : Z) (ciphertext : Ptr)
| Decrypt (key ciphertext : Ptr) (ciphertext_len : Z) (associated_data : Ptr) (ad_len : Z) (plaintext : Ptr)
| RandomBytes (n : Z) (output : Ptr)
| GenerateKey (key : Ptr)
| FreeBuffer (buffer : Ptr)
| LastError (buffer : Ptr) (buffer_len : Z)
| SessionCreate (context peer_id : Ptr) (peer_id_len : Z) (session : Ptr)
| SessionDestroy (session : Ptr)
| GenerateIdentity (context ed25519_pub_out x25519_pub_out : Ptr)
| GeneratePrekeyBundle (context bundle_out : Ptr)
| PerformHandshake (context bundle_bytes : Ptr) (bundle_len : Z) (peer_id : Ptr) (peer_id_len : Z) (initiator : u8)
| SessionEncrypt (context session_id : Ptr) (session_id_len : Z) (plaintext : Ptr) (plaintext_len : Z)
    (associated_data : Ptr) (ad_len : Z) (ciphertext_out : Ptr)
| SessionDecrypt (context session_id : Ptr) (session_id_len : Z) (ciphertext : Ptr) (ciphertext_len : Z)
    (associated_data : Ptr) (ad_len : Z) (plaintext_out : Ptr)
| IdentitySign (context data : Ptr) (data_len : Z) (signature_out : Ptr)
| IdentityVerify (ed25519_pub data : Ptr) (data_len : Z) (signature : Ptr)
| IdentityDestroy (context : Ptr)
| GroupCreate (context group_id : Ptr) (group_id_len : Z)
| GroupDestroy (context group_id : Ptr) (group_id_len : Z).

Definition code (m : FfiM SibnaResult.t) : FfiM Answer := let! r := m in ret (Code r).
Definition void (m : FfiM unit) : FfiM Answer := let! _ := m in ret Void.

Definition ffi_call (fuel : nat) (call : FfiCall) : FfiM Answer :=
  match call with
  | ContextCreate p n out => let! r := sibna_context_create fuel p n out in ret (from_option Code NoFuel r)
  | ContextDestroy ctx => void (sibna_context_destroy ctx)
  | SetDeviceLink ctx dev root sg => code (sibna_context_set_device_link ctx dev root sg)
  | Version p n => code (sibna_version p n)
  | Encrypt k p n a m out => code (sibna_encrypt k p n a m out)
  | Decrypt k p n a m out => code (sibna_decrypt k p n a m out)
  | RandomBytes n out => code (sibna_random_bytes n out)
  | GenerateKey out => code (sibna_generate_key out)
  | FreeBuffer p => void (sibna_free_buffer p)
  | LastError p n => code (sibna_last_error p n)
  | SessionCreate ctx p n out => code (sibna_session_create ctx p n out)
  | SessionDestroy p => void (sibna_session_destroy p)
  | GenerateIdentity ctx e x => code (sibna_generate_identity ctx e x)
  | GeneratePrekeyBundle ctx out => code (sibna_generate_prekey_bundle ctx out)
  | PerformHandshake ctx b n p m i => code (sibna_perform_handshake ctx b n p m i)
  | SessionEncrypt ctx i n p m a k out => code (sibna_session_encrypt ctx i n p m a k out)
  | SessionDecrypt ctx i n p m a k out => code (sibna_session_decrypt ctx i n p m a k out)
  | IdentitySign ctx p n out => code (sibna_identity_sign ctx p n out)
  | IdentityVerify k p n sg => code (sibna_identity_verify k p n sg)
  | IdentityDestroy ctx => void (sibna_identity_destroy ctx)
  | GroupCreate ctx g n => code (sibna_group_create ctx g n)
  | GroupDestroy ctx g n => code (sibna_group_destroy ctx g n)
  end.

End Ffi.
