(* ===== verification/FfiSafety.v ===== *)
(** * Memory safety of the C interface

    What a call may be given, what it may touch, and that within this contract
    no call runs into undefined behaviour. *)

From S2P Require Import Prelude Effects Errors Primitives Random Handler Padding Chain Message RatchetState Session SessionInvariant SessionReceive SessionSend RateLimit Group Bundle KeyStore Builder Context FfiMemory Ffi.
#[local] Open Scope Z_scope.
#[local] Open Scope sibna_scope.

(** ** The contract

    A pointer argument is null or valid for what the function does with it. *)

Definition reads (p : Ptr) (n : Z) (m : gmap nat Cell) : Prop := p = Null \/ is_Some (slice_at p n m).
Definition may_read (p : Ptr) (n : Z) (m : gmap nat Cell) : Prop := n = 0 \/ reads p n m.
Definition is_buffer (p : Ptr) (m : gmap nat Cell) : Prop := p = Null \/ is_Some (buffer_at p m).
Definition is_handle (p : Ptr) (m : gmap nat Cell) : Prop := p = Null \/ is_Some (handle_at p m).
Definition is_context (p : Ptr) (m : gmap nat Cell) : Prop := p = Null \/ is_Some (context_at p m).

(** A buffer the caller has not freed yet. *)
Definition live_buffer (b : ByteBuffer) (m : gmap nat Cell) : Prop :=
  match bb_data b with
  | Null => True
  | Dangling => bb_len b = 0 /\ bb_capacity b = 0
  | At k off => off = 0%nat /\ exists d, m !! k = Some (Bytes (Some (bb_capacity b)) d) /\ 0 <= bb_len b <= len d /\ len d <= ISIZE_MAX
  end.

Definition contract (m : gmap nat Cell) (call : FfiCall) : Prop :=
  match call with
  | ContextCreate p n out => may_read p n m /\ is_handle out m
  | ContextDestroy ctx => is_context ctx m
  | SetDeviceLink ctx _ root sg => is_context ctx m /\ reads root 32 m /\ reads sg 64 m
  | Version p n | LastError p n => reads p n m
  | Encrypt k p n a l out | Decrypt k p n a l out => reads k 32 m /\ reads p n m /\ reads a l m /\ is_buffer out m
  | RandomBytes n out => 0 <= n /\ reads out n m
  | GenerateKey out => reads out 32 m
  | FreeBuffer p => p = Null \/ exists b, buffer_at p m = Some b /\ live_buffer b m
  | SessionCreate ctx p n out => is_context ctx m /\ reads p n m /\ is_handle out m
  | SessionDestroy p => p = Null \/ is_Some (session_box_at p m)
  | GenerateIdentity ctx e x => is_context ctx m /\ reads e 32 m /\ reads x 32 m
  | GeneratePrekeyBundle ctx out => is_context ctx m /\ is_buffer out m
  | PerformHandshake ctx b n p k _ => is_context ctx m /\ reads b n m /\ reads p k m
  | SessionEncrypt ctx i n p k a l out | SessionDecrypt ctx i n p k a l out =>
      is_context ctx m /\ reads i n m /\ reads p k m /\ may_read a l m /\ is_buffer out m
  | IdentitySign ctx p n out => is_context ctx m /\ reads p n m /\ reads out 64 m
  | IdentityVerify k p n sg => reads k 32 m /\ reads p n m /\ reads sg 64 m
  | IdentityDestroy _ => True
  | GroupCreate ctx g n | GroupDestroy ctx g n => is_context ctx m /\ reads g 32 m
  end.

(** The allocations a call may write to or give back. *)
Definition block (p : Ptr) : list nat := match p with At b _ => [b] | _ => [] end.

Definition footprint (m : gmap nat Cell) (call : FfiCall) : list nat :=
  match call with
  | ContextCreate _ _ out => block out
  | ContextDestroy p | SetDeviceLink p _ _ _ | SessionDestroy p | GroupCreate p _ _ | GroupDestroy p _ _
  | PerformHandshake p _ _ _ _ _ => block p
  | Version p _ | LastError p _ | RandomBytes _ p | GenerateKey p | Encrypt _ _ _ _ _ p | Decrypt _ _ _ _ _ p => block p
  | FreeBuffer p => block p ++ match buffer_at p m with Some b => block (bb_data b) | None => [] end
  | SessionCreate ctx _ _ out | GeneratePrekeyBundle ctx out | IdentitySign ctx _ _ out => block ctx ++ block out
  | SessionEncrypt ctx _ _ _ _ _ _ out | SessionDecrypt ctx _ _ _ _ _ _ out => block ctx ++ block out
  | GenerateIdentity ctx e x => block ctx ++ block e ++ block x
  | IdentityVerify _ _ _ _ | IdentityDestroy _ => []
  end.

(** ** What calls keep *)

Definition same_shape (x y : Cell) : Prop :=
  match x, y with
  | Bytes v d, Bytes v' d' => v = v' /\ length d = length d'
  | BufferVar _, BufferVar _ | HandleVar _, HandleVar _ | ContextBox _, ContextBox _ | SessionBox _, SessionBox _ => True
  | _, _ => False
  end.

(** Blocks are numbered below the next one. *)
Definition well_placed (s : Ffi) : Prop := forall b, is_Some (cells s !! b) -> (b < next_block s)%nat.

Record keeps (F : list nat) (s0 s : Ffi) : Prop := {
  keeps_shape b x : cells s0 !! b = Some x -> exists y, cells s !! b = Some y /\ same_shape x y;
  keeps_frame b : b ∉ F -> (b < next_block s0)%nat -> cells s !! b = cells s0 !! b;
  keeps_next : (next_block s0 <= next_block s)%nat;
  keeps_placed : well_placed s
}.

#[export] Instance same_shape_refl : Reflexive same_shape.
Proof. by intros []. Qed.
#[export] Instance same_shape_trans : Transitive same_shape.
Proof. intros [] [] []; simpl; try done. intros [-> ->] [-> ->]. done. Qed.

Lemma keeps_refl F s : well_placed s -> keeps F s s.
Proof. intros Hw. split; [|done|done|done]. intros b x ->. by exists x. Qed.

(** Overwriting a cell of the footprint with one of its shape. *)
Lemma keeps_insert F s0 s b x y : keeps F s0 s -> b ∈ F -> cells s !! b = Some x -> same_shape x y ->
  keeps F s0 (set_cells (<[b := y]> (cells s)) s).
Proof.
  intros [H1 H2 H3 H4] Hb Hx Hs. split; cbn [cells next_block set_cells]; [| |done|].
  - intros b' z Hz. destruct (H1 b' z Hz) as (z' & Hz' & Hsh). destruct (decide (b' = b)) as [->|Hne].
    + rewrite lookup_insert_eq. exists y. split; [done|]. rewrite Hx in Hz'. injection Hz' as <-. by transitivity x.
    + rewrite lookup_insert_ne by done. by exists z'.
  - intros b' Hn Hlt. destruct (decide (b' = b)) as [->|Hne]; [done|]. rewrite lookup_insert_ne by done. by apply H2.
  - intros b' Hs'. cbn [cells next_block set_cells] in *. destruct (decide (b' = b)) as [->|Hne]; [apply H4; by eexists|].
    rewrite lookup_insert_ne in Hs' by done. by apply H4.
Qed.

Lemma keeps_alloc F s0 s x : well_placed s0 -> keeps F s0 s ->
  keeps F s0 (mkFfi (<[next_block s := x]> (cells s)) (S (next_block s)) (last_error s) (thread_rng s)).
Proof.
  intros Hw [H1 H2 H3 H4]. split; cbn [cells next_block].
  - intros b y Hy. rewrite lookup_insert_ne; [by apply H1|]. intros <-. pose proof (Hw _ (ex_intro _ y Hy)). lia.
  - intros b Hn Hlt. rewrite lookup_insert_ne by lia. by apply H2.
  - lia.
  - intros b Hb. cbn [cells next_block] in *. destruct (decide (b = next_block s)) as [->|Hne]; [lia|].
    rewrite lookup_insert_ne in Hb by done. pose proof (H4 b Hb). lia.
Qed.

(** Only the cells count. *)
Lemma keeps_cells F s0 s s' : cells s' = cells s -> next_block s' = next_block s -> keeps F s0 s -> keeps F s0 s'.
Proof. intros E1 E2 [H1 H2 H3 H4]. split; unfold well_placed; rewrite ?E1, ?E2; done. Qed.

(** ** Pointers stay valid *)

Lemma slice_shape p n m m' : (forall b x, m !! b = Some x -> exists y, m' !! b = Some y /\ same_shape x y) ->
  is_Some (slice_at p n m) -> is_Some (slice_at p n m').
Proof.
  intros H [d Hd]. destruct p as [| |b off]; simpl in *; [done|by eexists|]. destruct (n =? 0); [by eexists|].
  destruct (m !! b) as [[v x| | | |]|] eqn:E; try done. destruct (H b _ E) as (y & -> & Hs). destruct y; try done.
  destruct Hs as [<- Hl]. unfold len in *. rewrite <- Hl. destruct (_ && _); [by eexists | done].
Qed.

Lemma buffer_shape p m m' : (forall b x, m !! b = Some x -> exists y, m' !! b = Some y /\ same_shape x y) ->
  is_Some (buffer_at p m) -> is_Some (buffer_at p m').
Proof.
  intros H [d Hd]. destruct p as [| |b [|off]]; simpl in *; try done. destruct (m !! b) as [[]|] eqn:E; try done.
  destruct (H b _ E) as (y & -> & Hs). by destruct y.
Qed.

Lemma handle_shape p m m' : (forall b x, m !! b = Some x -> exists y, m' !! b = Some y /\ same_shape x y) ->
  is_Some (handle_at p m) -> is_Some (handle_at p m').
Proof.
  intros H [d Hd]. destruct p as [| |b [|off]]; simpl in *; try done. destruct (m !! b) as [[]|] eqn:E; try done.
  destruct (H b _ E) as (y & -> & Hs). by destruct y.
Qed.

Lemma context_shape p m m' : (forall b x, m !! b = Some x -> exists y, m' !! b = Some y /\ same_shape x y) ->
  is_Some (context_at p m) -> is_Some (context_at p m').
Proof.
  intros H [d Hd]. destruct p as [| |b [|off]]; simpl in *; try done. destruct (m !! b) as [[]|] eqn:E; try done.
  destruct (H b _ E) as (y & -> & Hs). by destruct y.
Qed.

Lemma slice_shorter p n k m : 0 <= k <= n -> is_Some (slice_at p n m) -> is_Some (slice_at p k m).
Proof.
  intros Hk [d Hd]. destruct p as [| |b off]; simpl in *; [done| |].
  - destruct (Z.eqb_spec n 0); [|done]. destruct (Z.eqb_spec k 0); [by eexists | lia].
  - destruct (Z.eqb_spec k 0); [by eexists|]. destruct (Z.eqb_spec n 0); [lia|]. destruct (m !! b) as [[v x| | | |]|]; try done.
    destruct (Z.leb_spec (Z.of_nat off + n) (len x)), (Z.leb_spec n ISIZE_MAX); try done.
    destruct (Z.leb_spec (Z.of_nat off + k) (len x)), (Z.leb_spec k ISIZE_MAX); simpl; eauto; lia.
Qed.

Lemma length_splice off b d : (off + length b <= length d)%nat -> length (splice off b d) = length d.
Proof. intros H. unfold splice. rewrite !length_app, length_take, length_drop. lia. Qed.

(** ** Triples *)

Section Safe.
Context {P : Primitives} {H : HashOrder} {A : Allocator}.
Context (env : Env) (F : list nat) (s0 : Ffi).

(** [m] never runs into undefined behaviour, touches only [F] and what is new,
    and returns values of [Q]. *)
Definition safe {X} (m : FfiM X) (Q : X -> Prop) : Prop := forall s c, keeps F s0 s ->
  keeps F s0 (snd (fst (m env s c))) /\
  match fst (fst (m env s c)) with Ok a => Q a | Err _ => False | Panic => True end.

Lemma safe_bind {X Y} (m : FfiM X) (k : X -> FfiM Y) Q R :
  safe m Q -> (forall a, Q a -> safe (k a) R) -> safe (bind m k) R.
Proof.
  intros Hm Hk s c Hs. destruct (Hm s c Hs) as [H1 H2]. unfold bind.
  destruct (m env s c) as [[[a|e|] s'] c']; cbn in *; [|done|done]. by apply (Hk a).
Qed.

Lemma safe_ret {X} (a : X) (Q : X -> Prop) : Q a -> safe (ret a) Q.
Proof. by intros Hq s c Hs. Qed.

Lemma safe_panic {X} (Q : X -> Prop) : safe (res Panic) Q.
Proof. by intros s c Hs. Qed.

Lemma safe_get {Y} (k : Ffi -> FfiM Y) R : (forall s, keeps F s0 s -> safe (k s) R) -> safe (bind get k) R.
Proof. intros Hk s c Hs. by apply (Hk s). Qed.

Lemma safe_modify f : (forall s, keeps F s0 s -> keeps F s0 (f s)) -> safe (modify f) (fun _ => True).
Proof. intros Hf s c Hs. split; [by apply Hf | done]. Qed.

Lemma safe_weaken {X} (m : FfiM X) (Q R : X -> Prop) : safe m Q -> (forall a, Q a -> R a) -> safe m R.
Proof. intros Hm Hq s c Hs. destruct (Hm s c Hs) as [H1 H2]. split; [done|]. destruct (fst (fst (m env s c))); auto. Qed.

Lemma safe_reject msg r : safe (reject msg r) (fun _ => True).
Proof.
  eapply safe_bind; [|by intros; apply safe_ret]. apply safe_modify. intros s. by apply keeps_cells.
Qed.

Lemma safe_try_lift {E X} (m : IO E X) : safe (m_try (lift m)) (fun r => r <> Panic).
Proof. intros s c Hs. unfold m_try, lift. by destruct (m env c) as [[] ?]. Qed.

Lemma safe_read p n : is_Some (slice_at p n (cells s0)) -> safe (from_raw_parts p n) (fun _ => True).
Proof.
  intros Hp s c Hs. unfold from_raw_parts, bind, get.
  destruct (slice_shape p n _ (cells s) (keeps_shape _ _ _ Hs) Hp) as [d ->]. done.
Qed.

Lemma safe_copy_out p b : is_Some (slice_at p (len b) (cells s0)) -> block p ⊆ F -> (0 < length b)%nat ->
  safe (copy_out p b) (fun _ => True).
Proof.
  intros Hp Hf Hb s c Hs. unfold copy_out, bind, get.
  destruct (slice_shape p (len b) _ (cells s) (keeps_shape _ _ _ Hs) Hp) as [d Hd]. rewrite Hd. unfold defined, ret.
  destruct p as [| |k off]; simpl in Hd; [done| |].
  - destruct (Z.eqb_spec (len b) 0); [unfold len in *; lia | done].
  - destruct (Z.eqb_spec (len b) 0); [unfold len in *; lia|]. destruct (cells s !! k) as [[v x| | | |]|] eqn:E; try done.
    destruct (Z.leb_spec (Z.of_nat off + len b) (len x)); [|done]. unfold modify. cbn [fst snd]. split; [|done].
    eapply keeps_insert; [done| |done|]; [apply Hf; set_solver|]. split; [done|]. symmetry. apply length_splice. unfold len in *. lia.
Qed.

Lemma safe_write_buffer p x : is_Some (buffer_at p (cells s0)) -> block p ⊆ F -> safe (write_buffer p x) (fun _ => True).
Proof.
  intros Hp Hf s c Hs. unfold write_buffer, bind, get.
  destruct (buffer_shape p _ (cells s) (keeps_shape _ _ _ Hs) Hp) as [d Hd].
  destruct p as [| |b [|off]]; try done. rewrite Hd. simpl in Hd. destruct (cells s !! b) as [[]|] eqn:E; try done. split; [|done].
  eapply keeps_insert; [done| |done|done]. apply Hf. set_solver.
Qed.

Lemma safe_write_handle p x : is_Some (handle_at p (cells s0)) -> block p ⊆ F -> safe (write_handle p x) (fun _ => True).
Proof.
  intros Hp Hf s c Hs. unfold write_handle, bind, get.
  destruct (handle_shape p _ (cells s) (keeps_shape _ _ _ Hs) Hp) as [d Hd].
  destruct p as [| |b [|off]]; try done. rewrite Hd. simpl in Hd. destruct (cells s !! b) as [[]|] eqn:E; try done. split; [|done].
  eapply keeps_insert; [done| |done|done]. apply Hf. set_solver.
Qed.

Lemma safe_alloc x : well_placed s0 -> safe (alloc x) (fun _ => True).
Proof. intros Hw s c Hs. split; [by apply keeps_alloc | done]. Qed.

Lemma safe_into_raw x : well_placed s0 -> safe (into_raw x) (fun _ => True).
Proof. intros Hw. eapply safe_bind; [by apply safe_alloc|]. intros b _. by apply safe_ret. Qed.

Lemma safe_buffer_new v : well_placed s0 -> safe (ByteBuffer_new v) (fun _ => True).
Proof.
  intros Hw. unfold ByteBuffer_new. destruct (_ =? 0); [by apply safe_ret|]. eapply safe_bind; [by apply safe_alloc|]. intros b _. by apply safe_ret.
Qed.

(** What a method of the context returns. *)
Lemma safe_on_context {E X} p (m : M SecureContext E X) (Q : X -> Prop) :
  is_Some (context_at p (cells s0)) -> block p ⊆ F ->
  (forall ctx c a ctx' c', m env ctx c = (Ok a, ctx', c') -> Q a) ->
  safe (on_context p m) (fun r => match r with Ok a => Q a | Err _ => True | Panic => False end).
Proof.
  intros Hp Hf Hq s c Hs. unfold on_context, bind, get.
  destruct (context_shape p _ (cells s) (keeps_shape _ _ _ Hs) Hp) as [ctx Hd].
  destruct p as [| |b [|off]]; try done. rewrite Hd. simpl in Hd. destruct (cells s !! b) as [[]|] eqn:Eb; try done.
  unfold m_try, zoom. destruct (m env ctx c) as [[r ctx'] c'] eqn:Em.
  assert (Hk : keeps F s0 (set_cells (<[b := ContextBox ctx']> (cells s)) s)).
  { eapply keeps_insert; [done| |done|done]. apply Hf. set_solver. }
  destruct r as [a|e|]; cbn [fst snd]; split; try done. by eapply Hq.
Qed.

Lemma safe_new_context fuel cfg pw :
  safe (m_try (zoom thread_rng set_thread_rng (SecureContext_new fuel cfg pw))) (fun _ => True).
Proof.
  intros s c Hs. unfold m_try, zoom. destruct (SecureContext_new fuel cfg pw env (thread_rng s) c) as [[r t] c'].
  assert (keeps F s0 (set_thread_rng t s)) by (by apply (keeps_cells F s0 s)).
  by destruct r.
Qed.

Lemma safe_code m Q : safe m Q -> safe (code m) (fun _ => True).
Proof. intros Hm. eapply safe_bind; [exact Hm|]. intros r _. by apply safe_ret. Qed.

Lemma safe_return_buffer out r : well_placed s0 -> is_Some (buffer_at out (cells s0)) -> block out ⊆ F -> safe (return_buffer out r) (fun _ => True).
Proof.
  intros Hw Ho Hf. destruct r as [v|e|]; [|apply safe_reject | apply safe_panic].
  eapply safe_bind; [by apply safe_buffer_new|]. intros b _. eapply safe_bind; [by apply safe_write_buffer|].
  intros ? _. by apply safe_ret.
Qed.

Lemma safe_return_unit {X} (r : PResult X) : safe (return_unit r) (fun _ => True).
Proof. destruct r; [by apply safe_ret | apply safe_reject | apply safe_panic]. Qed.

Lemma safe_read_ad p n : reads p n (cells s0) -> safe (read_ad p n) (fun _ => True).
Proof. intros [-> | Hp]; unfold read_ad; [by apply safe_ret|]. destruct (is_null p); [by apply safe_ret | by apply safe_read]. Qed.

Lemma safe_read_ad_opt p n : may_read p n (cells s0) -> safe (read_ad_opt p n) (fun _ => True).
Proof.
  intros Hr. unfold read_ad_opt. destruct (is_null p || (n =? 0)) eqn:E; [by apply safe_ret|].
  apply orb_false_elim in E as [En Ez]. apply Z.eqb_neq in Ez. destruct Hr as [-> | [-> | Hp]]; try done.
  eapply safe_bind; [by apply safe_read|]. intros b _. by apply safe_ret.
Qed.

End Safe.

(** ** Every call *)

Lemma use_reads p n m : reads p n m -> is_null p = false -> is_Some (slice_at p n m).
Proof. by intros [-> | ?]. Qed.
Lemma use_buffer p m : is_buffer p m -> is_null p = false -> is_Some (buffer_at p m).
Proof. by intros [-> | ?]. Qed.
Lemma use_handle p m : is_handle p m -> is_null p = false -> is_Some (handle_at p m).
Proof. by intros [-> | ?]. Qed.
Lemma use_context p m : is_context p m -> is_null p = false -> is_Some (context_at p m).
Proof. by intros [-> | ?]. Qed.

(** The side conditions of a step: a pointer of the contract that is not null,
    a part of the footprint. *)
Ltac ffi_side :=
  repeat match goal with E : (_ || _) = false |- _ => apply orb_false_elim in E as [? ?] end;
  first [ assumption
        | eapply use_reads; eassumption | eapply use_buffer; eassumption
        | eapply use_handle; eassumption | eapply use_context; eassumption
        | intros ?; rewrite ?elem_of_app; tauto ].

(** One step of a call. *)
Ltac ffi_step :=
  match goal with
  | |- safe _ _ _ null_argument _ => apply safe_reject
  | |- safe _ _ _ (reject _ _) _ => apply safe_reject
  | |- safe _ _ _ (map_error _) _ => apply safe_reject
  | |- safe _ _ _ (ret _) _ => by apply safe_ret
  | |- safe _ _ _ (res Panic) _ => apply safe_panic
  | |- safe _ _ _ (return_unit _) _ => apply safe_return_unit
  | |- safe _ _ _ (return_buffer _ _) _ => apply safe_return_buffer; ffi_side
  | |- safe _ _ _ (if ?b then _ else _) _ => let E := fresh "E" in destruct b eqn:E
  | |- safe _ _ _ (bind (reject _ _) _) _ => eapply safe_bind; [apply safe_reject | intros ? _]
  | |- safe _ _ _ (bind (from_raw_parts _ _) _) _ => eapply safe_bind; [apply safe_read; ffi_side | intros ? _]
  | |- safe _ _ _ (bind (read_ad _ _) _) _ => eapply safe_bind; [apply safe_read_ad; ffi_side | intros ? _]
  | |- safe _ _ _ (bind (read_ad_opt _ _) _) _ => eapply safe_bind; [apply safe_read_ad_opt; ffi_side | intros ? _]
  | |- safe _ _ _ (bind (ByteBuffer_new _) _) _ => eapply safe_bind; [apply safe_buffer_new; ffi_side | intros ? _]
  | |- safe _ _ _ (bind (into_raw _) _) _ => eapply safe_bind; [apply safe_into_raw; ffi_side | intros ? _]
  | |- safe _ _ _ (bind (write_buffer _ _) _) _ => eapply safe_bind; [apply safe_write_buffer; ffi_side | intros ? _]
  | |- safe _ _ _ (bind (write_handle _ _) _) _ => eapply safe_bind; [apply safe_write_handle; ffi_side | intros ? _]
  | |- safe _ _ _ (bind (m_try (lift _)) _) _ => eapply safe_bind; [apply safe_try_lift | intros ? ?]
  | |- safe _ _ _ (bind (m_try (zoom _ _ (SecureContext_new _ _ _))) _) _ => eapply safe_bind; [apply safe_new_context | intros ? _]
  | |- safe _ _ _ (bind (on_context _ _) _) _ =>
      eapply safe_bind; [apply (safe_on_context _ _ _ _ _ (fun _ => True)); [ffi_side | ffi_side | done] | intros ? _]
  | |- safe _ _ _ (match ?x with _ => _ end) _ => destruct x
  end.
Ltac ffi_steps := repeat ffi_step.

Section Calls.
Context {P : Primitives} {L : PrimitiveLaws P} {H : HashOrder} {A : Allocator}.

Lemma identity_generate_run {E} env c : exists seed xs t c', length seed = 32%nat /\ length xs = 32%nat /\
  IdentityKeyPair_generate (E := E) env c = (Ok (mkIdentity (Some seed) (ed25519_public seed) (Some xs) (x25519_public xs) t), c').
Proof.
  eexists _, _, _, _. split; [|split]; [| |unfold IdentityKeyPair_generate, io_bind, os_bytes, read_secs_or_far, io_ret; reflexivity].
  - by rewrite length_map, length_seq.
  - by rewrite length_map, length_seq.
Qed.

Lemma generated_lengths ctx env c i ctx' c' : generate_identity env ctx c = (Ok i, ctx', c') ->
  length (ik_ed_public i) = 32%nat /\ length (ik_x_public i) = 32%nat.
Proof.
  unfold generate_identity. intros E. apply bind_ok_inv in E as (k & s1 & c1 & E1 & E).
  apply bind_ok_inv in E as (u & s2 & c2 & _ & E). apply ret_ok_inv in E as (-> & _ & _). unfold lift in E1.
  destruct (identity_generate_run (E := ProtocolError.t) env c) as (seed & xs & t & c3 & Hs & Hx & Eg). rewrite Eg in E1.
  injection E1 as <- _ _. cbn. split; [by apply ed25519_public_ok | by apply x25519_public_len].
Qed.

Lemma identity_sign_len k d sg : identity_sign k d = Ok sg -> length sg = 64%nat.
Proof. unfold identity_sign. destruct (ik_ed_secret k); [|done]. cbn. intros [= <-]. apply ed25519_sign_len. Qed.

Lemma len_nat {X} (l : list X) n : length l = n -> len l = Z.of_nat n.
Proof. unfold len. by intros ->. Qed.

(** The calls that give nothing back. *)
Definition frees (call : FfiCall) : bool :=
  match call with ContextDestroy _ | SessionDestroy _ | FreeBuffer _ => true | _ => false end.

Lemma random_out_safe env F s0 n p : 0 < n -> is_Some (slice_at p n (cells s0)) -> block p ⊆ F ->
  safe env F s0 (random_out n p) (fun _ => True).
Proof.
  intros Hn Hp Hf. unfold random_out. do 2 ffi_step; [|ffi_step|ffi_step]. eapply safe_bind; [by apply safe_read|]. intros _ _.
  eapply (safe_bind _ _ _ _ _ (fun x => length (fst x) = Z.to_nat n)).
  - intros s c Hs. unfold lift, run_on. destruct (fill_bytes_ok (E := Ub) (Z.to_nat n) env a c) as (b & r' & c' & Eb & Hb); [lia|].
    rewrite Eb. by split.
  - intros [b r'] Hb. cbn [fst] in Hb. eapply safe_bind; [|intros ? _; by apply safe_ret].
    apply safe_copy_out; [|exact Hf|lia]. rewrite (len_nat b _ Hb), Z2Nat.id by lia. done.
Qed.

(** The string functions. *)
Lemma copy_string_safe env F s0 p n b : reads p n (cells s0) -> is_null p = false -> block p ⊆ F -> len b <= n -> (0 < length b)%nat ->
  safe env F s0 (let! _ := copy_out p b in ret SibnaResult.Ok) (fun _ => True).
Proof.
  intros Hr Hp Hf Hn Hb. eapply safe_bind; [|intros ? _; by apply safe_ret]. apply safe_copy_out; [|done|done].
  eapply slice_shorter; [|by eapply use_reads]. pose proof (len_nonneg b). lia.
Qed.

Lemma call_safe env fuel s0 call : well_placed s0 -> contract (cells s0) call -> frees call = false ->
  safe env (footprint (cells s0) call) s0 (ffi_call fuel call) (fun _ => True).
Proof.
  intros Hw Hc Hf. destruct call; try discriminate Hf; cbn [ffi_call contract footprint] in *; clear Hf; unfold code, void.
  all: try (eapply (safe_bind _ _ _ _ _ (fun _ => True)); [|intros ? _; by apply safe_ret]).
  all: repeat match goal with Hc : _ /\ _ |- _ => destruct Hc end.
  - unfold sibna_context_create. ffi_steps.
  - unfold sibna_context_set_device_link. ffi_steps.
  - unfold sibna_version. ffi_steps. eapply copy_string_safe; [done|done|ffi_side| |vm_compute; lia]. by apply Z.ltb_ge.
  - unfold sibna_encrypt. ffi_steps.
  - unfold sibna_decrypt. ffi_steps.
  - unfold sibna_random_bytes. ffi_steps. apply random_out_safe; [|ffi_side|ffi_side].
    apply orb_false_elim in E0 as [E1 _]. apply Z.eqb_neq in E1. lia.
  - unfold sibna_generate_key. ffi_steps. apply random_out_safe; [lia|ffi_side|ffi_side].
  - unfold sibna_last_error. apply safe_get. intros s Hs. ffi_steps.
    eapply copy_string_safe; [done|done|ffi_side| |rewrite length_app; simpl; lia]. by apply Z.ltb_ge.
  - unfold sibna_session_create. ffi_steps.
  - unfold sibna_generate_identity. ffi_step; [ffi_step|].
    eapply safe_bind; [apply safe_on_context; [ffi_side | ffi_side | by intros *; apply generated_lengths] | intros r Hr].
    destruct r as [i|e|]; [|ffi_step|ffi_step]. destruct Hr as [H1' H2'].
    eapply safe_bind; [apply safe_copy_out; [rewrite (len_nat _ _ H1'); ffi_side | ffi_side | lia] | intros ? _].
    eapply safe_bind; [apply safe_copy_out; [rewrite (len_nat _ _ H2'); ffi_side | ffi_side | lia] | intros ? _]. ffi_step.
  - unfold sibna_generate_prekey_bundle. ffi_steps.
  - unfold sibna_perform_handshake. ffi_steps.
  - unfold sibna_session_encrypt. ffi_steps.
  - unfold sibna_session_decrypt. ffi_steps.
  - unfold sibna_identity_sign. ffi_step; [ffi_step|]. ffi_step; [ffi_step|]. do 2 ffi_step. ffi_step; [|ffi_step|ffi_step].
    match goal with |- context [identity_sign ?k ?d] => destruct (identity_sign k d) as [sg|e|] eqn:Es end; [|ffi_step|ffi_step].
    apply identity_sign_len in Es.
    eapply safe_bind; [apply safe_copy_out; [rewrite (len_nat _ _ Es); ffi_side | ffi_side | lia] | intros ? _]. ffi_step.
  - unfold sibna_identity_verify. ffi_steps.
  - unfold sibna_identity_destroy. ffi_steps.
  - unfold sibna_group_create. ffi_steps.
  - unfold sibna_group_destroy. ffi_steps.
Qed.

(** ** Giving back *)

(** The state after a call that may free. *)
Definition framed (F : list nat) (s0 s : Ffi) : Prop :=
  well_placed s /\ (next_block s0 <= next_block s)%nat /\
  forall b, b ∉ F -> (b < next_block s0)%nat -> cells s !! b = cells s0 !! b.

Lemma keeps_framed F s0 s : keeps F s0 s -> framed F s0 s.
Proof. by intros [H1 H2 H3 H4]. Qed.

Lemma framed_delete F s0 s b : framed F s0 s -> b ∈ F -> framed F s0 (set_cells (delete b (cells s)) s).
Proof.
  intros (H1 & H2 & H3) Hb. split; [|split; [done|]]; cbn [cells next_block set_cells].
  - intros b' [x Hx]. cbn [cells next_block set_cells] in *. apply lookup_delete_Some in Hx as [_ Hx]. apply H1. by eexists.
  - intros b' Hn Hl. rewrite lookup_delete_ne by (by intros ->). by apply H3.
Qed.

Lemma framed_insert F s0 s b x : framed F s0 s -> b ∈ F -> is_Some (cells s !! b) -> framed F s0 (set_cells (<[b := x]> (cells s)) s).
Proof.
  intros (H1 & H2 & H3) Hb Hx. split; [|split; [done|]]; cbn [cells next_block set_cells].
  - intros b' Hs. cbn [cells next_block set_cells] in *. destruct (decide (b' = b)) as [->|Hne]; [by apply H1|].
    rewrite lookup_insert_ne in Hs by done. by apply H1.
  - intros b' Hn Hl. rewrite lookup_insert_ne by (by intros ->). by apply H3.
Qed.

Lemma framed_cells F s0 s s' : cells s' = cells s -> next_block s' = next_block s -> framed F s0 s -> framed F s0 s'.
Proof. intros E1 E2 (H1 & H2 & H3). unfold framed, well_placed. by rewrite E1, E2. Qed.

Lemma framed_refl F s : well_placed s -> framed F s s.
Proof. by intros Hw. Qed.

Lemma zeroize_run k v d n env s c : cells s !! k = Some (Bytes v d) -> 0 <= n <= len d -> len d <= ISIZE_MAX ->
  exists d', length d' = length d /\
    zeroize_slice (At k 0) n env s c = (Ok tt, set_cells (<[k := Bytes v d']> (cells s)) s, c).
Proof.
  intros Hk Hn Hd. unfold zeroize_slice, from_raw_parts. unfold bind at 1, bind at 1, get. cbn [slice_at].
  destruct (Z.eqb_spec n 0) as [E0|E0].
  { exists d. split; [done|]. unfold defined, ret. rewrite insert_id by done. by destruct s. }
  rewrite Hk. change (Z.of_nat 0) with 0. rewrite Z.add_0_l.
  destruct (Z.leb_spec n (len d)); [|lia]. destruct (Z.leb_spec n ISIZE_MAX); [|lia]. cbn [andb].
  unfold defined, ret, drop. set (z := zeros _).
  assert (Hz : length z = Z.to_nat n) by (unfold z; rewrite length_zeros, length_take; unfold len in *; lia).
  exists (splice 0 z d). split; [apply length_splice; unfold len in *; lia|].
  unfold copy_out. unfold bind at 1, get. cbn [slice_at]. rewrite (len_nat z _ Hz), Z2Nat.id, Hk by lia.
  destruct (Z.eqb_spec n 0); [lia|]. change (Z.of_nat 0) with 0. rewrite Z.add_0_l.
  destruct (Z.leb_spec n (len d)); [|lia]. destruct (Z.leb_spec n ISIZE_MAX); [|lia]. done.
Qed.

(** What [sibna_free_buffer] does: the allocation is gone, the variable empty. *)
Lemma free_buffer_run v b env s c : cells s !! v = Some (BufferVar b) -> live_buffer b (cells s) ->
  exists s', ByteBuffer_free (At v 0) env s c = (Ok tt, s', c) /\ next_block s' = next_block s /\
    cells s' = match bb_data b with
               | Null => cells s
               | Dangling => <[v := BufferVar ByteBuffer_empty]> (cells s)
               | At k _ => <[v := BufferVar ByteBuffer_empty]> (delete k (cells s))
               end.
Proof.
  intros Hv Hl. unfold ByteBuffer_free. unfold bind at 1, get. cbn [buffer_at]. rewrite Hv. unfold bind at 1, defined, ret.
  unfold live_buffer in Hl. destruct (bb_data b) as [| |k off] eqn:Ed; cbn [is_null].
  - by exists s.
  - destruct Hl as [-> ->]. unfold bind at 1, zeroize_slice, from_raw_parts, bind at 1, bind at 1, get. cbn.
    rewrite Hv. by eexists.
  - destruct Hl as (-> & d & Hk & Hn & Hd). assert (Hne : k <> v) by congruence.
    destruct (zeroize_run k _ d (bb_len b) env s c Hk Hn Hd) as (d' & Hd' & Ez).
    unfold bind at 1. rewrite Ez. unfold bind at 1, vec_from_raw_parts, bind at 1, get. cbn [cells set_cells].
    rewrite lookup_insert_eq, Z.eqb_refl. unfold len. rewrite Hd'. destruct (Z.leb_spec (bb_len b) (Z.of_nat (length d))); [|unfold len in *; lia].
    cbn [andb]. unfold bind at 1, modify, ret. unfold write_buffer, bind, get. cbn [buffer_at cells set_cells].
    rewrite lookup_delete_ne, lookup_insert_ne, Hv by done. unfold modify. eexists. split; [reflexivity|]. split; [done|].
    cbn [cells set_cells]. by rewrite delete_insert_eq.
Qed.

Lemma free_framed env s c p : well_placed s -> contract (cells s) (FreeBuffer p) ->
  exists s', sibna_free_buffer p env s c = (Ok tt, s', c) /\ framed (footprint (cells s) (FreeBuffer p)) s s'.
Proof.
  intros Hw [-> | (b & Hb & Hl)]; [by exists s|]. destruct p as [| |v [|off]]; try done. simpl in Hb.
  destruct (cells s !! v) as [[|x| | |]|] eqn:Ev; try done. injection Hb as ->.
  destruct (free_buffer_run v b env s c Ev Hl) as (s' & E & En & Ec). exists s'. split; [exact E|].
  cbn [footprint buffer_at block]. rewrite Ev. unfold live_buffer in Hl.
  destruct (bb_data b) as [| |k off]; cbn [block app].
  - by apply (framed_cells _ _ s), framed_refl.
  - apply (framed_cells _ _ (set_cells (<[v := BufferVar ByteBuffer_empty]> (cells s)) s)); [done..|].
    apply framed_insert; [by apply framed_refl | (cbn; rewrite ?elem_of_cons; auto) | by eexists].
  - assert (k <> v) by (intros ->; destruct Hl as (_ & d & Hd & _); congruence).
    set (s1 := set_cells (delete k (cells s)) s).
    apply (framed_cells _ _ (set_cells (<[v := BufferVar ByteBuffer_empty]> (cells s1)) s1)); [done..|].
    apply framed_insert; [apply framed_delete; [by apply framed_refl | (cbn; rewrite ?elem_of_cons; auto)] | set_solver |].
    cbn [cells set_cells s1]. rewrite lookup_delete_ne by done. by eexists.
Qed.

(** C30: the C interface is memory-safe.  A call whose pointers are each null or
    valid for what the function does with them (a buffer to free is one that was
    not freed before) never runs into undefined behaviour, whatever the
    contents.  It writes only to its output buffers, the context it was given
    and memory it allocates itself: every other allocation of the caller is
    unchanged. *)
Theorem ffi_call_is_safe fuel call env s c : well_placed s -> contract (cells s) call ->
  fst (fst (ffi_call fuel call env s c)) <> Err Undefined /\
  framed (footprint (cells s) call) s (snd (fst (ffi_call fuel call env s c))).
Proof.
  intros Hw Hc. destruct (frees call) eqn:Ef.
  - destruct call as [|p| | | | | | |p| | |p| | | | | | | | | |]; try discriminate Ef; cbn [ffi_call footprint]; unfold void, bind.
    + unfold sibna_context_destroy. destruct Hc as [-> | Hc]; [by split; [|apply framed_refl]|].
      destruct p as [| |b [|off]]; try (by destruct Hc). cbn [is_null]. unfold drop_context, bind, get.
      cbn [context_at] in *. destruct Hc as [x Hx]. rewrite Hx. split; [done|]. apply framed_delete; [by apply framed_refl | (cbn; rewrite ?elem_of_cons; auto)].
    + destruct (free_framed env s c p Hw Hc) as (s' & -> & Hf). by split.
    + unfold sibna_session_destroy. destruct Hc as [-> | Hc]; [by split; [|apply framed_refl]|].
      destruct p as [| |b [|off]]; try (by destruct Hc). cbn [is_null]. unfold drop_session, bind, get.
      cbn [session_box_at] in *. destruct Hc as [x Hx]. rewrite Hx. split; [done|]. apply framed_delete; [by apply framed_refl | (cbn; rewrite ?elem_of_cons; auto)].
  - destruct (call_safe env fuel s call Hw Hc Ef s c (keeps_refl _ _ Hw)) as [Hk Hr]. split; [|by apply keeps_framed].
    intros E. by rewrite E in Hr.
Qed.

(** ** Programs of calls *)

(** A C program: the calls one after the other, until one of them panics, which
    ends the process. *)
Fixpoint run_calls (fuel : nat) (calls : list FfiCall) : FfiM (list Answer) :=
  match calls with
  | [] => ret []
  | call :: rest => let! a := ffi_call fuel call in let! l := run_calls fuel rest in ret (a :: l)
  end.

(** A call the caller may make, and which gives no memory back. *)
Definition may_call (m : gmap nat Cell) (call : FfiCall) : Prop := contract m call /\ frees call = false.

Lemma session_shape p m m' : (forall b x, m !! b = Some x -> exists y, m' !! b = Some y /\ same_shape x y) ->
  is_Some (session_box_at p m) -> is_Some (session_box_at p m').
Proof.
  intros Hm [d Hd]. destruct p as [| |b [|off]]; simpl in *; try done. destruct (m !! b) as [[]|] eqn:E; try done.
  destruct (Hm b _ E) as (y & -> & Hs). by destruct y.
Qed.

(** A pointer that was valid is valid in every memory whose cells keep their types. *)
Lemma contract_shape m m' call : (forall b x, m !! b = Some x -> exists y, m' !! b = Some y /\ same_shape x y) ->
  (forall p, call <> FreeBuffer p) -> contract m call -> contract m' call.
Proof.
  intros Hm Hf. pose proof (fun p n => slice_shape p n m m' Hm). pose proof (fun p => buffer_shape p m m' Hm).
  pose proof (fun p => handle_shape p m m' Hm). pose proof (fun p => context_shape p m m' Hm). pose proof (fun p => session_shape p m m' Hm).
  destruct call as [| | | | | | | |p| | | | | | | | | | | | |]; try (by destruct (Hf p));
    unfold contract, may_read, reads, is_buffer, is_handle, is_context; intuition eauto.
Qed.

Lemma may_call_shape m m' call : (forall b x, m !! b = Some x -> exists y, m' !! b = Some y /\ same_shape x y) ->
  may_call m call -> may_call m' call.
Proof. intros Hm [Hc Hf]. split; [|done]. apply (contract_shape m); [done | by intros p -> | done]. Qed.

(** C31: memory keeps its types.  The cells a C program handed to the library
    (byte buffers of a length, buffer and handle variables, the boxes behind
    handles) keep their kind and their length through every program of calls
    that gives nothing back, whatever the calls answer.  So a program of calls
    that free nothing, all of them valid at the start, never runs into undefined
    behaviour, and all of them, and any other call that frees nothing and was
    valid at the start, still are valid at its end. *)
Theorem memory_keeps_its_types fuel calls env s c : well_placed s -> Forall (may_call (cells s)) calls ->
  fst (fst (run_calls fuel calls env s c)) <> Err Undefined /\
  (forall b x, cells s !! b = Some x ->
     exists y, cells (snd (fst (run_calls fuel calls env s c))) !! b = Some y /\ same_shape x y) /\
  (forall call, may_call (cells s) call -> may_call (cells (snd (fst (run_calls fuel calls env s c)))) call).
Proof.
  intros Hw Hf. match goal with |- ?A /\ ?B /\ _ => assert (A /\ B) as [HA HB]; [|split; [done|]; split; [done|]] end.
  2: { intros call. by apply may_call_shape. }
  revert s c Hw Hf. induction calls as [|call calls IH]; intros s c Hw Hf; [split; [done|]; intros b x Hb; by exists x|].
  apply Forall_cons in Hf as [[Hc Hn] Hf]. cbn [run_calls]. unfold bind at 1 3.
  destruct (call_safe env fuel s call Hw Hc Hn s c (keeps_refl _ _ Hw)) as [[K1 _ _ K4] Hr].
  destruct (ffi_call fuel call env s c) as [[[a|[]|] s1] c1]; cbn [fst snd] in *; [|done|by split].
  destruct (IH s1 c1 K4) as [IH1 IH2]; [eapply Forall_impl; [exact Hf|]; intros; by eapply may_call_shape|].
  unfold bind, ret. destruct (run_calls fuel calls env s1 c1) as [[[l|[]|] s2] c2]; cbn [fst snd] in *; (split; [done|]);
    intros b x Hb; destruct (K1 b x Hb) as (y & Hy & ?), (IH2 b y Hy) as (z & Hz & ?); exists z; (split; [done|]; by transitivity y).
Qed.

End Calls.
