(* ===== verification/FfiProps.v ===== *)
(** * What the C interface delivers

    A round trip through the caller's memory that leaks nothing, and what a
    context made through the interface can do. *)

From S2P Require Import Prelude Effects Errors Primitives Random Handler Padding Encryptor Chain Message RatchetState Session SessionInvariant SessionReceive SessionSend RateLimit Group Bundle KeyStore Builder Context FfiMemory Ffi FfiSafety.
#[local] Open Scope Z_scope.
#[local] Open Scope sibna_scope.

(** ** Contexts made through the interface *)

Section Shut.
Context {P : Primitives} {H : HashOrder} {A : Allocator}.

(** A strict context without peers, sessions and signed prekey. *)
Definition shut (s : SecureContext) : Prop :=
  locked s /\ sessions (ctx_sessions s) = ∅ /\ ks_signed_prekey (ctx_keystore s) = None.

Definition all_shut (s : Ffi) : Prop := forall b ctx, cells s !! b = Some (ContextBox ctx) -> shut ctx.

Lemma store_shut {X} (m : KM X) :
  preserves (fun k => peer_pins k = ∅ /\ ks_signed_prekey k = None) m -> preserves shut (zoom ctx_keystore set_keystore m).
Proof.
  intros Hm. apply (leads_zoom shut _ _ _ _ Hm); [by intros s ((_ & ?) & _ & ?)|]. intros t s [? ?] ((? & _) & ? & _). by split.
Qed.

Lemma gated_shut {X} op p (k : unit -> CM X) :
  preserves shut (let! _ := rate_gate op p in let! u := trust_gate p in k u).
Proof.
  intros env s c [Hl Hs]. destruct (rate_then_trust op p k env s c) as [_ [r ->]]; [apply Hl | by apply locked_unverified |].
  by split.
Qed.

Lemma encrypt_shut id pt ad : preserves shut (ctx_encrypt_message id pt ad).
Proof.
  intros env s c Hs. unfold ctx_encrypt_message, bind at 1.
  pose proof (rate_gate_frame shut (fun _ _ H => H) "encrypt" id env s c Hs) as Hg.
  destruct (rate_gate "encrypt" id env s c) as [[[u|e|] s1] c1]; cbn [fst snd] in Hg; [|done..].
  unfold bind at 1, get at 1. destruct (_ <? _); [done|].
  unfold bind at 1, trust_gate, bind at 1, get at 1. rewrite (locked_unverified s1 id (proj1 Hg)), (proj1 (proj1 Hg)). done.
Qed.

Lemma identity_shut : preserves shut generate_identity.
Proof.
  unfold generate_identity. apply leads_bind; [apply leads_lift|]. intros ?.
  apply leads_bind; [|intros ?; apply leads_ret]. apply store_shut. unfold set_identity. lead_steps.
Qed.

Lemma create_group_shut g : preserves shut (ctx_create_group g).
Proof.
  unfold ctx_create_group. apply leads_bind; [apply group_gate_frame|]. intros _.
  apply leads_bind; [|intros ?; apply leads_ret]. apply (leads_zoom shut (fun _ => True)); [apply leads_any | done | done].
Qed.

(** *** Refusals *)

Lemma decrypt_refused id ct ad env s c : sessions (ctx_sessions s) = ∅ -> is_ok (fst (fst (ctx_decrypt_message id ct ad env s c))) = false.
Proof.
  intros Hs. unfold ctx_decrypt_message, bind at 1. destruct (rate_gate_state "decrypt" id env s c) as [r Hr].
  destruct (rate_gate "decrypt" id env s c) as [[[u|e|] s1] c1]; [|done..]. cbn [fst snd] in Hr. subst s1.
  unfold bind, get, res, get_session. cbn [ctx_sessions set_limiter]. by rewrite Hs, lookup_empty.
Qed.

Lemma bundle_refused env s c : ks_signed_prekey s = None -> is_ok (fst (generate_prekey_bundle_bytes s env c)) = false.
Proof.
  intros Hs. unfold generate_prekey_bundle_bytes, io_bind, io_res. destruct (get_identity_keypair s); try done.
  unfold get_signed_prekey_public, get_signed_prekey. by rewrite Hs.
Qed.

(** *** The memory *)

Lemma defined_shut {X} (o : option X) : preserves all_shut (defined o).
Proof. destruct o; by intros env s c. Qed.

Lemma read_shut p n : preserves all_shut (from_raw_parts p n).
Proof. unfold from_raw_parts. apply leads_bind; [apply leads_get|]. intros s. apply defined_shut. Qed.

(** A new value that is no context in place of a cell, or none. *)
Lemma insert_shut b x s : all_shut s -> (forall ctx, x <> ContextBox ctx) -> all_shut (set_cells (<[b := x]> (cells s)) s).
Proof.
  intros Hs Hx b' ctx. cbn [cells set_cells]. destruct (decide (b' = b)) as [->|Hne].
  - rewrite lookup_insert_eq. intros [= ->]. by destruct (Hx ctx).
  - rewrite lookup_insert_ne by done. apply Hs.
Qed.

Lemma delete_shut b s : all_shut s -> all_shut (set_cells (delete b (cells s)) s).
Proof. intros Hs b' ctx Hc. cbn [cells set_cells] in Hc. apply lookup_delete_Some in Hc as [_ Hc]. by eapply Hs. Qed.

(** Reads of the state that decide a single write. *)
Lemma get_shut {X} (k : Ffi -> FfiM X) : (forall env s c, all_shut s -> all_shut (snd (fst (k s env s c)))) -> preserves all_shut (bind get k).
Proof. intros Hk env s c Hs. unfold bind, get. by apply Hk. Qed.

Lemma copy_out_shut p b : preserves all_shut (copy_out p b).
Proof.
  unfold copy_out. apply get_shut. intros env s c Hs. unfold bind. destruct (slice_at p (len b) (cells s)); [|done]. cbn [defined].
  unfold ret. destruct p as [| |k off]; try done. destruct (cells s !! k) as [[]|]; try done. by apply insert_shut.
Qed.

Lemma write_buffer_shut p x : preserves all_shut (write_buffer p x).
Proof.
  unfold write_buffer. apply get_shut. intros env s c Hs. destruct p as [| |b off]; try done.
  destruct (buffer_at _ _); [|done]. by apply insert_shut.
Qed.

Lemma write_handle_shut p x : preserves all_shut (write_handle p x).
Proof.
  unfold write_handle. apply get_shut. intros env s c Hs. destruct p as [| |b off]; try done.
  destruct (handle_at _ _); [|done]. by apply insert_shut.
Qed.

Lemma alloc_shut x : (forall ctx, x = ContextBox ctx -> shut ctx) -> preserves all_shut (alloc x).
Proof.
  intros Hx env s c Hs b ctx. cbn. destruct (decide (b = next_block s)) as [->|Hne].
  - rewrite lookup_insert_eq. intros [= ->]. by apply Hx.
  - rewrite lookup_insert_ne by done. apply Hs.
Qed.

Lemma into_raw_shut x : (forall ctx, x = ContextBox ctx -> shut ctx) -> preserves all_shut (into_raw x).
Proof. intros Hx. unfold into_raw. apply leads_bind; [by apply alloc_shut|]. intros b. apply leads_ret. Qed.

Lemma buffer_new_shut v : preserves all_shut (ByteBuffer_new v).
Proof. unfold ByteBuffer_new. lead_steps. by apply alloc_shut. Qed.

Lemma on_context_shut {E X} p (m : M SecureContext E X) : preserves shut m -> preserves all_shut (on_context p m).
Proof.
  intros Hm. unfold on_context. apply get_shut. intros env s c Hs. destruct p as [| |b [|off]]; try done.
  destruct (context_at _ _) as [ctx|] eqn:Ec; [|done]. simpl in Ec. destruct (cells s !! b) as [[]|] eqn:Eb; try done. injection Ec as ->.
  specialize (Hm env ctx c (Hs b ctx Eb)). unfold m_try, zoom. destruct (m env ctx c) as [[r ctx'] c']. cbn [fst snd] in Hm.
  assert (all_shut (set_cells (<[b := ContextBox ctx']> (cells s)) s)).
  { intros b' x. cbn [cells set_cells]. destruct (decide (b' = b)) as [->|Hne]; [rewrite lookup_insert_eq; by intros [= <-]|].
    rewrite lookup_insert_ne by done. apply Hs. }
  by destruct r.
Qed.

Lemma reject_shut msg r : preserves all_shut (reject msg r).
Proof. unfold reject, set_last_error. apply leads_bind; [|intros ?; apply leads_ret]. by apply leads_modify. Qed.

Lemma try_lift_shut {E X} (m : IO E X) : preserves all_shut (m_try (F := Ub) (lift m)).
Proof. intros env s c Hs. unfold m_try, lift. by destruct (m env c) as [[] ?]. Qed.

Lemma read_ad_opt_shut p n : preserves all_shut (read_ad_opt p n).
Proof. unfold read_ad_opt. lead_steps. apply read_shut. Qed.

Lemma return_buffer_shut out r : preserves all_shut (return_buffer out r).
Proof.
  unfold return_buffer, map_error. lead_steps; [apply buffer_new_shut | apply write_buffer_shut | apply reject_shut].
Qed.

Lemma vec_shut p n k : preserves all_shut (vec_from_raw_parts p n k).
Proof.
  unfold vec_from_raw_parts. apply get_shut. intros env s c Hs. destruct p as [| |b [|off]]; try done; [by destruct (_ && _)|].
  destruct (cells s !! b) as [[[]| | | |]|]; try done. destruct (_ && _); [|done]. by apply delete_shut.
Qed.

Lemma free_shut p : preserves all_shut (ByteBuffer_free p).
Proof.
  unfold ByteBuffer_free, zeroize_slice. lead_steps;
    first [apply defined_shut | apply read_shut | apply copy_out_shut | apply vec_shut | apply write_buffer_shut].
Qed.

#[local] Hint Resolve read_shut copy_out_shut write_buffer_shut write_handle_shut buffer_new_shut reject_shut try_lift_shut
  read_ad_opt_shut return_buffer_shut free_shut encrypt_shut identity_shut create_group_shut gated_shut : sibna.

Lemma new_context_shut fuel pw : preserves all_shut (m_try (F := Ub) (zoom thread_rng set_thread_rng (SecureContext_new fuel Config_default pw))).
Proof.
  intros env s c Hs. unfold m_try, zoom. by destruct (SecureContext_new _ _ _ env (thread_rng s) c) as [[[] t] c'].
Qed.

Lemma context_create_shut fuel p n out : preserves all_shut (sibna_context_create fuel p n out).
Proof.
  unfold sibna_context_create. do 2 (lead_step; [lead_steps|]). apply leads_bind; [eauto with sibna|]. intros pw env s c Hs.
  unfold bind at 1. pose proof (new_context_shut fuel pw env s c Hs) as Ht.
  destruct (m_try _ env s c) as [[[r|e|] s1] c1] eqn:E; cbn [fst snd] in Ht; [|done..]. destruct r as [[ctx|]|e|]; [|done| |done].
  - assert (Hc : shut ctx).
    { unfold m_try, zoom in E. destruct (SecureContext_new fuel Config_default pw env (thread_rng s) c) as [[r t] c'] eqn:En.
      assert (r = Ok (Some ctx)) as -> by (destruct r; by inversion E).
      apply SecureContext_new_inv in En as (Hk & Hcfg & Hses). unfold shut, locked. by rewrite Hk, Hcfg, Hses. }
    revert Ht. generalize s1 c1. clear E. intros s2 c2 Hs2.
    eapply (leads_bind all_shut); [apply into_raw_shut; by intros ? [= <-] | intros q; lead_steps | exact Hs2].
  - apply (leads_bind all_shut); [apply reject_shut | intros ?; apply leads_ret | exact Ht].
Qed.

Lemma ffi_call_shut fuel call : preserves all_shut (ffi_call fuel call).
Proof.
  destruct call; cbn [ffi_call]; unfold code, void.
  all: apply leads_bind; [|intros ?; apply leads_ret].
  1: apply context_create_shut.
  - unfold sibna_context_destroy. lead_step; [lead_steps|]. unfold drop_context. apply get_shut. intros env s c Hs.
    destruct context as [| |b [|off]]; try done. destruct (context_at _ _); [by apply delete_shut | done].
  - unfold sibna_context_set_device_link, null_argument. lead_steps. apply on_context_shut, leads_modify. by intros x ((? & ?) & ? & ?).
  - unfold sibna_version. lead_steps.
  - unfold sibna_encrypt, null_argument, read_ad. lead_steps.
  - unfold sibna_decrypt, null_argument, read_ad. lead_steps.
  - unfold sibna_random_bytes, random_out. lead_steps.
  - unfold sibna_generate_key, random_out. lead_steps.
  - unfold sibna_free_buffer. lead_steps.
  - unfold sibna_last_error. lead_steps.
  - unfold sibna_session_create, null_argument, map_error. lead_steps; [apply on_context_shut, gated_shut | by apply into_raw_shut].
  - unfold sibna_session_destroy. lead_step; [lead_steps|]. unfold drop_session. apply get_shut. intros env s c Hs.
    destruct session as [| |b [|off]]; try done. destruct (session_box_at _ _); [by apply delete_shut | done].
  - unfold sibna_generate_identity, null_argument, map_error. lead_steps. apply on_context_shut, identity_shut.
  - unfold sibna_generate_prekey_bundle, null_argument. lead_steps. apply on_context_shut. lead_steps.
  - unfold sibna_perform_handshake, null_argument, map_error, return_unit. lead_steps; apply on_context_shut, gated_shut.
  - unfold sibna_session_encrypt, null_argument. lead_steps. apply on_context_shut, encrypt_shut.
  - unfold sibna_session_decrypt, null_argument. lead_steps. apply on_context_shut. by apply decrypt_frame.
  - unfold sibna_identity_sign, null_argument, map_error. lead_steps. apply on_context_shut. lead_steps.
  - unfold sibna_identity_verify, null_argument. lead_steps.
  - unfold sibna_identity_destroy. lead_steps.
  - unfold sibna_group_create, null_argument, return_unit, map_error. lead_steps. apply on_context_shut, create_group_shut.
  - unfold sibna_group_destroy, null_argument, return_unit, map_error. lead_steps. apply on_context_shut, leads_modify. by intros x ((? & ?) & ? & ?).
Qed.

(** ** Runs *)

(** A thread of the caller: a call that returns, or an action of the caller on
    its memory, which may do anything but make up a context box. *)
Inductive ffi_step (env : Env) (fuel : nat) : Ffi * Ctr -> Ffi * Ctr -> Prop :=
| step_call call a s c s' c' : ffi_call fuel call env s c = (Ok a, s', c') -> ffi_step env fuel (s, c) (s', c')
| step_caller s s' c : (forall b ctx, cells s' !! b = Some (ContextBox ctx) -> cells s !! b = Some (ContextBox ctx)) ->
    ffi_step env fuel (s, c) (s', c).

Lemma run_shut env fuel st st' : rtc (ffi_step env fuel) st st' -> all_shut st.1 -> all_shut st'.1.
Proof.
  induction 1 as [|x y z Hs _ IH]; [done|]. intros Hx. apply IH. destruct Hs as [call a s c s' c' E|s s' c Hk]; cbn [fst] in *.
  - pose proof (ffi_call_shut fuel call env s c Hx) as Hy. by rewrite E in Hy.
  - intros b ctx Hb. by eapply Hx, Hk.
Qed.

(** The outcome of a method is that of a context that is shut. *)
Lemma on_context_result {E X} p (m : M SecureContext E X) env s c r s' c' :
  all_shut s -> on_context p m env s c = (Ok r, s', c') -> exists ctx, shut ctx /\ r = fst (fst (m env ctx c)).
Proof.
  intros Hs. unfold on_context, bind, get. destruct p as [| |b [|off]]; try done.
  destruct (context_at _ _) as [ctx|] eqn:Ec; [|done]. simpl in Ec. destruct (cells s !! b) as [[]|] eqn:Eb; try done. injection Ec as ->.
  unfold m_try, zoom. intros E1. exists ctx. split; [by eapply Hs|]. destruct (m env ctx c) as [[[] ctx'] c1]; by inversion E1.
Qed.

(** An error is never reported as success. *)
Lemma map_error_not_ok e env s c s' c' : map_error e env s c <> (Ok SibnaResult.Ok, s', c').
Proof. unfold map_error, reject, set_last_error, bind, modify, ret. by destruct e. Qed.

Lemma refused_buffer out r env s c s' c' : is_ok r = false -> return_buffer out r env s c <> (Ok SibnaResult.Ok, s', c').
Proof. intros Hr. destruct r; try done. apply map_error_not_ok. Qed.

Lemma refused_unit {X} (r : PResult X) env s c s' c' : is_ok r = false -> return_unit r env s c <> (Ok SibnaResult.Ok, s', c').
Proof. intros Hr. destruct r; try done. apply map_error_not_ok. Qed.

Definition denies (m : FfiM SibnaResult.t) : Prop :=
  forall env s c s' c', all_shut s -> m env s c <> (Ok SibnaResult.Ok, s', c').

Lemma denies_bind {X} (m : FfiM X) k : preserves all_shut m -> (forall a, denies (k a)) -> denies (bind m k).
Proof.
  intros Hm Hk env s c s' c' Hs E. apply bind_ok_inv in E as (a & s1 & c1 & E1 & E). specialize (Hm env s c Hs). rewrite E1 in Hm.
  exact (Hk a env s1 c1 s' c' Hm E).
Qed.

Lemma denies_reject msg r : r <> SibnaResult.Ok -> denies (reject msg r).
Proof. intros Hr env s c s' c' _ [= E]. done. Qed.

Lemma denies_map_error e : denies (map_error e).
Proof. intros env s c s' c' _. apply map_error_not_ok. Qed.

(** A method that fails on every shut context. *)
Lemma denies_on_context {X} p (m : CM X) k :
  (forall env ctx c, shut ctx -> is_ok (fst (fst (m env ctx c))) = false) ->
  (forall r env s c s' c', is_ok r = false -> k r env s c <> (Ok SibnaResult.Ok, s', c')) -> denies (bind (on_context p m) k).
Proof.
  intros Hm Hk env s c s' c' Hs E. apply bind_ok_inv in E as (r & s1 & c1 & E1 & E).
  apply (on_context_result p m env s c r s1 c1 Hs) in E1 as (ctx & Hc & ->). by eapply Hk, E; apply Hm.
Qed.

Lemma gated_refused {X} op p (k : unit -> CM X) env ctx c : shut ctx ->
  is_ok (fst (fst ((let! _ := rate_gate op p in let! u := trust_gate p in k u) env ctx c))) = false.
Proof. intros [Hl _]. apply rate_then_trust; [apply Hl | by apply locked_unverified]. Qed.

Ltac denies_steps :=
  repeat match goal with
  | |- denies (if _ then _ else _) => case_match
  | |- denies null_argument => by apply denies_reject
  | |- denies (reject _ _) => by apply denies_reject
  | |- denies (map_error _) => apply denies_map_error
  | |- denies (res Panic) => done
  | |- denies (bind (on_context _ _) _) => apply denies_on_context; [intros e1 ctx c1 Hsh|]
  | |- denies (bind _ _) => apply denies_bind; [eauto with sibna|intros ?]
  | |- denies (match ?x with _ => _ end) => destruct x
  end.

(** The calls that make or use a session, and the published bundle. *)
Definition session_call (call : FfiCall) : bool :=
  match call with
  | SessionCreate _ _ _ _ | PerformHandshake _ _ _ _ _ _ | SessionEncrypt _ _ _ _ _ _ _ _ | SessionDecrypt _ _ _ _ _ _ _ _
  | GeneratePrekeyBundle _ _ => true
  | _ => false
  end.

Lemma session_calls_denied fuel call env s c s' c' : session_call call = true -> all_shut s ->
  ffi_call fuel call env s c <> (Ok (Code SibnaResult.Ok), s', c').
Proof.
  assert (Hcode : forall m, all_shut s -> denies m -> code m env s c <> (Ok (Code SibnaResult.Ok), s', c')).
  { intros m Hs Hm E. apply bind_ok_inv in E as (r & s1 & c1 & E1 & E). apply ret_ok_inv in E as ([= <-] & _ & _).
    by eapply Hm. }
  intros Hc Hs. destruct call; try discriminate Hc; cbn [ffi_call]; apply Hcode; try done.
  - unfold sibna_session_create. denies_steps; [by apply gated_refused|]. intros [] env1 s1 c1 s2 c2 Hr; try done. apply map_error_not_ok.
  - unfold sibna_generate_prekey_bundle. denies_steps.
    + unfold bind, get, lift. pose proof (bundle_refused e1 (ctx_keystore ctx) c1 (proj2 (proj2 Hsh))) as Hb.
      by destruct (generate_prekey_bundle_bytes _ _ _).
    + intros. by apply refused_buffer.
  - unfold sibna_perform_handshake. denies_steps; try (by apply gated_refused); intros; by apply refused_unit.
  - unfold sibna_session_encrypt. denies_steps; [apply encrypt_refused, Hsh|].
    intros. by apply refused_buffer.
  - unfold sibna_session_decrypt. denies_steps; [apply decrypt_refused, Hsh|].
    intros. by apply refused_buffer.
Qed.

(** C33: the C interface cannot set up a session.  It makes contexts with the
    default configuration only, which requires verified peers, and exports
    neither the verification of a peer nor the generation of a signed prekey: in
    every run of calls and actions of the caller, starting from a memory without
    contexts, no call for a session, a handshake, a message or a prekey bundle
    ever returns [Ok]. *)
Theorem c_interface_has_no_sessions fuel env s0 c0 s c call a s' c' :
  (forall b ctx, cells s0 !! b <> Some (ContextBox ctx)) -> rtc (ffi_step env fuel) (s0, c0) (s, c) ->
  session_call call = true -> ffi_call fuel call env s c = (Ok a, s', c') -> a <> Code SibnaResult.Ok.
Proof.
  intros H0 Hr Hc E ->. apply (run_shut _ _ _ _) in Hr; [|intros b ctx Hb; by destruct (H0 b ctx)].
  by eapply session_calls_denied.
Qed.

End Shut.

(** ** A round trip through the caller's memory *)

Section RoundTrip.
Context {P : Primitives} {L : PrimitiveLaws P} {H : HashOrder} {A : Allocator} {AL : AllocatorLaws A}.

(** The variable [v] received a buffer with these bytes: in a new allocation, or
    none when there is nothing to allocate. *)
Definition gave (v : nat) (b : ByteBuffer) (data : bytes) (m m' : gmap nat Cell) : Prop :=
  bb_len b = len data /\
  ((bb_data b = Dangling /\ data = [] /\ bb_capacity b = 0 /\ m' = <[v := BufferVar b]> m) \/
   (exists k, bb_data b = At k 0 /\ m !! k = None /\
      m' = <[v := BufferVar b]> (<[k := Bytes (Some (bb_capacity b)) data]> m))).

Lemma give_run v b0 data env s c : well_placed s -> cells s !! v = Some (BufferVar b0) ->
  exists b s', (let! b := ByteBuffer_new data in let! _ := write_buffer (At v 0) b in ret SibnaResult.Ok) env s c
      = (Ok SibnaResult.Ok, s', c) /\ gave v b data (cells s) (cells s') /\ well_placed s' /\ last_error s' = last_error s.
Proof.
  intros Hw Hv. unfold ByteBuffer_new. pose proof (vec_fits data) as Hf. pose proof (len_nonneg data).
  assert (Hlt : (v < next_block s)%nat) by (apply Hw; by eexists).
  destruct (Z.eqb_spec (vec_capacity data) 0) as [E0|E0].
  - unfold bind at 1, ret. unfold bind, write_buffer, bind, get. cbn [buffer_at]. rewrite Hv. unfold modify, ret.
    exists (mkByteBuffer Dangling (len data) (vec_capacity data)). eexists. split; [reflexivity|]. split; [|split; [|done]].
    + split; [done|]. left. cbn. split; [done|]. split; [|by split]. destruct data; [done|]. unfold len in *. simpl in *. lia.
    + apply (keeps_placed [v] s). eapply keeps_insert; [by apply keeps_refl | cbn; rewrite elem_of_cons; auto | done | done].
  - unfold bind at 1, bind at 1, alloc, bind at 1, get. unfold bind at 1, put, ret.
    unfold bind, write_buffer, bind, get. cbn [buffer_at cells]. rewrite lookup_insert_ne, Hv by lia. unfold modify, ret.
    exists (mkByteBuffer (At (next_block s) 0) (len data) (vec_capacity data)). eexists. split; [reflexivity|]. cbn [cells set_cells last_error]. split; [|split; [|done]].
    + split; [done|]. right. exists (next_block s). split; [done|]. split; [|done].
      destruct (cells s !! next_block s) eqn:E; [|done]. pose proof (Hw _ (ex_intro _ _ E)). lia.
    + set (s1 := mkFfi (<[next_block s := _]> _) _ _ _). change (well_placed (set_cells (<[v := BufferVar (mkByteBuffer (At (next_block s) 0) (len data) (vec_capacity data))]> (cells s1)) s1)).
      apply (keeps_placed [v] s), (keeps_insert [v] s s1 v (BufferVar b0)); [apply keeps_alloc; [done | by apply keeps_refl] | cbn; rewrite elem_of_cons; auto | | done].
      cbn [cells s1]. rewrite lookup_insert_ne by lia. exact Hv.
Qed.

(** Slices elsewhere are not disturbed. *)
Lemma slice_insert p n k x m d : slice_at p n m = Some d -> (forall v e, m !! k <> Some (Bytes v e)) ->
  slice_at p n (<[k := x]> m) = Some d.
Proof.
  intros Hs Hk. destruct p as [| |b off]; simpl in *; try done. destruct (n =? 0); [done|].
  destruct (decide (b = k)) as [->|Hne]; [|by rewrite lookup_insert_ne].
  destruct (m !! k) as [[v e| | | |]|]; try done. by destruct (Hk v e).
Qed.

Lemma gave_slice v b data m m' p n d : gave v b data m m' -> (exists b0, m !! v = Some (BufferVar b0)) ->
  slice_at p n m = Some d -> slice_at p n m' = Some d.
Proof.
  intros [_ [(_ & _ & _ & ->)|(k & _ & Hk & ->)]] [b0 Hv] Hs.
  - apply slice_insert; [done|]. by rewrite Hv.
  - assert (v <> k) by congruence. apply slice_insert; [apply slice_insert; [done | by rewrite Hk]|].
    rewrite lookup_insert_ne by done. by rewrite Hv.
Qed.

Lemma gave_data v b data m m' : gave v b data m m' -> (exists b0, m !! v = Some (BufferVar b0)) -> len data <= ISIZE_MAX ->
  slice_at (bb_data b) (bb_len b) m' = Some data.
Proof.
  intros [El [(Ed & -> & _ & _)|(k & Ed & Hk & ->)]] [b0 Hv] Hl; rewrite Ed, El; [done|]. cbn [slice_at].
  destruct (Z.eqb_spec (len data) 0) as [E|E]; [destruct data; [done | unfold len in E; simpl in E; lia]|].
  rewrite lookup_insert_ne, lookup_insert_eq by congruence. rewrite Z.add_0_l, Z.leb_refl.
  destruct (Z.leb_spec (len data) ISIZE_MAX); [|lia]. cbn [andb]. unfold len. rewrite Nat2Z.id, drop_0. by rewrite firstn_all.
Qed.

Lemma gave_var v b data m m' : gave v b data m m' -> m' !! v = Some (BufferVar b).
Proof. intros [_ [(_ & _ & _ & ->)|(k & _ & _ & ->)]]; apply lookup_insert_eq. Qed.

Lemma gave_other v b data m m' w x : gave v b data m m' -> w <> v -> m !! w = Some x -> m' !! w = Some x.
Proof.
  intros [_ [(_ & _ & _ & ->)|(k & _ & Hk & ->)]] Hne Hx; rewrite !lookup_insert_ne; try done. congruence.
Qed.

Lemma gave_live v b data m m' : gave v b data m m' -> (exists b0, m !! v = Some (BufferVar b0)) -> len data <= ISIZE_MAX ->
  live_buffer b m'.
Proof.
  intros [El [(Ed & -> & Ec & _)|(k & Ed & Hk & ->)]] [b0 Hv] Hl; unfold live_buffer; rewrite Ed; [done|]. split; [done|].
  exists data. rewrite lookup_insert_ne, lookup_insert_eq by congruence. split; [done|]. pose proof (len_nonneg data). lia.
Qed.

Lemma live_gave v b data m m' b' : gave v b data m m' -> (exists b0, m !! v = Some (BufferVar b0)) -> live_buffer b' m -> live_buffer b' m'.
Proof.
  intros Hg [b0 Hv]. unfold live_buffer. destruct (bb_data b') as [| |k off]; try done. intros (-> & d & Hk & Hd). split; [done|].
  exists d. split; [|done]. eapply gave_other; [exact Hg | congruence | exact Hk].
Qed.

Lemma read_run p n d env s c : slice_at p n (cells s) = Some d -> from_raw_parts p n env s c = (Ok d, s, c).
Proof. intros E. unfold from_raw_parts, bind, get. by rewrite E. Qed.

Lemma slice_not_null p n m d : slice_at p n m = Some d -> is_null p = false.
Proof. by destruct p. Qed.

(** The associated data of the plain calls. *)
Definition ad_at (p : Ptr) (n : Z) (ad : bytes) (m : gmap nat Cell) : Prop :=
  (p = Null /\ ad = []) \/ slice_at p n m = Some ad.

Lemma read_ad_run p n ad env s c : ad_at p n ad (cells s) -> read_ad p n env s c = (Ok ad, s, c).
Proof.
  intros [[-> ->]|E]; [done|]. unfold read_ad. rewrite (slice_not_null _ _ _ _ E). by apply read_run.
Qed.

Lemma encrypt_run key pt ad kp pp np ap na v b0 env s c : well_placed s -> rng_healthy env ->
  slice_at kp 32 (cells s) = Some key -> CryptoHandler_new key = Ok (mkCryptoHandler key) ->
  slice_at pp np (cells s) = Some pt -> ad_at ap na ad (cells s) -> cells s !! v = Some (BufferVar b0) ->
  len pt <= MAX_PLAINTEXT_LENGTH -> len ad <= MAX_INFO_LENGTH ->
  exists ct b s' c', sibna_encrypt kp pp np ap na (At v 0) env s c = (Ok SibnaResult.Ok, s', c') /\
    gave v b ct (cells s) (cells s') /\ well_placed s' /\ len ct = len pt + 28 /\
    handler_decrypt (mkCryptoHandler key) ct ad = Ok pt.
Proof.
  intros Hw Hr Hk Hh Hp Ha Hv Hl Hla. unfold sibna_encrypt. rewrite (slice_not_null _ _ _ _ Hk), (slice_not_null _ _ _ _ Hp). cbn [is_null orb].
  rewrite (bind_ok _ _ _ _ _ _ _ _ (read_run _ _ _ env s c Hk)), (bind_ok _ _ _ _ _ _ _ _ (read_run _ _ _ env s c Hp)).
  rewrite (bind_ok _ _ _ _ _ _ _ _ (read_ad_run _ _ _ env s c Ha)), Hh.
  destruct (handler_encrypt_ok (mkCryptoHandler key) pt ad env c Hr Hl Hla) as (nonce & ct & c' & E & Hn & Ec & Hc).
  unfold bind at 1, m_try, lift. rewrite E. destruct (give_run v b0 (nonce ++ ct) env s c' Hw Hv) as (b & s' & Eg & Hg & Hw' & _).
  exists (nonce ++ ct), b, s', c'. split; [exact Eg|]. split; [done|]. split; [done|]. split.
  - rewrite len_app. unfold len. lia.
  - by apply handler_decrypt_ok.
Qed.

Lemma decrypt_run key ct pt ad kp pp np ap na v b0 env s c : well_placed s ->
  slice_at kp 32 (cells s) = Some key -> CryptoHandler_new key = Ok (mkCryptoHandler key) ->
  slice_at pp np (cells s) = Some ct -> ad_at ap na ad (cells s) -> cells s !! v = Some (BufferVar b0) ->
  handler_decrypt (mkCryptoHandler key) ct ad = Ok pt ->
  exists b s', sibna_decrypt kp pp np ap na (At v 0) env s c = (Ok SibnaResult.Ok, s', c) /\
    gave v b pt (cells s) (cells s') /\ well_placed s'.
Proof.
  intros Hw Hk Hh Hp Ha Hv Hd. unfold sibna_decrypt. rewrite (slice_not_null _ _ _ _ Hk), (slice_not_null _ _ _ _ Hp). cbn [is_null orb].
  rewrite (bind_ok _ _ _ _ _ _ _ _ (read_run _ _ _ env s c Hk)), (bind_ok _ _ _ _ _ _ _ _ (read_run _ _ _ env s c Hp)).
  rewrite (bind_ok _ _ _ _ _ _ _ _ (read_ad_run _ _ _ env s c Ha)), Hh, Hd.
  destruct (give_run v b0 pt env s c Hw Hv) as (b & s' & Eg & Hg & Hw' & _). by exists b, s'.
Qed.

(** Freeing takes back what was given. *)
Definition freed (v : nat) (b : ByteBuffer) (m : gmap nat Cell) : gmap nat Cell :=
  <[v := BufferVar ByteBuffer_empty]> (match bb_data b with At k _ => delete k m | _ => m end).

Lemma free_run v b env s c : cells s !! v = Some (BufferVar b) -> bb_data b <> Null -> live_buffer b (cells s) ->
  exists s', sibna_free_buffer (At v 0) env s c = (Ok tt, s', c) /\ cells s' = freed v b (cells s).
Proof.
  intros Hv Hn Hl. unfold sibna_free_buffer. cbn [is_null]. destruct (free_buffer_run v b env s c Hv Hl) as (s' & E & _ & Ec).
  exists s'. split; [exact E|]. rewrite Ec. unfold freed. by destruct (bb_data b).
Qed.

Lemma gave_not_null v b data m m' : gave v b data m m' -> bb_data b <> Null.
Proof. intros [_ [(-> & _)|(k & -> & _)]]; done. Qed.

Lemma freed_gave v b data m m' : (exists x, m !! v = Some (BufferVar x)) -> gave v b data m m' ->
  freed v b m' = <[v := BufferVar ByteBuffer_empty]> m.
Proof.
  intros [x Hx] [_ [(Ed & _ & _ & ->)|(k & Ed & Hk & ->)]]; unfold freed; rewrite Ed; [by rewrite insert_insert_eq|].
  rewrite delete_insert_ne by congruence. by rewrite delete_insert_id, insert_insert_eq.
Qed.

Lemma gave_insert v b data m m' w y z : gave v b data m m' -> w <> v -> m !! w = Some y ->
  gave v b data (<[w := z]> m) (<[w := z]> m').
Proof.
  intros [El [(Ed & E & Ec & ->)|(k & Ed & Hk & ->)]] Hne Hy; (split; [exact El|]); [left | right; exists k].
  - split; [exact Ed|]. split; [exact E|]. split; [exact Ec|]. by rewrite insert_insert_ne.
  - assert (w <> k) by congruence. split; [exact Ed|]. rewrite lookup_insert_ne by done. split; [exact Hk|].
    rewrite (insert_insert_ne _ w v), (insert_insert_ne _ w k) by done. done.
Qed.

(** C32: a round trip through the caller's memory.  With a key that is not weak,
    a plaintext of at most 100 MiB, at most 256 bytes of associated data, two
    different buffer variables and a healthy random source, [sibna_encrypt]
    returns a ciphertext in a buffer, [sibna_decrypt] given the pointer and
    length of that buffer returns one with exactly the plaintext, the empty one
    included; after both buffers are freed the caller's memory is what it was
    before, except that the two variables are empty: nothing is leaked, and
    freeing one of them again does nothing. *)
Theorem c_encryption_roundtrip key pt ad kp pp np ap na v w x y env s c :
  well_placed s -> rng_healthy env -> slice_at kp 32 (cells s) = Some key -> is_ok (CryptoHandler_new key) = true ->
  slice_at pp np (cells s) = Some pt -> ad_at ap na ad (cells s) ->
  cells s !! v = Some (BufferVar x) -> cells s !! w = Some (BufferVar y) -> v <> w ->
  len pt <= MAX_PLAINTEXT_LENGTH -> len ad <= MAX_INFO_LENGTH ->
  exists s1 c1 bc s2 bp s3 s4,
    sibna_encrypt kp pp np ap na (At v 0) env s c = (Ok SibnaResult.Ok, s1, c1) /\ cells s1 !! v = Some (BufferVar bc) /\
    sibna_decrypt kp (bb_data bc) (bb_len bc) ap na (At w 0) env s1 c1 = (Ok SibnaResult.Ok, s2, c1) /\
    cells s2 !! w = Some (BufferVar bp) /\ slice_at (bb_data bp) (bb_len bp) (cells s2) = Some pt /\
    sibna_free_buffer (At w 0) env s2 c1 = (Ok tt, s3, c1) /\ sibna_free_buffer (At v 0) env s3 c1 = (Ok tt, s4, c1) /\
    cells s4 = <[v := BufferVar ByteBuffer_empty]> (<[w := BufferVar ByteBuffer_empty]> (cells s)) /\
    sibna_free_buffer (At v 0) env s4 c1 = (Ok tt, s4, c1).
Proof.
  intros Hw Hr Hk Hh Hp Ha Hv Hy Hne Hl Hla. assert (Hsize : len pt + 28 <= ISIZE_MAX) by (unfold MAX_PLAINTEXT_LENGTH, ISIZE_MAX in *; lia).
  destruct (CryptoHandler_new key) as [h|e|] eqn:Eh; try done. rewrite (CryptoHandler_new_ok _ _ Eh) in Eh.
  destruct (encrypt_run key pt ad kp pp np ap na v x env s c) as (ct & bc & s1 & c1 & E1 & G1 & Hw1 & Hlc & Hd); try done.
  assert (Ha1 : ad_at ap na ad (cells s1)) by (destruct Ha as [?|Ha]; [by left | right; by eapply gave_slice; eauto]).
  pose proof (gave_other _ _ _ _ _ w _ G1 (not_eq_sym Hne) Hy) as Hy1.
  destruct (decrypt_run key ct pt ad kp (bb_data bc) (bb_len bc) ap na w y env s1 c1) as (bp & s2 & E2 & G2 & Hw2); try done.
  { by eapply gave_slice; eauto. } { eapply gave_data; eauto. lia. }
  destruct (free_run w bp env s2 c1) as (s3 & E3 & C3).
  { by eapply gave_var. } { by eapply gave_not_null. } { eapply gave_live; eauto. pose proof (len_nonneg pt). lia. }
  rewrite (freed_gave _ _ _ _ _ (ex_intro _ _ Hy1) G2) in C3.
  pose proof (gave_insert _ _ _ _ _ w _ (BufferVar ByteBuffer_empty) G1 (not_eq_sym Hne) Hy) as G3. rewrite <- C3 in G3.
  assert (Hv3 : exists b0, <[w := BufferVar ByteBuffer_empty]> (cells s) !! v = Some (BufferVar b0)).
  { exists x. by rewrite lookup_insert_ne. }
  destruct (free_run v bc env s3 c1) as (s4 & E4 & C4).
  { by eapply gave_var. } { by eapply gave_not_null. } { eapply gave_live; eauto. lia. }
  rewrite (freed_gave _ _ _ _ _ Hv3 G3) in C4. exists s1, c1, bc, s2, bp, s3, s4. split; [exact E1|]. split; [by eapply gave_var|].
  split; [exact E2|]. split; [by eapply gave_var|]. split; [eapply gave_data; eauto; lia|]. split; [exact E3|]. split; [exact E4|].
  split; [exact C4|]. unfold sibna_free_buffer, ByteBuffer_free, bind, get. cbn [is_null buffer_at]. by rewrite C4, lookup_insert_eq.
Qed.

End RoundTrip.

(** ** Witnesses *)

(** An allocator without slack, and a caller with a key, a text, two buffer
    variables and a handle variable. *)
Definition exact_alloc : Allocator := {| vec_capacity := len |}.

Lemma exact_alloc_laws : AllocatorLaws exact_alloc.
Proof. split. intros b. cbn. lia. Qed.

Definition demo_memory : Ffi :=
  mkFfi {[0%nat := Bytes None demo_key; 1%nat := Bytes None (bstr "hello"); 2%nat := BufferVar ByteBuffer_empty;
          3%nat := BufferVar ByteBuffer_empty; 4%nat := HandleVar Null]} 5 [] None.

Lemma demo_memory_placed : well_placed demo_memory.
Proof.
  intros b [x Hx]. cbn [cells next_block demo_memory] in *.
  do 4 (apply lookup_insert_Some in Hx as [[<- _]|[_ Hx]]; [lia|]). apply lookup_singleton_Some in Hx as [<- _]. lia.
Qed.

Lemma ffi_call_is_safe_witness :
  let call := Encrypt (At 0 0) (At 1 0) 5 Null 0 (At 2 0) in
  contract (cells demo_memory) call /\
  fst (fst (ffi_call (P := toy) (H := listed_order) (A := exact_alloc) 1 call demo_env1 demo_memory ctr0)) <> Err Undefined.
Proof.
  intros call. assert (Hc : contract (cells demo_memory) call).
  { split; [right; vm_compute; eauto|]. split; [right; vm_compute; eauto|]. split; [by left | right; vm_compute; eauto]. }
  split; [exact Hc|]. apply (ffi_call_is_safe (P := toy) (L := toy_laws) (H := listed_order) (A := exact_alloc) 1 call demo_env1 demo_memory ctr0);
    [exact demo_memory_placed | exact Hc].
Defined.

Lemma c_encryption_roundtrip_witness :
  exists s1 c1 bc s2 bp,
    sibna_encrypt (P := toy) (A := exact_alloc) (At 0 0) (At 1 0) 5 Null 0 (At 2 0) demo_env1 demo_memory ctr0
      = (Ok SibnaResult.Ok, s1, c1) /\
    sibna_decrypt (P := toy) (A := exact_alloc) (At 0 0) (bb_data bc) (bb_len bc) Null 0 (At 3 0) demo_env1 s1 c1
      = (Ok SibnaResult.Ok, s2, c1) /\ slice_at (bb_data bp) (bb_len bp) (cells s2) = Some (bstr "hello").
Proof.
  destruct (c_encryption_roundtrip (P := toy) (L := toy_laws) (A := exact_alloc) (AL := exact_alloc_laws) demo_key
    (bstr "hello") [] (At 0 0) (At 1 0) 5 Null 0 2 3 ByteBuffer_empty ByteBuffer_empty demo_env1 demo_memory ctr0)
    as (s1 & c1 & bc & s2 & bp & s3 & s4 & E1 & _ & E2 & _ & Hs & _);
    [exact demo_memory_placed | exact demo_env1_healthy | reflexivity | vm_compute; reflexivity | reflexivity | by left | reflexivity
    | reflexivity | lia | vm_compute; discriminate | vm_compute; discriminate |].
  exists s1, c1, bc, s2, bp. split; [exact E1|]. split; [exact E2 | exact Hs].
Defined.

(** A context is made, and a bundle asked of it. *)
Lemma c_interface_has_no_sessions_witness :
  exists s1 c1 a s2 c2,
    ffi_call (P := toy) (H := listed_order) (A := exact_alloc) 2 (ContextCreate Null 0 (At 4 0)) demo_env1 demo_memory ctr0
      = (Ok (Code SibnaResult.Ok), s1, c1) /\
    ffi_call (P := toy) (H := listed_order) (A := exact_alloc) 2 (GeneratePrekeyBundle (At 5 0) (At 2 0)) demo_env1 s1 c1
      = (Ok a, s2, c2) /\ a <> Code SibnaResult.Ok.
Proof.
  set (call := ffi_call (P := toy) (H := listed_order) (A := exact_alloc) 2).
  destruct (call (ContextCreate Null 0 (At 4 0)) demo_env1 demo_memory ctr0) as [[r1 s1] c1] eqn:E1.
  assert (K1 : match r1 with Ok (Code SibnaResult.Ok) => true | _ => false end = true)
    by (change r1 with (fst (fst (r1, s1, c1))); rewrite <- E1; vm_compute; reflexivity).
  destruct r1 as [[[]| |]|e|]; try discriminate K1.
  destruct (call (GeneratePrekeyBundle (At 5 0) (At 2 0)) demo_env1 s1 c1) as [[r2 s2] c2] eqn:E2.
  assert (K2 : is_ok r2 = true).
  { change r2 with (fst (fst (r2, s2, c2))). rewrite <- E2. change s1 with (snd (fst (Ok (E := Ub) (Code SibnaResult.Ok), s1, c1))).
    change c1 with (snd (Ok (E := Ub) (Code SibnaResult.Ok), s1, c1)) at 2. rewrite <- E1. vm_compute. reflexivity. }
  destruct r2 as [a|e|]; [|discriminate K2..]. exists s1, c1, a, s2, c2. split; [reflexivity|]. split; [exact E2|].
  apply (c_interface_has_no_sessions (P := toy) (H := listed_order) (A := exact_alloc) 2 demo_env1 demo_memory ctr0 s1 c1
    (GeneratePrekeyBundle (At 5 0) (At 2 0)) a s2 c2); [|apply rtc_once; by eapply step_call | reflexivity | exact E2].
  intros b ctx Hb. cbn [cells demo_memory] in Hb.
  do 4 (apply lookup_insert_Some in Hb as [[_ [=]]|[_ Hb]]). apply lookup_singleton_Some in Hb as [_ [=]].
Defined.

(** Two rounds of encryption and a key in the caller's buffer. *)
Lemma memory_keeps_its_types_witness :
  let encrypt := Encrypt (At 0 0) (At 1 0) 5 Null 0 (At 2 0) in
  let run := run_calls (P := toy) (H := listed_order) (A := exact_alloc) 1 [encrypt; GenerateKey (At 0 0); encrypt] demo_env1 demo_memory ctr0 in
  is_ok (fst (fst run)) = true /\ may_call (cells (snd (fst run))) encrypt.
Proof.
  intros encrypt run. split; [vm_compute; reflexivity|].
  assert (He : may_call (cells demo_memory) encrypt).
  { split; [|done]. split; [right; vm_compute; eauto|]. split; [right; vm_compute; eauto|]. split; [by left | right; vm_compute; eauto]. }
  refine (proj2 (proj2 (memory_keeps_its_types (P := toy) (L := toy_laws) (H := listed_order) (A := exact_alloc) 1 [encrypt; GenerateKey (At 0 0); encrypt]
    demo_env1 demo_memory ctr0 demo_memory_placed _)) encrypt He).
  apply Forall_cons; split; [exact He|]. apply Forall_cons; split; [|apply Forall_cons; split; [exact He | by apply Forall_nil]].
  split; [right; vm_compute; eauto | done].
Defined.
