(* ===== verification/Wasm.v ===== *)
(** * The WebAssembly interface ([core/src/wasm.rs])

    The functions a page calls and the context they share.  The page has one
    thread and its context, once made, lives in a thread-local cell.  Errors
    are the strings JavaScript sees. *)

From S2P Require Import Prelude Effects Errors Primitives Random Handler Padding Encryptor Chain Message RatchetState Session SessionInvariant SessionReceive SessionSend RateLimit Group Bundle KeyStore Builder Context FfiMemory Ffi FfiSafety FfiProps.
#[local] Open Scope Z_scope.
#[local] Open Scope sibna_scope.

(** The cell [CONTEXT]. *)
Abbreviation Page := (option SecureContext).
Abbreviation JsM := (M Page bytes).

(** [JsValue::from_str(&format!("...: {}", e))]. *)
Definition js (prefix : string) (e : ProtocolError.t) : bytes := bstr prefix ++ message_of e.
Definition js_crypto (prefix : string) (e : CryptoError.t) : bytes := bstr prefix ++ crypto_message_of e.

(** [CONTEXT.with(|c| ...)] where a context is needed. *)
Definition with_context {A} (missing : string) (m : M SecureContext bytes A) : JsM A :=
  let! s := get in
  match s with
  | Some ctx => zoom (fun _ => ctx) (fun ctx _ => Some ctx) m
  | None => res (Err (bstr missing))
  end.

Section Wasm.
Context {P : Primitives} {H : HashOrder}.

(** [SecureContext::new_in_memory], compiled for this target only; [None] when
    [generate_key] ran out of [fuel]. *)
Definition KeyStore_new_in_memory : KeyStore := KeyStore_new.
Definition SessionManager_new_in_memory (config : Config) : SessionManager := SessionManager_new config.

Definition new_in_memory (fuel : nat) (config : Config) : IO ProtocolError.t (option SecureContext) :=
  let* storage_key := io_map_err ProtocolError.from_crypto (generate_key fuel) in
  match storage_key with
  | None => io_ret None
  | Some storage_key =>
      let* rng := io_map_err ProtocolError.from_crypto SecureRandom_new in
      let* (device_id, rng) := run_on (fill_bytes 16) rng in
      let* rate_limiter := RateLimiter_new in
      let* created_at := read_instant in
      io_ret (Some (mkContext KeyStore_new_in_memory (SessionManager_new_in_memory config) []
                      (GroupManager_new storage_key) config rng storage_key (zeros 32) device_id rate_limiter 0 created_at))
  end.

(** [crate::SecureContext::new(config)]: the module calls a constructor of one
    argument, which the crate does not have. *)
Context (new_context : Config -> IO ProtocolError.t SecureContext).

Definition wasm_context_create : JsM unit :=
  let! ctx := lift (io_map_err (js "Context creation failed: ") (new_context Config_default)) in
  put (Some ctx).

Definition wasm_generate_identity : JsM bytes :=
  with_context "Context not initialized — call wasm_context_create() first"
    (let! keypair := m_map_err (js "Identity generation failed: ") generate_identity in
     ret (ik_ed_public keypair ++ ik_x_public keypair)).

Definition wasm_generate_prekey_bundle : JsM bytes :=
  with_context "Context not initialized"
    (let! s := get in
     lift (io_map_err (js "Failed to generate signed prekey bundle: ") (generate_prekey_bundle_bytes (ctx_keystore s)))).

Definition wasm_perform_handshake (bundle_bytes session_id : bytes) (initiator : bool) : JsM unit :=
  with_context "Context not initialized"
    (let! bundle := res (map_err (js "Failed to parse prekey bundle: ") (Bundle.from_bytes bundle_bytes)) in
     let! _ := lift (io_map_err (js "Invalid prekey bundle: ") (bundle_validate bundle)) in
     let role := if initiator then HandshakeRole.Initiator else HandshakeRole.Responder in
     let! _ := m_map_err (js "Handshake failed: ")
                 (perform_handshake session_id role (Some (identity_key bundle)) (Some (signed_prekey bundle))
                    (Some (signature bundle)) (onetime_prekey bundle) None None) in
     ret tt).

Definition wasm_session_encrypt (session_id plaintext : bytes) : JsM bytes :=
  with_context "Context not initialized"
    (if len plaintext =? 0 then res (Err (bstr "Plaintext must not be empty"))
     else m_map_err (js "Encryption failed: ") (ctx_encrypt_message session_id plaintext None)).

Definition wasm_session_decrypt (session_id ciphertext : bytes) : JsM bytes :=
  with_context "Context not initialized"
    (m_map_err (js "Decryption failed: ") (ctx_decrypt_message session_id ciphertext None)).

Definition wasm_generate_challenge : JsM bytes :=
  lift (io_map_err (js "Challenge generation failed: ") generate_challenge).

(** The three conversions to arrays cannot fail after the length checks. *)
Definition wasm_verify_signed_challenge (challenge signature device_pub : bytes) : JsM bool :=
  if negb (len challenge =? 32) then res (Err (bstr "Challenge must be 32 bytes"))
  else if negb (len signature =? 64) then res (Err (bstr "Signature must be 64 bytes"))
  else if negb (len device_pub =? 32) then res (Err (bstr "Device public key must be 32 bytes"))
  else res (map_err (js "Verification error: ") (verify_signed_challenge challenge signature device_pub)).

Definition wasm_encrypt (key plaintext associated_data : bytes) : JsM bytes :=
  if negb (len key =? 32) then res (Err (bstr "Key must be exactly 32 bytes"))
  else
    let! handler := res (map_err (js_crypto "Invalid key: ") (CryptoHandler_new key)) in
    lift (io_map_err (js_crypto "Encryption failed: ") (handler_encrypt handler plaintext associated_data)).

Definition wasm_decrypt (key ciphertext associated_data : bytes) : JsM bytes :=
  if negb (len key =? 32) then res (Err (bstr "Key must be exactly 32 bytes"))
  else
    let! handler := res (map_err (js_crypto "Invalid key: ") (CryptoHandler_new key)) in
    res (map_err (js_crypto "Decryption failed: ") (handler_decrypt handler ciphertext associated_data)).

(** ** Calls of a page *)

Inductive WasmCall :=
| ContextCreate
| GenerateIdentity
| GeneratePrekeyBundle
| PerformHandshake (bundle_bytes session_id : bytes) (initiator : bool)
| SessionEncrypt (session_id plaintext : bytes)
| SessionDecrypt (session_id ciphertext : bytes)
| GenerateChallenge
| VerifySignedChallenge (challenge signature device_pub : bytes)
| Encrypt (key plaintext associated_data : bytes)
| Decrypt (key ciphertext associated_data : bytes).

Definition void {A} (m : JsM A) : JsM unit := let! _ := m in ret tt.

Definition wasm_call (call : WasmCall) : JsM unit :=
  match call with
  | ContextCreate => wasm_context_create
  | GenerateIdentity => void wasm_generate_identity
  | GeneratePrekeyBundle => void wasm_generate_prekey_bundle
  | PerformHandshake b i r => wasm_perform_handshake b i r
  | SessionEncrypt i p => void (wasm_session_encrypt i p)
  | SessionDecrypt i p => void (wasm_session_decrypt i p)
  | GenerateChallenge => void wasm_generate_challenge
  | VerifySignedChallenge ch sg pk => void (wasm_verify_signed_challenge ch sg pk)
  | Encrypt k p ad => void (wasm_encrypt k p ad)
  | Decrypt k p ad => void (wasm_decrypt k p ad)
  end.

Fixpoint wasm_run (calls : list WasmCall) (env : Env) (s : Page) (c : Ctr) : list (Res bytes unit) * Page * Ctr :=
  match calls with
  | [] => ([], s, c)
  | call :: calls =>
      let '(r, s, c) := wasm_call call env s c in
      let '(rs, s, c) := wasm_run calls env s c in (r :: rs, s, c)
  end.

(** The calls that need a context, and of those the ones that make or use a
    session or publish a bundle. *)
Definition needs_context (call : WasmCall) : bool :=
  match call with
  | GenerateIdentity | GeneratePrekeyBundle | PerformHandshake _ _ _ | SessionEncrypt _ _ | SessionDecrypt _ _ => true
  | _ => false
  end.

Definition wasm_session_call (call : WasmCall) : bool :=
  match call with
  | GeneratePrekeyBundle | PerformHandshake _ _ _ | SessionEncrypt _ _ | SessionDecrypt _ _ => true
  | _ => false
  end.

Lemma without_context call env c :
  needs_context call = true -> exists e, wasm_call call env None c = (Err e, None, c).
Proof. destruct call; try done; intros _; by eexists. Qed.

(** ** Pages with the default configuration *)

Section Page.
(** Contexts come out of the constructor without peers, sessions and signed
    prekey, and with the configuration it was given. *)
Hypothesis fresh_contexts : forall env c ctx c',
  new_context Config_default env c = (Ok ctx, c') -> shut ctx.

Definition page_shut (s : Page) : Prop := forall ctx, s = Some ctx -> shut ctx.

Lemma with_context_shut {A} msg (m : M SecureContext bytes A) : preserves shut m -> preserves page_shut (with_context msg m).
Proof.
  intros Hm env s c Hs. unfold with_context, bind, get. destruct s as [ctx|]; [|done]. specialize (Hm env ctx c (Hs ctx eq_refl)).
  unfold zoom. destruct (m env ctx c) as [[r ctx'] c']. by intros ? [= <-].
Qed.

Lemma perform_handshake_shut p role ik spk sg opk dev pro : preserves shut (perform_handshake p role ik spk sg opk dev pro).
Proof. apply gated_shut. Qed.
Lemma decrypt_message_shut id ct ad : preserves shut (ctx_decrypt_message id ct ad).
Proof. by apply decrypt_frame. Qed.

Lemma wasm_call_shut call : preserves page_shut (wasm_call call).
Proof.
  assert (Hv : forall A (m : JsM A), preserves page_shut m -> preserves page_shut (void m))
    by (intros A m Hm; apply leads_bind; [done|intros ?; apply leads_ret]).
  destruct call; cbn [wasm_call]; try apply Hv.
  - intros env s c Hs. unfold wasm_context_create, bind, lift, io_map_err, put.
    destruct (new_context Config_default env c) as [[ctx|e|] c'] eqn:En; try done. cbn. intros ? [= <-]. by eapply fresh_contexts.
  - apply with_context_shut. apply leads_bind; [apply leads_map_err, identity_shut|]. intros ?. apply leads_ret.
  - apply with_context_shut. lead_steps.
  - apply with_context_shut. lead_steps. cbv zeta. lead_steps. apply leads_map_err, perform_handshake_shut.
  - apply with_context_shut. lead_steps. apply leads_map_err, encrypt_shut.
  - apply with_context_shut. apply leads_map_err, decrypt_message_shut.
  - unfold wasm_generate_challenge. lead_steps.
  - unfold wasm_verify_signed_challenge. lead_steps.
  - unfold wasm_encrypt. lead_steps.
  - unfold wasm_decrypt. lead_steps.
Qed.

Lemma wasm_run_shut calls env : forall s c, page_shut s -> page_shut (wasm_run calls env s c).1.2.
Proof.
  induction calls as [|call calls IH]; intros s c Hs; cbn [wasm_run]; [done|].
  pose proof (wasm_call_shut call env s c Hs) as H1. destruct (wasm_call call env s c) as [[r s1] c1].
  specialize (IH s1 c1 H1). by destruct (wasm_run calls env s1 c1) as [[rs s2] c2].
Qed.

(** A computation that fails on every shut context fails on every page. *)
Lemma with_context_refused {A} msg (m : M SecureContext bytes A) env s c :
  page_shut s -> (forall ctx, shut ctx -> is_ok (m env ctx c).1.1 = false) -> is_ok (with_context msg m env s c).1.1 = false.
Proof.
  intros Hs Hm. unfold with_context, bind, get. destruct s as [ctx|]; [|done]. unfold zoom.
  specialize (Hm ctx (Hs ctx eq_refl)). by destruct (m env ctx c) as [[r ctx'] c'].
Qed.

Lemma map_err_refused {S E F A} (f : E -> F) (m : M S E A) env s c :
  is_ok (m env s c).1.1 = false -> is_ok (m_map_err f m env s c).1.1 = false.
Proof. unfold m_map_err. by destruct (m env s c) as [[[] ?] ?]. Qed.

Lemma bind_refused {S E A B} (m : M S E A) (k : A -> M S E B) env s c :
  is_ok (m env s c).1.1 = false -> is_ok (bind m k env s c).1.1 = false.
Proof. unfold bind. by destruct (m env s c) as [[[] ?] ?]. Qed.

Lemma session_call_refused call env s c : wasm_session_call call = true -> page_shut s ->
  is_ok (wasm_call call env s c).1.1 = false.
Proof.
  intros Hc Hs. destruct call; try discriminate Hc; cbn [wasm_call];
    lazymatch goal with |- is_ok (void _ _ _ _).1.1 = _ => apply bind_refused | _ => idtac end.
  all: apply with_context_refused; [done|]; intros ctx Hsh.
  - unfold bind, get, lift, io_map_err. pose proof (bundle_refused env (ctx_keystore ctx) c (proj2 (proj2 Hsh))) as Hb.
    by destruct (generate_prekey_bundle_bytes _ _ _) as [[] ?].
  - unfold bind at 1, res. destruct (map_err _ _) as [bundle|e|]; [|done..]. unfold bind at 1, lift.
    destruct (io_map_err _ _ env c) as [[[]|e|] c1]; [|done..]. apply bind_refused, map_err_refused. by apply gated_refused.
  - destruct (_ =? 0); [done|]. apply map_err_refused, encrypt_refused, Hsh.
  - apply map_err_refused, decrypt_refused, Hsh.
Qed.

(** A page cannot set up a session.  The interface makes its context with the
    default configuration, which requires verified peers, and exports neither
    the verification of a peer nor the generation of a signed prekey: whatever
    a page has called, in whatever order, a call for a prekey bundle, a
    handshake or a message fails. *)
Theorem page_has_no_sessions calls env c call :
  wasm_session_call call = true ->
  let '(_, s, c') := wasm_run calls env None c in is_ok (wasm_call call env s c').1.1 = false.
Proof.
  intros Hc. pose proof (wasm_run_shut calls env None c) as Hs.
  destruct (wasm_run calls env None c) as [[rs s] c']. apply session_call_refused; [done|]. by apply Hs.
Qed.

End Page.

(** The stateless functions agree: what [wasm_encrypt] returns under a key it
    accepts, [wasm_decrypt] opens under the same key and associated data, with
    or without a context, whose cell neither touches; a key of another length
    is refused by both, by name. *)
Theorem page_encryption_roundtrip {L : PrimitiveLaws P} key h pt ad env s c :
  CryptoHandler_new key = Ok h -> len key = 32 -> rng_healthy env ->
  len pt <= MAX_PLAINTEXT_LENGTH -> len ad <= MAX_INFO_LENGTH ->
  exists ct c', wasm_encrypt key pt ad env s c = (Ok ct, s, c') /\
    (forall s2 c2, wasm_decrypt key ct ad env s2 c2 = (Ok pt, s2, c2)) /\
    forall k2 x a2 s2 c2, len k2 <> 32 ->
      wasm_encrypt k2 x a2 env s2 c2 = (Err (bstr "Key must be exactly 32 bytes"), s2, c2) /\
      wasm_decrypt k2 x a2 env s2 c2 = (Err (bstr "Key must be exactly 32 bytes"), s2, c2).
Proof.
  intros Hk Hl Hr Hp Ha. destruct (handler_encrypt_ok h pt ad env c Hr Hp Ha) as (nonce & ct & c' & E & Hn & Ect & Hlen).
  exists (nonce ++ ct), c'. unfold wasm_encrypt, wasm_decrypt. rewrite Hl, Hk. cbn [Z.eqb Pos.eqb negb map_err].
  split; [|split].
  - unfold bind, res, lift, io_map_err. by rewrite E.
  - intros s2 c2. unfold bind, res. by rewrite (handler_decrypt_ok h nonce ct pt ad).
  - intros k2 x a2 s2 c2 Hk2. destruct (Z.eqb_spec (len k2) 32); [done|]. by split.
Qed.

End Wasm.

(** ** A page *)

(** The constructor of one argument the crate has for this target. *)
Definition demo_new_context (cfg : Config) : IO ProtocolError.t SecureContext := fun env c =>
  match new_in_memory (P := toy) 1 cfg env c with
  | (Ok (Some ctx), c') => (Ok ctx, c')
  | (Err e, c') => (Err e, c')
  | (_, c') => (Panic, c')
  end.

Lemma new_in_memory_shut `{Primitives} fuel env c ctx c' : new_in_memory fuel Config_default env c = (Ok (Some ctx), c') -> shut ctx.
Proof.
  unfold new_in_memory, io_bind. destruct (io_map_err _ (generate_key fuel) env c) as [[[key|]|e|] c1]; try done.
  destruct (io_map_err _ SecureRandom_new env c1) as [[rng|e|] c2]; try done.
  destruct (run_on (fill_bytes 16) rng env c2) as [[[id rng2]|e|] c3]; try done.
  destruct (RateLimiter_new env c3) as [[l|e|] c4]; try done.
  destruct (read_instant env c4) as [[t|e|] c5]; try done. intros [= <- _]. by repeat split.
Qed.

Lemma demo_contexts_shut env c ctx c' : demo_new_context Config_default env c = (Ok ctx, c') -> shut ctx.
Proof.
  unfold demo_new_context. destruct (new_in_memory (P := toy) 1 Config_default env c) as [[[x|]|e|] c1] eqn:En; try done.
  intros [= <- _]. by eapply new_in_memory_shut.
Qed.

Definition demo_page : list (Res bytes unit) * Page * Ctr :=
  wasm_run (P := toy) (H := listed_order) demo_new_context [ContextCreate; GenerateIdentity] demo_env1 None ctr0.

Lemma page_has_no_sessions_witness :
  demo_page.1.1 = [Ok tt; Ok tt] /\
  is_ok (wasm_call (P := toy) (H := listed_order) demo_new_context (SessionEncrypt (bstr "bob") (bstr "hi")) demo_env1
           demo_page.1.2 demo_page.2).1.1 = false.
Proof.
  split; [vm_compute; reflexivity|].
  pose proof (page_has_no_sessions (P := toy) (H := listed_order) demo_new_context demo_contexts_shut
    [ContextCreate; GenerateIdentity] demo_env1 ctr0 (SessionEncrypt (bstr "bob") (bstr "hi")) eq_refl) as Hp.
  unfold demo_page. by destruct (wasm_run _ _ _ _ _) as [[rs s] c'].
Defined.

Lemma page_encryption_roundtrip_witness :
  exists ct c', wasm_encrypt (P := toy) demo_key (bstr "hello") [] demo_env1 None ctr0 = (Ok ct, None, c') /\
    wasm_decrypt (P := toy) demo_key ct [] demo_env1 None ctr0 = (Ok (bstr "hello"), None, ctr0).
Proof.
  destruct (page_encryption_roundtrip (P := toy) (L := toy_laws) demo_key (mkCryptoHandler demo_key) (bstr "hello") []
    demo_env1 None ctr0) as (ct & c' & E & D & _);
    [vm_compute; reflexivity | reflexivity | exact demo_env1_healthy | vm_compute; discriminate | vm_compute; discriminate |].
  exists ct, c'. split; [exact E | apply D].
Defined.
