(* ===== verification/KeyFiles.v ===== *)
(** * The salt file and the key store file ([auto_persist_salt] and
    [load_salt_from_disk] of [core/src/lib.rs], [save_to_disk] and
    [load_from_disk] of [core/src/keystore/mod.rs])

    Two files that are written to a temporary name and renamed, over the file
    operations of [Storage]: each may fail or be the last one before the process
    is killed, and a write that is interrupted leaves a part of its bytes. *)

From S2P Require Import Prelude Effects Errors Primitives Random Padding Handler Encryptor RatchetState RateLimit KeyStore Context Storage.
#[local] Open Scope Z_scope.
#[local] Open Scope sibna_scope.

(** ** Operations *)

Definition SALT_HEADER : bytes := bstr "SIBNA_SALT_V1".
Definition MAX_KEYSTORE_FILE_SIZE : Z := 10 * 1024 * 1024.

Section KeyFiles.
Context {P : Primitives} {C : StoreCodec}.

(** *** The salt *)

Definition auto_persist_salt (ctx : SecureContext) : FM unit :=
  match db_path (ctx_config ctx) with
  | None => ret tt
  | Some _ =>
      let! w := get in
      match disk w Salt with
      | Some _ => ret tt
      | None =>
          let! _ := create SaltTmp in
          let! _ := write_all SaltTmp SALT_HEADER in
          let! _ := write_all SaltTmp (storage_salt ctx) in
          let! _ := sync_all in
          rename SaltTmp Salt
      end
  end.

(** What a salt file says. *)
Definition parse_salt (b : bytes) : option bytes :=
  match read_exact 13 b with
  | Ok (header, rest) =>
      if bool_decide (header = SALT_HEADER)
      then match read_exact 32 rest with Ok (salt, _) => Some salt | _ => None end
      else None
  | _ => None
  end.

Definition load_salt_from_disk : FM (option bytes) :=
  let! r := m_try (read_file Salt) in
  match r with
  | Ok b => ret (parse_salt b)
  | Err (Failed _) => ret None
  | Err Killed => res (Err Killed)
  | Panic => res Panic
  end.

(** [SecureContext::new] with its last step: the salt goes to disk at once when
    there is a password and a path, and an error of that is only logged. *)
Definition SecureContext_new_on_disk (fuel : nat) (config : Config) (password : option bytes)
    : M (World * option SecureRandom) Exit (option SecureContext) :=
  let! r := zoom snd (fun t s => (fst s, t)) (m_map_err Failed (SecureContext_new fuel config password)) in
  match r, db_path config, password with
  | Some ctx, Some _, Some _ =>
      let! o := zoom fst (fun w s => (w, snd s)) (m_try (auto_persist_salt ctx)) in
      match o with
      | Err Killed => res (Err Killed)
      | Panic => res Panic
      | _ => ret (Some ctx)
      end
  | _, _, _ => ret r
  end.

(** *** The key store *)

Definition keystore_save_to_disk (s : KeyStore) (key : bytes) : FM unit :=
  let! encrypted := lift (io_map_err Failed (to_encrypted_bytes s key)) in
  let! _ := create KeysTmp in
  let! _ := write_all KeysTmp encrypted in
  let! _ := io (fun d => d) in
  rename KeysTmp Keys.

(** Opening the file, asking for its size, reading it. *)
Definition keystore_load_from_disk (key : bytes) : FM KeyStore :=
  let! data := read_file Keys in
  let! _ := io (fun d => d) in
  if MAX_KEYSTORE_FILE_SIZE <? len data then fail ProtocolError.StorageError
  else
    let! _ := io (fun d => d) in
    or_fail (from_encrypted_bytes data key).

(** ** Replacing a file *)

(** The shape of both writers. *)
Fixpoint write_parts (tmp f : FileName) (parts : list bytes) : FM unit :=
  match parts with
  | [] => let! _ := sync_all in rename tmp f
  | b :: parts => let! _ := write_all tmp b in write_parts tmp f parts
  end.

Definition replace (tmp f : FileName) (parts : list bytes) : FM unit := let! _ := create tmp in write_parts tmp f parts.

Lemma io_run f env w c :
  io f env w c = (Ok tt, mkWorld (f (disk w)) (io_faults w) (S (io_count w)), c) \/
  exists e, io f env w c = (Err e, mkWorld (disk w) (io_faults w) (S (io_count w)), c).
Proof. unfold io, perform, bind, get, put. destruct (io_faults w (io_count w)); [right; by eexists | by left]. Qed.

Lemma set_file_same f v d : set_file f v d f = v.
Proof. unfold set_file. by destruct (decide (f = f)). Qed.
Lemma set_file_other f g v d : g <> f -> set_file f v d g = d g.
Proof. unfold set_file. by destruct (decide (g = f)). Qed.

(** All bytes are appended, or the operation fails with changes to this file only. *)
Lemma write_all_run f b old env w c : disk w f = Some old -> exists r w', write_all f b env w c = (r, w', c) /\
  (forall g, g <> f -> disk w' g = disk w g) /\
  (r = Ok tt /\ disk w' f = Some (old ++ b) \/ exists e, r = Err e).
Proof.
  intros Ho. unfold write_all, perform, bind, get, put, modify, res. destruct (io_faults w (io_count w)) as [x|];
    eexists _, _; (split; [reflexivity|]); cbn [disk set_disk whole part appending]; unfold append;
    (split; [intros g Hg; by rewrite set_file_other|]); [right; by eexists|].
  left. split; [done|]. by rewrite set_file_same, Ho.
Qed.

(** Replacing is atomic, whatever fails and wherever the process is killed: the
    file has its old contents, or all of its new ones. *)
Definition replaced (tmp f : FileName) (new : bytes) (w w' : World) (r : Res Exit unit) : Prop :=
  (forall g, g <> f -> g <> tmp -> disk w' g = disk w g) /\
  (r = Ok tt /\ disk w' f = Some new \/ (exists e, r = Err e) /\ disk w' f = disk w f).

Lemma write_parts_run tmp f parts : tmp <> f -> forall old env w c, disk w tmp = Some old ->
  exists r w', write_parts tmp f parts env w c = (r, w', c) /\ replaced tmp f (old ++ concat parts) w w' r.
Proof.
  intros Hne. induction parts as [|b parts IH]; intros old env w c Ho; cbn [write_parts].
  - unfold bind, sync_all, rename. destruct (io_run (fun d => d) env w c) as [-> | [e ->]].
    2: { eexists _, _. split; [reflexivity|]. split; [done|]. right. split; [by eexists | done]. }
    set (w1 := mkWorld _ _ _). destruct (io_run (fun d => set_file tmp None (set_file f (d tmp) d)) env w1 c) as [-> | [e ->]].
    + eexists _, _. split; [reflexivity|]. unfold replaced. cbn [disk w1]. split.
      * intros g H1 H2. rewrite set_file_other by done. by apply set_file_other.
      * left. split; [done|]. rewrite set_file_other by done. rewrite set_file_same, Ho. cbn. by rewrite app_nil_r.
    + eexists _, _. split; [reflexivity|]. split; [done|]. right. split; [by eexists | done].
  - unfold bind. destruct (write_all_run tmp b old env w c Ho) as (r & w1 & -> & Hg & [[-> Hb] | [e ->]]).
    + destruct (IH _ env w1 c Hb) as (r & w2 & -> & Hf & Hr). eexists _, _. split; [reflexivity|]. split.
      * intros g H1 H2. rewrite Hf by done. by apply Hg.
      * rewrite <- app_assoc in Hr. destruct Hr as [? | [? ->]]; [by left|]. right. split; [done|]. by apply Hg.
    + eexists _, _. split; [reflexivity|]. split; [by intros; apply Hg|]. right. split; [by eexists | by apply Hg].
Qed.

Lemma replace_run tmp f parts env w c : tmp <> f ->
  exists r w', replace tmp f parts env w c = (r, w', c) /\ replaced tmp f (concat parts) w w' r.
Proof.
  intros Hne. unfold replace, bind, create. destruct (io_run (set_file tmp (Some [])) env w c) as [-> | [e ->]].
  - set (w1 := mkWorld _ _ _). destruct (write_parts_run tmp f parts Hne [] env w1 c) as (r & w2 & -> & Hf & Hr);
      [cbn [disk w1]; by rewrite set_file_same|].
    eexists _, _. split; [reflexivity|]. cbn [disk w1] in *. split.
    + intros g H1 H2. rewrite Hf by done. by apply set_file_other.
    + destruct Hr as [? | [? ->]]; [by left|]. right. split; [done|]. by apply set_file_other.
  - eexists _, _. split; [reflexivity|]. split; [done|]. right. split; [by eexists | done].
Qed.

(** With no fault ahead it succeeds. *)
Lemma write_parts_quiet tmp f parts : forall env w c, undisturbed w ->
  exists w', write_parts tmp f parts env w c = (Ok tt, w', c) /\ undisturbed w'.
Proof.
  induction parts as [|b parts IH]; intros env w c Hu; cbn [write_parts].
  - unfold bind, sync_all, rename, io. rewrite !perform_quiet by done. by eexists.
  - unfold bind at 1, write_all. rewrite perform_quiet by done. by apply IH.
Qed.

Lemma replace_quiet tmp f parts env w c : undisturbed w ->
  exists w', replace tmp f parts env w c = (Ok tt, w', c) /\ undisturbed w'.
Proof.
  intros Hu. unfold replace, bind, create, io. rewrite perform_quiet by done. by apply write_parts_quiet.
Qed.

End KeyFiles.

(** ** What the files hold *)

Section KeyFileProperties.
Context {P : Primitives} {L : PrimitiveLaws P} {C : StoreCodec} {CL : StoreCodecLaws C}.

Definition salt_bytes (salt : bytes) : bytes := SALT_HEADER ++ salt.

Lemma read_exact_app p q n : length p = n -> read_exact n (p ++ q) = Ok (p, q).
Proof.
  intros <-. unfold read_exact. rewrite length_app. destruct (Nat.leb_spec (length p) (length p + length q)); [|lia].
  by rewrite take_app_length, drop_app_length.
Qed.

Lemma parse_salt_bytes salt : length salt = 32%nat -> parse_salt (salt_bytes salt) = Some salt.
Proof.
  intros Hl. unfold parse_salt, salt_bytes. rewrite (read_exact_app SALT_HEADER salt 13 eq_refl), bool_decide_eq_true_2 by done.
  rewrite <- (app_nil_r salt) at 1. by rewrite (read_exact_app salt [] 32).
Qed.

(** Persisting keeps a salt file; without one, it writes all of it or nothing. *)
Lemma persist_run ctx env w c : exists r w', auto_persist_salt ctx env w c = (r, w', c) /\
  match disk w Salt with
  | Some b => disk w' Salt = Some b
  | None => disk w' Salt = None \/ disk w' Salt = Some (salt_bytes (storage_salt ctx))
  end.
Proof.
  unfold auto_persist_salt. destruct (db_path (ctx_config ctx)) as [p|]; [|eexists _, _; split; [reflexivity|]; destruct (disk w Salt); auto].
  unfold bind at 1, get. destruct (disk w Salt) as [b|] eqn:Es; [by eexists _, _|].
  destruct (replace_run SaltTmp Salt [SALT_HEADER; storage_salt ctx] env w c) as (r & w' & E & _ & H); [done|].
  exists r, w'. split; [exact E|]. cbn [concat] in H. rewrite app_nil_r in H.
  destruct H as [[_ ?]|[_ ->]]; [by right | by left].
Qed.

Lemma persist_quiet ctx env w c : is_Some (db_path (ctx_config ctx)) -> undisturbed w ->
  exists w', auto_persist_salt ctx env w c = (Ok tt, w', c) /\ undisturbed w' /\
    disk w' Salt = match disk w Salt with Some b => Some b | None => Some (salt_bytes (storage_salt ctx)) end.
Proof.
  intros [p Hp] Hu. unfold auto_persist_salt. rewrite Hp. unfold bind at 1, get.
  destruct (disk w Salt) as [b|] eqn:Es; [by exists w|].
  destruct (replace_quiet SaltTmp Salt [SALT_HEADER; storage_salt ctx] env w c Hu) as (w' & E & Hu').
  destruct (replace_run SaltTmp Salt [SALT_HEADER; storage_salt ctx] env w c) as (r & w2 & E2 & _ & H); [done|].
  rewrite E in E2. injection E2 as <- <-. exists w'. split; [exact E|]. split; [done|]. cbn [concat] in H. rewrite app_nil_r in H.
  destruct H as [[_ ?]|[[e ?] _]]; done.
Qed.

Lemma length_random_vec {E} n env t c v t' c' : (0 < n)%nat -> random_vec (E := E) n env t c = (Ok v, t', c') -> length v = n.
Proof.
  intros Hn. unfold random_vec, bind, m_try, with_thread_rng, bind, get, zoom, lift, put, ret.
  assert (Hf : forall s c r s' c', fill_bytes (E := CryptoError.t) n env s c = (r, s', c') -> length (match r with Ok b => b | _ => zeros n end) = n).
  { intros s c0 r s' c1 Er. destruct (fill_bytes_ok (E := CryptoError.t) n env s c0 Hn) as (b & s2 & c2 & Eb & Hl).
    rewrite Eb in Er. by injection Er as <- _ _. }
  assert (Hz : length (zeros n) = n) by apply length_zeros.
  destruct t as [t|]; cbn [fst snd]; [|destruct (SecureRandom_new env c) as [[rng|e|] c1]; cbn [fst snd]].
  1, 2: destruct (fill_bytes (E := CryptoError.t) n env _ _) as [[r s] c2] eqn:Er; apply Hf in Er; destruct r; intros [=]; by subst.
  all: intros [=]; by subst.
Qed.

Lemma new_context_salt fuel config pw env t c ctx t' c' :
  SecureContext_new fuel config pw env t c = (Ok (Some ctx), t', c') ->
  length (storage_salt ctx) = 32%nat /\ ctx_config ctx = config /\
  match pw with Some p => storage_kdf p (storage_salt ctx) = Ok (storage_key ctx) | None => True end.
Proof.
  intros E0. pose proof E0 as E1. apply SecureContext_new_inv in E1 as (_ & Hc & _). revert E0. unfold SecureContext_new. intros E. inv_bind E.
  apply bind_ok_inv in E as (keys & t2 & c2 & Ek & E).
  assert (Hk : forall key salt, keys = Some (key, salt) -> length salt = 32%nat /\
    match pw with Some p => storage_kdf p salt = Ok key | None => True end).
  { intros key salt ->. revert Ek. unfold new_storage_key. destruct pw as [pw|]; intros Ek.
    - apply bind_ok_inv in Ek as (v & t3 & c3 & Ev & Ek). apply bind_ok_inv in Ek as (key' & t4 & c4 & Ed & Ek).
      apply ret_ok_inv in Ek as (Ek & _ & _). injection Ek as -> ->. apply length_random_vec in Ev; [|lia]. split; [done|].
      unfold res in Ed. by injection Ed as ->.
    - inv_bind Ek. apply ret_ok_inv in Ek as (Ek & _ & _). destruct a0; [|done]. injection Ek as _ ->.
      split; [apply length_zeros | done]. }
  destruct keys as [[key salt]|]; [|done]. specialize (Hk key salt eq_refl). inv_bind E.
  apply bind_ok_inv in E as ([d r] & sd & cd & _ & E). inv_bind E. inv_bind E.
  apply ret_ok_inv in E as (E & _ & _). injection E as ->. cbn [storage_salt storage_key]. tauto.
Qed.

Lemma new_on_disk_context fuel config pw env w t c ctx s' c' :
  SecureContext_new_on_disk fuel config pw env (w, t) c = (Ok (Some ctx), s', c') ->
  exists t2 c2, SecureContext_new fuel config pw env t c = (Ok (Some ctx), t2, c2).
Proof.
  unfold SecureContext_new_on_disk, bind at 1, zoom at 1, m_map_err. cbn [snd].
  destruct (SecureContext_new fuel config pw env t c) as [[[o|e|] t2] c2]; cbn [map_err]; [|done..]. intros E.
  assert (o = Some ctx) as ->; [|by eexists _, _]. revert E. destruct o as [x|]; [|done].
  destruct (db_path config); [|by intros [=<-]]. destruct pw; [|by intros [=<-]]. unfold bind, zoom, m_try.
  destruct (auto_persist_salt x env _ c2) as [[r w2] c3]. by destruct r as [[]|[e|]|]; intros [=<-].
Qed.

(** What making a context does to the salt file. *)
Lemma new_on_disk_run fuel config pw env w t c : exists r w' t' c',
  SecureContext_new_on_disk fuel config pw env (w, t) c = (r, (w', t'), c') /\
  (disk w' Salt = disk w Salt \/
   disk w Salt = None /\ exists salt, length salt = 32%nat /\ disk w' Salt = Some (salt_bytes salt)).
Proof.
  unfold SecureContext_new_on_disk, bind at 1, zoom at 1, m_map_err.
  destruct (SecureContext_new fuel config pw env (snd (w, t)) c) as [[r t1] c1] eqn:En.
  destruct r as [[ctx|]|e|]; cbn [map_err fst]; try (by (eexists _, _, _, _; split; [reflexivity | by left])).
  destruct (db_path config); [|by (eexists _, _, _, _; split; [reflexivity | by left])].
  destruct pw; [|by (eexists _, _, _, _; split; [reflexivity | by left])].
  apply new_context_salt in En as (Hl & _ & _). unfold bind, zoom, m_try. cbn [fst snd].
  destruct (persist_run ctx env w c1) as (r & w' & -> & H).
  assert (Hd : disk w' Salt = disk w Salt \/ disk w Salt = None /\ exists salt, length salt = 32%nat /\ disk w' Salt = Some (salt_bytes salt)).
  { destruct (disk w Salt) as [b|]; [by left|]. destruct H as [->|Hs]; [by left | right; split; [done|]; by eexists]. }
  destruct r as [[]|[e|]|]; by eexists _, _, _, _.
Qed.

Lemma load_salt_run env w c b : disk w Salt = Some b -> io_faults w (io_count w) = None ->
  exists w', load_salt_from_disk env w c = (Ok (parse_salt b), w', c).
Proof.
  intros Hb Hf. unfold load_salt_from_disk, read_file, m_try, io, perform, bind, get, put, modify, or_fail, res, ret. rewrite Hf.
  cbn [disk set_disk whole atomic]. rewrite Hb. cbn [ok_or map_err]. by eexists.
Qed.

(** A context is made in some process, which may be killed. *)
Definition starts (w w' : World) : Prop := exists fuel config pw env t c,
  fst (snd (fst (SecureContext_new_on_disk fuel config pw env (w, t) c))) = w'.

Lemma starts_salt w w' : starts w w' ->
  disk w' Salt = disk w Salt \/
  disk w Salt = None /\ exists salt, length salt = 32%nat /\ disk w' Salt = Some (salt_bytes salt).
Proof.
  intros (fuel & config & pw & env & t & c & <-).
  by destruct (new_on_disk_run fuel config pw env w t c) as (r & w' & t' & c' & -> & ?).
Qed.

Lemma starts_keep w w' b : rtc starts w w' -> disk w Salt = Some b -> disk w' Salt = Some b.
Proof.
  induction 1 as [|w1 w2 w3 Hs _ IH]; [done|]. intros Hb. apply IH. destruct (starts_salt _ _ Hs) as [->|[Hn _]]; [done|]. congruence.
Qed.

(** C29: the salt file is whole and never changes.  However often contexts are
    made over one path, whichever of the file operations fail, are cut short in
    the middle of a write or are the last of a killed process: at any time there
    is no salt file, or one with the header and all 32 bytes of a salt, which
    [load_salt_from_disk] returns; and from then on no context, however it is
    made, changes the file. *)
Theorem salt_file_is_whole w w1 w2 : disk w Salt = None -> rtc starts w w1 -> rtc starts w1 w2 ->
  disk w1 Salt = None \/
  exists salt, length salt = 32%nat /\ disk w1 Salt = Some (salt_bytes salt) /\ disk w2 Salt = disk w1 Salt /\
    forall env c, io_faults w2 (io_count w2) = None -> exists w3, load_salt_from_disk env w2 c = (Ok (Some salt), w3, c).
Proof.
  intros Hn H1 H2.
  assert (Hw : disk w1 Salt = None \/ exists salt, length salt = 32%nat /\ disk w1 Salt = Some (salt_bytes salt)).
  { revert Hn H2. induction H1 as [|w x w1 Hs H1 IH]; [by left|]. intros Hn H2.
    destruct (starts_salt _ _ Hs) as [E|(_ & salt & Hl & E)]; [apply IH; [congruence | done]|].
    right. exists salt. split; [done|]. by apply (starts_keep x w1). }
  destruct Hw as [?|(salt & Hl & E)]; [by left|]. right. exists salt. split; [done|]. split; [done|].
  pose proof (starts_keep w1 w2 _ H2 E) as E2. split; [congruence|]. intros env c Hf.
  destruct (load_salt_run env w2 c _ E2 Hf) as [w3 H]. exists w3. by rewrite parse_salt_bytes in H by done.
Qed.

(** A restart does not read the salt back.  Two contexts made one after the
    other with a password over one path, the first on an empty path and
    undisturbed: each context's key is the one of its password and of the salt its
    own constructor drew, and what [load_salt_from_disk] returns is the salt of the
    first, also while the second is in use. *)
Theorem restart_keeps_first_salt f1 f2 cfg1 cfg2 pw1 pw2 env1 env2 w t1 t2 c1 c2 x1 x2 w1 w2 t1' t2' c1' c2' :
  undisturbed w -> disk w Salt = None -> is_Some (db_path cfg1) ->
  SecureContext_new_on_disk f1 cfg1 (Some pw1) env1 (w, t1) c1 = (Ok (Some x1), (w1, t1'), c1') ->
  SecureContext_new_on_disk f2 cfg2 (Some pw2) env2 (w1, t2) c2 = (Ok (Some x2), (w2, t2'), c2') ->
  io_faults w2 (io_count w2) = None ->
  storage_kdf pw1 (storage_salt x1) = Ok (storage_key x1) /\ storage_kdf pw2 (storage_salt x2) = Ok (storage_key x2) /\
  exists w3, load_salt_from_disk env2 w2 c2' = (Ok (Some (storage_salt x1)), w3, c2').
Proof.
  intros Hu Hn Hp E1 E2 Hf. destruct (new_on_disk_context _ _ _ _ _ _ _ _ _ _ E1) as (ta & ca & Ea).
  destruct (new_on_disk_context _ _ _ _ _ _ _ _ _ _ E2) as (tb & cb & Eb).
  apply new_context_salt in Ea as (_ & _ & Ka), Eb as (_ & _ & Kb). split; [done|]. split; [done|].
  assert (Hs : length (storage_salt x1) = 32%nat /\ disk w1 Salt = Some (salt_bytes (storage_salt x1))).
  { revert E1. unfold SecureContext_new_on_disk, bind at 1, zoom at 1, m_map_err. cbn [snd].
    destruct (SecureContext_new f1 cfg1 (Some pw1) env1 t1 c1) as [[r t3] c3] eqn:En.
    destruct r as [[ctx|]|e|]; cbn [map_err fst]; [|done..].
    apply new_context_salt in En as (Hl & Hc & _). destruct Hp as [p Hp]. rewrite Hp. unfold bind, zoom, m_try. cbn [fst snd].
    destruct (persist_quiet ctx env1 w c3) as (w4 & -> & _ & Hd); [rewrite Hc, Hp; by eexists | done|].
    unfold ret. intros [=]. subst. rewrite Hn in Hd. by split. }
  destruct Hs as [Hl Hs].
  assert (Hw2 : disk w2 Salt = Some (salt_bytes (storage_salt x1))).
  { destruct (new_on_disk_run f2 cfg2 (Some pw2) env2 w1 t2 c2) as (r & w' & t' & c' & E & [H|[H _]]); [|congruence].
    rewrite E in E2. injection E2 as _ -> _ _. congruence. }
  destruct (load_salt_run env2 w2 c2' _ Hw2 Hf) as [w3 H]. exists w3. by rewrite parse_salt_bytes in H by done.
Qed.

(** C28: saving a key store is atomic.  Take a usable key, a store whose
    encoding has at most 100 MiB and a healthy random source.  Whichever file
    operation fails, is cut short or is the last one of a killed process, the
    file is the old one, or the call succeeded and it is the whole new one,
    which opens to the store's persistent part; an undisturbed save succeeds. 
    Loading on a working disk gives that store back when the file has at most 10
    MiB, and otherwise fails. *)
Theorem keystore_save_is_atomic s key h plain env w c :
  CryptoHandler_new key = Ok h -> store_encode (persistent s) = Some plain -> len plain <= MAX_PLAINTEXT_LENGTH -> rng_healthy env ->
  exists r w' c' data, keystore_save_to_disk s key env w c = (r, w', c') /\
    (r = Ok tt /\ disk w' Keys = Some data \/ (exists e, r = Err e) /\ disk w' Keys = disk w Keys) /\
    (undisturbed w -> r = Ok tt) /\
    len data = len plain + 28 /\
    forall env2 w2 c2, undisturbed w2 -> disk w2 Keys = Some data ->
      fst (fst (keystore_load_from_disk key env2 w2 c2)) =
        if len plain + 28 <=? MAX_KEYSTORE_FILE_SIZE then Ok (persistent s) else Err (Failed ProtocolError.StorageError).
Proof.
  intros Hh Hp Hl Hr. destruct (sealed_store_roundtrip s key h plain env c Hh Hp Hl Hr) as (data & c' & Es & Hd & Hf & _).
  unfold keystore_save_to_disk, bind at 1, lift, io_map_err. rewrite Es. cbn [map_err].
  destruct (replace_run KeysTmp Keys [data] env w c') as (r & w' & E & _ & H); [done|]. exists r, w', c', data.
  cbn [concat] in H. rewrite app_nil_r in H. split; [exact E|]. split; [exact H|].
  split; [|split; [done|]].
  - intros Hu. destruct (replace_quiet KeysTmp Keys [data] env w c' Hu) as (w2 & E2 & _). rewrite E in E2. by injection E2 as -> _.
  - intros env2 w2 c2 Hu Hk. unfold keystore_load_from_disk, read_file, io, perform, bind, get, put, modify, or_fail, fail, res.
    rewrite Hu. cbn [disk set_disk whole atomic]. rewrite Hk. cbn [ok_or map_err]. cbn [io_faults io_count set_disk]. rewrite Hu, Hd.
    rewrite Z.ltb_antisym. destruct (_ <=? _); cbn [negb]; [|done]. cbn [io_faults io_count set_disk]. rewrite Hu, Hf. done.
Qed.

End KeyFileProperties.

(** ** Witnesses *)

Definition demo_path : Config :=
  mkConfig true true 2000 86400 30 1024 true 256 (Some "store"%string) true (10 * 1024 * 1024) 3600 true
    (30 * 86400) PaddingMode.Standard "https://relay.sibna.dev" None true false.

Definition demo_password : bytes := bstr "Correct-Horse-7-Battery".

(** A process that makes a context; its random bytes are [seed]s. *)
Definition seed_env (seed : Byte.byte) : Env :=
  mkEnv (fun _ => Some (1700000000 * NANOS)) (fun i => 50000000 * Z.of_nat i) (fun _ => seed) 7.
Definition demo_start (seed : Byte.byte) (w : World) :=
  SecureContext_new_on_disk (P := toy) 1 demo_path (Some demo_password) (seed_env seed) (w, None) ctr0.

Definition world_after (seed : Byte.byte) (w : World) : World := fst (snd (fst (demo_start seed w))).

Lemma demo_starts seed w : starts (P := toy) w (world_after seed w).
Proof. by eexists _, _, _, _, _, _. Qed.

(** The first process is killed in the middle of a write, two others follow. *)
Definition demo_killed : World := world_after x01 (empty_disk (fun n => if decide (n = 2%nat) then Some (IoKilled 5) else None)).

Example killed_write_is_torn : option_map length (disk demo_killed SaltTmp) = Some 18%nat /\ disk demo_killed Salt = None.
Proof. vm_compute. by split. Qed.

Lemma salt_file_is_whole_witness :
  exists salt, disk (world_after x02 demo_killed) Salt = Some (salt_bytes salt) /\
    disk (world_after x03 (world_after x02 demo_killed)) Salt = Some (salt_bytes salt).
Proof.
  set (w0 := empty_disk (fun n => if decide (n = 2%nat) then Some (IoKilled 5) else None)).
  assert (H1 : rtc (starts (P := toy)) w0 (world_after x02 demo_killed)).
  { eapply rtc_l; [exact (demo_starts x01 w0)|]. apply rtc_once, demo_starts. }
  assert (H2 : rtc (starts (P := toy)) (world_after x02 demo_killed) (world_after x03 (world_after x02 demo_killed)))
    by (apply rtc_once, demo_starts).
  destruct (salt_file_is_whole (P := toy) (L := toy_laws) w0 _ _ eq_refl H1 H2) as [Hn|(salt & _ & E & E2 & _)].
  - exfalso. revert Hn. vm_compute. discriminate.
  - exists salt. split; [exact E | rewrite E2; exact E].
Defined.

Definition salt_of (r : Res Exit (option SecureContext)) : bytes :=
  match r with Ok (Some x) => storage_salt x | _ => [] end.

(** The second context's salt is not the one on disk. *)
Lemma restart_keeps_first_salt_witness :
  let w1 := world_after x01 (empty_disk (fun _ => None)) in
  let s1 := salt_of (fst (fst (demo_start x01 (empty_disk (fun _ => None))))) in
  let s2 := salt_of (fst (fst (demo_start x02 w1))) in
  s1 <> s2 /\ exists env c w3, load_salt_from_disk env (world_after x02 w1) c = (Ok (Some s1), w3, c).
Proof.
  intros w1 s1 s2. split; [vm_compute; discriminate|].
  destruct (demo_start x01 (empty_disk (fun _ => None))) as [[r1 [v1 t1]] c1] eqn:E1.
  assert (K1 : match r1 with Ok (Some _) => true | _ => false end = true)
    by (change r1 with (fst (fst (r1, (v1, t1), c1))); rewrite <- E1; vm_compute; reflexivity).
  destruct r1 as [[x1|]|e1|]; [|discriminate K1..].
  assert (Ew : w1 = v1) by (unfold w1, world_after; rewrite E1; reflexivity).
  destruct (demo_start x02 v1) as [[r2 [v2 t2]] c2] eqn:E2.
  assert (K2 : match r2 with Ok (Some _) => true | _ => false end = true).
  { change r2 with (fst (fst (r2, (v2, t2), c2))). rewrite <- E2, <- Ew. vm_compute. reflexivity. }
  destruct r2 as [[x2|]|e2|]; [|discriminate K2..].
  assert (Ew2 : world_after x02 w1 = v2) by (rewrite Ew; unfold world_after; rewrite E2; reflexivity).
  assert (Hf : io_faults v2 (io_count v2) = None) by (rewrite <- Ew2; vm_compute; reflexivity).
  assert (Hs : disk (empty_disk (fun _ => None)) Salt = None) by reflexivity.
  assert (Hp : is_Some (db_path demo_path)) by (exists "store"%string; reflexivity).
  assert (Hu : undisturbed (empty_disk (fun _ => None))) by (intros n; reflexivity).
  unfold demo_start in E1, E2.
  pose proof (restart_keeps_first_salt (P := toy) (L := toy_laws) 1 1 demo_path demo_path demo_password demo_password
    (seed_env x01) (seed_env x02) (empty_disk (fun _ => None)) None None ctr0 ctr0 x1 x2 v1 v2 t1 t2 c1 c2 Hu Hs Hp E1 E2 Hf) as H.
  destruct H as (_ & _ & w3 & E3).
  assert (Es : s1 = storage_salt x1) by reflexivity.
  rewrite Es, Ew2. eexists _, c2, w3. exact E3.
Defined.

(** The rename fails: the file keeps its old contents. *)
Lemma keystore_save_is_atomic_witness :
  let w := set_disk (set_file Keys (Some (bstr "old")) (fun _ => None)) (empty_disk (fun n => if decide (n = 3%nat) then Some (IoFails 0) else None)) in
  exists r w' c' data, keystore_save_to_disk (P := toy) (C := one_store KeyStore_new) KeyStore_new demo_key demo_env1 w ctr0 = (r, w', c') /\
    (r = Ok tt /\ disk w' Keys = Some data \/ (exists e, r = Err e) /\ disk w' Keys = Some (bstr "old")) /\ len data = 33.
Proof.
  intros w. destruct (keystore_save_is_atomic (P := toy) (L := toy_laws) (C := one_store KeyStore_new) (CL := one_store_laws KeyStore_new)
    KeyStore_new demo_key (mkCryptoHandler demo_key) (bstr "store") demo_env1 w ctr0)
    as (r & w' & c' & data & E & H & _ & Hd & _); [vm_compute; reflexivity | vm_compute; reflexivity | vm_compute; discriminate | exact demo_env1_healthy |].
  exists r, w', c', data. split; [exact E|]. split; [exact H | exact Hd].
Defined.
