(* ===== verification/SecureMemory.v ===== *)
(** * Pinned buffers ([core/src/crypto/secure_memory.rs])

    [SecureMemory] as it is built on Unix: a boxed slice at an address of the
    allocator's choice, pinned with [mlock] and unpinned with [munlock].  The
    kernel is a parameter with the documented behaviour of the two calls: they
    work on whole pages, locks do not stack, and a call that fails changes
    nothing. *)

From S2P Require Import Prelude Effects.
#[local] Open Scope Z_scope.
#[local] Open Scope sibna_scope.

(** ** The kernel *)

Class Kernel := {
  Os : Type;
  page_size : Z;
  pinned : Os -> Z -> bool;
  mlock : Z -> Z -> Os -> bool * Os;
  munlock : Z -> Z -> Os -> bool * Os
}.

(** The pages of [n] bytes at [a]. *)
Definition on_page {K : Kernel} (a n p : Z) : bool := (a / page_size <=? p) && (p <=? (a + n - 1) / page_size).

Class KernelLaws (K : Kernel) := {
  page_size_pos : 0 < page_size;
  mlock_pins a n s s' p : mlock a n s = (true, s') -> pinned s' p = pinned s p || on_page a n p;
  mlock_refused a n s s' p : mlock a n s = (false, s') -> pinned s' p = pinned s p;
  munlock_unpins a n s s' p : munlock a n s = (true, s') -> pinned s' p = pinned s p && negb (on_page a n p);
  munlock_refused a n s s' p : munlock a n s = (false, s') -> pinned s' p = pinned s p
}.

(** ** The buffer *)

Record SecureMemory := mkSecureMemory { address : Z; data : bytes; locked : bool }.

Definition as_slice (b : SecureMemory) : bytes := data b.
Definition sm_len (b : SecureMemory) : Z := len (data b).
Definition is_empty (b : SecureMemory) : bool := (length (data b) =? 0)%nat.
Definition is_locked (b : SecureMemory) : bool := locked b.

Section SecureMemory.
Context {K : Kernel}.

Definition lock_bytes (a : Z) (d : bytes) (s : Os) : bool * Os := mlock a (len d) s.
Definition unlock_bytes (a : Z) (d : bytes) (s : Os) : Os := snd (munlock a (len d) s).

(** The allocator places the bytes at [a]. *)
Definition SecureMemory_new (size : nat) (a : Z) (s : Os) : SecureMemory * Os :=
  if (size =? 0)%nat then (mkSecureMemory a [] false, s)
  else
    let d := zeros size in
    let (ok, s) := lock_bytes a d s in
    (mkSecureMemory a d ok, s).

(** [copy_from_slice] panics on different lengths, which are equal here. *)
Definition SecureMemory_from_bytes (b : bytes) (a : Z) (s : Os) : SecureMemory * Os :=
  let (me, s) := SecureMemory_new (length b) a s in
  (mkSecureMemory (address me) b (locked me), s).

(** [as_mut_slice], and what is written through it. *)
Definition as_mut_slice (f : bytes -> bytes) (b : SecureMemory) : SecureMemory :=
  mkSecureMemory (address b) (f (data b)) (locked b).

(** [drop]: the bytes that go back to the allocator, and the kernel. *)
Definition SecureMemory_drop (b : SecureMemory) (s : Os) : bytes * Os :=
  let s := if locked b && negb (is_empty b) then unlock_bytes (address b) (data b) s else s in
  (zeros (length (data b)), s).

(** ** Histories *)

(** The kernel, the live buffers and the memory given back. *)
Record Heap := mkHeap { os : Os; live : gmap nat SecureMemory; freed : list (Z * bytes) }.

Inductive mem_op :=
| MNew (h : nat) (size : nat) (a : Z)
| MFromBytes (h : nat) (b : bytes) (a : Z)
| MWrite (h : nat) (b : bytes)
| MDrop (h : nat).

(** A new buffer under a handle that is not in use; writing keeps the length. *)
Definition mem_run (o : mem_op) (m : Heap) : option Heap :=
  match o with
  | MNew h size a =>
      if decide (live m !! h = None) then
        let (b, s) := SecureMemory_new size a (os m) in Some (mkHeap s (<[h := b]> (live m)) (freed m))
      else None
  | MFromBytes h d a =>
      if decide (live m !! h = None) then
        let (b, s) := SecureMemory_from_bytes d a (os m) in Some (mkHeap s (<[h := b]> (live m)) (freed m))
      else None
  | MWrite h d =>
      match live m !! h with
      | Some b => if (length d =? length (data b))%nat
                  then Some (mkHeap (os m) (<[h := as_mut_slice (fun _ => d) b]> (live m)) (freed m)) else None
      | None => None
      end
  | MDrop h =>
      match live m !! h with
      | Some b => let (d, s) := SecureMemory_drop b (os m) in
                  Some (mkHeap s (delete h (live m)) ((address b, d) :: freed m))
      | None => None
      end
  end.

(** No two live buffers have bytes on one page. *)
Definition pages_apart (m : Heap) : Prop := forall h k b c p, h <> k -> live m !! h = Some b -> live m !! k = Some c ->
  on_page (address b) (sm_len b) p = true -> on_page (address c) (sm_len c) p = true -> data b = [] \/ data c = [].

Definition mem_step (m m' : Heap) : Prop := exists o, mem_run o m = Some m' /\ pages_apart m'.

(** ** What the flag says *)

Definition all_pinned (m : Heap) : Prop := forall h b p, live m !! h = Some b -> is_locked b = true ->
  on_page (address b) (sm_len b) p = true -> pinned (os m) p = true.

Definition all_wiped (m : Heap) : Prop := Forall (fun x => all_zero (snd x) = true) (freed m).

Definition locked_nonempty (m : Heap) : Prop := forall h b, live m !! h = Some b -> is_locked b = true -> data b <> [].

Definition mem_inv (m : Heap) : Prop := all_pinned m /\ all_wiped m /\ locked_nonempty m /\ pages_apart m.

Context {KL : KernelLaws K}.

Lemma new_run size a s : exists b s', SecureMemory_new size a s = (b, s') /\ address b = a /\ data b = zeros size /\
  (is_locked b = true -> (0 < size)%nat) /\
  forall p, pinned s' p = pinned s p || is_locked b && on_page a (Z.of_nat size) p.
Proof.
  unfold SecureMemory_new. destruct (Nat.eqb_spec size 0) as [->|Hs].
  - eexists _, _. split; [reflexivity|]. do 2 (split; [done|]). split; [done|]. intros p. by rewrite orb_false_r.
  - unfold lock_bytes. destruct (mlock a (len (zeros size)) s) as [ok s'] eqn:E. eexists _, _. split; [reflexivity|].
    do 2 (split; [done|]). split; [lia|]. intros p. unfold len in E. rewrite length_zeros in E. destruct ok; cbn [is_locked locked andb].
    + by apply mlock_pins.
    + rewrite orb_false_r. by eapply mlock_refused.
Qed.

Lemma from_bytes_run d a s : exists b s', SecureMemory_from_bytes d a s = (b, s') /\ address b = a /\ data b = d /\
  (is_locked b = true -> (0 < length d)%nat) /\
  forall p, pinned s' p = pinned s p || is_locked b && on_page a (len d) p.
Proof.
  unfold SecureMemory_from_bytes. destruct (new_run (length d) a s) as (b & s' & -> & Ha & _ & Hl & Hp).
  eexists _, _. split; [reflexivity|]. done.
Qed.

Lemma drop_run b s : exists s', SecureMemory_drop b s = (zeros (length (data b)), s') /\
  forall p, (data b <> [] -> is_locked b = true -> on_page (address b) (sm_len b) p = false) -> pinned s' p = pinned s p.
Proof.
  unfold SecureMemory_drop. eexists. split; [reflexivity|]. intros p Hp. destruct (locked b && negb (is_empty b)) eqn:E; [|done].
  apply andb_true_iff in E as [El En]. unfold unlock_bytes. destruct (munlock (address b) (len (data b)) s) as [ok s'] eqn:Eu. cbn [snd].
  destruct ok; [|by eapply munlock_refused]. rewrite (munlock_unpins _ _ _ _ p Eu). unfold sm_len in Hp. rewrite Hp.
  - by rewrite andb_true_r.
  - intros E0. unfold is_empty in En. by rewrite E0 in En.
  - done.
Qed.

(** A new buffer joins. *)
Lemma inv_insert m h b s : mem_inv m -> live m !! h = None ->
  (is_locked b = true -> data b <> []) ->
  (forall p, pinned s p = pinned (os m) p || is_locked b && on_page (address b) (sm_len b) p) ->
  pages_apart (mkHeap s (<[h := b]> (live m)) (freed m)) -> mem_inv (mkHeap s (<[h := b]> (live m)) (freed m)).
Proof.
  intros (Hp & Hw & Hl & _) Hn Hb Hs Ha. split; [|split; [done|split; [|done]]].
  - intros k c p. cbn [live os]. rewrite Hs. destruct (decide (k = h)) as [->|Hne].
    + rewrite lookup_insert_eq. intros [= <-] -> ->. apply orb_true_r.
    + rewrite lookup_insert_ne by done. intros Hk Hlk Hpk. by rewrite (Hp k c p Hk Hlk Hpk).
  - intros k c. cbn [live]. destruct (decide (k = h)) as [->|Hne]; [rewrite lookup_insert_eq; by intros [= <-]|].
    rewrite lookup_insert_ne by done. apply Hl.
Qed.

Lemma mem_step_inv m m' : mem_inv m -> mem_step m m' -> mem_inv m'.
Proof.
  intros Hi (o & E & Ha). destruct o as [h size a|h d a|h d|h]; cbn [mem_run] in E.
  - destruct (decide _) as [Hn|]; [|done]. destruct (new_run size a (os m)) as (b & s & Eb & <- & Hd & Hl & Hp). rewrite Eb in E.
    injection E as <-. apply inv_insert; try done.
    + intros Hk. rewrite Hd. intros E0. apply Hl in Hk. assert (length (zeros size) = 0%nat) by (by rewrite E0). rewrite length_zeros in *. lia.
    + intros p. unfold sm_len, len. rewrite Hd, length_zeros. apply Hp.
  - destruct (decide _) as [Hn|]; [|done]. destruct (from_bytes_run d a (os m)) as (b & s & Eb & <- & Hd & Hl & Hp). rewrite Eb in E.
    injection E as <-. apply inv_insert; try done.
    + intros Hk. apply Hl in Hk. rewrite Hd. intros ->. simpl in Hk. lia.
    + intros p. unfold sm_len. rewrite Hd. apply Hp.
  - destruct (live m !! h) as [b|] eqn:Eh; [|done]. destruct (Nat.eqb_spec (length d) (length (data b))) as [Hlen|]; [|done]. injection E as <-.
    destruct Hi as (Hp & Hw & Hl & _). split; [|split; [done|split; [|done]]].
    + intros k c p. cbn [live os]. destruct (decide (k = h)) as [->|Hne]; [|rewrite lookup_insert_ne by done; apply Hp].
      rewrite lookup_insert_eq. intros [= <-]. unfold sm_len, len, as_mut_slice, is_locked. cbn [address data locked]. rewrite Hlen. apply (Hp h b p Eh).
    + intros k c. cbn [live]. destruct (decide (k = h)) as [->|Hne]; [|rewrite lookup_insert_ne by done; apply Hl].
      rewrite lookup_insert_eq. intros [= <-] Hk E0. apply (Hl h b Eh Hk). cbn in E0. subst d. by destruct (data b).
  - destruct (live m !! h) as [b|] eqn:Eh; [|done]. destruct (drop_run b (os m)) as (s & Ed & Hs). rewrite Ed in E. injection E as <-.
    destruct Hi as (Hp & Hw & Hl & Hap). split; [|split; [|split; [|done]]].
    + intros k c p. cbn [live os]. destruct (decide (k = h)) as [->|Hne]; [by rewrite lookup_delete_eq|]. rewrite lookup_delete_ne by done.
      intros Hk Hkl Hpk. rewrite Hs; [by apply (Hp k c)|]. intros Hb _. apply not_true_iff_false. intros Hpb.
      destruct (Hap h k b c p) as [?|Hc]; try done. by apply (Hl k c).
    + constructor; [|done]. cbn [snd]. apply all_zero_spec. by rewrite length_zeros.
    + intros k c. cbn [live]. destruct (decide (k = h)) as [->|Hne]; [by rewrite lookup_delete_eq|]. rewrite lookup_delete_ne by done. apply Hl.
Qed.

(** What a pinned buffer promises.  Through any history of buffers made,
    filled, overwritten and dropped in which live buffers never share a page,
    whether or not the kernel grants the locks: every live buffer that says it is
    locked has all its pages pinned, and all memory given back was overwritten
    with zeros. *)
Theorem locked_means_pinned m0 m : live m0 = ∅ -> freed m0 = [] -> rtc mem_step m0 m -> all_pinned m /\ all_wiped m.
Proof.
  intros Hl Hf Hs. assert (Hi : mem_inv m0).
  { split; [|split; [|split]]; unfold all_pinned, all_wiped, locked_nonempty, pages_apart; rewrite ?Hl, ?Hf; done. }
  enough (mem_inv m) by (by split; [apply H | apply H]). clear Hl Hf. revert Hi. induction Hs as [|m1 m2 m3 Hs _ IH]; [done|].
  intros Hi. apply IH. by eapply mem_step_inv.
Qed.

(** Buffers on one page do not protect each other.  When the kernel grants
    the unlocking, dropping a locked buffer unpins every page it was on: a live
    buffer with bytes on one of them still says it is locked, and is not. *)
Theorem neighbour_is_unpinned m h k b c p m' : live m !! h = Some b -> live m !! k = Some c -> h <> k ->
  is_locked b = true -> data b <> [] -> fst (munlock (address b) (sm_len b) (os m)) = true ->
  on_page (address b) (sm_len b) p = true -> on_page (address c) (sm_len c) p = true ->
  mem_run (MDrop h) m = Some m' ->
  live m' !! k = Some c /\ pinned (os m') p = false.
Proof.
  intros Hb Hc Hne Hl Hd Hu Hp Hq E. cbn [mem_run] in E. rewrite Hb in E. unfold SecureMemory_drop in E. injection E as <-. cbn [live os].
  rewrite lookup_delete_ne by done. split; [done|]. unfold is_locked in Hl. rewrite Hl.
  assert (is_empty b = false) as -> by (unfold is_empty; by destruct (data b)). cbn [andb negb]. unfold unlock_bytes, sm_len in *.
  destruct (munlock (address b) (len (data b)) (os m)) as [ok s] eqn:Eu. cbn [fst snd] in *. subst ok.
  rewrite (munlock_unpins _ _ _ _ p Eu), Hp. apply andb_false_r.
Qed.

End SecureMemory.

(** ** Witnesses *)

(** A kernel that keeps a set of pages and grants every request but those of
    more than 16 pages. *)
Definition page_list (a n : Z) : list Z := (fun i => a / 4096 + Z.of_nat i) <$> seq 0 (Z.to_nat ((a + n - 1) / 4096 - a / 4096 + 1)).

Definition demo_kernel : Kernel := {|
  Os := gset Z;
  page_size := 4096;
  pinned s p := bool_decide (p ∈ s);
  mlock a n s := if (16 <? length (page_list a n))%nat then (false, s) else (true, s ∪ list_to_set (page_list a n));
  munlock a n s := (true, s ∖ list_to_set (page_list a n))
|}.

Lemma page_list_spec a n p : p ∈ page_list a n <-> on_page (K := demo_kernel) a n p = true.
Proof.
  unfold page_list, on_page. cbn [page_size demo_kernel]. rewrite list_elem_of_fmap, andb_true_iff, !Z.leb_le. split.
  - intros (i & -> & Hi). apply elem_of_seq in Hi. lia.
  - intros [H1 H2]. exists (Z.to_nat (p - a / 4096)). split; [lia|]. apply elem_of_seq. lia.
Qed.

Lemma demo_kernel_laws : KernelLaws demo_kernel.
Proof.
  split; cbn [pinned mlock munlock page_size demo_kernel].
  - lia.
  - intros a n s s' p. destruct (_ <? _)%nat; [done|]. intros [= <-]. apply eq_true_iff_eq.
    rewrite orb_true_iff, !bool_decide_eq_true, elem_of_union, elem_of_list_to_set, page_list_spec. done.
  - intros a n s s' p. destruct (_ <? _)%nat; [|done]. by intros [= <-].
  - intros a n s s' p [= <-]. apply eq_true_iff_eq.
    rewrite andb_true_iff, negb_true_iff, <- not_true_iff_false, !bool_decide_eq_true, elem_of_difference, elem_of_list_to_set, page_list_spec. done.
  - done.
Qed.

Definition no_buffers : Heap (K := demo_kernel) := mkHeap (K := demo_kernel) ∅ ∅ [].

Lemma locked_means_pinned_witness :
  let key := mkSecureMemory 8192 (bstr "key") true in
  exists m, rtc (mem_step (K := demo_kernel)) no_buffers m /\ live m !! 0%nat = Some key /\
    pinned (Kernel := demo_kernel) (os m) 2 = true.
Proof.
  intros key. set (m := default no_buffers (mem_run (MFromBytes 0 (bstr "key") 8192) no_buffers)).
  assert (Hl : live m = <[0%nat := key]> ∅) by reflexivity.
  assert (Hs : rtc (mem_step (K := demo_kernel)) no_buffers m).
  { apply rtc_once. exists (MFromBytes 0 (bstr "key") 8192). split; [reflexivity|].
    intros h k b c p Hne Hh Hk. rewrite Hl in Hh, Hk. apply lookup_insert_Some in Hh as [[<- _]|[_ Hh]]; [|discriminate Hh].
    apply lookup_insert_Some in Hk as [[<- _]|[_ Hk]]; [contradiction | discriminate Hk]. }
  assert (Hk : live m !! 0%nat = Some key) by (rewrite Hl; reflexivity).
  exists m. split; [exact Hs|]. split; [exact Hk|].
  apply (proj1 (locked_means_pinned (K := demo_kernel) (KL := demo_kernel_laws) no_buffers m eq_refl eq_refl Hs) 0%nat key 2 Hk); reflexivity.
Defined.

(** Two keys of 32 bytes on page 2. *)
Lemma neighbour_is_unpinned_witness :
  let b := mkSecureMemory 8192 (zeros 32) true in
  let c := mkSecureMemory 8224 (zeros 32) true in
  let m := mkHeap (K := demo_kernel) {[2]} {[0%nat := b; 1%nat := c]} [] in
  exists m', mem_run (K := demo_kernel) (MDrop 0) m = Some m' /\ live m' !! 1%nat = Some c /\ is_locked c = true /\
    pinned (Kernel := demo_kernel) (os m') 2 = false.
Proof.
  intros b c m. destruct (mem_run (K := demo_kernel) (MDrop 0) m) as [m'|] eqn:E; [|discriminate E]. exists m'. split; [reflexivity|].
  destruct (neighbour_is_unpinned (K := demo_kernel) (KL := demo_kernel_laws) m 0 1 b c 2 m') as [H1 H2];
    [reflexivity | reflexivity | lia | reflexivity | vm_compute; discriminate | reflexivity | reflexivity | reflexivity | exact E |].
  split; [exact H1|]. split; [reflexivity | exact H2].
Defined.
