(* ===== verification/Discovery.v ===== *)
(** * Discovery and NAT traversal ([core/src/p2p/discovery.rs],
    [core/src/p2p/nat.rs], the network setup of [core/src/p2p/node.rs])

    What a node announces by multicast DNS, what it makes of the announcements
    of others, and the address it gives itself.  The mDNS daemon, the gateway and
    the list of network interfaces are parameters. *)

From S2P Require Import Prelude Effects Process Errors Primitives Codec Text Encryptor RatchetState Session Bundle KeyStore Context P2pHandshake P2pNode Server Metadata Router.
#[local] Open Scope Z_scope.
#[local] Open Scope sibna_scope.

(** ** The crates *)

Record Interface := mkInterface { if_loopback : bool; if_ip : IpAddr }.

Definition is_v4 (ip : IpAddr) : bool := match ip with V4 _ _ _ _ => true | V6 _ => false end.

(** [mdns_sd::ServiceInfo]. *)
Record ServiceInfo := mkServiceInfo {
  si_type : bytes;
  si_instance : bytes;
  si_host : bytes;
  si_ip : IpAddr;
  si_port : Z;
  si_properties : list (bytes * bytes)
}.

(** A service that was resolved: its full name, its properties, its addresses in
    the order of the set. *)
Record Resolved := mkResolved {
  get_fullname : bytes;
  get_properties : list (bytes * bytes);
  get_addresses : list IpAddr;
  get_port : Z
}.

Inductive ServiceEvent := ServiceResolved (info : Resolved) | ServiceRemoved | OtherEvent.

(** [igd::Gateway]: the port it maps for a local address, and its own address. *)
Record Gateway := mkGateway { add_any_port : SocketAddr -> option Z; get_external_ip : option IpAddr }.

Class Lan := {
  daemon_new : bool;
  (** [ServiceInfo::new] succeeds. *)
  service_info_ok : ServiceInfo -> bool;
  daemon_register : ServiceInfo -> bool;
  daemon_browse : bytes -> bool;
  (** The full name of a service. *)
  fullname : ServiceInfo -> bytes;
  get_if_addrs : option (list Interface);
  search_gateway : option Gateway
}.

(** A full name begins with the name of the instance. *)
Class LanLaws (N : Lan) := { fullname_instance i : exists rest, fullname i = si_instance i ++ rest }.

(** ** Multicast DNS *)

Definition SIBNA_SERVICE_TYPE : bytes := bstr "_sibna._tcp.local.".
Definition SESSION_TOKEN_LEN : nat := 16.

Record DiscoveredPeer := mkDiscoveredPeer { session_token : bytes; dp_addr : SocketAddr; dp_name : bytes }.

(** The handle; the daemon keeps the service it registered. *)
Record MdnsDiscovery := mkMdns { service_type : bytes; instance_name : bytes; registered : ServiceInfo }.

Section Mdns.
Context {N : Lan}.

(** [ifs.into_iter().find(..).map(|iface| iface.addr.ip())]. *)
Definition first_v4 (ifs : list Interface) : option IpAddr :=
  option_map if_ip (find (fun i => negb (if_loopback i) && is_v4 (if_ip i)) ifs).

Definition instance_of (node_name : option bytes) (session_hex : bytes) : bytes :=
  match node_name with
  | Some n => n ++ bstr "-" ++ take 12 session_hex
  | None => bstr "Sibna-" ++ take 12 session_hex
  end.

(** The address to advertise. *)
Definition advertised_ip (ip : IpAddr) : IpAddr :=
  if is_unspecified ip
  then match get_if_addrs with Some ifs => default ip (first_v4 ifs) | None => ip end
  else ip.

Definition MdnsDiscovery_new (bind_addr : SocketAddr) (node_name : option bytes) : IO P2pError.t MdnsDiscovery :=
  let* _ := io_res (ensure daemon_new P2pError.Io) in
  let* token_bytes := os_bytes SESSION_TOKEN_LEN in
  let session_hex := hex_encode token_bytes in
  let instance_name := instance_of node_name session_hex in
  let info := mkServiceInfo SIBNA_SERVICE_TYPE instance_name (instance_name ++ bstr ".local.")
                (advertised_ip (sa_ip bind_addr)) (sa_port bind_addr)
                [(bstr "session", session_hex); (bstr "version", bstr "2")] in
  let* _ := io_res (ensure (service_info_ok info) P2pError.InvalidMessage) in
  let* _ := io_res (ensure (daemon_register info) P2pError.Io) in
  io_ret (mkMdns SIBNA_SERVICE_TYPE instance_name info).

Definition property (k : bytes) (l : list (bytes * bytes)) : option bytes :=
  option_map snd (find (fun kv => bool_decide (fst kv = k)) l).

(** One event in the browsing thread. *)
Definition browse_step (myself : bytes) (e : ServiceEvent) : option DiscoveredPeer :=
  match e with
  | ServiceResolved info =>
      if starts_with myself (get_fullname info) then None
      else
        match property (bstr "session") (get_properties info), get_addresses info with
        | Some token, ip :: _ => Some (mkDiscoveredPeer token (mkSocketAddr ip (get_port info)) (get_fullname info))
        | _, _ => None
        end
  | _ => None
  end.

(** What the channel carries for a run of events, while it is read. *)
Definition browse_peers (d : MdnsDiscovery) (events : list ServiceEvent) : P2pResult (list DiscoveredPeer) :=
  if daemon_browse (service_type d) then Ok (omap (browse_step (instance_name d)) events) else Err P2pError.Io.

(** ** NAT traversal *)

Record NatManager := mkNat { public_addr : option SocketAddr; upnp_mapped : bool }.

Definition try_upnp (local_port : Z) : P2pResult SocketAddr :=
  let? gateway := ok_or search_gateway P2pError.Io in
  let? ifs := ok_or get_if_addrs P2pError.Io in
  let? local_addr := ok_or (first_v4 ifs) P2pError.InvalidMessage in
  match local_addr with
  | V6 _ => Err P2pError.InvalidMessage
  | V4 _ _ _ _ =>
      let? ext_port := ok_or (add_any_port gateway (mkSocketAddr local_addr local_port)) P2pError.Io in
      Ok (mkSocketAddr (default local_addr (get_external_ip gateway)) ext_port)
  end.

Definition try_stun : P2pResult SocketAddr := Err P2pError.InvalidMessage.

Definition NatManager_new (local_port : Z) : NatManager :=
  let manager := match try_upnp local_port with
                 | Ok mapped => mkNat (Some mapped) true
                 | _ => mkNat None false
                 end in
  match public_addr manager with
  | Some _ => manager
  | None =>
      match try_stun with
      | Ok stun => mkNat (Some (mkSocketAddr (sa_ip stun) local_port)) (upnp_mapped manager)
      | _ => manager
      end
  end.

(** ** The node's share *)

Record NodeNet := mkNodeNet { nn_discovery : option MdnsDiscovery; nn_nat : option NatManager }.

(** The end of [P2pNode::new]; [local] is [listener.local_addr()]. *)
Definition network_setup (enable_mdns : bool) (local : option SocketAddr) (bind : SocketAddr) (name : option bytes)
    : IO P2pError.t NodeNet :=
  if enable_mdns then
    let* l := io_res (ok_or local P2pError.Io) in
    let nat := NatManager_new (sa_port l) in
    let discover_addr := default (default bind local) (public_addr nat) in
    let* d := MdnsDiscovery_new discover_addr name in
    io_ret (mkNodeNet (Some d) (Some nat))
  else io_ret (mkNodeNet None None).

Definition node_browse_peers (n : NodeNet) (events : list ServiceEvent) : P2pResult (list DiscoveredPeer) :=
  match nn_discovery n with
  | Some d => browse_peers d events
  | None => Err P2pError.InvalidMessage
  end.

Definition node_public_addr (n : NodeNet) : option SocketAddr := match nn_nat n with Some m => public_addr m | None => None end.

End Mdns.

(** ** From announcements to connections *)

(** A service as another node resolves it. *)
Definition resolution {N : Lan} (i : ServiceInfo) : ServiceEvent :=
  ServiceResolved (mkResolved (fullname i) (si_properties i) [si_ip i] (si_port i)).

Definition as_discovered (connect : SocketAddr -> option Peer) (p : DiscoveredPeer) : Discovered :=
  mkDiscovered (session_token p) (dp_addr p) connect.

(** What a dialled peer was announced with. *)
Definition announced_by_other (d : MdnsDiscovery) (events : list ServiceEvent) (x : Discovered) : Prop :=
  exists info ip ips, ServiceResolved info ∈ events /\ starts_with (instance_name d) (get_fullname info) = false /\
    property (bstr "session") (get_properties info) = Some (d_token x) /\ get_addresses info = ip :: ips /\
    d_addr x = mkSocketAddr ip (get_port info).

Section DiscoveryProperties.
Context {N : Lan} {NL : LanLaws N}.

Lemma mdns_new_run addr name env c d c' : MdnsDiscovery_new addr name env c = (Ok d, c') ->
  instance_name d = si_instance (registered d) /\ service_type d = SIBNA_SERVICE_TYPE /\
  si_ip (registered d) = advertised_ip (sa_ip addr) /\ si_port (registered d) = sa_port addr /\
  exists token, length token = SESSION_TOKEN_LEN /\ instance_name d = instance_of name (hex_encode token) /\
    property (bstr "session") (si_properties (registered d)) = Some (hex_encode token).
Proof.
  unfold MdnsDiscovery_new, io_bind, io_res, ensure. destruct daemon_new; [|done].
  destruct (os_bytes (E := P2pError.t) SESSION_TOKEN_LEN env c) as [[token|e|] c1] eqn:Eo; [|done..].
  assert (Ht : length token = SESSION_TOKEN_LEN).
  { unfold os_bytes in Eo. by injection Eo as <- _. }
  destruct (service_info_ok _); [|done]. destruct (daemon_register _); [|done]. intros Ed.
  apply io_ret_ok_inv in Ed as [-> _]. do 4 (split; [done|]). by exists token.
Qed.

(** A node does not find itself. *)
Lemma own_service_ignored addr name env c d c' : MdnsDiscovery_new addr name env c = (Ok d, c') ->
  browse_step (instance_name d) (resolution (registered d)) = None.
Proof.
  intros E. apply mdns_new_run in E as (Hi & _). cbn [resolution browse_step get_fullname].
  destruct (fullname_instance (registered d)) as [rest ->]. rewrite Hi. by rewrite starts_with_app.
Qed.

Lemma browse_step_inv d e p events connect : e ∈ events -> browse_step (instance_name d) e = Some p ->
  announced_by_other d events (as_discovered connect p).
Proof.
  intros He. destruct e as [info| |]; [|done..]. cbn [browse_step]. destruct (starts_with _ _) eqn:Es; [done|].
  destruct (property _ _) as [token|] eqn:Et; [|done]. destruct (get_addresses info) as [|ip ips] eqn:Ea; [done|]. intros [= <-].
  by exists info, ip, ips.
Qed.

(** What discovery dials.  Whatever the daemon reports, the router dials
    only addresses that another instance announced together with a session token
    and that pass the address check, dials no token twice, keeps at most 500
    peers and loses none; and a node's own announcement, echoed any number of
    times, is never dialled. *)
Theorem discovery_dials_only_others addr name env0 c0 d c0' events connect env r c :
  MdnsDiscovery_new addr name env0 c0 = (Ok d, c0') -> daemon_browse (service_type d) = true -> within_cap r ->
  exists peers dialled r', browse_peers d events = Ok peers /\
    discovery_loop (as_discovered connect <$> peers) ∅ env r c = (Ok dialled, r', c) /\
    Forall (fun x => announced_by_other d events x /\ is_valid_peer_addr (d_addr x) = true) dialled /\
    base.NoDup (map d_token dialled) /\ within_cap r' /\ active_peers r ⊆ active_peers r' /\
    (Forall (eq (resolution (registered d))) events -> dialled = [] /\ r' = r).
Proof.
  intros Ed Hb Hc. unfold browse_peers. rewrite Hb. eexists _. set (peers := omap _ events).
  destruct (discovery_loop_run (as_discovered connect <$> peers) env ∅ r c Hc) as (ds & r' & E & Hc' & Hs & Hsub & Hall & Hnd).
  exists ds, r'. split; [reflexivity|]. split; [exact E|]. split; [|split; [done|split; [done|split; [done|]]]].
  - apply Forall_forall. intros x Hx. rewrite Forall_forall in Hall. split; [|by apply Hall].
    assert (Hin : x ∈ as_discovered connect <$> peers) by (by eapply sublist_subseteq).
    apply list_elem_of_fmap in Hin as (p & -> & Hp). apply list_elem_of_omap in Hp as (e & He & Ep). by eapply browse_step_inv.
  - intros He. assert (peers = []) as Hp.
    { subst peers. clear -He Ed NL. induction He as [|e l <- _ IH]; [done|]. cbn [omap list_omap]. by rewrite (own_service_ignored _ _ _ _ _ _ Ed). }
    rewrite Hp in E. cbn in E. unfold ret in E. by injection E as <- <-.
Qed.

End DiscoveryProperties.

(** An announced node is connected to.  When one node's setup succeeds and
    another, which browses, resolves its service: the second finds exactly that
    node, under its random token, and dials the address the first advertised
    (its own, or for a wildcard that of its first IPv4 interface) if it passes
    the address check; the connection then is in the router's table.  The
    token is fresh and not derived from the node's keys. *)
Theorem announced_node_is_connected {NA NB : Lan} addr name env c dA c' dB peer connect env2 r c2 :
  MdnsDiscovery_new (N := NA) addr name env c = (Ok dA, c') ->
  daemon_browse (Lan := NB) (service_type dB) = true ->
  starts_with (instance_name dB) (fullname (Lan := NA) (registered dA)) = false ->
  let target := mkSocketAddr (advertised_ip (N := NA) (sa_ip addr)) (sa_port addr) in
  is_valid_peer_addr target = true -> Z.of_nat (size (active_peers r)) < MAX_ACTIVE_PEERS ->
  connect target = Some peer -> active_peers r !! peer_id_bytes peer = None ->
  exists p r', browse_peers (N := NB) dB [resolution (N := NA) (registered dA)] = Ok [p] /\ dp_addr p = target /\
    (exists token, length token = SESSION_TOKEN_LEN /\ session_token p = hex_encode token) /\
    discovery_loop [as_discovered connect p] ∅ env2 r c2 = (Ok [as_discovered connect p], r', c2) /\
    active_peers r' !! peer_id_bytes peer = Some peer.
Proof.
  intros Ed Hb Hs target Hv Hc Hk Hn. apply mdns_new_run in Ed as (_ & _ & Hip & Hport & token & Ht & _ & Hp).
  unfold browse_peers. rewrite Hb. cbn [omap list_omap resolution browse_step get_fullname get_properties get_addresses get_port].
  rewrite Hs, Hp, Hip, Hport. fold target. eexists _, _. split; [reflexivity|]. split; [reflexivity|].
  split; [by exists token|]. cbn [discovery_loop as_discovered d_token d_addr d_connect session_token dp_addr].
  unfold discovery_step, bind, get. rewrite Hv. cbn [negb].
  destruct (Z.leb_spec MAX_ACTIVE_PEERS (Z.of_nat (size (active_peers r)))); [lia|].
  rewrite bool_decide_eq_false_2 by set_solver. rewrite Hk. unfold modify, ret. split; [reflexivity|]. rewrite Hn. apply lookup_insert_eq.
Qed.

(** A node without an IPv4 interface and without a gateway announces the
    wildcard address it listens on, which no router dials. *)
Lemma wildcard_is_not_dialled {N : Lan} addr name env c d c' : MdnsDiscovery_new addr name env c = (Ok d, c') ->
  is_unspecified (sa_ip addr) = true -> get_if_addrs = Some [] ->
  is_valid_peer_addr (mkSocketAddr (si_ip (registered d)) (si_port (registered d))) = false.
Proof.
  intros E Hu Hi. apply mdns_new_run in E as (_ & _ & -> & -> & _). unfold advertised_ip. rewrite Hu, Hi. cbn [first_v4 find option_map default from_option].
  unfold is_valid_peer_addr. cbn [sa_ip sa_port]. rewrite Hu. cbn. by rewrite andb_false_r.
Qed.

(** The address of a node is the one the gateway mapped, or none: looking for it
    through STUN always fails. *)
Lemma public_addr_is_mapped {N : Lan} port :
  NatManager_new port = match try_upnp port with Ok a => mkNat (Some a) true | _ => mkNat None false end.
Proof. unfold NatManager_new. by destruct (try_upnp port). Qed.

(** ** Witnesses *)

Definition demo_lan : Lan := {|
  daemon_new := true;
  service_info_ok _ := true;
  daemon_register _ := true;
  daemon_browse _ := true;
  fullname i := si_instance i ++ bstr "." ++ si_type i;
  get_if_addrs := Some [mkInterface true (V4 127 0 0 1); mkInterface false (V6 [65152; 0; 0; 0; 0; 0; 0; 1]); mkInterface false (V4 192 168 1 5)];
  search_gateway := None
|}.

Lemma demo_lan_laws : LanLaws demo_lan.
Proof. split. intros i. by eexists. Qed.

Definition demo_wild : SocketAddr := mkSocketAddr (V4 0 0 0 0) 4000.

Definition demo_mdns (name : bytes) : MdnsDiscovery :=
  match MdnsDiscovery_new (N := demo_lan) demo_wild (Some name) demo_env1 ctr0 with
  | (Ok d, _) => d
  | _ => mkMdns [] [] (mkServiceInfo [] [] [] (V6 []) 0 [])
  end.

Lemma demo_mdns_run name : exists c, MdnsDiscovery_new (N := demo_lan) demo_wild (Some name) demo_env1 ctr0 = (Ok (demo_mdns name), c).
Proof. eexists. unfold demo_mdns. vm_compute. reflexivity. Qed.

Definition demo_router : HybridRouter := mkRouter (demo_ctx ∅ []) None ∅ false None.

(** One foreign announcement and two echoes. *)
Lemma discovery_dials_only_others_witness :
  let alice := demo_mdns (bstr "alice") in
  exists peers dialled r',
    browse_peers (N := demo_lan) alice [resolution (N := demo_lan) (registered alice); resolution (N := demo_lan) (registered (demo_mdns (bstr "bob")));
      resolution (N := demo_lan) (registered alice)] = Ok peers /\ length peers = 1%nat /\
    discovery_loop (as_discovered (fun _ => None) <$> peers) ∅ demo_env1 demo_router ctr0 = (Ok dialled, r', ctr0) /\
    Forall (fun x => is_valid_peer_addr (d_addr x) = true) dialled.
Proof.
  intros alice. destruct (demo_mdns_run (bstr "alice")) as [c E].
  destruct (discovery_dials_only_others (N := demo_lan) (NL := demo_lan_laws) demo_wild (Some (bstr "alice")) demo_env1 ctr0 alice c
    [resolution (N := demo_lan) (registered alice); resolution (N := demo_lan) (registered (demo_mdns (bstr "bob"))); resolution (N := demo_lan) (registered alice)]
    (fun _ => None) demo_env1 demo_router ctr0) as (peers & ds & r' & E1 & E2 & Hall & _); [exact E | reflexivity | vm_compute; discriminate |].
  exists peers, ds, r'. split; [exact E1|]. split; [|split; [exact E2 | eapply Forall_impl; [exact Hall|]; intros x [_ Hx]; exact Hx]].
  clear -E1. revert E1. vm_compute. intros E1. injection E1 as <-. reflexivity.
Defined.

Lemma announced_node_is_connected_witness :
  let bob := mkPeer (bstr "bob") (wrap_stream MAX_FRAME_BYTES) (mkSession (mkState [] None None None [] None None ∅ 0 0 0 0 0 0 0) Config_default [] None 0) "192.168.1.5:4000" in
  exists p r', browse_peers (N := demo_lan) (demo_mdns (bstr "alice")) [resolution (N := demo_lan) (registered (demo_mdns (bstr "bob")))] = Ok [p] /\
    dp_addr p = mkSocketAddr (V4 192 168 1 5) 4000 /\
    discovery_loop [as_discovered (fun _ => Some bob) p] ∅ demo_env1 demo_router ctr0 = (Ok [as_discovered (fun _ => Some bob) p], r', ctr0) /\
    active_peers r' !! bstr "bob" = Some bob.
Proof.
  intros bob. destruct (demo_mdns_run (bstr "bob")) as [c E].
  destruct (announced_node_is_connected (NA := demo_lan) (NB := demo_lan) demo_wild (Some (bstr "bob")) demo_env1 ctr0 (demo_mdns (bstr "bob")) c
    (demo_mdns (bstr "alice")) bob (fun _ => Some bob) demo_env1 demo_router ctr0) as (p & r' & E1 & E2 & _ & E3 & E4);
    [exact E | reflexivity | vm_compute; reflexivity | reflexivity | vm_compute; reflexivity | reflexivity | reflexivity |].
  exists p, r'. split; [exact E1|]. split; [exact E2|]. split; [exact E3 | exact E4].
Defined.
