(* ===== verification/Metrics.v ===== *)
(** * Handshake statistics ([HandshakeMetrics] of [core/src/handshake/mod.rs])

    The counters at their width, and [f64] as binary floating-point numbers of
    53 bits of precision with rounding to the nearest, ties to even. *)

From Stdlib Require Import Floats.SpecFloat.
From S2P Require Import Prelude Effects Errors.
#[local] Open Scope Z_scope.
#[local] Open Scope sibna_scope.

(** ** [f64] *)

Definition f64 : Type := spec_float.
Definition f64_add : f64 -> f64 -> f64 := SFadd 53 1024.
Definition f64_mul : f64 -> f64 -> f64 := SFmul 53 1024.
Definition f64_div : f64 -> f64 -> f64 := SFdiv 53 1024.
Definition f64_zero : f64 := S754_zero false.

(** [n as f64]. *)
Definition f64_of (n : Z) : f64 := binary_normalize 53 1024 n 0 false.

(** ** The statistics *)

Record HandshakeMetrics := mkMetrics { successful : Z; hm_failed : Z; avg_time_ms : f64; total : Z }.

Definition HandshakeMetrics_default : HandshakeMetrics := mkMetrics 0 0 f64_zero 0.

Abbreviation HM := (M HandshakeMetrics ProtocolError.t).

Definition record_success (duration_ms : f64) : HM unit :=
  let! m := get in
  let! n := res (or_panic (u_add U64_MAX (successful m) 1)) in
  let! _ := put (mkMetrics n (hm_failed m) (avg_time_ms m) (total m)) in
  let! t := res (or_panic (u_add U64_MAX (total m) 1)) in
  put (mkMetrics n (hm_failed m)
         (f64_div (f64_add (f64_mul (avg_time_ms m) (f64_of (t - 1))) duration_ms) (f64_of t)) t).

Definition record_failure : HM unit :=
  let! m := get in
  let! n := res (or_panic (u_add U64_MAX (hm_failed m) 1)) in
  let! _ := put (mkMetrics (successful m) n (avg_time_ms m) (total m)) in
  let! t := res (or_panic (u_add U64_MAX (total m) 1)) in
  put (mkMetrics (successful m) n (avg_time_ms m) t).

Definition success_rate (m : HandshakeMetrics) : f64 :=
  if total m =? 0 then f64_zero else f64_div (f64_of (successful m)) (f64_of (total m)).

(** ** Properties *)

(** What happened: a success and its duration, or a failure. *)
Definition record (o : option f64) : HM unit := match o with Some d => record_success d | None => record_failure end.

Fixpoint record_all (l : list (option f64)) : HM unit :=
  match l with [] => ret tt | o :: l => let! _ := record o in record_all l end.

Definition successes (l : list (option f64)) : Z := Z.of_nat (length (omap id l)).

(** The counters count, as long as they fit; only then does recording panic. *)
Lemma record_counts o env m c :
  total m = successful m + hm_failed m -> 0 <= successful m -> 0 <= hm_failed m -> total m < U64_MAX ->
  exists m', record o env m c = (Ok tt, m', c) /\ total m' = total m + 1 /\ total m' = successful m' + hm_failed m' /\
    successful m' = successful m + (match o with Some _ => 1 | None => 0 end) /\ hm_failed m' = hm_failed m + (match o with Some _ => 0 | None => 1 end).
Proof.
  intros Ht Hs Hf Hm. destruct o; unfold record, record_success, record_failure, bind, get, put, res, u_add.
  1: destruct (Z.leb_spec (successful m + 1) U64_MAX); [|lia].
  2: destruct (Z.leb_spec (hm_failed m + 1) U64_MAX); [|lia].
  all: cbn [or_panic]; destruct (Z.leb_spec (total m + 1) U64_MAX); [|lia]; cbn [or_panic];
    eexists; (split; [reflexivity|]); cbn [total successful hm_failed]; lia.
Qed.

Lemma record_all_counts l env : forall m c,
  total m = successful m + hm_failed m -> 0 <= successful m -> 0 <= hm_failed m -> total m + Z.of_nat (length l) <= U64_MAX ->
  exists m', record_all l env m c = (Ok tt, m', c) /\ total m' = total m + Z.of_nat (length l) /\
    successful m' = successful m + successes l /\ hm_failed m' = hm_failed m + (Z.of_nat (length l) - successes l).
Proof.
  induction l as [|o l IH]; intros m c Ht Hs Hf Hm; cbn [record_all].
  { exists m. unfold successes. cbn. split; [done|]. lia. }
  cbn [length] in Hm. destruct (record_counts o env m c Ht Hs Hf) as (m1 & E & Ht1 & Hsum & Hs1 & Hf1); [lia|].
  rewrite (bind_ok _ _ _ _ _ _ _ _ E). destruct (IH m1 c Hsum) as (m2 & E2 & Ht2 & Hs2 & Hf2); [destruct o; lia..|lia|].
  exists m2. split; [exact E2|]. unfold successes in *. cbn [length omap list_omap id]. destruct o; cbn [length]; lia.
Qed.

(** The average after successes alone is their average; a failure in between
    counts as if it had taken the average so far: 100 ms and 400 ms have the
    average 250 ms, with a failure between them 200 ms. *)
Example average_of_successes :
  avg_time_ms (snd (fst (record_all [Some (f64_of 100); Some (f64_of 400)] (mkEnv (fun _ => None) (fun _ => 0) (fun _ => x00) 0)
    HandshakeMetrics_default ctr0))) = f64_of 250.
Proof. vm_compute. reflexivity. Qed.

Example failure_skews_average :
  avg_time_ms (snd (fst (record_all [Some (f64_of 100); None; Some (f64_of 400)] (mkEnv (fun _ => None) (fun _ => 0) (fun _ => x00) 0)
    HandshakeMetrics_default ctr0))) = f64_of 200.
Proof. vm_compute. reflexivity. Qed.
